(** * Gopher2600: cartridge mappers, fingerprinting, hand controllers,
      TIA horizontal timing, delayed actions and the VCS step loop

    A shallow embedding of the parts of the emulator that the timing and
    bank-switching properties depend on.  Machine integers are [Z] with the
    wrap-around written out, byte slices are [list Z], a Go run-time panic
    (index out of range, explicit [panic]) is [None], and a returned Go
    [error] is a value of an error type. *)

From Stdlib Require Import String Ascii ZArith Lia Bool List SpecFloat.
From stdpp Require Import base list.
Import ListNotations.

Local Open Scope Z_scope.

(** ** Shared helpers *)

(** Go slice indexing [b[i]]: a panic outside [0 <= i < len(b)]. *)
Definition idx {A : Type} (l : list A) (i : Z) : option A :=
  if i <? 0 then None else l !! Z.to_nat i.

(** Go slice store [b[i] = x], same panic. *)
Definition store {A : Type} (l : list A) (i : Z) (x : A) : option (list A) :=
  if (0 <=? i) && (i <? Z.of_nat (length l)) then Some (<[Z.to_nat i := x]> l)
  else None.

(** Go's [len] as an [int]. *)
Definition len {A : Type} (l : list A) : Z := Z.of_nat (length l).

(** uint8 arithmetic. *)
Definition u8 (x : Z) : Z := x mod 256.

(** The error kinds of the [errors] package that the embedded code raises. *)
Inductive errno :=
| CartridgeError
| CartridgePatchOOB
| MemoryBusError
| BadInputEventType
| InputDeviceUnplugged
| UnknownInputEvent
| RecorderError.

(** ** The Parker Bros (E0) mapper: mapper_parkerbros.go *)

Module ParkerBros.

Record parkerBros := mkCart {
  bankSize : Z;
  banks : list (list Z);
  (* [4]int: the bank each of the four 1k segments points to *)
  segment : list Z
}.

Definition NumBanks : Z := 8.

Definition set_segment (cart : parkerBros) (i : nat) (b : Z) : parkerBros :=
  mkCart (bankSize cart) (banks cart) (<[i := b]> (segment cart)).

Definition Initialise (cart : parkerBros) : parkerBros :=
  set_segment (set_segment (set_segment (set_segment cart
    0 (NumBanks - 4)) 1 (NumBanks - 3)) 2 (NumBanks - 2)) 3 (NumBanks - 1).

(** [data[offset:offset+n]] for an in-range slice. *)
Definition slice (data : list Z) (offset n : Z) : list Z :=
  take (Z.to_nat n) (drop (Z.to_nat offset) data).

Definition newParkerBros (data : list Z) : errno + parkerBros :=
  let bs := 1024 in
  if negb (len data =? bs * NumBanks) then inl CartridgeError
  else
    let bks := map (fun k => slice data (Z.of_nat k * bs) bs)
                   (seq 0 (Z.to_nat NumBanks)) in
    inr (Initialise (mkCart bs bks [0; 0; 0; 0])).

(** bankswitch on hotspot access *)
Definition hotspot (cart : parkerBros) (addr : Z) (passive : bool)
  : bool * parkerBros :=
  if (0xfe0 <=? addr) && (addr <=? 0xff7) then
    if passive then (true, cart)
    else
      (true,
       match addr with
       (* segment 0 *)
       | 0x0fe0 => set_segment cart 0 0
       | 0x0fe1 => set_segment cart 0 1
       | 0x0fe2 => set_segment cart 0 2
       | 0x0fe3 => set_segment cart 0 3
       | 0x0fe4 => set_segment cart 0 4
       | 0x0fe5 => set_segment cart 0 5
       | 0x0fe6 => set_segment cart 0 6
       | 0x0fe7 => set_segment cart 0 7
       (* segment 1 *)
       | 0x0fe8 => set_segment cart 1 0
       | 0x0fe9 => set_segment cart 1 1
       | 0x0fea => set_segment cart 1 2
       | 0x0feb => set_segment cart 1 3
       | 0x0fec => set_segment cart 1 4
       | 0x0fed => set_segment cart 1 5
       | 0x0fee => set_segment cart 1 6
       | 0x0fef => set_segment cart 1 7
       (* segment 2 *)
       | 0x0ff0 => set_segment cart 2 0
       | 0x0ff1 => set_segment cart 2 1
       | 0x0ff2 => set_segment cart 2 2
       | 0x0ff3 => set_segment cart 2 3
       | 0x0ff4 => set_segment cart 2 4
       | 0x0ff5 => set_segment cart 2 5
       | 0x0ff6 => set_segment cart 2 6
       | 0x0ff7 => set_segment cart 2 7
       | _ => cart
       end)
  else (false, cart).

(** [cart.banks[cart.segment[s]][addr&0x03ff]] *)
Definition bank_byte (cart : parkerBros) (s : Z) (addr : Z) : option Z :=
  match idx (segment cart) s with
  | None => None
  | Some b =>
      match idx (banks cart) b with
      | None => None
      | Some bk => idx bk (Z.land addr 0x03ff)
      end
  end.

(** Read: the data byte and the mapper afterwards; the returned error is
    always nil. *)
Definition Read (cart : parkerBros) (addr : Z) (passive : bool)
  : option (Z * parkerBros) :=
  let '(hs, cart') := hotspot cart addr passive in
  if hs then Some (0, cart')
  else if (0x0000 <=? addr) && (addr <=? 0x03ff) then
    match bank_byte cart' 0 addr with Some d => Some (d, cart') | None => None end
  else if (0x0400 <=? addr) && (addr <=? 0x07ff) then
    match bank_byte cart' 1 addr with Some d => Some (d, cart') | None => None end
  else if (0x0800 <=? addr) && (addr <=? 0x0bff) then
    match bank_byte cart' 2 addr with Some d => Some (d, cart') | None => None end
  else if (0x0c00 <=? addr) && (addr <=? 0x0fff) then
    match bank_byte cart' 3 addr with Some d => Some (d, cart') | None => None end
  else Some (0, cart').

(** [cart.banks[cart.segment[s]][addr&0x3dd] = data] *)
Definition poke_byte (cart : parkerBros) (s : Z) (addr data : Z)
  : option parkerBros :=
  match idx (segment cart) s with
  | None => None
  | Some b =>
      match idx (banks cart) b with
      | None => None
      | Some bk =>
          match store bk (Z.land addr 0x3dd) data with
          | None => None
          | Some bk' =>
              Some (mkCart (bankSize cart)
                           (<[Z.to_nat b := bk']> (banks cart))
                           (segment cart))
          end
      end
  end.

(** Write: the returned error ([None] for nil) and the mapper afterwards. *)
Definition Write (cart : parkerBros) (addr data : Z) (passive poke : bool)
  : option (option errno * parkerBros) :=
  let '(hs, cart') := hotspot cart addr passive in
  if hs then Some (None, cart')
  else
    let poked :=
      if poke then
        if (0x0000 <=? addr) && (addr <=? 0x03ff) then poke_byte cart' 0 addr data
        else if (0x0400 <=? addr) && (addr <=? 0x07ff) then poke_byte cart' 1 addr data
        else if (0x0800 <=? addr) && (addr <=? 0x0bff) then poke_byte cart' 2 addr data
        else if (0x0c00 <=? addr) && (addr <=? 0x0fff) then poke_byte cart' 3 addr data
        else Some cart'
      else Some cart' in
    match poked with
    | None => None
    | Some c => Some (Some MemoryBusError, c)
    end.

(** A run of reads, threading the mapper through; the bytes read in order. *)
Fixpoint reads (cart : parkerBros) (accesses : list (Z * bool))
  : option (list Z * parkerBros) :=
  match accesses with
  | [] => Some ([], cart)
  | (addr, passive) :: rest =>
      match Read cart addr passive with
      | None => None
      | Some (d, cart') =>
          match reads cart' rest with
          | None => None
          | Some (ds, cart'') => Some (d :: ds, cart'')
          end
      end
  end.

(** The shape every mapper built by [newParkerBros] has and every operation
    keeps: eight banks of 1024 bytes and four segment slots. *)
Definition well_formed (cart : parkerBros) : Prop :=
  length (banks cart) = 8%nat /\
  Forall (fun bk => length bk = 1024%nat) (banks cart) /\
  length (segment cart) = 4%nat.

(** [banks.Details]: what [GetBank] reports for an address. *)
Record Details := mkDetails { Number : Z; IsRAM : bool; Segment : Z }.

(** GetBank implements the cartMapper interface *)
Definition GetBank (cart : parkerBros) (addr : Z) : option Details :=
  let seg :=
    if (0x0000 <=? addr) && (addr <=? 0x03ff) then 0
    else if (0x0400 <=? addr) && (addr <=? 0x07ff) then 1
    else if (0x0800 <=? addr) && (addr <=? 0x0bff) then 2
    else 3 in
  match idx (segment cart) seg with
  | Some n => Some (mkDetails n false seg)
  | None => None
  end.

(** Patch implements the cartMapper interface: the returned error and the
    mapper afterwards.  Go's [/] and [%] on [int] truncate towards zero and
    panic on a zero divisor. *)
Definition Patch (cart : parkerBros) (offset data : Z)
  : option (option errno * parkerBros) :=
  if offset >=? bankSize cart * len (banks cart) then
    Some (Some CartridgePatchOOB, cart)
  else if bankSize cart =? 0 then None
  else
    let bank := Z.quot offset (bankSize cart) in
    let offset := Z.rem offset (bankSize cart) in
    match idx (banks cart) bank with
    | None => None
    | Some bk =>
        match store bk offset data with
        | None => None
        | Some bk' =>
            Some (None, mkCart (bankSize cart)
                               (<[Z.to_nat bank := bk']> (banks cart))
                               (segment cart))
        end
    end.

(** One access of the cartridge bus. *)
Inductive access :=
| ARead (addr : Z) (passive : bool)
| AWrite (addr data : Z) (passive poke : bool).

(** The address of an access, a [uint16]. *)
Definition access_addr (a : access) : Z :=
  match a with
  | ARead addr _ => addr
  | AWrite addr _ _ _ => addr
  end.

(** A run of accesses; [None] is a panic. *)
Fixpoint run (cart : parkerBros) (accesses : list access) : option parkerBros :=
  match accesses with
  | [] => Some cart
  | ARead addr passive :: rest =>
      match Read cart addr passive with
      | Some (_, cart') => run cart' rest
      | None => None
      end
  | AWrite addr data passive poke :: rest =>
      match Write cart addr data passive poke with
      | Some (_, cart') => run cart' rest
      | None => None
      end
  end.

End ParkerBros.

(** ** Cartridge fingerprinting *)

Module Cartridge.

(** The mapper constructor that [fingerprint] selects.  The constructors
    themselves ([newTigervision], [harmony.NewDPCplus], ...) validate sizes of
    their own and are not part of this development; the selection is. *)
Inductive mapper :=
| DPCplus | Supercharger | M3ePlus
| Atari2k | Atari4k | Atari8k | Atari16k | Atari32k
| Tigervision | ParkerBros | Mnetwork | DPC | CBS.

(** Go's short-circuit [&&] over operands that may panic: the right operand
    is evaluated only when the left one is true. *)
Definition and_then (x y : option bool) : option bool :=
  match x with
  | Some true => y
  | Some false => Some false
  | None => None
  end.

Infix "&&&" := and_then (at level 40, left associativity).

(** [b[i] == v] *)
Definition byte_is (b : list Z) (i v : Z) : option bool :=
  match idx b i with
  | Some x => Some (x =? v)
  | None => None
  end.

(** The body of the [for i := range b] loop of [fingerprint3ePlus]; [n] is
    the number of iterations still to run. *)
Fixpoint loop3ePlus (b : list Z) (n : nat) (i threshold3e threshold3f : Z)
  : option bool :=
  match n with
  | O => Some false
  | S n' =>
      match byte_is b i 0x85 &&& byte_is b (i + 1) 0x3e with
      | None => None
      | Some c3e =>
          let threshold3e := if c3e then threshold3e - 1 else threshold3e in
          match byte_is b i 0x85 &&& byte_is b (i + 1) 0x3f with
          | None => None
          | Some c3f =>
              let threshold3f := if c3f then threshold3f - 1 else threshold3f in
              if (threshold3e <=? 0) && (threshold3f <=? 0) then Some true
              else loop3ePlus b n' (i + 1) threshold3e threshold3f
          end
      end
  end.

Definition fingerprint3ePlus (b : list Z) : option bool :=
  loop3ePlus b (length b) 0 5 5.

(** [for i := 0; i < len(b)-3; i++] *)
Fixpoint loopMnetwork (b : list Z) (n : nat) (i threshold : Z) : option bool :=
  match n with
  | O => Some false
  | S n' =>
      match byte_is b i 0x7e &&& byte_is b (i + 1) 0x66
            &&& byte_is b (i + 2) 0x66 &&& byte_is b (i + 3) 0x66 with
      | None => None
      | Some c =>
          let threshold := if c then threshold - 1 else threshold in
          if threshold =? 0 then Some true
          else loopMnetwork b n' (i + 1) threshold
      end
  end.

Definition fingerprintMnetwork (b : list Z) : option bool :=
  loopMnetwork b (Z.to_nat (len b - 3)) 0 2.

(** Go's short-circuit [||]. *)
Definition or_else (x y : option bool) : option bool :=
  match x with
  | Some true => Some true
  | Some false => y
  | None => None
  end.

Infix "|||" := or_else (at level 50, left associativity).

Definition triple (b : list Z) (i x y z : Z) : option bool :=
  byte_is b i x &&& byte_is b (i + 1) y &&& byte_is b (i + 2) z.

(** [for i := 0; i <= len(b)-3; i++] *)
Fixpoint loopParkerBros (b : list Z) (n : nat) (i : Z) : option bool :=
  match n with
  | O => Some false
  | S n' =>
      match triple b i 0x8d 0xe0 0x1f ||| triple b i 0x8d 0xe0 0x5f
            ||| triple b i 0x8d 0xe9 0xff ||| triple b i 0x0c 0xe0 0x1f
            ||| triple b i 0xad 0xe0 0x1f ||| triple b i 0xad 0xe9 0xff
            ||| triple b i 0xad 0xed 0xff ||| triple b i 0xad 0xf3 0xbf with
      | None => None
      | Some true => Some true
      | Some false => loopParkerBros b n' (i + 1)
      end
  end.

Definition fingerprintParkerBros (b : list Z) : option bool :=
  loopParkerBros b (Z.to_nat (len b - 2)) 0.

Definition fingerprintHarmony (b : list Z) : option bool :=
  byte_is b 0x20 0x1e &&& byte_is b 0x21 0xab
  &&& byte_is b 0x22 0xad &&& byte_is b 0x23 0x10.

Definition fingerprintSuperchargerFastLoad (b : list Z) : bool :=
  let l := len b in
  (l =? 8448) || (l =? 25344) || (l =? 33792).

(** [for i := 0; i < len(b)-1; i++] *)
Fixpoint loopTigervision (b : list Z) (n : nat) (i threshold : Z) : option bool :=
  match n with
  | O => Some false
  | S n' =>
      match byte_is b i 0x85 &&& byte_is b (i + 1) 0x3f with
      | None => None
      | Some c =>
          let threshold := if c then threshold - 1 else threshold in
          if threshold =? 0 then Some true
          else loopTigervision b n' (i + 1) threshold
      end
  end.

Definition fingerprintTigervision (b : list Z) : option bool :=
  loopTigervision b (Z.to_nat (len b - 1)) 0 5.

Definition fingerprint8k (data : list Z) : option mapper :=
  match fingerprintTigervision data with
  | None => None
  | Some true => Some Tigervision
  | Some false =>
      match fingerprintParkerBros data with
      | None => None
      | Some true => Some ParkerBros
      | Some false => Some Atari8k
      end
  end.

Definition fingerprint16k (data : list Z) : option mapper :=
  match fingerprintTigervision data with
  | None => None
  | Some true => Some Tigervision
  | Some false =>
      match fingerprintMnetwork data with
      | None => None
      | Some true => Some Mnetwork
      | Some false => Some Atari16k
      end
  end.

Definition fingerprint32k (data : list Z) : option mapper :=
  match fingerprintTigervision data with
  | None => None
  | Some true => Some Tigervision
  | Some false => Some Atari32k
  end.

Definition chosen (m : option mapper) : option (errno + mapper) :=
  match m with
  | None => None
  | Some k => Some (inr k)
  end.

(** [Cartridge.fingerprint]: [None] is a run-time panic, [inl] the typed
    error for a size that is not recognised, [inr] the mapper constructor
    that is applied to the image. *)
Definition fingerprint (data : list Z) : option (errno + mapper) :=
  match fingerprintHarmony data with
  | None => None
  | Some true => Some (inr DPCplus)
  | Some false =>
      if fingerprintSuperchargerFastLoad data then Some (inr Supercharger)
      else
        match fingerprint3ePlus data with
        | None => None
        | Some true => Some (inr M3ePlus)
        | Some false =>
            match len data with
            | 2048 => Some (inr Atari2k)
            | 4096 => Some (inr Atari4k)
            | 8192 => chosen (fingerprint8k data)
            | 10240 | 10495 => Some (inr DPC)
            | 12288 => Some (inr CBS)
            | 16384 => chosen (fingerprint16k data)
            | 32768 => chosen (fingerprint32k data)
            | 65536 => Some (inl CartridgeError)
            | _ => Some (inl CartridgeError)
            end
        end
  end.

(** How often byte [x] is directly followed by byte [y] in [l]. *)
Fixpoint count_pair (x y : Z) (l : list Z) : Z :=
  match l with
  | a :: ((c :: _) as t) =>
      (if (a =? x) && (c =? y) then 1 else 0) + count_pair x y t
  | _ => 0
  end.

End Cartridge.

(** ** Hand controllers (package input) *)

Module Input.

(** IEEE-754 single precision, the [float32] of the paddle fields. *)
Definition float32 := spec_float.
Definition f32_add : float32 -> float32 -> float32 := SFadd 24 128.
Definition f32_sub : float32 -> float32 -> float32 := SFsub 24 128.
(** [x >= y] *)
Definition f32_ge (x y : float32) : bool := SFleb y x.

Definition f32_zero : float32 := S754_zero false.
Definition f32_one : float32 := S754_finite false 8388608 (-23).
Definition f32_half : float32 := S754_finite false 8388608 (-24).

(** The events of the input package that [Handle] switches on; every other
    event of the package (the panel's, for instance) is an [OtherEvent]. *)
Inductive Event :=
| NoEvent | Left | Right | Up | Down | Fire
| PaddleFire | PaddleSet | KeyboardDown | KeyboardUp | Unplug
| OtherEvent (n : nat).

(** [EventValue] is [interface{}]: the dynamic types a caller may pass. *)
Inductive EventValue :=
| VNil
| VBool (b : bool)
| VFloat32 (f : float32)
| VRune (r : Z)
| VString (s : list Z).

Inductive ControllerType := JoystickType | PaddleType | KeyboardType.

(** The chip registers the hand controllers drive. *)
Inductive ChipRegister := SWCHA | INPT0 | INPT1 | INPT4 | INPT5.

Definition ChipMemory := ChipRegister -> Z.

Definition reg_eqb (a b : ChipRegister) : bool :=
  match a, b with
  | SWCHA, SWCHA | INPT0, INPT0 | INPT1, INPT1
  | INPT4, INPT4 | INPT5, INPT5 => true
  | _, _ => false
  end.

(** Modelled from the spec: the chip memory's [InputDeviceWrite] is not
    among the sources.  It is the masked write of section 4.4: the bits
    selected by the mask are preserved, the others take the new data. *)
Definition InputDeviceWrite (area : ChipMemory) (reg : ChipRegister)
           (data preserveBits : Z) : ChipMemory :=
  fun r => if reg_eqb r reg then Z.lor data (Z.land (area reg) preserveBits)
           else area r.

Record inputMemory := mkMem { riot : ChipMemory; tia : ChipMemory }.

Record ControlBits := mkControl { latchFireButton : bool; groundPaddles : bool }.

Record stick := mkStick {
  axisReg : ChipRegister;
  stickButtonReg : ChipRegister;
  axis : Z;
  button : bool;
  transform : Z -> Z;
  addrMask : Z
}.

Record paddle := mkPaddle {
  puckReg : ChipRegister;
  paddleButtonReg : ChipRegister;
  buttonMask : Z;
  charge : Z;
  resistance : float32;
  ticks : float32
}.

Record keyboard := mkKeyboard { addr : ChipRegister; key : Z }.

(** The event recorder attached to a port: whether its [RecordEvent]
    returns an error for an event.  The recorder is an external
    collaborator; its errors are its own and surface as [RecorderError]. *)
Definition EventRecorder := Event -> EventValue -> bool.

Record HandController := mkHC {
  (* the embedded port *)
  id : Z;
  recorder : option EventRecorder;
  mem : inputMemory;
  control : ControlBits;
  which : ControllerType;
  hcStick : stick;
  hcPaddle : paddle;
  hcKeyboard : keyboard;
  ddr : Z
}.

Definition HandControllerZeroID : Z := 0.
Definition HandControllerOneID : Z := 1.

Definition NewHandController0 (m : inputMemory) (c : ControlBits) : HandController :=
  mkHC HandControllerZeroID None m c JoystickType
       (mkStick SWCHA INPT4 0xf0 false (fun n => n) 0x0f)
       (mkPaddle INPT0 SWCHA 0x7f 0 f32_zero f32_zero)
       (mkKeyboard INPT0 0)
       0x00.

Definition NewHandController1 (m : inputMemory) (c : ControlBits) : HandController :=
  mkHC HandControllerOneID None m c JoystickType
       (mkStick SWCHA INPT5 0xf0 false (fun n => Z.shiftr n 4) 0xf0)
       (mkPaddle INPT1 SWCHA 0xbf 0 f32_zero f32_zero)
       (mkKeyboard INPT1 0)
       0x00.

(** Field updates. *)
Definition set_which (hc : HandController) (w : ControllerType) :=
  mkHC (id hc) (recorder hc) (mem hc) (control hc) w
       (hcStick hc) (hcPaddle hc) (hcKeyboard hc) (ddr hc).
Definition set_mem (hc : HandController) (m : inputMemory) :=
  mkHC (id hc) (recorder hc) m (control hc) (which hc)
       (hcStick hc) (hcPaddle hc) (hcKeyboard hc) (ddr hc).
Definition set_stick (hc : HandController) (s : stick) :=
  mkHC (id hc) (recorder hc) (mem hc) (control hc) (which hc)
       s (hcPaddle hc) (hcKeyboard hc) (ddr hc).
Definition set_paddle (hc : HandController) (p : paddle) :=
  mkHC (id hc) (recorder hc) (mem hc) (control hc) (which hc)
       (hcStick hc) p (hcKeyboard hc) (ddr hc).
Definition set_keyboard (hc : HandController) (k : keyboard) :=
  mkHC (id hc) (recorder hc) (mem hc) (control hc) (which hc)
       (hcStick hc) (hcPaddle hc) k (ddr hc).

Definition set_axis (s : stick) (a : Z) :=
  mkStick (axisReg s) (stickButtonReg s) a (button s) (transform s) (addrMask s).
Definition set_button (s : stick) (b : bool) :=
  mkStick (axisReg s) (stickButtonReg s) (axis s) b (transform s) (addrMask s).
Definition set_charge (p : paddle) (c : Z) :=
  mkPaddle (puckReg p) (paddleButtonReg p) (buttonMask p) c (resistance p) (ticks p).
Definition set_resistance (p : paddle) (r : float32) :=
  mkPaddle (puckReg p) (paddleButtonReg p) (buttonMask p) (charge p) r (ticks p).
Definition set_ticks (p : paddle) (t : float32) :=
  mkPaddle (puckReg p) (paddleButtonReg p) (buttonMask p) (charge p) (resistance p) t.
Definition set_key (k : keyboard) (r : Z) := mkKeyboard (addr k) r.

Definition riot_write (hc : HandController) (reg : ChipRegister) (data mask : Z) :=
  set_mem hc (mkMem (InputDeviceWrite (riot (mem hc)) reg data mask) (tia (mem hc))).
Definition tia_write (hc : HandController) (reg : ChipRegister) (data mask : Z) :=
  set_mem hc (mkMem (riot (mem hc)) (InputDeviceWrite (tia (mem hc)) reg data mask)).

(** The joystick direction cases: toggle or set one axis bit, then write the
    transformed axis to the port register. *)
Definition handle_axis (hc : HandController) (b : bool) (bit : Z) : HandController :=
  let hc := set_which hc JoystickType in
  let a := if b then Z.lxor (axis (hcStick hc)) bit
           else Z.lor (axis (hcStick hc)) bit in
  let hc := set_stick hc (set_axis (hcStick hc) a) in
  riot_write hc (axisReg (hcStick hc))
             (transform (hcStick hc) (axis (hcStick hc)))
             (addrMask (hcStick hc)).

(** The runes of the keypad test. *)
Definition rune (c : ascii) : Z := Z.of_N (N_of_ascii c).

(** The tail of [Handle]: record the event with the recorder, if any. *)
Definition record_event (hc : HandController) (event : Event) (value : EventValue)
  : option errno * HandController :=
  match recorder hc with
  | Some rec => (if rec event value then Some RecorderError else None, hc)
  | None => (None, hc)
  end.

(** Handle implements the Port interface: the returned error ([None] is nil)
    and the controller afterwards. *)
Definition Handle (hc : HandController) (event : Event) (value : EventValue)
  : option errno * HandController :=
  match event with
  | NoEvent => (None, hc)
  | Left =>
      match value with
      | VBool b => record_event (handle_axis hc b 0x40) event value
      | _ => (Some BadInputEventType, hc)
      end
  | Right =>
      match value with
      | VBool b => record_event (handle_axis hc b 0x80) event value
      | _ => (Some BadInputEventType, hc)
      end
  | Up =>
      match value with
      | VBool b => record_event (handle_axis hc b 0x10) event value
      | _ => (Some BadInputEventType, hc)
      end
  | Down =>
      match value with
      | VBool b => record_event (handle_axis hc b 0x20) event value
      | _ => (Some BadInputEventType, hc)
      end
  | Fire =>
      match value with
      | VBool b =>
          let hc := set_which hc JoystickType in
          let hc := set_stick hc (set_button (hcStick hc) b) in
          let hc :=
            if button (hcStick hc) then
              tia_write hc (stickButtonReg (hcStick hc)) 0x00 0x00
            else if negb (latchFireButton (control hc)) then
              tia_write hc (stickButtonReg (hcStick hc)) 0x80 0x00
            else hc in
          record_event hc event value
      | _ => (Some BadInputEventType, hc)
      end
  | PaddleFire =>
      match value with
      | VBool b =>
          let hc := set_which hc PaddleType in
          let v := if b then 0x00 else 0xff in
          let hc := riot_write hc (paddleButtonReg (hcPaddle hc)) v
                               (buttonMask (hcPaddle hc)) in
          record_event hc event value
      | _ => (Some BadInputEventType, hc)
      end
  | PaddleSet =>
      match value with
      | VFloat32 f =>
          let hc := set_which hc PaddleType in
          let hc := set_paddle hc (set_resistance (hcPaddle hc) (f32_sub f32_one f)) in
          record_event hc event value
      | _ => (Some BadInputEventType, hc)
      end
  | KeyboardDown =>
      match value with
      | VRune v =>
          let hc := set_which hc KeyboardType in
          if negb (v =? rune "1"%char) && negb (v =? rune "2"%char) && negb (v =? rune "3"%char)
             && negb (v =? rune "4"%char) && negb (v =? rune "5"%char) && negb (v =? rune "6"%char)
             && negb (v =? rune "7"%char) && negb (v =? rune "8"%char) && negb (v =? rune "9"%char)
             && negb (v =? rune "*"%char) && negb (v =? rune "#"%char)
          then (Some BadInputEventType, hc)
          else
            let hc := set_keyboard hc (set_key (hcKeyboard hc) v) in
            record_event hc event value
      | _ => (Some BadInputEventType, hc)
      end
  | KeyboardUp =>
      match value with
      | VNil =>
          let hc := set_which hc KeyboardType in
          let hc := set_keyboard hc (set_key (hcKeyboard hc) (rune " "%char)) in
          record_event hc event value
      | _ => (Some BadInputEventType, hc)
      end
  | Unplug => (Some InputDeviceUnplugged, hc)
  | OtherEvent _ => (Some UnknownInputEvent, hc)
  end.

(** VBLANK bit 7 has been set. input capacitor is grounded. *)
Definition ground (hc : HandController) : HandController :=
  match which hc with
  | PaddleType =>
      let hc := set_paddle hc (set_charge (hcPaddle hc) 0) in
      riot_write hc (puckReg (hcPaddle hc)) (charge (hcPaddle hc)) 0x00
  | _ => hc
  end.

(** [const paddleSensitivity = 0.01], as the float32 it is converted to in
    [hc.paddle.ticks += paddleSensitivity]: 10737418 * 2^-30. *)
Definition paddleSensitivity : float32 := S754_finite false 10737418 (-30).

(** recharge is called every video step via Input.Step() *)
Definition recharge (hc : HandController) : HandController :=
  match which hc with
  | PaddleType =>
      if charge (hcPaddle hc) <? 255 then
        let hc := set_paddle hc
                    (set_ticks (hcPaddle hc)
                               (f32_add (ticks (hcPaddle hc)) paddleSensitivity)) in
        if f32_ge (ticks (hcPaddle hc)) (resistance (hcPaddle hc)) then
          let hc := set_paddle hc (set_ticks (hcPaddle hc) f32_zero) in
          let hc := set_paddle hc
                      (set_charge (hcPaddle hc) (u8 (charge (hcPaddle hc) + 1))) in
          tia_write hc (puckReg (hcPaddle hc)) (charge (hcPaddle hc)) 0x00
        else hc
      else hc
  | _ => hc
  end.

Definition step (hc : HandController) : HandController := recharge hc.

(** [n] video steps. *)
Fixpoint steps (n : nat) (hc : HandController) : HandController :=
  match n with
  | O => hc
  | S n' => steps n' (step hc)
  end.

(** VBLANK bit 6 has been set. joystick button will latch (will not cause a
    Fire=false signal when fire button is released) *)
Definition unlatch (hc : HandController) : HandController :=
  (* only unlatch if button is not pressed *)
  if negb (button (hcStick hc)) then
    tia_write hc (stickButtonReg (hcStick hc)) 0x80 0x00
  else hc.

End Input.

(** ** The TIA: horizontal timing (tia.go) *)

Module TIA.

(** *** Phase clock *)

(** Modelled from the spec: package phaseclock is not among the sources.
    Per section 4.1 it is a four-state cyclic counter that [Tick] advances
    by one phase, [Reset] sets to phase 0, [Align] puts on the rising edge
    of phase 1, and whose [Phi2] holds in exactly one of the four phases,
    phase 2.  [Count] is the phase number. *)
Module phaseclock.
Definition PhaseClock := Z.
Definition Reset (clk : PhaseClock) : PhaseClock := 0.
Definition Align (clk : PhaseClock) : PhaseClock := 1.
Definition Tick (clk : PhaseClock) : PhaseClock := (clk + 1) mod 4.
Definition Count (clk : PhaseClock) : Z := clk.
Definition Phi2 (clk : PhaseClock) : bool := clk =? 2.
End phaseclock.

(** *** Polycounter *)

(** Modelled from the spec: package polycounter is not among the sources.
    Of the 6-bit counter the TIA needs [Tick], [Count] and [Reset]; it runs
    through the 63 states of a 6-bit shift register unless reset. *)
Module polycounter.
Definition Polycounter := Z.
Definition New : Polycounter := 0.
Definition Reset (pk : Polycounter) : Polycounter := 0.
Definition Tick (pk : Polycounter) : Polycounter :=
    if pk + 1 >=? 63 then 0 else pk + 1.
Definition Count (pk : Polycounter) : Z := pk.
End polycounter.

(** *** Delayed events *)

(** Modelled from the spec: package delay is not among the sources.  An
    event slot is the DelayedEvent of section 3 (remaining cycles, payload,
    unresolved flag; at most one unresolved event per slot, scheduling over
    an unresolved one is a hard error), with the counting rule of the
    [future] type that the video package keeps in future.go: scheduling for
    [cycles] stores [cycles + 1], and the tick that finds 1 fires.  The
    payload of type [A] is what tells the closures scheduled on one slot
    apart. *)
Module delay.
Record Event (A : Type) := mkEvent {
  remainingCycles : Z;
  payload : option A;
  unresolved : bool
}.
Arguments mkEvent {A} _ _ _.
Arguments remainingCycles {A} _.
Arguments payload {A} _.
Arguments unresolved {A} _.

Definition idle {A : Type} : Event A := mkEvent 0 None false.

Definition Schedule {A : Type} (e : Event A) (cycles : Z) (p : A)
  : option (Event A) :=
  if unresolved e then None
  else Some (mkEvent (cycles + 1) (Some p) true).

Definition IsActive {A : Type} (e : Event A) : bool := remainingCycles e >? 0.

(** [Tick]: whether the event fires on this tick, and the slot afterwards. *)
Definition Tick {A : Type} (e : Event A) : bool * Event A :=
  if remainingCycles e =? 1 then
    (true, mkEvent (remainingCycles e - 1) (payload e) false)
  else if remainingCycles e >? 0 then
    (false, mkEvent (remainingCycles e - 1) (payload e) (unresolved e))
  else (false, e).
End delay.

(** The closures that tia.go schedules on [futureHsync]. *)
Inductive HsyncEvent :=
| NewScanline         (* tia.newScanline *)
| ResetHSync          (* HSync = false; CBurst = true *)
| ResetCBurst         (* CBurst = false *)
| HblankOff.          (* Hblank = false *)

(** *** TIA state *)

Record ChipData := mkChipData { Name : string; Value : Z }.

Record SignalAttributes := mkSig {
  VSync : bool; VBlank : bool; HSync : bool; CBurst : bool
}.

Record VBlankBits := mkVBlankBits { groundPaddles : bool; latchFireButton : bool }.

(** The fields of the TIA that its timing depends on.  The video and audio
    sub-systems are handed references to [pclk], [hsync], [Hblank] and
    [HmoveLatch]; they read them and keep their own state, which is left
    out here together with the pixel and audio parts of the signal. *)
Record TIA := mkTIA {
  vblankBits : VBlankBits;
  videoCycles : Z;
  sig : SignalAttributes;
  Hblank : bool;
  wsync : bool;
  HmoveLatch : bool;
  HmoveCt : Z;
  hsync : polycounter.Polycounter;
  pclk : phaseclock.PhaseClock;
  (* some events are delayed; every slot but [futureHsync] is only ever
     scheduled with one closure, [futureVblank] with the value written *)
  futureVblank : delay.Event Z;
  futureRsyncAlign : delay.Event unit;
  futureRsyncReset : delay.Event unit;
  futureHmoveLatch : delay.Event unit;
  FutureHmove : delay.Event unit;
  futureHsync : delay.Event HsyncEvent
}.

Definition NewTIA : TIA :=
  mkTIA (mkVBlankBits false false) 0 (mkSig false false false false)
        true false false 0xff
        polycounter.New (phaseclock.Reset 0)
        delay.idle delay.idle delay.idle delay.idle delay.idle delay.idle.

(** Field updates. *)
Definition set_vblankBits t x := mkTIA x (videoCycles t) (sig t) (Hblank t) (wsync t) (HmoveLatch t) (HmoveCt t) (hsync t) (pclk t) (futureVblank t) (futureRsyncAlign t) (futureRsyncReset t) (futureHmoveLatch t) (FutureHmove t) (futureHsync t).
Definition set_videoCycles t x := mkTIA (vblankBits t) x (sig t) (Hblank t) (wsync t) (HmoveLatch t) (HmoveCt t) (hsync t) (pclk t) (futureVblank t) (futureRsyncAlign t) (futureRsyncReset t) (futureHmoveLatch t) (FutureHmove t) (futureHsync t).
Definition set_sig t x := mkTIA (vblankBits t) (videoCycles t) x (Hblank t) (wsync t) (HmoveLatch t) (HmoveCt t) (hsync t) (pclk t) (futureVblank t) (futureRsyncAlign t) (futureRsyncReset t) (futureHmoveLatch t) (FutureHmove t) (futureHsync t).
Definition set_Hblank t x := mkTIA (vblankBits t) (videoCycles t) (sig t) x (wsync t) (HmoveLatch t) (HmoveCt t) (hsync t) (pclk t) (futureVblank t) (futureRsyncAlign t) (futureRsyncReset t) (futureHmoveLatch t) (FutureHmove t) (futureHsync t).
Definition set_wsync t x := mkTIA (vblankBits t) (videoCycles t) (sig t) (Hblank t) x (HmoveLatch t) (HmoveCt t) (hsync t) (pclk t) (futureVblank t) (futureRsyncAlign t) (futureRsyncReset t) (futureHmoveLatch t) (FutureHmove t) (futureHsync t).
Definition set_HmoveLatch t x := mkTIA (vblankBits t) (videoCycles t) (sig t) (Hblank t) (wsync t) x (HmoveCt t) (hsync t) (pclk t) (futureVblank t) (futureRsyncAlign t) (futureRsyncReset t) (futureHmoveLatch t) (FutureHmove t) (futureHsync t).
Definition set_HmoveCt t x := mkTIA (vblankBits t) (videoCycles t) (sig t) (Hblank t) (wsync t) (HmoveLatch t) x (hsync t) (pclk t) (futureVblank t) (futureRsyncAlign t) (futureRsyncReset t) (futureHmoveLatch t) (FutureHmove t) (futureHsync t).
Definition set_hsync t x := mkTIA (vblankBits t) (videoCycles t) (sig t) (Hblank t) (wsync t) (HmoveLatch t) (HmoveCt t) x (pclk t) (futureVblank t) (futureRsyncAlign t) (futureRsyncReset t) (futureHmoveLatch t) (FutureHmove t) (futureHsync t).
Definition set_pclk t x := mkTIA (vblankBits t) (videoCycles t) (sig t) (Hblank t) (wsync t) (HmoveLatch t) (HmoveCt t) (hsync t) x (futureVblank t) (futureRsyncAlign t) (futureRsyncReset t) (futureHmoveLatch t) (FutureHmove t) (futureHsync t).
Definition set_futureVblank t x := mkTIA (vblankBits t) (videoCycles t) (sig t) (Hblank t) (wsync t) (HmoveLatch t) (HmoveCt t) (hsync t) (pclk t) x (futureRsyncAlign t) (futureRsyncReset t) (futureHmoveLatch t) (FutureHmove t) (futureHsync t).
Definition set_futureRsyncAlign t x := mkTIA (vblankBits t) (videoCycles t) (sig t) (Hblank t) (wsync t) (HmoveLatch t) (HmoveCt t) (hsync t) (pclk t) (futureVblank t) x (futureRsyncReset t) (futureHmoveLatch t) (FutureHmove t) (futureHsync t).
Definition set_futureRsyncReset t x := mkTIA (vblankBits t) (videoCycles t) (sig t) (Hblank t) (wsync t) (HmoveLatch t) (HmoveCt t) (hsync t) (pclk t) (futureVblank t) (futureRsyncAlign t) x (futureHmoveLatch t) (FutureHmove t) (futureHsync t).
Definition set_futureHmoveLatch t x := mkTIA (vblankBits t) (videoCycles t) (sig t) (Hblank t) (wsync t) (HmoveLatch t) (HmoveCt t) (hsync t) (pclk t) (futureVblank t) (futureRsyncAlign t) (futureRsyncReset t) x (FutureHmove t) (futureHsync t).
Definition set_FutureHmove t x := mkTIA (vblankBits t) (videoCycles t) (sig t) (Hblank t) (wsync t) (HmoveLatch t) (HmoveCt t) (hsync t) (pclk t) (futureVblank t) (futureRsyncAlign t) (futureRsyncReset t) (futureHmoveLatch t) x (futureHsync t).
Definition set_futureHsync t x := mkTIA (vblankBits t) (videoCycles t) (sig t) (Hblank t) (wsync t) (HmoveLatch t) (HmoveCt t) (hsync t) (pclk t) (futureVblank t) (futureRsyncAlign t) (futureRsyncReset t) (futureHmoveLatch t) (FutureHmove t) x.

(** [tia.newScanline] *)
Definition newScanline (t : TIA) : TIA :=
  let t := set_wsync t false in
  let t := set_Hblank t true in
  set_videoCycles t 0.

(** The closures scheduled in [UpdateTIA], one per slot. *)
Definition onVblank (v : Z) (t : TIA) : TIA :=
  (* actual vblank signal *)
  let t := set_sig t (mkSig (VSync (sig t)) (Z.land v 0x02 =? 0x02)
                            (HSync (sig t)) (CBurst (sig t))) in
  (* dump paddle capacitors to ground *)
  let t := set_vblankBits t (mkVBlankBits (Z.land v 0x80 =? 0x80)
                                          (latchFireButton (vblankBits t))) in
  (* joystick fire button latches *)
  set_vblankBits t (mkVBlankBits (groundPaddles (vblankBits t))
                                 (Z.land v 0x40 =? 0x40)).

(** The adjustment of the video elements is the video sub-system's. *)
Definition onRsyncAlign (_ : unit) (t : TIA) : TIA := newScanline t.

Definition onRsyncReset (_ : unit) (t : TIA) : TIA :=
  let t := set_hsync t (polycounter.Reset (hsync t)) in
  set_pclk t (phaseclock.Reset (pclk t)).

Definition onHmoveLatch (_ : unit) (t : TIA) : TIA := set_HmoveLatch t true.

(** [PrepareSpritesForHMOVE] is the video sub-system's. *)
Definition onHmove (_ : unit) (t : TIA) : TIA := set_HmoveCt t 15.

(** The closures scheduled on [futureHsync] by the hsync decodes. *)
Definition onHsync (p : HsyncEvent) (t : TIA) : TIA :=
  match p with
  | NewScanline => newScanline t
  | ResetHSync =>
      let t := set_sig t (mkSig (VSync (sig t)) (VBlank (sig t)) false (CBurst (sig t))) in
      set_sig t (mkSig (VSync (sig t)) (VBlank (sig t)) (HSync (sig t)) true)
  | ResetCBurst =>
      set_sig t (mkSig (VSync (sig t)) (VBlank (sig t)) (HSync (sig t)) false)
  | HblankOff => set_Hblank t false
  end.

(** Tick one event slot of the TIA and run its closure if it fires. *)
Definition tick_slot {A : Type} (get : TIA -> delay.Event A)
           (set : TIA -> delay.Event A -> TIA) (closure : A -> TIA -> TIA)
           (t : TIA) : TIA :=
  let '(fired, e) := delay.Tick (get t) in
  let t := set t e in
  if fired then
    match delay.payload e with
    | Some p => closure p t
    | None => t
    end
  else t.

(** Schedule on one event slot; [None] is the panic of a double booking. *)
Definition schedule_slot {A : Type} (get : TIA -> delay.Event A)
           (set : TIA -> delay.Event A -> TIA)
           (cycles : Z) (p : A) (t : TIA) : option TIA :=
  match delay.Schedule (get t) cycles p with
  | Some e => Some (set t e)
  | None => None
  end.

(** UpdateTIA checks for side effects in the TIA sub-system.  Returns true
    if ChipData has *not* been serviced. *)
Definition UpdateTIA (t : TIA) (data : ChipData) : option (bool * TIA) :=
  if String.eqb (Name data) "VSYNC" then
    Some (false, set_sig t (mkSig (Z.land (Value data) 0x02 =? 0x02)
                                  (VBlank (sig t)) (HSync (sig t)) (CBurst (sig t))))
  else if String.eqb (Name data) "VBLANK" then
    match schedule_slot futureVblank set_futureVblank 1 (Value data) t with
    | Some t => Some (false, t)
    | None => None
    end
  else if String.eqb (Name data) "WSYNC" then
    Some (false, set_wsync t true)
  else if String.eqb (Name data) "RSYNC" then
    let t := set_pclk t (phaseclock.Align (pclk t)) in
    match schedule_slot futureRsyncAlign set_futureRsyncAlign 3 tt t with
    | None => None
    | Some t =>
        match schedule_slot futureRsyncReset set_futureRsyncReset 7 tt t with
        | None => None
        | Some t => Some (false, t)
        end
    end
  else if String.eqb (Name data) "HMOVE" then
    let delay :=
      match phaseclock.Count (pclk t) with
      | 0 => 5
      | 1 => 4
      | 2 => 4
      | 3 => 2
      | _ => 0
      end in
    match schedule_slot futureHmoveLatch set_futureHmoveLatch delay tt t with
    | None => None
    | Some t =>
        match schedule_slot FutureHmove set_FutureHmove (delay + 3) tt t with
        | None => None
        | Some t => Some (false, t)
        end
    end
  else Some (true, t).

Definition hsyncDelay : Z := 3.

(** The decodes of the hsync counter, evaluated when Phi2 is raised. *)
Definition hsync_decode (t : TIA) : option TIA :=
  let t := set_hsync t (polycounter.Tick (hsync t)) in
  let c := polycounter.Count (hsync t) in
  if c =? 57 then
    let t := set_hsync t (polycounter.Reset (hsync t)) in
    Some (set_HmoveLatch t false)
  else if c =? 56 then
    if negb (delay.IsActive (futureRsyncAlign t)) then
      schedule_slot futureHsync set_futureHsync hsyncDelay NewScanline t
    else Some t
  else if c =? 4 then
    Some (set_sig t (mkSig (VSync (sig t)) (VBlank (sig t)) true (CBurst (sig t))))
  else if c =? 8 then
    schedule_slot futureHsync set_futureHsync hsyncDelay ResetHSync t
  else if c =? 12 then
    schedule_slot futureHsync set_futureHsync hsyncDelay ResetCBurst t
  else if c =? 16 then
    if negb (HmoveLatch t) then
      schedule_slot futureHsync set_futureHsync hsyncDelay HblankOff t
    else Some t
  else if c =? 18 then
    if HmoveLatch t then
      schedule_slot futureHsync set_futureHsync hsyncDelay HblankOff t
    else Some t
  else Some t.

(** The six delayed events, ticked in the order of the source. *)
Definition tick_events (t : TIA) : TIA :=
  let t := tick_slot futureVblank set_futureVblank onVblank t in
  let t := tick_slot futureRsyncAlign set_futureRsyncAlign onRsyncAlign t in
  let t := tick_slot futureRsyncReset set_futureRsyncReset onRsyncReset t in
  let t := tick_slot futureHmoveLatch set_futureHmoveLatch onHmoveLatch t in
  let t := tick_slot FutureHmove set_FutureHmove onHmove t in
  tick_slot futureHsync set_futureHsync onHsync t.

(** The HMOVE counter update at the end of the sprite tick. *)
Definition update_HmoveCt (t : TIA) : TIA :=
  let isHmove := phaseclock.Phi2 (pclk t) in
  if isHmove then
    if negb (HmoveCt t =? 0xff) then set_HmoveCt t (u8 (HmoveCt t - 1))
    else t
  else t.

(** Step moves the state of the tia forward one video cycle and returns the
    state of the CPU's RDY flag.  [pending] is what [tia.mem.ChipRead]
    hands over: the register write waiting on the chip bus, if any.  The
    television's error does not change the flag and is left out. *)
Definition Step (t : TIA) (readMemory : bool) (pending : option ChipData)
  : option (bool * TIA) :=
  let t := set_videoCycles t (videoCycles t + 1) in
  let serviced :=
    if readMemory then
      match pending with
      | Some data => UpdateTIA t data
      | None => Some (false, t)
      end
    else Some (false, t) in
  match serviced with
  | None => None
  | Some (_, t) =>
      let t := set_pclk t (phaseclock.Tick (pclk t)) in
      let t := tick_events t in
      let decoded :=
        if phaseclock.Phi2 (pclk t) then hsync_decode t else Some t in
      match decoded with
      | None => None
      | Some t =>
          let t := update_HmoveCt t in
          Some (negb (wsync t), t)
      end
  end.

(** One input of [Step]: the [readMemory] argument and the pending write. *)
Definition input : Type := bool * option ChipData.

Definition idle_input : input := (true, None).
Definition write (name : string) (v : Z) : input := (true, Some (mkChipData name v)).

(** A run of video cycles: the RDY flags returned, in order, and the TIA
    at the end. *)
Fixpoint steps (t : TIA) (ins : list input) : option (list bool * TIA) :=
  match ins with
  | [] => Some ([], t)
  | (rm, pd) :: rest =>
      match Step t rm pd with
      | None => None
      | Some (rdy, t') =>
          match steps t' rest with
          | None => None
          | Some (rdys, t'') => Some (rdy :: rdys, t'')
          end
      end
  end.

(** Whether an input strobes RSYNC. *)
Definition is_rsync (i : input) : bool :=
  match i with
  | (true, Some d) => String.eqb (Name d) "RSYNC"
  | _ => false
  end.

Definition is_wsync (i : input) : bool :=
  match i with
  | (true, Some d) => String.eqb (Name d) "WSYNC"
  | _ => false
  end.

(** The colour clock within the scanline that a state has just completed:
    four clocks per hsync count, the count changing on Phi2. *)
Definition hpos (t : TIA) : Z :=
  4 * polycounter.Count (hsync t) + (phaseclock.Count (pclk t) + 2) mod 4.

End TIA.

(** ** Delayed actions of the video package: future.go *)

Module Video.

(** [future] is a general purpose counter.  The payload is an
    [interface{}] in the source; here it is of a type [A] of the caller's
    choice. *)
Record future (A : Type) := mkFuture {
  (* label is a short decription describing the future payload *)
  label : string;
  (* remainingCycles is the number of remaining ticks before the pending
     action is resolved *)
  remainingCycles : Z;
  (* the value that is to be the result of the pending action *)
  payload : option A;
  (* whether or not a scheduled operation has completed *)
  unresolved : bool
}.
Arguments mkFuture {A} _ _ _ _.
Arguments label {A} _.
Arguments remainingCycles {A} _.
Arguments payload {A} _.
Arguments unresolved {A} _.

(** The zero value of the struct. *)
Definition zero {A : Type} : future A := mkFuture EmptyString 0 None false.

(** schedule the pending future action; [None] is the panic. *)
Definition schedule {A : Type} (fut : future A) (cycles : Z) (p : A)
           (lbl : string) : option (future A) :=
  if unresolved fut then None
  else Some (mkFuture lbl (cycles + 1) (Some p) true).

(** isScheduled returns true if pending action has not yet resolved *)
Definition isScheduled {A : Type} (fut : future A) : bool :=
  remainingCycles fut >? 0.

(** tick moves the pending action counter on one step *)
Definition tick {A : Type} (fut : future A) : bool * future A :=
  if remainingCycles fut =? 1 then
    (true, mkFuture (label fut) (remainingCycles fut - 1) (payload fut) false)
  else if remainingCycles fut >? 0 then
    (false, mkFuture (label fut) (remainingCycles fut - 1) (payload fut)
                     (unresolved fut))
  else (false, fut).

(** [n] ticks in a row: what each returned, and the counter afterwards. *)
Fixpoint ticks {A : Type} (n : nat) (fut : future A) : list bool * future A :=
  match n with
  | O => ([], fut)
  | S n' =>
      let '(b, fut') := tick fut in
      let '(bs, fut'') := ticks n' fut' in
      (b :: bs, fut'')
  end.

End Video.

(** ** The VCS orchestrator: [VCS.Step] *)

Module VCS.

(** The operations on the chips that one CPU cycle is made of, as they are
    logged in the order they run. *)
Inductive op :=
| ReadRIOTMemory | RIOTStep | ReadTIAMemory | StepVideoCycle | VideoCycleCallback.

Section Orchestrator.

  (** Everything the components own: CPU registers, memory, RIOT and TIA.
      The chips' own code is not part of this development; [VCS.Step] is
      verified against any implementation of them. *)
Variable Machine : Type.
Variable riotRead riotStep tiaRead : Machine -> Machine.
  (** [TIA.StepVideoCycle]: the state of the RDY line and the machine. *)
Variable tiaStep : Machine -> bool * Machine.
Variable videoCycleCallback : Machine -> Machine.

  (** Modelled from the spec: the CPU is not among the sources.  Per
      section 4.3 [ExecuteInstruction] runs one instruction and invokes the
      callback after every bus cycle; [cpuCycle] is one bus cycle of the
      instruction in flight, given the RDY flag: an error, or the machine
      afterwards and whether that cycle was the instruction's last. *)
Variable cpuCycle : bool -> Machine -> errno + (Machine * bool).

Record VCS := mkVCS {
    machine : Machine;
    RdyFlg : bool;
    (* the chip operations performed so far, oldest first *)
    trace : list op;
    (* the local variable [cpuCycles] of [Step] *)
    cpuCycles : Z
  }.

Definition log (o : op) (v : VCS) : VCS :=
    mkVCS (machine v) (RdyFlg v) (trace v ++ [o]) (cpuCycles v).

Definition on_machine (f : Machine -> Machine) (o : op) (v : VCS) : VCS :=
    log o (mkVCS (f (machine v)) (RdyFlg v) (trace v) (cpuCycles v)).

  (** [vcs.MC.RdyFlg = vcs.TIA.StepVideoCycle()] *)
Definition stepVideoCycle (v : VCS) : VCS :=
    let '(rdy, m) := tiaStep (machine v) in
    log StepVideoCycle (mkVCS m rdy (trace v) (cpuCycles v)).

  (** the cpu calls the cycleVCS function after every CPU cycle. the cycleVCS
      function defines the order of operation for the rest of the VCS for
      every CPU cycle. *)
Definition cycleVCS (v : VCS) : VCS :=
    let v := mkVCS (machine v) (RdyFlg v) (trace v) (cpuCycles v + 1) in
    (* run riot only once per CPU cycle *)
    let v := on_machine riotRead ReadRIOTMemory v in
    let v := on_machine riotStep RIOTStep v in
    (* three color clocks per CPU cycle so we run video cycle three times *)
    let v := on_machine tiaRead ReadTIAMemory v in
    let v := stepVideoCycle v in
    let v := on_machine videoCycleCallback VideoCycleCallback v in
    let v := stepVideoCycle v in
    let v := on_machine videoCycleCallback VideoCycleCallback v in
    let v := stepVideoCycle v in
    on_machine videoCycleCallback VideoCycleCallback v.

  (** [ExecuteInstruction(cycleVCS)]: bus cycles, each followed by the
      callback, until the instruction's last.  [None]: [fuel] bus cycles
      did not finish the instruction. *)
Fixpoint ExecuteInstruction (fuel : nat) (callback : VCS -> VCS) (v : VCS)
    : option (option errno * VCS) :=
    match fuel with
    | O => None
    | S fuel' =>
        match cpuCycle (RdyFlg v) (machine v) with
        | inl e => Some (Some e, v)
        | inr (m, final) =>
            let v := callback (mkVCS m (RdyFlg v) (trace v) (cpuCycles v)) in
            if final then Some (None, v)
            else ExecuteInstruction fuel' callback v
        end
    end.

  (** [for !vcs.MC.RdyFlg { cycleVCS(r) }]; [None]: still not ready after
      [fuel] cycles. *)
Fixpoint untilReady (fuel : nat) (v : VCS) : option VCS :=
    if RdyFlg v then Some v
    else
      match fuel with
      | O => None
      | S fuel' => untilReady fuel' (cycleVCS v)
      end.

  (** Step the emulator state one CPU instruction: the number of CPU cycles
      that have elapsed, the error, and the VCS afterwards. *)
Definition Step (fuel : nat) (v : VCS) : option (Z * option errno * VCS) :=
    let v := mkVCS (machine v) (RdyFlg v) (trace v) 0 in
    match ExecuteInstruction fuel cycleVCS v with
    | None => None
    | Some (Some e, v) => Some (cpuCycles v, Some e, v)
    | Some (None, v) =>
        match untilReady fuel v with
        | None => None
        | Some v => Some (cpuCycles v, None, v)
        end
    end.

  (** What one CPU cycle adds to the trace. *)
Definition cycle_ops : list op :=
    [ReadRIOTMemory; RIOTStep; ReadTIAMemory;
     StepVideoCycle; VideoCycleCallback;
     StepVideoCycle; VideoCycleCallback;
     StepVideoCycle; VideoCycleCallback].

  (** [n] runs of [cycleVCS]. *)
Fixpoint cycles (n : nat) (v : VCS) : VCS :=
    match n with
    | O => v
    | S n' => cycles n' (cycleVCS v)
    end.

End Orchestrator.

End VCS.

(** * Vocabulary of the properties *)

(** ** Cartridges *)

(** An 8k image with five STA $3F instructions and nothing else. *)
Definition tigervision_image : list Z :=
  concat (repeat [0x85; 0x3f] 5) ++ repeat 0 (Z.to_nat 8182).

(** The bytes an image has at offsets 0x20 and up all agree with the
    Harmony signature 1E AB AD 10. *)
Definition agrees_with_harmony_signature (data : list Z) : Prop :=
  forall i x, 0x20 <= i -> idx data i = Some x ->
              idx [0x1e; 0xab; 0xad; 0x10] (i - 0x20) = Some x.

(** An image that passes the Harmony and Supercharger tests unmatched and
    does not hold five 85 3E and five 85 3F pairs. *)
Definition non_matching (data : list Z) : Prop :=
  Cartridge.fingerprintHarmony data = Some false /\
  Cartridge.fingerprintSuperchargerFastLoad data = false /\
  (Cartridge.count_pair 0x85 0x3e data < 5 \/
   Cartridge.count_pair 0x85 0x3f data < 5).

(** A mapper whose bank [k] holds the byte [k] throughout. *)
Definition numbered_cart : ParkerBros.parkerBros :=
  ParkerBros.Initialise
    (ParkerBros.mkCart 1024
       (map (fun k => repeat k 1024) [0; 1; 2; 3; 4; 5; 6; 7])
       [0; 0; 0; 0]).

(** An 8k image with five STA $3F instructions that ends in the byte 0x85. *)
Definition tigervision_image_85 : list Z :=
  concat (repeat [0x85; 0x3f] 5) ++ repeat 0 (Z.to_nat 8181) ++ [0x85].

(** Whether a list starts with the bytes of a pattern. *)
Fixpoint starts_with (pat l : list Z) : bool :=
  match pat, l with
  | [], _ => true
  | p :: ps, x :: xs => (x =? p) && starts_with ps xs
  | _ :: _, [] => false
  end.

(** At how many positions of an image a pattern starts. *)
Fixpoint count_at (pat l : list Z) : Z :=
  match l with
  | [] => 0
  | _ :: t => (if starts_with pat l then 1 else 0) + count_at pat t
  end.

(** Whether one of several patterns starts somewhere in an image. *)
Fixpoint any_at (pats : list (list Z)) (l : list Z) : bool :=
  match l with
  | [] => false
  | _ :: t => existsb (fun pat => starts_with pat l) pats || any_at pats t
  end.

(** The signature that [fingerprintHarmony] looks for at offset 0x20. *)
Definition harmony_signature : list Z := [0x1e; 0xab; 0xad; 0x10].

(** The pattern of [fingerprintMnetwork]. *)
Definition mnetwork_pattern : list Z := [0x7e; 0x66; 0x66; 0x66].

(** The patterns of [fingerprintParkerBros], in the order they are tried. *)
Definition parkerbros_patterns : list (list Z) :=
  [[0x8d; 0xe0; 0x1f]; [0x8d; 0xe0; 0x5f]; [0x8d; 0xe9; 0xff];
   [0x0c; 0xe0; 0x1f]; [0xad; 0xe0; 0x1f]; [0xad; 0xe9; 0xff];
   [0xad; 0xed; 0xff]; [0xad; 0xf3; 0xbf]].

(** The selection of [fingerprint] as a decision table over the size of the
    image and the patterns it holds. *)
Definition select (data : list Z) : errno + Cartridge.mapper :=
  let l := len data in
  let tiger := 5 <=? Cartridge.count_pair 0x85 0x3f data in
  if starts_with harmony_signature (drop 32 data) then inr Cartridge.DPCplus
  else if (l =? 8448) || (l =? 25344) || (l =? 33792) then inr Cartridge.Supercharger
  else if (5 <=? Cartridge.count_pair 0x85 0x3e data) && tiger then inr Cartridge.M3ePlus
  else if l =? 2048 then inr Cartridge.Atari2k
  else if l =? 4096 then inr Cartridge.Atari4k
  else if l =? 8192 then
    inr (if tiger then Cartridge.Tigervision
         else if any_at parkerbros_patterns data then Cartridge.ParkerBros
         else Cartridge.Atari8k)
  else if (l =? 10240) || (l =? 10495) then inr Cartridge.DPC
  else if l =? 12288 then inr Cartridge.CBS
  else if l =? 16384 then
    inr (if tiger then Cartridge.Tigervision
         else if 2 <=? count_at mnetwork_pattern data then Cartridge.Mnetwork
         else Cartridge.Atari16k)
  else if l =? 32768 then
    inr (if tiger then Cartridge.Tigervision else Cartridge.Atari32k)
  else inl CartridgeError.

(** Byte [o] of the ROM image as the banks of a mapper hold it. *)
Definition image_byte (cart : ParkerBros.parkerBros) (o : Z) : option Z :=
  match idx (ParkerBros.banks cart) (o / 1024) with
  | Some bk => idx bk (o mod 1024)
  | None => None
  end.

(** The mappers that [newParkerBros] builds and the operations keep: eight
    banks of 1024 bytes, every segment on one of the banks, the last
    segment on the last bank. *)
Definition mapped (cart : ParkerBros.parkerBros) : Prop :=
  ParkerBros.well_formed cart /\
  ParkerBros.bankSize cart = 1024 /\
  Forall (fun b => 0 <= b <= 7) (ParkerBros.segment cart) /\
  idx (ParkerBros.segment cart) 3 = Some 7.

(** The hotspot addresses. *)
Definition is_hotspot (addr : Z) : bool := (0xfe0 <=? addr) && (addr <=? 0xff7).

(** ** Hand controllers *)

Section InputVocabulary.
Import Input.

(** The errors [Handle] raises for an event it cannot accept: an event kind
    it does not know, or a payload of the wrong type or value. *)
Definition rejects (e : option errno) : Prop :=
  e = Some BadInputEventType \/ e = Some UnknownInputEvent.

(** The runes of the keypad: the digits, the star and the hash. *)
Definition keypad_rune (r : Z) : bool :=
  ((rune "0"%char <=? r) && (r <=? rune "9"%char))
  || (r =? rune "*"%char) || (r =? rune "#"%char).

(** The runes that the keypad test of [Handle] lets through. *)
Definition passes_keypad_test (r : Z) : bool :=
  ((rune "1"%char <=? r) && (r <=? rune "9"%char))
  || (r =? rune "*"%char) || (r =? rune "#"%char).

(** The ticks accumulator after [k] additions of the sensitivity. *)
Definition accumulated (k : nat) (t : float32) : float32 :=
  Nat.iter k (fun t => f32_add t paddleSensitivity) t.

Definition with_ticks (hc : HandController) (t : float32) : HandController :=
  set_paddle hc (set_ticks (hcPaddle hc) t).

(** Whether the payload of an event has the dynamic type that [Handle]
    asserts for it. *)
Definition well_typed (event : Event) (value : EventValue) : bool :=
  match event, value with
  | (Left | Right | Up | Down | Fire | PaddleFire), VBool _ => true
  | PaddleSet, VFloat32 _ => true
  | KeyboardDown, VRune _ => true
  | KeyboardUp, VNil => true
  | _, _ => false
  end.

(** The bit of the stick's axis byte that a direction event drives. *)
Definition axis_bit (event : Event) : option Z :=
  match event with
  | Left => Some 0x40
  | Right => Some 0x80
  | Up => Some 0x10
  | Down => Some 0x20
  | _ => None
  end.

(** An axis byte: the four direction bits in the high nibble, nothing in
    the low one. *)
Definition axis_byte (a : Z) : Prop := 0 <= a <= 255 /\ Z.land a 0x0f = 0.

(** The stick of hand controller zero drives the high nibble of its
    register as it is; the stick of hand controller one drives the low
    nibble, shifted down. *)
Definition port0_stick (s : stick) : Prop :=
  axisReg s = SWCHA /\ addrMask s = 0x0f /\ forall n, transform s n = n.

Definition port1_stick (s : stick) : Prop :=
  axisReg s = SWCHA /\ addrMask s = 0xf0 /\
  forall n, transform s n = Z.shiftr n 4.

End InputVocabulary.

(** A paddle held at one half on a fresh port. *)
Definition half_paddle : Input.HandController :=
  snd (Input.Handle
         (Input.NewHandController0
            (Input.mkMem (fun _ => 0) (fun _ => 0))
            (Input.mkControl false false))
         Input.PaddleSet (Input.VFloat32 Input.f32_half)).

(** ** TIA timing *)

Section TIAVocabulary.
Import TIA.

(** Nothing booked on a slot. *)
Definition quiet {A : Type} (e : delay.Event A) : Prop :=
  delay.remainingCycles e = 0 /\ delay.unresolved e = false.

(** A slot booked to fire [p] on the [n]-th tick from now. *)
Definition booked {A : Type} (e : delay.Event A) (n : Z) (p : A) : Prop :=
  e = delay.mkEvent n (Some p) true.

(** The first part of [Step]: the pending register write, if it is read. *)
Definition service (t : TIA) (readMemory : bool) (pending : option ChipData)
  : option (bool * TIA) :=
  if readMemory then
    match pending with
    | Some data => UpdateTIA t data
    | None => Some (false, t)
    end
  else Some (false, t).

(** The state on which the hsync decodes of a video cycle are evaluated. *)
Definition ticked (t1 : TIA) : TIA :=
  tick_events (set_pclk t1 (phaseclock.Tick (pclk t1))).

(** Whether an input hands a write to HMOVE to the TIA. *)
Definition is_hmove (i : input) : bool :=
  match i with
  | (true, Some d) => String.eqb (Name d) "HMOVE"
  | _ => false
  end.

(** The delay of the HMOVE latch for a write at phase count [c]. *)
Definition hmove_delay (c : Z) : Z :=
  match c with
  | 0 => 5
  | 1 => 4
  | 2 => 4
  | 3 => 2
  | _ => 0
  end.

(** What the decodes book on [futureHsync] at count [c], the HMOVE latch
    being [latch]: the closure, if any. *)
Definition decoded (c : Z) (latch : bool) : option HsyncEvent :=
  if c =? 56 then Some NewScanline
  else if c =? 8 then Some ResetHSync
  else if c =? 12 then Some ResetCBurst
  else if c =? 16 then (if latch then None else Some HblankOff)
  else if c =? 18 then (if latch then Some HblankOff else None)
  else None.

(** HBLANK and the WSYNC flag once the events of a cycle have ticked. *)
Definition hblank_after (e : delay.Event HsyncEvent) (hb : bool) : bool :=
  if delay.remainingCycles e =? 1 then
    match delay.payload e with
    | Some NewScanline => true
    | Some HblankOff => false
    | _ => hb
    end
  else hb.

Definition wsync_after (e : delay.Event HsyncEvent) (ws : bool) : bool :=
  if delay.remainingCycles e =? 1 then
    match delay.payload e with
    | Some NewScanline => false
    | _ => ws
    end
  else ws.

(** What holds of [futureHsync], HBLANK and the HMOVE latch at each count
    of the hsync counter, [left] being the ticks left until the counter
    changes. *)
Definition line_inv (t : TIA) : Prop :=
  let h := hsync t in
  let left := 4 - (pclk t + 2) mod 4 in
  let e := futureHsync t in
  if h =? 8 then booked e left ResetHSync /\ Hblank t = true
  else if h =? 12 then booked e left ResetCBurst /\ Hblank t = true
  else if h =? 16 then
    Hblank t = true /\
    ((booked e left HblankOff /\ (pclk t = 2 -> HmoveLatch t = false)) \/
     (quiet e /\ HmoveLatch t = true))
  else if h =? 17 then quiet e /\ (Hblank t = true -> HmoveLatch t = true)
  else if h =? 18 then
    (booked e left HblankOff /\ HmoveLatch t = true) \/
    (quiet e /\ Hblank t = false /\ (pclk t = 2 -> HmoveLatch t = false))
  else if h =? 56 then booked e left NewScanline /\ Hblank t = false
  else quiet e /\ Hblank t = (h <? 16).

(** The invariant of the states reached without an RSYNC strobe. *)
Definition timing_inv (t : TIA) : Prop :=
  0 <= hsync t <= 56 /\ 0 <= pclk t <= 3 /\
  quiet (futureRsyncAlign t) /\ quiet (futureRsyncReset t) /\ line_inv t.

(** The states reached from [NewTIA] by video cycles none of which hands an
    RSYNC strobe to the TIA. *)
Inductive reachable : TIA -> Prop :=
| reachable_new : reachable NewTIA
| reachable_step (t : TIA) rm pd rdy (t' : TIA) :
    reachable t ->
    is_rsync (rm, pd) = false ->
    Step t rm pd = Some (rdy, t') ->
    reachable t'.

(** Colour clocks 64 to 75, [ext] telling whether the HMOVE latch was set
    at the [RHB] decode: HBLANK and the booking of its end. *)
Definition window (ext : bool) (t : TIA) : Prop :=
  let left := 4 - (pclk t + 2) mod 4 in
  let e := futureHsync t in
  if hsync t =? 16 then
    if ext then quiet e /\ HmoveLatch t = true
    else booked e left HblankOff
  else if hsync t =? 17 then
    Hblank t = ext /\ (ext = true -> HmoveLatch t = true)
  else if hsync t =? 18 then
    Hblank t = ext /\ (ext = true -> booked e left HblankOff)
  else True.

(** A run of inputs without RSYNC strobes. *)
Definition rsync_free (ins : list input) : Prop :=
  Forall (fun i => is_rsync i = false) ins.

(** An input that hands no register write to the TIA. *)
Definition is_idle (i : input) : bool :=
  match i with
  | (true, Some _) => false
  | _ => true
  end.

(** One step of the HMOVE counter on a Phi2 clock. *)
Definition dec (x : Z) : Z := if x =? 0xff then 0xff else u8 (x - 1).

(** [k] decrements of the HMOVE counter. *)
Definition countdown (k : nat) (x : Z) : Z := Nat.iter k dec x.

(** How many of the [k] colour clocks that follow phase count [p] raise
    Phi2. *)
Fixpoint phi2_count (p : Z) (k : nat) : nat :=
  match k with
  | O => O
  | S k' =>
      Nat.add (if (p + Z.of_nat k) mod 4 =? 2 then 1%nat else 0%nat)
              (phi2_count p k')
  end.

(** The state [n] idle cycles after a write to HMOVE at phase count [p],
    [d] being the delay of the latch: the phase, the two bookings, the
    counter once its event has fired, and the latch in the cycle its event
    fires. *)
Definition after_hmove (p d : Z) (n : nat) (t' : TIA) : Prop :=
  pclk t' = (p + 1 + Z.of_nat n) mod 4 /\
  futureHmoveLatch t' =
    (if Z.of_nat n <? d then delay.mkEvent (d - Z.of_nat n) (Some tt) true
     else delay.mkEvent 0 (Some tt) false) /\
  FutureHmove t' =
    (if Z.of_nat n <? d + 3
     then delay.mkEvent (d + 3 - Z.of_nat n) (Some tt) true
     else delay.mkEvent 0 (Some tt) false) /\
  (d + 3 <= Z.of_nat n ->
   HmoveCt t' =
   countdown (phi2_count (p + d + 3) (Z.to_nat (Z.of_nat n - (d + 3) + 1))) 15) /\
  (Z.of_nat n = d -> HmoveLatch t' = negb (hpos t' =? 0)).

(** The payload that the next tick of a slot hands to its closure. *)
Definition fires {A : Type} (e : delay.Event A) : option A :=
  if delay.remainingCycles e =? 1 then delay.payload e else None.

(** Whether the video cycle that starts in [t] with input [i] runs
    [newScanline]: from [futureHsync], or from the slot of an RSYNC strobe
    made earlier (one made in this cycle has three more cycles to wait). *)
Definition new_scanline_due (t : TIA) (i : input) : bool :=
  match fires (futureHsync t) with
  | Some NewScanline => true
  | _ => false
  end
  || (negb (is_rsync i) &&
      match fires (futureRsyncAlign t) with
      | Some _ => true
      | None => false
      end).

(** The value that an input writes to the register [name], if it does. *)
Definition written (name : string) (i : input) : option Z :=
  match i with
  | (true, Some d) => if String.eqb (Name d) name then Some (Value d) else None
  | _ => None
  end.

(** What [onVblank] makes of the signal and of the VBLANK bits. *)
Definition vblank_signal (v : Z) (s : SignalAttributes) : SignalAttributes :=
  mkSig (VSync s) (Z.land v 0x02 =? 0x02) (HSync s) (CBurst s).

Definition vblank_bits (v : Z) : VBlankBits :=
  mkVBlankBits (Z.land v 0x80 =? 0x80) (Z.land v 0x40 =? 0x40).

(** Whether [newScanline] runs in cycle [j] of the run of [ins] from [t]. *)
Definition due_at (t : TIA) (ins : list input) (j : nat) : bool :=
  match steps t (take j ins), ins !! j with
  | Some (_, tj), Some i => new_scanline_due tj i
  | _, _ => false
  end.

(** The states that the run of [ins] from [t] passes through, cycle by
    cycle. *)
Fixpoint run_states (t : TIA) (ins : list input) : list TIA :=
  match ins with
  | [] => []
  | (rm, pd) :: rest =>
      match Step t rm pd with
      | Some (_, t') => t' :: run_states t' rest
      | None => []
      end
  end.

(** How many states of a list have Phi2 raised. *)
Fixpoint phi2_seen (l : list TIA) : nat :=
  match l with
  | [] => 0
  | s :: r => ((if phaseclock.Phi2 (pclk s) then 1 else 0) + phi2_seen r)%nat
  end.

(** A slot of [futureHsync] that fires on the next tick. *)
Definition stale (e : delay.Event HsyncEvent) : Prop :=
  delay.remainingCycles e = 1 /\ delay.unresolved e = true.

(** [line_inv] less what it says of HBLANK before the decode of count 17;
    at the count and phase that the reset event of an RSYNC strobe leaves,
    [futureHsync] may still hold an event booked before the reset. *)
Definition line_inv_weak (t : TIA) : Prop :=
  let h := hsync t in
  let left := 4 - (pclk t + 2) mod 4 in
  let e := futureHsync t in
  if h =? 8 then booked e left ResetHSync
  else if h =? 12 then booked e left ResetCBurst
  else if h =? 16 then
    (booked e left HblankOff /\ (pclk t = 2 -> HmoveLatch t = false)) \/
    (quiet e /\ HmoveLatch t = true)
  else if h =? 17 then quiet e /\ (Hblank t = true -> HmoveLatch t = true)
  else if h =? 18 then
    (booked e left HblankOff /\ HmoveLatch t = true) \/
    (quiet e /\ Hblank t = false /\ (pclk t = 2 -> HmoveLatch t = false))
  else if h =? 56 then booked e left NewScanline /\ Hblank t = false
  else if h <? 16 then quiet e \/ (h = 0 /\ pclk t = 0 /\ stale e)
  else quiet e /\ Hblank t = false.

(** What holds from the eighth cycle after an RSYNC strobe on. *)
Definition weak_inv (t : TIA) : Prop :=
  0 <= hsync t <= 56 /\ 0 <= pclk t <= 3 /\
  quiet (futureRsyncAlign t) /\ quiet (futureRsyncReset t) /\ line_inv_weak t.

(** The state [k] cycles after the cycle of an RSYNC strobe, for [k] up to
    6: the alignment event fires in cycle 3 and the reset event in cycle
    7, the phase clock runs on from the aligned phase, and whatever
    [futureHsync] holds fires before the hsync counter next ticks. *)
Definition transit (k : Z) (t : TIA) : Prop :=
  futureRsyncAlign t =
    (if k <? 3 then delay.mkEvent (3 - k) (Some tt) true
     else delay.mkEvent 0 (Some tt) false) /\
  futureRsyncReset t = delay.mkEvent (7 - k) (Some tt) true /\
  pclk t = (2 + k) mod 4 /\ 0 <= hsync t <= 56 /\
  0 <= delay.remainingCycles (futureHsync t) <= 4 - k mod 4 /\
  delay.unresolved (futureHsync t)
  = (0 <? delay.remainingCycles (futureHsync t)).

(** The states reached from [NewTIA] by video cycles, whatever they hand
    to the TIA. *)
Inductive running : TIA -> Prop :=
| running_new : running NewTIA
| running_step (t : TIA) rm pd rdy (t' : TIA) :
    running t -> Step t rm pd = Some (rdy, t') -> running t'.

(** The states in which the scanline has settled: those reached without an
    RSYNC strobe, and those reached by 75 cycles or more without one,
    whatever went before. *)
Inductive settled : TIA -> Prop :=
| settled_reachable (t : TIA) : reachable t -> settled t
| settled_run (t0 : TIA) (ins : list input) rdys (t : TIA) :
    running t0 -> rsync_free ins -> 75 <= len ins ->
    steps t0 ins = Some (rdys, t) -> settled t.

(** An input that books no event: no write at all, or a write to a
    register other than VBLANK, RSYNC and HMOVE. *)
Definition calm (i : input) : bool :=
  match i with
  | (true, Some d) =>
      negb (String.eqb (Name d) "VBLANK") && negb (String.eqb (Name d) "RSYNC")
      && negb (String.eqb (Name d) "HMOVE")
  | _ => true
  end.

End TIAVocabulary.

(** ** A machine to run the orchestrator on *)

(** The TIA, the register write that waits on the bus, and the number of
    bus cycles of the instruction in flight that are done. *)
Definition demo_machine : Type := TIA.TIA * option TIA.ChipData * nat.

Definition demo_tiaStep (m : demo_machine) : bool * demo_machine :=
  let '(t, pd, c) := m in
  match TIA.Step t true pd with
  | Some (rdy, t') => (rdy, (t', None, c))
  | None => (true, (t, None, c))
  end.

(** A CPU that runs [STA WSYNC] over and over: three bus cycles, the
    third of which writes to WSYNC. *)
Definition sta_wsync (rdy : bool) (m : demo_machine)
  : errno + (demo_machine * bool) :=
  let '(t, pd, c) := m in
  match c with
  | 2%nat => inr ((t, Some (TIA.mkChipData "WSYNC" 0), 0%nat), true)
  | _ => inr ((t, None, S c), false)
  end.

Definition demo_vcs : VCS.VCS demo_machine :=
  VCS.mkVCS _ (TIA.NewTIA, None, 0%nat) true [] 0.

Definition demo_Step : nat -> VCS.VCS demo_machine ->
                       option (Z * option errno * VCS.VCS demo_machine) :=
  VCS.Step demo_machine id id id demo_tiaStep id sta_wsync.

(** * Properties *)

(** ** Slice indexing *)

Lemma idx_Some_range {A} (l : list A) i x :
  idx l i = Some x -> 0 <= i < len l.
Proof.
  unfold idx, len. destruct (i <? 0) eqn:E; [discriminate|].
  intros H. apply lookup_lt_Some in H. lia.
Qed.

Lemma idx_in_range {A} (l : list A) i :
  0 <= i < len l -> exists x, idx l i = Some x.
Proof.
  unfold idx, len. intros H. destruct (i <? 0) eqn:E; [lia|].
  destruct (lookup_lt_is_Some_2 l (Z.to_nat i)) as [x Hx]; [lia|]. eauto.
Qed.

Lemma idx_out_of_range {A} (l : list A) i :
  len l <= i -> idx l i = None.
Proof.
  unfold idx, len. intros H. destruct (i <? 0) eqn:E; [reflexivity|].
  apply lookup_ge_None. lia.
Qed.

Lemma idx_nonneg {A} (l : list A) i :
  0 <= i -> idx l i = l !! Z.to_nat i.
Proof. unfold idx. intros H. destruct (i <? 0) eqn:E; [lia|reflexivity]. Qed.

(** ** Parker Bros bank switching *)

Section ParkerBrosFacts.
Import ParkerBros.

Lemma land_1k (a : Z) : 0 <= a <= 0x3ff -> Z.land a 0x03ff = a.
  Proof.
    intros H. change 0x03ff with (Z.ones 10).
    rewrite Z.land_ones by lia. apply Z.mod_small. change (2 ^ 10) with 1024. lia.
  Qed.

Lemma hotspot_below (cart : parkerBros) a p :
    a < 0xfe0 -> hotspot cart a p = (false, cart).
  Proof.
    intros H. unfold hotspot.
    destruct (0xfe0 <=? a) eqn:E; [lia|reflexivity].
  Qed.

  (** A read in the first segment returns the byte of the bank that segment
      0 points to and leaves the mapper as it is. *)
Lemma Read_segment0 (cart : parkerBros) k bk a p :
    idx (segment cart) 0 = Some k ->
    idx (banks cart) k = Some bk ->
    length bk = 1024%nat ->
    0 <= a <= 0x3ff ->
    exists d, bk !! Z.to_nat a = Some d /\ Read cart a p = Some (d, cart).
  Proof.
    intros Hs Hb Hl Ha.
    destruct (idx_in_range bk a) as [d Hd]; [unfold len; lia|].
    exists d. split; [rewrite <- idx_nonneg by lia; exact Hd|].
    unfold Read. rewrite hotspot_below by lia.
    assert (E1 : (0 <=? a) && (a <=? 1023) = true) by lia.
    cbv zeta. cbn match. change 0x0000 with 0. change 0x03ff with 1023 at 1.
    rewrite E1. unfold bank_byte. rewrite Hs, Hb, land_1k by lia.
    rewrite Hd. reflexivity.
  Qed.

Lemma reads_segment0 (cart : parkerBros) k bk accesses :
    idx (segment cart) 0 = Some k ->
    idx (banks cart) k = Some bk ->
    length bk = 1024%nat ->
    Forall (fun ap => 0 <= fst ap <= 0x3ff) accesses ->
    exists ds,
      reads cart accesses = Some (ds, cart) /\
      Forall2 (fun ap d => bk !! Z.to_nat (fst ap) = Some d) accesses ds.
  Proof.
    intros Hs Hb Hl. induction 1 as [|[a p] rest Ha _ IH].
    - exists []. split; [reflexivity|constructor].
    - destruct IH as [ds [Hr Hf]].
      destruct (Read_segment0 cart k bk a p Hs Hb Hl Ha) as [d [Hd HR]].
      exists (d :: ds). split.
      + simpl. rewrite HR, Hr. reflexivity.
      + constructor; assumption.
  Qed.

Lemma hotspot_segment0 (cart : parkerBros) k :
    0 <= k <= 7 ->
    hotspot cart (0x0fe0 + k) false = (true, set_segment cart 0 k).
  Proof.
    intros H.
    assert (k = 0 \/ k = 1 \/ k = 2 \/ k = 3 \/ k = 4 \/ k = 5 \/ k = 6 \/ k = 7)
      as Hk by lia.
    repeat (destruct Hk as [-> | Hk]); try subst k; reflexivity.
  Qed.

Lemma hotspot_passive (cart : parkerBros) a :
    0xfe0 <= a <= 0xff7 -> hotspot cart a true = (true, cart).
  Proof.
    intros H. unfold hotspot.
    destruct ((0xfe0 <=? a) && (a <=? 0xff7)) eqn:E; [reflexivity|lia].
  Qed.

End ParkerBrosFacts.

(** C5.  On a Parker Bros mapper, an active read of or write to the hotspot
    address 0x0FE0+k (k in 0..7) points segment 0 at bank k; from then on
    any run of reads of addresses in 0x0000-0x03FF, passive or not, returns
    the bytes of bank k at those offsets and leaves the mapper as it is; a
    passive read of or write to any hotspot address 0xFE0-0xFF7 leaves the
    mapper, and so all four segments, unchanged. *)
Theorem parkerbros_segment0_hotspot
    (cart : ParkerBros.parkerBros) (k : Z) :
  ParkerBros.well_formed cart ->
  0 <= k <= 7 ->
  let cart' := ParkerBros.set_segment cart 0 k in
  ParkerBros.Read cart (0x0fe0 + k) false = Some (0, cart') /\
  (forall data poke,
      ParkerBros.Write cart (0x0fe0 + k) data false poke = Some (None, cart')) /\
  idx (ParkerBros.segment cart') 0 = Some k /\
  (exists bk,
      idx (ParkerBros.banks cart) k = Some bk /\
      forall accesses : list (Z * bool),
        Forall (fun ap => 0 <= fst ap <= 0x3ff) accesses ->
        exists ds,
          ParkerBros.reads cart' accesses = Some (ds, cart') /\
          Forall2 (fun ap d => bk !! Z.to_nat (fst ap) = Some d) accesses ds) /\
  (forall a, 0xfe0 <= a <= 0xff7 ->
      ParkerBros.Read cart a true = Some (0, cart) /\
      forall data poke, ParkerBros.Write cart a data true poke = Some (None, cart)).
Proof.
  intros (Hb & Hall & Hs) Hk cart'.
  assert (Hseg : idx (ParkerBros.segment cart') 0 = Some k).
  { unfold cart', ParkerBros.set_segment, idx. simpl.
    destruct (ParkerBros.segment cart) as [|s0 ?]; [discriminate|reflexivity]. }
  destruct (idx_in_range (ParkerBros.banks cart) k) as [bk Hbk];
    [unfold len; lia|].
  assert (Hlen : length bk = 1024%nat).
  { rewrite idx_nonneg in Hbk by lia.
    eapply (proj1 (Forall_lookup _ _) Hall); eauto. }
  split; [|split; [|split; [|split]]].
  - unfold ParkerBros.Read. rewrite hotspot_segment0 by lia. reflexivity.
  - intros data poke. unfold ParkerBros.Write.
    rewrite hotspot_segment0 by lia. reflexivity.
  - exact Hseg.
  - exists bk. split; [exact Hbk|]. intros accesses Hacc.
    apply (reads_segment0 cart' k bk accesses); auto.
  - intros a Ha. split.
    + unfold ParkerBros.Read. rewrite hotspot_passive by lia. reflexivity.
    + intros data poke. unfold ParkerBros.Write.
      rewrite hotspot_passive by lia. reflexivity.
Qed.

(** ** Cartridge fingerprinting *)

Section FingerprintFacts.
Import Cartridge.

Lemma byte_is_lookup (b : list Z) (i : nat) (a v : Z) :
  b !! i = Some a -> byte_is b (Z.of_nat i) v = Some (a =? v).
Proof.
  intros H. unfold byte_is. rewrite idx_nonneg by lia.
  rewrite Nat2Z.id, H. reflexivity.
Qed.

Lemma byte_is_succ (b : list Z) (i : nat) (v : Z) :
  byte_is b (Z.of_nat i + 1) v = byte_is b (Z.of_nat (S i)) v.
Proof. f_equal. lia. Qed.

Lemma byte_is_beyond (b : list Z) (i : nat) (v : Z) :
  (length b <= i)%nat -> byte_is b (Z.of_nat i) v = None.
Proof.
  intros H. unfold byte_is. rewrite idx_out_of_range; [reflexivity|].
  unfold len. lia.
Qed.

Lemma count_pair_nonneg x y l : 0 <= count_pair x y l.
Proof.
  induction l as [|a [|c t] IH]; simpl; try lia.
  simpl in IH. destruct ((a =? x) && (c =? y)); lia.
Qed.

Lemma count_pair_short x y (l : list Z) :
  (length l <= 1)%nat -> count_pair x y l = 0.
Proof. destruct l as [|a [|c t]]; simpl; intros; try reflexivity; lia. Qed.

(** The two bytes at positions [i] and [i+1], when both exist, and what they
    contribute to the pair count of the rest of the image. *)
Lemma drop_two (b : list Z) (i : nat) :
  (S i < length b)%nat ->
  exists a c,
    b !! i = Some a /\ b !! S i = Some c /\
    forall x y,
      count_pair x y (drop i b) =
      (if (a =? x) && (c =? y) then 1 else 0) + count_pair x y (drop (S i) b).
Proof.
  intros H.
  destruct (lookup_lt_is_Some_2 b i) as [a Ha]; [lia|].
  destruct (lookup_lt_is_Some_2 b (S i)) as [c Hc]; [lia|].
  exists a, c. split; [exact Ha|]. split; [exact Hc|]. intros x y.
  rewrite (drop_S b a i Ha), (drop_S b c (S i) Hc). reflexivity.
Qed.

(** The tigervision scan reads within the image only, and finds the
    threshold met exactly when enough pairs lie ahead. *)
Lemma loopTigervision_spec (b : list Z) (n i : nat) (t : Z) :
  length b = (i + n + 1)%nat ->
  1 <= t ->
  loopTigervision b n (Z.of_nat i) t =
  Some (t <=? count_pair 0x85 0x3f (drop i b)).
Proof.
  revert i t. induction n as [|n IH]; intros i t Hlen Ht.
  - simpl. rewrite count_pair_short; [f_equal; lia|].
    rewrite length_drop. lia.
  - destruct (drop_two b i) as (a & c & Ha & Hc & Hcount); [lia|].
    cbn [loopTigervision].
    rewrite (byte_is_lookup b i a _ Ha), byte_is_succ,
            (byte_is_lookup b (S i) c _ Hc).
    rewrite (Hcount 0x85 0x3f).
    pose proof (count_pair_nonneg 0x85 0x3f (drop (S i) b)) as Hnn.
    replace (Z.of_nat i + 1) with (Z.of_nat (S i)) by lia.
    destruct (a =? 0x85) eqn:Ea; cbn [and_then andb].
    + destruct (c =? 0x3f) eqn:Ec.
      * destruct (t - 1 =? 0) eqn:E0.
        -- f_equal. lia.
        -- rewrite IH by lia. f_equal. lia.
      * destruct (t =? 0) eqn:E0; [lia|]. rewrite IH by lia. f_equal.
    + destruct (t =? 0) eqn:E0; [lia|]. rewrite IH by lia. f_equal.
Qed.

Lemma fingerprintTigervision_spec (b : list Z) :
  fingerprintTigervision b = Some (5 <=? count_pair 0x85 0x3f b).
Proof.
  unfold fingerprintTigervision. destruct b as [|a b'].
  - reflexivity.
  - replace (Z.to_nat (len (a :: b') - 1)) with (length b')
      by (unfold len; simpl length; lia).
    apply (loopTigervision_spec (a :: b') (length b') 0 5); simpl; lia.
Qed.

Lemma triple_total (b : list Z) (i : nat) x y z :
  (i + 2 < length b)%nat -> exists r, triple b (Z.of_nat i) x y z = Some r.
Proof.
  intros H.
  destruct (lookup_lt_is_Some_2 b i) as [a Ha]; [lia|].
  destruct (lookup_lt_is_Some_2 b (S i)) as [c Hc]; [lia|].
  destruct (lookup_lt_is_Some_2 b (S (S i))) as [d Hd]; [lia|].
  unfold triple.
  replace (Z.of_nat i + 1) with (Z.of_nat (S i)) by lia.
  replace (Z.of_nat i + 2) with (Z.of_nat (S (S i))) by lia.
  rewrite (byte_is_lookup b i a _ Ha), (byte_is_lookup b _ c _ Hc),
          (byte_is_lookup b _ d _ Hd).
  destruct (a =? x), (c =? y); simpl; eauto.
Qed.

Lemma or_else_total (p q : option bool) :
  (exists r, p = Some r) -> (exists r, q = Some r) ->
  exists r, or_else p q = Some r.
Proof. intros [[|] ->] [r ->]; simpl; eauto. Qed.

(** The Parker Bros scan reads within the image only. *)
Lemma loopParkerBros_total (b : list Z) (n i : nat) :
  (i + n + 2 <= length b)%nat ->
  exists r, loopParkerBros b n (Z.of_nat i) = Some r.
Proof.
  revert i. induction n as [|n IH]; intros i H; [simpl; eauto|].
  cbn [loopParkerBros].
  match goal with
  | |- context [match ?scan with _ => _ end] =>
      assert (Hs : exists r, scan = Some r)
  end.
  { repeat apply or_else_total; apply triple_total; lia. }
  destruct Hs as [r ->]. destruct r; [eauto|].
  replace (Z.of_nat i + 1) with (Z.of_nat (S i)) by lia.
  apply IH. lia.
Qed.

Lemma fingerprintParkerBros_total (b : list Z) :
  exists r, fingerprintParkerBros b = Some r.
Proof.
  unfold fingerprintParkerBros.
  destruct (Z.to_nat (len b - 2)) eqn:E; [simpl; eauto|].
  rewrite <- E. apply (loopParkerBros_total b _ 0). unfold len in *. lia.
Qed.

(** An image that ends in 0x85 and does not reach both 3E+ thresholds makes
    the 3E+ scan read one byte past the end. *)
Lemma loop3ePlus_overrun (b : list Z) (n i : nat) (t3e t3f : Z) :
  length b = (i + S n)%nat ->
  b !! (i + n)%nat = Some 0x85 ->
  count_pair 0x85 0x3e (drop i b) < t3e \/
  count_pair 0x85 0x3f (drop i b) < t3f ->
  loop3ePlus b (S n) (Z.of_nat i) t3e t3f = None.
Proof.
  revert i t3e t3f. induction n as [|n IH]; intros i t3e t3f Hlen Hlast Hcnt.
  - cbn [loop3ePlus]. rewrite Nat.add_0_r in Hlast.
    rewrite (byte_is_lookup b i _ _ Hlast), byte_is_succ.
    rewrite byte_is_beyond by lia. reflexivity.
  - destruct (drop_two b i) as (a & c & Ha & Hc & Hcount); [lia|].
    rewrite (Hcount 0x85 0x3e), (Hcount 0x85 0x3f) in Hcnt.
    pose proof (count_pair_nonneg 0x85 0x3e (drop (S i) b)) as Hnn1.
    pose proof (count_pair_nonneg 0x85 0x3f (drop (S i) b)) as Hnn2.
    remember (S n) as m eqn:Hm.
    cbn [loop3ePlus].
    rewrite (byte_is_lookup b i a _ Ha), !byte_is_succ,
            (byte_is_lookup b (S i) c 0x3e Hc), (byte_is_lookup b (S i) c 0x3f Hc).
    replace (Z.of_nat i + 1) with (Z.of_nat (S i)) by lia.
    assert (Hlast' : b !! (S i + n)%nat = Some 0x85).
    { rewrite <- Hlast. f_equal. lia. }
    destruct (a =? 0x85) eqn:Ea; cbn [and_then andb] in *.
    + destruct (c =? 0x3e) eqn:E3e; destruct (c =? 0x3f) eqn:E3f;
        try lia;
        match goal with
        | |- (if ?cond then _ else _) = _ =>
            destruct cond eqn:Econd; [lia|]
        end;
        subst m; apply IH; auto; lia.
    + match goal with
      | |- (if ?cond then _ else _) = _ =>
          destruct cond eqn:Econd; [lia|]
      end.
      subst m; apply IH; auto; lia.
Qed.

Lemma fingerprint3ePlus_overrun (b : list Z) :
  last b = Some 0x85 ->
  count_pair 0x85 0x3e b < 5 \/ count_pair 0x85 0x3f b < 5 ->
  fingerprint3ePlus b = None.
Proof.
  intros Hlast Hcnt. unfold fingerprint3ePlus.
  destruct (length b) as [|n] eqn:Hlen.
  - destruct b; [discriminate Hlast|discriminate Hlen].
  - apply (loop3ePlus_overrun b n 0); auto.
    rewrite last_lookup, Hlen in Hlast. exact Hlast.
Qed.

End FingerprintFacts.

(** *** The decision table *)

Section FingerprintTable.
Import Cartridge.

Lemma and_then_Some (p q : bool) : Some p &&& Some q = Some (p && q).
Proof. destruct p; reflexivity. Qed.

Lemma count_at_nonneg (pat l : list Z) : 0 <= count_at pat l.
Proof.
  induction l as [|a l IH]; [reflexivity|].
  cbn [count_at]. destruct (starts_with pat (a :: l)); lia.
Qed.

Lemma starts_with_short (pat l : list Z) :
  (length l < length pat)%nat -> starts_with pat l = false.
Proof.
  revert l. induction pat as [|p ps IH]; intros l H; [cbn in H; lia|].
  destruct l as [|x xs]; [reflexivity|].
  cbn [starts_with]. rewrite IH by (cbn in H; lia). apply andb_false_r.
Qed.

Lemma count_at_short (pat l : list Z) :
  (length l < length pat)%nat -> count_at pat l = 0.
Proof.
  induction l as [|a l IH]; intros H; [reflexivity|].
  cbn [count_at]. rewrite starts_with_short by exact H.
  rewrite IH by (cbn in H; lia). reflexivity.
Qed.

Lemma existsb_short (pats : list (list Z)) (l : list Z) :
  Forall (fun pat => (length l < length pat)%nat) pats ->
  existsb (fun pat => starts_with pat l) pats = false.
Proof.
  induction 1 as [|pat pats Hp _ IHp]; [reflexivity|].
  cbn [existsb]. rewrite starts_with_short by exact Hp. exact IHp.
Qed.

Lemma any_at_short (pats : list (list Z)) (l : list Z) :
  Forall (fun pat => (length l < length pat)%nat) pats -> any_at pats l = false.
Proof.
  induction l as [|a l IH]; intros H; [reflexivity|].
  cbn [any_at]. rewrite existsb_short by exact H. rewrite IH; [reflexivity|].
  eapply Forall_impl; [exact H|]. cbn. intros; lia.
Qed.

(** The pair count is the count of the two-byte pattern. *)
Lemma count_pair_count_at (x y : Z) (l : list Z) :
  count_pair x y l = count_at [x; y] l.
Proof.
  induction l as [|a [|c t] IH]; [reflexivity| |].
  { cbn [count_at starts_with count_pair]. rewrite andb_false_r. reflexivity. }
  change (count_pair x y (a :: c :: t))
    with ((if (a =? x) && (c =? y) then 1 else 0) + count_pair x y (c :: t)).
  rewrite IH. cbn [count_at starts_with]. rewrite andb_true_r. reflexivity.
Qed.

(** The three bytes from position [i] on. *)
Lemma drop_three (b : list Z) (i : nat) :
  (i + 2 < length b)%nat ->
  exists a c d,
    b !! i = Some a /\ b !! S i = Some c /\ b !! S (S i) = Some d /\
    drop i b = a :: c :: d :: drop (S (S (S i))) b.
Proof.
  intros H.
  destruct (lookup_lt_is_Some_2 b i) as [a Ha]; [lia|].
  destruct (lookup_lt_is_Some_2 b (S i)) as [c Hc]; [lia|].
  destruct (lookup_lt_is_Some_2 b (S (S i))) as [d Hd]; [lia|].
  exists a, c, d. repeat split; try assumption.
  rewrite (drop_S b a i Ha), (drop_S b c (S i) Hc), (drop_S b d (S (S i)) Hd).
  reflexivity.
Qed.

Lemma triple_spec (b : list Z) (i : nat) (x y z : Z) :
  (i + 2 < length b)%nat ->
  triple b (Z.of_nat i) x y z = Some (starts_with [x; y; z] (drop i b)).
Proof.
  intros H. destruct (drop_three b i H) as (a & c & d & Ha & Hc & Hd & ->).
  unfold triple.
  replace (Z.of_nat i + 1) with (Z.of_nat (S i)) by lia.
  replace (Z.of_nat i + 2) with (Z.of_nat (S (S i))) by lia.
  rewrite (byte_is_lookup b i a _ Ha), (byte_is_lookup b _ c _ Hc),
          (byte_is_lookup b _ d _ Hd).
  rewrite !and_then_Some. cbn [starts_with]. rewrite andb_true_r, andb_assoc.
  reflexivity.
Qed.

Lemma or_else_Some (p q : bool) : Some p ||| Some q = Some (p || q).
Proof. destruct p; reflexivity. Qed.

(** The Parker Bros scan finds a pattern exactly when one starts at a
    position it visits. *)
Lemma loopParkerBros_spec (b : list Z) (n i : nat) :
  length b = (i + n + 2)%nat ->
  loopParkerBros b n (Z.of_nat i)
  = Some (any_at parkerbros_patterns (drop i b)).
Proof.
  revert i. induction n as [|n IH]; intros i H.
  - cbn [loopParkerBros]. rewrite any_at_short; [reflexivity|].
    rewrite length_drop.
    unfold parkerbros_patterns. repeat (apply Forall_cons_2; [cbn; lia|]).
    apply Forall_nil_2.
  - cbn [loopParkerBros].
    rewrite !triple_spec by lia. rewrite !or_else_Some.
    destruct (drop_three b i ltac:(lia)) as (a & c & d & Ha & _ & _ & E).
    rewrite (drop_S b a i Ha) in *.
    cbn [any_at]. injection E as E. rewrite E.
    replace (Z.of_nat i + 1) with (Z.of_nat (S i)) by lia.
    rewrite IH by lia. rewrite E.
    unfold parkerbros_patterns. cbn [existsb]. rewrite orb_false_r.
    rewrite !orb_assoc.
    match goal with
    | |- (if ?X then _ else _) = _ => destruct X
    end; reflexivity.
Qed.

Lemma fingerprintParkerBros_spec (b : list Z) :
  fingerprintParkerBros b = Some (any_at parkerbros_patterns b).
Proof.
  unfold fingerprintParkerBros.
  destruct (Nat.le_gt_cases (length b) 2) as [Hs|Hl].
  - replace (Z.to_nat (len b - 2)) with 0%nat by (unfold len; lia).
    cbn [loopParkerBros]. rewrite any_at_short; [reflexivity|].
    unfold parkerbros_patterns. repeat (apply Forall_cons_2; [cbn; lia|]).
    apply Forall_nil_2.
  - exact (loopParkerBros_spec b (Z.to_nat (len b - 2)) 0
             ltac:(unfold len; lia)).
Qed.

Lemma drop_four (b : list Z) (i : nat) :
  (i + 3 < length b)%nat ->
  exists a c d e,
    b !! i = Some a /\ b !! S i = Some c /\ b !! S (S i) = Some d /\
    b !! S (S (S i)) = Some e /\
    drop i b = a :: c :: d :: e :: drop (S (S (S (S i)))) b.
Proof.
  intros H.
  destruct (drop_three b i ltac:(lia)) as (a & c & d & Ha & Hc & Hd & E).
  destruct (lookup_lt_is_Some_2 b (S (S (S i)))) as [e He]; [lia|].
  exists a, c, d, e. repeat split; try assumption.
  rewrite E, (drop_S b e _ He). reflexivity.
Qed.

(** The M-Network scan reads within the image only, and finds the
    threshold met exactly when enough patterns lie ahead. *)
Lemma loopMnetwork_spec (b : list Z) (n i : nat) (t : Z) :
  length b = (i + n + 3)%nat ->
  1 <= t ->
  loopMnetwork b n (Z.of_nat i) t
  = Some (t <=? count_at mnetwork_pattern (drop i b)).
Proof.
  revert i t. induction n as [|n IH]; intros i t Hlen Ht.
  - cbn [loopMnetwork]. rewrite count_at_short; [f_equal; lia|].
    rewrite length_drop. cbn. lia.
  - destruct (drop_four b i ltac:(lia))
      as (a & c & d & e & Ha & Hc & Hd & He & E).
    cbn [loopMnetwork].
    replace (Z.of_nat i + 1) with (Z.of_nat (S i)) by lia.
    replace (Z.of_nat i + 2) with (Z.of_nat (S (S i))) by lia.
    replace (Z.of_nat i + 3) with (Z.of_nat (S (S (S i)))) by lia.
    rewrite (byte_is_lookup b i a _ Ha), (byte_is_lookup b _ c _ Hc),
            (byte_is_lookup b _ d _ Hd), (byte_is_lookup b _ e _ He).
    rewrite !and_then_Some.
    rewrite (drop_S b a i Ha). cbn [count_at].
    rewrite (drop_S b a i Ha) in E. injection E as E. rewrite E.
    unfold mnetwork_pattern at 1. cbn [starts_with].
    rewrite andb_true_r, !andb_assoc. rewrite <- E.
    pose proof (count_at_nonneg mnetwork_pattern (drop (S i) b)) as Hnn.
    destruct ((a =? 126) && (c =? 102) && (d =? 102) && (e =? 102)).
    + destruct (t - 1 =? 0) eqn:E0; [f_equal; lia|].
      rewrite IH by lia. f_equal. lia.
    + destruct (t =? 0) eqn:E0; [lia|]. rewrite IH by lia. f_equal.
Qed.

Lemma fingerprintMnetwork_spec (b : list Z) :
  fingerprintMnetwork b = Some (2 <=? count_at mnetwork_pattern b).
Proof.
  unfold fingerprintMnetwork.
  destruct (Nat.le_gt_cases (length b) 3) as [Hs|Hl].
  - replace (Z.to_nat (len b - 3)) with 0%nat by (unfold len; lia).
    cbn [loopMnetwork]. rewrite count_at_short; [reflexivity|cbn; lia].
  - exact (loopMnetwork_spec b (Z.to_nat (len b - 3)) 0 2
             ltac:(unfold len; lia) ltac:(lia)).
Qed.

(** The 3E+ scan: true once both thresholds are met, which happens before
    the scan reaches the last byte; otherwise it reads one byte past the
    end when the last byte is 0x85, and returns false when it is not. *)
Lemma loop3ePlus_spec (b : list Z) (n i : nat) (t3e t3f x : Z) :
  length b = (i + S n)%nat ->
  b !! (i + n)%nat = Some x ->
  1 <= t3e \/ 1 <= t3f ->
  loop3ePlus b (S n) (Z.of_nat i) t3e t3f =
  if (t3e <=? count_pair 0x85 0x3e (drop i b))
     && (t3f <=? count_pair 0x85 0x3f (drop i b))
  then Some true
  else if x =? 0x85 then None else Some false.
Proof.
  revert i t3e t3f. induction n as [|n IH]; intros i t3e t3f Hlen Hlast Ht.
  - rewrite Nat.add_0_r in Hlast.
    rewrite !count_pair_short by (rewrite length_drop; lia).
    replace ((t3e <=? 0) && (t3f <=? 0)) with false by lia.
    cbn [loop3ePlus].
    rewrite (byte_is_lookup b i _ _ Hlast), byte_is_succ.
    rewrite byte_is_beyond by lia.
    destruct (x =? 0x85); cbn [and_then]; [reflexivity|].
    replace ((t3e <=? 0) && (t3f <=? 0)) with false by lia. reflexivity.
  - destruct (drop_two b i) as (a & c & Ha & Hc & Hcount); [lia|].
    rewrite (Hcount 0x85 0x3e), (Hcount 0x85 0x3f).
    pose proof (count_pair_nonneg 0x85 0x3e (drop (S i) b)) as Hnn1.
    pose proof (count_pair_nonneg 0x85 0x3f (drop (S i) b)) as Hnn2.
    remember (S n) as m eqn:Hm.
    cbn [loop3ePlus].
    rewrite (byte_is_lookup b i a _ Ha), !byte_is_succ,
            (byte_is_lookup b (S i) c 0x3e Hc), (byte_is_lookup b (S i) c 0x3f Hc).
    replace (Z.of_nat i + 1) with (Z.of_nat (S i)) by lia.
    assert (Hlast' : b !! (S i + n)%nat = Some x).
    { rewrite <- Hlast. f_equal. lia. }
    rewrite !and_then_Some.
    destruct (a =? 0x85) eqn:Ea; cbn [andb].
    + destruct (c =? 0x3e) eqn:E3e; destruct (c =? 0x3f) eqn:E3f; try lia;
        match goal with
        | |- (if ?cond then _ else _) = _ => destruct cond eqn:Econd
        end;
        try (replace ((t3e <=? 1 + count_pair 133 62 (drop (S i) b))
                      && (t3f <=? 0 + count_pair 133 63 (drop (S i) b)))
               with true by lia; reflexivity);
        try (replace ((t3e <=? 0 + count_pair 133 62 (drop (S i) b))
                      && (t3f <=? 1 + count_pair 133 63 (drop (S i) b)))
               with true by lia; reflexivity);
        try (replace ((t3e <=? 0 + count_pair 133 62 (drop (S i) b))
                      && (t3f <=? 0 + count_pair 133 63 (drop (S i) b)))
               with true by lia; reflexivity);
        subst m; rewrite IH by (auto; lia);
        match goal with
        | |- (if ?c1 then _ else _) = (if ?c2 then _ else _) =>
            replace c2 with c1; [reflexivity|]
        end;
        f_equal; lia.
    + match goal with
      | |- (if ?cond then _ else _) = _ => destruct cond eqn:Econd
      end.
      * replace ((t3e <=? 0 + count_pair 133 62 (drop (S i) b))
                 && (t3f <=? 0 + count_pair 133 63 (drop (S i) b)))
          with true by lia. reflexivity.
      * subst m. rewrite IH by (auto; lia). reflexivity.
Qed.

Lemma fingerprint3ePlus_spec (b : list Z) (x : Z) :
  last b = Some x ->
  fingerprint3ePlus b =
  if (5 <=? count_pair 0x85 0x3e b) && (5 <=? count_pair 0x85 0x3f b)
  then Some true
  else if x =? 0x85 then None else Some false.
Proof.
  intros Hlast. unfold fingerprint3ePlus.
  destruct (length b) as [|n] eqn:Hlen.
  - destruct b; [discriminate Hlast|discriminate Hlen].
  - apply (loop3ePlus_spec b n 0 5 5 x); auto; [|lia].
    rewrite last_lookup, Hlen in Hlast. exact Hlast.
Qed.

(** With its four bytes in the image, the Harmony test compares them with
    the signature. *)
Lemma fingerprintHarmony_spec (b : list Z) :
  0x24 <= len b ->
  fingerprintHarmony b = Some (starts_with harmony_signature (drop 0x20 b)).
Proof.
  intros H. unfold len in H.
  destruct (drop_four b 0x20 ltac:(lia))
    as (a & c & d & e & Ha & Hc & Hd & He & E).
  unfold fingerprintHarmony.
  rewrite (byte_is_lookup b 0x20 a _ Ha), (byte_is_lookup b 0x21 c _ Hc),
          (byte_is_lookup b 0x22 d _ Hd), (byte_is_lookup b 0x23 e _ He).
  rewrite !and_then_Some, E. unfold harmony_signature. cbn [starts_with].
  rewrite andb_true_r, !andb_assoc. reflexivity.
Qed.

(** The switch on the size of the image, as a chain of tests. *)
Lemma size_switch {T : Type} (l : Z) (a2 a4 a8 dpc cbs a16 a32 big other : T) :
  match l with
  | 2048 => a2
  | 4096 => a4
  | 8192 => a8
  | 10240 | 10495 => dpc
  | 12288 => cbs
  | 16384 => a16
  | 32768 => a32
  | 65536 => big
  | _ => other
  end =
  if l =? 2048 then a2
  else if l =? 4096 then a4
  else if l =? 8192 then a8
  else if (l =? 10240) || (l =? 10495) then dpc
  else if l =? 12288 then cbs
  else if l =? 16384 then a16
  else if l =? 32768 then a32
  else if l =? 65536 then big
  else other.
Proof.
  destruct l as [|p|p]; try reflexivity.
  do 17 (try (destruct p as [p|p|]; try reflexivity)).
Qed.

(** X6.  For every image of at least 0x24 bytes whose last byte is not
    0x85, [fingerprint] returns, and what it returns is given by the
    decision table: the Harmony signature at offset 0x20 selects DPC+
    whatever else the image holds; failing that, one of the three
    Supercharger sizes selects the Supercharger; failing that, five 85 3E
    pairs together with five 85 3F pairs select 3E+ whatever the size;
    only then does the size decide, with the Tigervision, Parker Bros and
    M-Network scans for 8K, 16K and 32K images, and a cartridge error for
    any other size. *)
Theorem fingerprint_decision_table (data : list Z) :
  0x24 <= len data ->
  last data <> Some 0x85 ->
  fingerprint data = Some (select data).
Proof.
  intros Hlen Hlast.
  destruct (last data) as [x|] eqn:Ex.
  2:{ rewrite last_lookup in Ex. apply lookup_ge_None in Ex.
      unfold len in Hlen. lia. }
  assert (Hx : (x =? 0x85) = false).
  { destruct (Z.eqb_spec x 0x85) as [->|]; [contradiction|reflexivity]. }
  unfold fingerprint, select. cbv zeta.
  rewrite fingerprintHarmony_spec by exact Hlen.
  change (Z.to_nat 0x20) with 32%nat.
  destruct (starts_with harmony_signature (drop 32 data)); [reflexivity|].
  unfold fingerprintSuperchargerFastLoad. cbv zeta.
  destruct ((len data =? 8448) || (len data =? 25344) || (len data =? 33792));
    [reflexivity|].
  rewrite (fingerprint3ePlus_spec data x Ex), Hx.
  destruct ((5 <=? count_pair 133 62 data) && (5 <=? count_pair 133 63 data));
    [reflexivity|].
  rewrite size_switch.
  unfold fingerprint8k, fingerprint16k, fingerprint32k.
  rewrite fingerprintTigervision_spec, fingerprintParkerBros_spec,
          fingerprintMnetwork_spec.
  repeat match goal with
         | |- context [if ?c then _ else _] =>
             lazymatch c with
             | context [if _ then _ else _] => fail
             | _ => destruct c eqn:?
             end
         end; try reflexivity; lia.
Qed.

Lemma fingerprint_decision_table_witness :
  0x24 <= len (repeat 0 32 ++ harmony_signature) /\
  fingerprint (repeat 0 32 ++ harmony_signature) = Some (inr DPCplus) /\
  fingerprint (repeat 0 32 ++ [1; 2; 3; 4]) = Some (inl CartridgeError).
Proof.
  split; [vm_compute; discriminate|]. split.
  - rewrite (fingerprint_decision_table (repeat 0 32 ++ harmony_signature));
      [reflexivity|vm_compute; discriminate|vm_compute; discriminate].
  - rewrite (fingerprint_decision_table (repeat 0 32 ++ [1; 2; 3; 4]));
      [reflexivity|vm_compute; discriminate|vm_compute; discriminate].
Defined.

Lemma starts_with_take (pat l : list Z) :
  starts_with pat l = true <-> take (length pat) l = pat.
Proof.
  revert l. induction pat as [|p ps IH]; intros l; [split; reflexivity|].
  destruct l as [|x xs]; [split; discriminate|].
  cbn [starts_with length take]. rewrite andb_true_iff, IH, Z.eqb_eq.
  split.
  - intros [-> ->]. reflexivity.
  - intros H. injection H as -> H. rewrite H. auto.
Qed.

Lemma existsb_starts_with (pats : list (list Z)) (l : list Z) :
  existsb (fun pat => starts_with pat l) pats = true <->
  exists pat, In pat pats /\ take (length pat) l = pat.
Proof.
  rewrite existsb_exists. split; intros (pat & Hin & H); exists pat;
    (split; [exact Hin|]); apply starts_with_take; exact H.
Qed.

(** One of the patterns starts somewhere in the image. *)
Lemma any_at_exists (pats : list (list Z)) (l : list Z) :
  any_at pats l = true <->
  exists (i : nat) pat,
    (i < length l)%nat /\ In pat pats /\ take (length pat) (drop i l) = pat.
Proof.
  induction l as [|a l IH].
  - split; [discriminate|]. intros (i & pat & Hi & _). cbn in Hi. lia.
  - cbn [any_at]. rewrite orb_true_iff, IH, existsb_starts_with. split.
    + intros [(pat & Hin & H) | (i & pat & Hi & Hin & H)].
      * exists 0%nat, pat. cbn [length drop]. split; [lia|auto].
      * exists (S i), pat. cbn [length drop]. split; [lia|auto].
    + intros ([|i] & pat & Hi & Hin & H).
      * left. exists pat. auto.
      * right. exists i, pat. cbn [length drop] in *. split; [lia|auto].
Qed.

(** An image that matches none of the three tests and does not end in
    0x85 passes the Harmony and the 3E+ scans unmatched. *)
Lemma non_matching_scans (data : list Z) :
  non_matching data -> last data <> Some 0x85 -> 0 < len data ->
  fingerprintHarmony data = Some false /\ fingerprint3ePlus data = Some false.
Proof.
  intros (Hh & _ & Hcnt) Hlast Hlen. split; [exact Hh|].
  destruct (last data) as [x|] eqn:El.
  2:{ destruct data; [discriminate Hlen|].
      rewrite last_cons in El. destruct (last data); discriminate El. }
  rewrite (fingerprint3ePlus_spec data x El).
  replace ((5 <=? count_pair 0x85 0x3e data)
           && (5 <=? count_pair 0x85 0x3f data)) with false
    by (symmetry; apply andb_false_iff; destruct Hcnt; [left|right]; lia).
  destruct (Z.eqb_spec x 0x85) as [->|E]; [congruence|reflexivity].
Qed.

(** X7.  For an 8192-byte image that matches none of the Harmony,
    Supercharger and 3E+ tests and does not end in the byte 0x85, the
    Parker Bros mapper is chosen if and only if the image holds fewer than
    five 85 3F pairs and one of the eight three-byte patterns of the Parker
    Bros scan starts somewhere in it; with fewer than five pairs and none
    of the patterns the plain 8K mapper is chosen. *)
Theorem parkerbros_chosen_iff_pattern (data : list Z) :
  len data = 8192 ->
  non_matching data ->
  last data <> Some 0x85 ->
  let pattern_found :=
    exists (i : nat) pat,
      (i < length data)%nat /\ In pat parkerbros_patterns /\
      take 3 (drop i data) = pat in
  (fingerprint data = Some (inr ParkerBros) <->
   count_pair 0x85 0x3f data < 5 /\ pattern_found) /\
  (fingerprint data = Some (inr Atari8k) <->
   count_pair 0x85 0x3f data < 5 /\ ~ pattern_found).
Proof.
  intros Hlen Hnm Hlast pattern_found.
  destruct (non_matching_scans data Hnm Hlast ltac:(lia)) as [Hh H3].
  assert (Hp : any_at parkerbros_patterns data = true <-> pattern_found).
  { rewrite any_at_exists. unfold pattern_found.
    split; intros (i & pat & Hi & Hin & H); exists i, pat;
      (split; [exact Hi|]); (split; [exact Hin|]);
      unfold parkerbros_patterns in Hin; cbn [In] in Hin;
      repeat (destruct Hin as [<- | Hin]; [exact H|]); contradiction. }
  unfold fingerprint. rewrite Hh, H3.
  unfold fingerprintSuperchargerFastLoad. cbv zeta. rewrite Hlen.
  cbv beta iota. cbn [Z.eqb Pos.eqb orb].
  unfold fingerprint8k. rewrite fingerprintTigervision_spec,
    fingerprintParkerBros_spec.
  destruct (5 <=? count_pair 133 63 data) eqn:Et.
  - split; (split; [discriminate|lia]).
  - destruct (any_at parkerbros_patterns data) eqn:Ea; cbn [chosen].
    + split; split.
      * intros _. split; [lia|]. apply Hp. reflexivity.
      * reflexivity.
      * discriminate.
      * intros [_ Hn]. exfalso. apply Hn, Hp. reflexivity.
    + split; split.
      * discriminate.
      * intros [_ Hf]. apply Hp in Hf. discriminate.
      * intros _. split; [lia|]. intros Hf. apply Hp in Hf. discriminate.
      * reflexivity.
Qed.

Lemma parkerbros_chosen_iff_pattern_witness :
  len ([0x8d; 0xe0; 0x1f] ++ repeat 0 (Z.to_nat 8189)) = 8192 /\
  fingerprint ([0x8d; 0xe0; 0x1f] ++ repeat 0 (Z.to_nat 8189))
  = Some (inr ParkerBros).
Proof.
  assert (L : len ([0x8d; 0xe0; 0x1f] ++ repeat 0 (Z.to_nat 8189)) = 8192)
    by (vm_compute; reflexivity).
  split; [exact L|].
  assert (H1 : non_matching ([0x8d; 0xe0; 0x1f] ++ repeat 0 (Z.to_nat 8189))).
  { split; [vm_compute; reflexivity|]. split; [vm_compute; reflexivity|].
    left. vm_compute. reflexivity. }
  assert (H2 : last ([0x8d; 0xe0; 0x1f] ++ repeat 0 (Z.to_nat 8189)) <> Some 0x85)
    by (vm_compute; discriminate).
  destruct (parkerbros_chosen_iff_pattern _ L H1 H2) as [[_ Hpb] _].
  apply Hpb. split; [vm_compute; reflexivity|].
  exists 0%nat, [0x8d; 0xe0; 0x1f].
  split; [vm_compute; lia|]. split; [left; reflexivity|reflexivity].
Defined.

(** X8.  For a 16384-byte image that matches none of the Harmony,
    Supercharger and 3E+ tests and does not end in the byte 0x85:
    Tigervision is chosen if and only if the image holds at least five
    85 3F pairs; M-Network if and only if it holds fewer than five and the
    pattern 7E 66 66 66 starts at two positions at least; and the plain 16K
    mapper otherwise. *)
Theorem mnetwork_chosen_iff_two_patterns (data : list Z) :
  len data = 16384 ->
  non_matching data ->
  last data <> Some 0x85 ->
  (fingerprint data = Some (inr Tigervision) <->
   5 <= count_pair 0x85 0x3f data) /\
  (fingerprint data = Some (inr Mnetwork) <->
   count_pair 0x85 0x3f data < 5 /\ 2 <= count_at mnetwork_pattern data) /\
  (fingerprint data = Some (inr Atari16k) <->
   count_pair 0x85 0x3f data < 5 /\ count_at mnetwork_pattern data < 2).
Proof.
  intros Hlen Hnm Hlast.
  destruct (non_matching_scans data Hnm Hlast ltac:(lia)) as [Hh H3].
  unfold fingerprint. rewrite Hh, H3.
  unfold fingerprintSuperchargerFastLoad. cbv zeta. rewrite Hlen.
  cbv beta iota. cbn [Z.eqb Pos.eqb orb].
  unfold fingerprint16k.
  rewrite fingerprintTigervision_spec, fingerprintMnetwork_spec.
  destruct (5 <=? count_pair 133 63 data) eqn:Et.
  - repeat split; try discriminate; lia.
  - destruct (2 <=? count_at mnetwork_pattern data) eqn:Em; cbn [chosen];
      repeat split; try discriminate; lia.
Qed.

Lemma mnetwork_chosen_iff_two_patterns_witness :
  len (mnetwork_pattern ++ mnetwork_pattern ++ repeat 0 (Z.to_nat 16376)) = 16384 /\
  fingerprint (mnetwork_pattern ++ mnetwork_pattern ++ repeat 0 (Z.to_nat 16376))
  = Some (inr Mnetwork).
Proof.
  assert (L : len (mnetwork_pattern ++ mnetwork_pattern
                   ++ repeat 0 (Z.to_nat 16376)) = 16384)
    by (vm_compute; reflexivity).
  split; [exact L|].
  assert (H1 : non_matching (mnetwork_pattern ++ mnetwork_pattern
                             ++ repeat 0 (Z.to_nat 16376))).
  { split; [vm_compute; reflexivity|]. split; [vm_compute; reflexivity|].
    left. vm_compute. reflexivity. }
  assert (H2 : last (mnetwork_pattern ++ mnetwork_pattern
                     ++ repeat 0 (Z.to_nat 16376)) <> Some 0x85)
    by (vm_compute; discriminate).
  destruct (mnetwork_chosen_iff_two_patterns _ L H1 H2) as (_ & [_ Hm] & _).
  apply Hm. split; vm_compute; [reflexivity|discriminate].
Defined.

End FingerprintTable.




Lemma fingerprintHarmony_overrun (data : list Z) :
  len data < 0x24 -> agrees_with_harmony_signature data ->
  Cartridge.fingerprintHarmony data = None.
Proof.
  intros Hlen Hsig. unfold Cartridge.fingerprintHarmony, Cartridge.byte_is.
  destruct (idx data 0x23) as [x3|] eqn:E3;
    [apply idx_Some_range in E3; lia|].
  destruct (idx data 0x20) as [x0|] eqn:E0; [|reflexivity].
  apply Hsig in E0; [|lia]. vm_compute in E0. injection E0 as <-.
  destruct (idx data 0x21) as [x1|] eqn:E1; [|reflexivity].
  apply Hsig in E1; [|lia]. vm_compute in E1. injection E1 as <-.
  destruct (idx data 0x22) as [x2|] eqn:E2; [|reflexivity].
  apply Hsig in E2; [|lia]. vm_compute in E2. injection E2 as <-.
  reflexivity.
Qed.

(** C10 (as amended).  Fingerprinting is not total: an image shorter than
    0x24 bytes whose bytes from offset 0x20 on agree with the Harmony
    signature (any image of at most 0x20 bytes among them), and a
    non-matching image whose last byte is 0x85, make [fingerprint] panic
    with an index out of range instead of returning a typed error. *)
Theorem fingerprint_panics (data : list Z) :
  (len data < 0x24 /\ agrees_with_harmony_signature data) \/
  (non_matching data /\ last data = Some 0x85) ->
  Cartridge.fingerprint data = None.
Proof.
  intros [[Hlen Hsig] | [(Hh & Hs & Hcnt) Hlast]]; unfold Cartridge.fingerprint.
  - rewrite fingerprintHarmony_overrun by assumption. reflexivity.
  - rewrite Hh, Hs, fingerprint3ePlus_overrun by assumption. reflexivity.
Qed.

Lemma fingerprint_panics_witness :
  Cartridge.fingerprint [] = None /\
  Cartridge.fingerprint (repeat 0 48 ++ [0x85]) = None.
Proof.
  split.
  - apply fingerprint_panics. left. split; [vm_compute; reflexivity|].
    intros i x Hi H. apply idx_Some_range in H. unfold len in H. simpl in H. lia.
  - apply fingerprint_panics. right. split; [|vm_compute; reflexivity].
    split; [vm_compute; reflexivity|].
    split; [vm_compute; reflexivity|].
    left. vm_compute. reflexivity.
Defined.

(** C10 as stated fails: an image of 0x21 zero bytes is shorter than 0x24
    bytes, yet [fingerprint] returns the typed error for an unrecognised
    size; the Harmony test stops at the first byte that differs. *)
Lemma short_image_typed_error :
  len (repeat 0 33) < 0x24 /\
  Cartridge.fingerprint (repeat 0 33) = Some (inl CartridgeError).
Proof. split; vm_compute; reflexivity. Qed.

Lemma parkerbros_segment0_hotspot_witness :
  ParkerBros.well_formed numbered_cart /\
  0 <= 4 <= 7 /\
  ParkerBros.Read numbered_cart 0x0fe4 false
  = Some (0, ParkerBros.set_segment numbered_cart 0 4) /\
  idx (ParkerBros.segment (ParkerBros.set_segment numbered_cart 0 4)) 0 = Some 4.
Proof.
  assert (W : ParkerBros.well_formed numbered_cart).
  { split; [reflexivity|]. split; [|reflexivity].
    repeat constructor; apply repeat_length. }
  assert (K : 0 <= 4 <= 7) by lia.
  split; [exact W|]. split; [exact K|].
  destruct (parkerbros_segment0_hotspot numbered_cart 4 W K)
    as (HR & _ & Hseg & _).
  split; [exact HR|exact Hseg].
Defined.

(** ** The Parker Bros image, bank by bank *)

Section ParkerBrosImage.
Import ParkerBros.

Lemma land_mask_range (a m : Z) : 0 <= m < 1024 -> 0 <= Z.land a m < 1024.
Proof.
  intros Hm. split; [apply Z.land_nonneg; right; lia|].
  assert (E : Z.land a m = Z.land (Z.land a m) (Z.ones 10)).
  { rewrite <- Z.land_assoc. f_equal.
    rewrite Z.land_ones by lia. symmetry. apply Z.mod_small.
    change (2 ^ 10) with 1024. lia. }
  rewrite E, Z.land_ones by lia.
  change (2 ^ 10) with 1024.
  pose proof (Z.mod_pos_bound (Z.land a m) 1024). lia.
Qed.

Lemma mapped_bank (cart : parkerBros) (b : Z) :
  mapped cart -> 0 <= b <= 7 ->
  exists bk, idx (banks cart) b = Some bk /\ length bk = 1024%nat.
Proof.
  intros ((Hb & Hall & _) & _) Hr.
  destruct (idx_in_range (banks cart) b) as [bk Hbk]; [unfold len; lia|].
  exists bk. split; [exact Hbk|].
  rewrite idx_nonneg in Hbk by lia.
  exact (proj1 (Forall_lookup _ _) Hall _ _ Hbk).
Qed.

Lemma mapped_segment (cart : parkerBros) (s : Z) :
  mapped cart -> 0 <= s <= 3 ->
  exists b, idx (segment cart) s = Some b /\ 0 <= b <= 7.
Proof.
  intros ((_ & _ & Hl) & _ & Hseg & _) Hr.
  destruct (idx_in_range (segment cart) s) as [b Hb]; [unfold len; lia|].
  exists b. split; [exact Hb|].
  rewrite idx_nonneg in Hb by lia.
  exact (proj1 (Forall_lookup _ _) Hseg _ _ Hb).
Qed.

(** Pointing one of the first three segments at a bank keeps the shape. *)
Lemma set_segment_mapped (cart : parkerBros) (s : nat) (k : Z) :
  mapped cart -> (s <= 2)%nat -> 0 <= k <= 7 -> mapped (set_segment cart s k).
Proof.
  intros ((Hb & Hall & Hl) & Hbs & Hseg & H3) Hs Hk.
  unfold mapped, well_formed, set_segment. cbn [banks segment bankSize].
  rewrite length_insert.
  repeat split; try assumption.
  - apply Forall_insert; [exact Hseg|exact Hk].
  - unfold idx in *. cbn [Z.ltb Z.compare] in *.
    rewrite list_lookup_insert_ne; [exact H3|].
    change (Z.to_nat 3) with 3%nat. lia.
Qed.

Lemma hotspot_active (cart : parkerBros) (s k : Z) :
  0 <= s <= 2 -> 0 <= k <= 7 ->
  hotspot cart (0xfe0 + 8 * s + k) false
  = (true, set_segment cart (Z.to_nat s) k).
Proof.
  intros Hs Hk.
  assert (Es : s = 0 \/ s = 1 \/ s = 2) by lia.
  assert (Ek : k = 0 \/ k = 1 \/ k = 2 \/ k = 3 \/ k = 4 \/ k = 5 \/ k = 6 \/ k = 7)
    by lia.
  destruct Es as [-> | [-> | ->]];
    repeat (destruct Ek as [-> | Ek]); try subst k; reflexivity.
Qed.

(** What [hotspot] returns: its flag tells the hotspot addresses; outside
    them and on a passive access the mapper is unchanged, and an active
    access of a hotspot moves one of the first three segments. *)
Lemma hotspot_spec (cart : parkerBros) (a : Z) (p : bool) :
  hotspot cart a p =
  (is_hotspot a,
   if is_hotspot a && negb p
   then set_segment cart (Z.to_nat ((a - 0xfe0) / 8)) ((a - 0xfe0) mod 8)
   else cart).
Proof.
  unfold is_hotspot.
  destruct ((0xfe0 <=? a) && (a <=? 0xff7)) eqn:E.
  - destruct p; cbn [negb andb].
    + unfold hotspot. rewrite E. reflexivity.
    + set (s := (a - 0xfe0) / 8). set (k := (a - 0xfe0) mod 8).
      assert (Ha : a = 0xfe0 + 8 * s + k).
      { unfold s, k. pose proof (Z.div_mod (a - 0xfe0) 8). lia. }
      assert (Hk : 0 <= k <= 7).
      { unfold k. pose proof (Z.mod_pos_bound (a - 0xfe0) 8). lia. }
      assert (Hs : 0 <= s <= 2).
      { unfold s. split; [apply Z.div_pos; lia|].
        apply Z.lt_succ_r. apply Z.div_lt_upper_bound; lia. }
      rewrite Ha at 1. apply hotspot_active; assumption.
  - unfold hotspot. rewrite E. reflexivity.
Qed.

Lemma hotspot_mapped (cart : parkerBros) (a : Z) (p : bool) :
  mapped cart ->
  mapped (snd (hotspot cart a p)) /\
  banks (snd (hotspot cart a p)) = banks cart.
Proof.
  intros Hm. rewrite hotspot_spec. cbn [snd].
  destruct (is_hotspot a && negb p) eqn:E; [|split; [exact Hm|reflexivity]].
  split; [|reflexivity].
  unfold is_hotspot in E.
  apply set_segment_mapped; [exact Hm| |].
  - assert ((a - 0xfe0) / 8 <= 2).
    { apply Z.lt_succ_r. apply Z.div_lt_upper_bound; lia. }
    assert (0 <= (a - 0xfe0) / 8) by (apply Z.div_pos; lia). lia.
  - pose proof (Z.mod_pos_bound (a - 0xfe0) 8). lia.
Qed.

Lemma bank_byte_mapped (cart : parkerBros) (s addr : Z) :
  mapped cart -> 0 <= s <= 3 ->
  exists b bk d,
    idx (segment cart) s = Some b /\ idx (banks cart) b = Some bk /\
    idx bk (Z.land addr 0x03ff) = Some d /\
    bank_byte cart s addr = Some d.
Proof.
  intros Hm Hs.
  destruct (mapped_segment cart s Hm Hs) as (b & Hb & Hbr).
  destruct (mapped_bank cart b Hm Hbr) as (bk & Hbk & Hl).
  destruct (idx_in_range bk (Z.land addr 0x03ff)) as [d Hd].
  { unfold len. pose proof (land_mask_range addr 0x03ff). lia. }
  exists b, bk, d. unfold bank_byte. rewrite Hb, Hbk, Hd. auto.
Qed.

Lemma insert_bank_mapped (cart : parkerBros) (b : Z) (bk' : list Z) :
  mapped cart -> length bk' = 1024%nat ->
  mapped (mkCart (bankSize cart) (<[Z.to_nat b := bk']> (banks cart))
                 (segment cart)).
Proof.
  intros ((Hb & Hall & Hl) & Hbs & Hseg & H3) Hlen.
  unfold mapped, well_formed. cbn [banks segment bankSize].
  rewrite length_insert.
  repeat split; try assumption.
  apply Forall_insert; [exact Hall|exact Hlen].
Qed.

Lemma poke_byte_mapped (cart : parkerBros) (s addr data : Z) :
  mapped cart -> 0 <= s <= 3 ->
  exists cart', poke_byte cart s addr data = Some cart' /\ mapped cart' /\
                segment cart' = segment cart.
Proof.
  intros Hm Hs.
  destruct (mapped_segment cart s Hm Hs) as (b & Hb & Hbr).
  destruct (mapped_bank cart b Hm Hbr) as (bk & Hbk & Hl).
  unfold poke_byte, store. rewrite Hb, Hbk.
  pose proof (land_mask_range addr 0x3dd) as Hr.
  replace ((0 <=? Z.land addr 0x3dd) && (Z.land addr 0x3dd <? Z.of_nat (length bk)))
    with true by lia.
  eexists. split; [reflexivity|]. split; [|reflexivity].
  apply insert_bank_mapped; [exact Hm|]. rewrite length_insert. exact Hl.
Qed.

(** No read panics, whatever the address, and the shape is kept. *)
Lemma Read_mapped (cart : parkerBros) (a : Z) (p : bool) :
  mapped cart ->
  exists d cart', Read cart a p = Some (d, cart') /\ mapped cart'.
Proof.
  intros Hm. unfold Read.
  destruct (hotspot_mapped cart a p Hm) as [Hm' _].
  destruct (hotspot cart a p) as [hs cart']. cbn [snd] in Hm'.
  destruct hs; [eauto|].
  destruct (bank_byte_mapped cart' 0 a Hm') as (_ & _ & d0 & _ & _ & _ & E0); [lia|].
  destruct (bank_byte_mapped cart' 1 a Hm') as (_ & _ & d1 & _ & _ & _ & E1); [lia|].
  destruct (bank_byte_mapped cart' 2 a Hm') as (_ & _ & d2 & _ & _ & _ & E2); [lia|].
  destruct (bank_byte_mapped cart' 3 a Hm') as (_ & _ & d3 & _ & _ & _ & E3); [lia|].
  rewrite E0, E1, E2, E3.
  repeat match goal with
         | |- context [if ?b then _ else _] => destruct b
         end; eauto.
Qed.

(** No write panics, poke or not, and the shape is kept. *)
Lemma Write_mapped (cart : parkerBros) (a data : Z) (p poke : bool) :
  mapped cart ->
  exists e cart', Write cart a data p poke = Some (e, cart') /\ mapped cart'.
Proof.
  intros Hm. unfold Write.
  destruct (hotspot_mapped cart a p Hm) as [Hm' _].
  destruct (hotspot cart a p) as [hs cart']. cbn [snd] in Hm'.
  destruct hs; [eauto|].
  destruct (poke_byte_mapped cart' 0 a data Hm') as (c0 & E0 & M0 & _); [lia|].
  destruct (poke_byte_mapped cart' 1 a data Hm') as (c1 & E1 & M1 & _); [lia|].
  destruct (poke_byte_mapped cart' 2 a data Hm') as (c2 & E2 & M2 & _); [lia|].
  destruct (poke_byte_mapped cart' 3 a data Hm') as (c3 & E3 & M3 & _); [lia|].
  rewrite E0, E1, E2, E3.
  destruct poke; [|eauto].
  repeat match goal with
         | |- context [if ?b then _ else _] => destruct b
         end; eauto.
Qed.

Lemma run_mapped (accesses : list access) : forall cart : parkerBros,
  mapped cart -> exists cart', run cart accesses = Some cart' /\ mapped cart'.
Proof.
  induction accesses as [|[a p|a d p k] rest IH]; intros cart Hm.
  - exists cart. split; [reflexivity|exact Hm].
  - cbn [run]. destruct (Read_mapped cart a p Hm) as (d & c1 & -> & Hm1).
    apply IH. exact Hm1.
  - cbn [run]. destruct (Write_mapped cart a d p k Hm) as (e & c1 & -> & Hm1).
    apply IH. exact Hm1.
Qed.

(** ** The image behind the segments *)

Lemma image_byte_bank (cart : parkerBros) (b r : Z) :
  0 <= r < 1024 ->
  image_byte cart (1024 * b + r) =
  match idx (banks cart) b with
  | Some bk => idx bk r
  | None => None
  end.
Proof.
  intros Hr. unfold image_byte.
  replace ((1024 * b + r) / 1024) with b
    by (apply (Z.div_unique (1024 * b + r) 1024 b r); lia).
  replace ((1024 * b + r) mod 1024) with r
    by (apply (Z.mod_unique (1024 * b + r) 1024 b r); lia).
  reflexivity.
Qed.

(** A read outside the hotspots is the byte of the image that the segment
    of the address points to. *)
Lemma Read_image (cart : parkerBros) (a b : Z) (p : bool) :
  0 <= a <= 0xfff -> is_hotspot a = false ->
  idx (segment cart) (a / 1024) = Some b ->
  Read cart a p =
  match image_byte cart (1024 * b + a mod 1024) with
  | Some d => Some (d, cart)
  | None => None
  end.
Proof.
  intros Ha Hh Hs.
  pose proof (Z.mod_pos_bound a 1024 ltac:(lia)) as Hr.
  rewrite image_byte_bank by lia.
  unfold Read. rewrite hotspot_spec, Hh. cbn [andb].
  assert (El : Z.land a 0x03ff = a mod 1024).
  { change 0x03ff with (Z.ones 10). rewrite Z.land_ones by lia. reflexivity. }
  assert (Hq : 0 <= a / 1024 <= 3).
  { split; [apply Z.div_pos; lia|].
    apply Z.lt_succ_r. apply Z.div_lt_upper_bound; lia. }
  assert (Hc : a / 1024 = 0 \/ a / 1024 = 1 \/ a / 1024 = 2 \/ a / 1024 = 3) by lia.
  pose proof (Z.div_mod a 1024 ltac:(lia)) as Hdm.
  unfold bank_byte. rewrite El.
  destruct Hc as [Hc | [Hc | [Hc | Hc]]]; rewrite Hc in Hs, Hdm.
  - replace ((0 <=? a) && (a <=? 1023)) with true by lia.
    rewrite Hs. destruct (idx (banks cart) b); [|reflexivity].
    destruct (idx _ (a mod 1024)); reflexivity.
  - replace ((0 <=? a) && (a <=? 1023)) with false by lia.
    replace ((1024 <=? a) && (a <=? 2047)) with true by lia.
    rewrite Hs. destruct (idx (banks cart) b); [|reflexivity].
    destruct (idx _ (a mod 1024)); reflexivity.
  - replace ((0 <=? a) && (a <=? 1023)) with false by lia.
    replace ((1024 <=? a) && (a <=? 2047)) with false by lia.
    replace ((2048 <=? a) && (a <=? 3071)) with true by lia.
    rewrite Hs. destruct (idx (banks cart) b); [|reflexivity].
    destruct (idx _ (a mod 1024)); reflexivity.
  - replace ((0 <=? a) && (a <=? 1023)) with false by lia.
    replace ((1024 <=? a) && (a <=? 2047)) with false by lia.
    replace ((2048 <=? a) && (a <=? 3071)) with false by lia.
    replace ((3072 <=? a) && (a <=? 4095)) with true by lia.
    rewrite Hs. destruct (idx (banks cart) b); [|reflexivity].
    destruct (idx _ (a mod 1024)); reflexivity.
Qed.

Lemma slice_length (data : list Z) (o : Z) :
  0 <= o -> o + 1024 <= len data -> length (slice data o 1024) = 1024%nat.
Proof.
  unfold slice, len. intros H1 H2. rewrite length_take, length_drop. lia.
Qed.

Lemma slice_lookup (data : list Z) (o r : Z) :
  0 <= o -> 0 <= r < 1024 ->
  idx (slice data o 1024) r = data !! Z.to_nat (o + r).
Proof.
  intros Ho Hr. rewrite idx_nonneg by lia. unfold slice.
  rewrite lookup_take_lt by lia. rewrite lookup_drop. f_equal. lia.
Qed.

(** What [newParkerBros] builds from an image of the right size. *)
Lemma newParkerBros_image (data : list Z) :
  len data = 8192 ->
  exists cart,
    newParkerBros data = inr cart /\ mapped cart /\
    segment cart = [4; 5; 6; 7] /\
    forall o, 0 <= o < 8192 -> image_byte cart o = data !! Z.to_nat o.
Proof.
  intros Hl. unfold newParkerBros, NumBanks. cbv zeta.
  replace (len data =? 1024 * 8) with true by lia. cbn [negb].
  eexists. split; [reflexivity|].
  change (Z.to_nat 8) with 8%nat. cbn [seq map].
  unfold Initialise, set_segment, NumBanks. cbn [banks segment bankSize].
  split; [|split; [reflexivity|]].
  - unfold mapped, well_formed. cbn [banks segment bankSize].
    split; [|split; [reflexivity|split; [|reflexivity]]].
    + split; [reflexivity|]. split; [|reflexivity].
      repeat constructor; apply slice_length; cbn; lia.
    + cbn. repeat constructor; lia.
  - intros o Ho. unfold image_byte. cbn [banks].
    pose proof (Z.mod_pos_bound o 1024 ltac:(lia)) as Hr.
    pose proof (Z.div_mod o 1024 ltac:(lia)) as Hdm.
    assert (Hq : 0 <= o / 1024 <= 7).
    { split; [apply Z.div_pos; lia|].
      apply Z.lt_succ_r. apply Z.div_lt_upper_bound; lia. }
    assert (Hc : o / 1024 = 0 \/ o / 1024 = 1 \/ o / 1024 = 2 \/ o / 1024 = 3 \/
                 o / 1024 = 4 \/ o / 1024 = 5 \/ o / 1024 = 6 \/ o / 1024 = 7)
      by lia.
    set (rhs := data !! Z.to_nat o).
    repeat (destruct Hc as [Hc | Hc]);
      rewrite Hc in *; rewrite idx_nonneg by lia;
      cbv [lookup list_lookup Z.to_nat Pos.to_nat Pos.iter_op Nat.add];
      subst rhs;
      rewrite slice_lookup by (cbn; lia); f_equal; cbn [Z.of_nat]; lia.
Qed.

(** Overwriting byte [r] of bank [b] changes that byte of the image and no
    other. *)
Lemma image_insert (cart : parkerBros) (b r d : Z) (bk : list Z) :
  mapped cart -> 0 <= b <= 7 -> 0 <= r < 1024 ->
  idx (banks cart) b = Some bk ->
  let cart' := mkCart (bankSize cart)
                      (<[Z.to_nat b := <[Z.to_nat r := d]> bk]> (banks cart))
                      (segment cart) in
  mapped cart' /\
  forall o, 0 <= o < 8192 ->
    image_byte cart' o = if o =? 1024 * b + r then Some d else image_byte cart o.
Proof.
  intros Hm Hb Hr Hbk cart'.
  destruct (mapped_bank cart b Hm Hb) as (bk0 & Hbk0 & Hl).
  rewrite Hbk in Hbk0. injection Hbk0 as <-.
  split.
  { apply insert_bank_mapped; [exact Hm|]. rewrite length_insert. exact Hl. }
  intros o Ho. unfold image_byte, cart'. cbn [banks].
  pose proof (Z.mod_pos_bound o 1024 ltac:(lia)) as Hr'.
  pose proof (Z.div_mod o 1024 ltac:(lia)) as Hdm.
  assert (Hq : 0 <= o / 1024 <= 7).
  { split; [apply Z.div_pos; lia|].
    apply Z.lt_succ_r. apply Z.div_lt_upper_bound; lia. }
  destruct Hm as ((Hlen & _) & _).
  rewrite !(idx_nonneg _ (o / 1024)) by lia.
  rewrite idx_nonneg in Hbk by lia.
  destruct (Z.eq_dec (o / 1024) b) as [Eq|Eq].
  - rewrite Eq. rewrite list_lookup_insert_eq by lia. rewrite Hbk.
    rewrite !idx_nonneg by lia.
    destruct (Z.eqb_spec o (1024 * b + r)) as [E|E].
    + replace (o mod 1024) with r by lia.
      rewrite list_lookup_insert_eq by lia. reflexivity.
    + rewrite list_lookup_insert_ne by lia. reflexivity.
  - rewrite list_lookup_insert_ne by lia.
    destruct (Z.eqb_spec o (1024 * b + r)) as [E|E]; [|reflexivity].
    exfalso. apply Eq. subst o.
    symmetry. apply (Z.div_unique (1024 * b + r) 1024 b r); lia.
Qed.

(** Where [poke] lands: offset [addr & 0x3dd], which is the offset
    [addr & 0x3ff] that a read uses when bits 1 and 5 of the address are
    clear, and only then. *)
Lemma poke_offset (a : Z) :
  Z.land a 0x3ff = Z.land a 0x3dd <-> Z.land a 0x22 = 0.
Proof.
  split; intros H.
  - assert (E : Z.land (Z.land a 0x3ff) 0x22 = Z.land (Z.land a 0x3dd) 0x22)
      by (rewrite H; reflexivity).
    rewrite <- !Z.land_assoc in E.
    change (Z.land 0x3ff 0x22) with 0x22 in E.
    change (Z.land 0x3dd 0x22) with 0 in E.
    rewrite Z.land_0_r in E. exact E.
  - change 0x3ff with (Z.lor 0x3dd 0x22).
    rewrite Z.land_lor_distr_r, H, Z.lor_0_r. reflexivity.
Qed.

(** X1.  [newParkerBros] refuses every image that is not 8192 bytes long
    with a cartridge error.  For an image of 8192 bytes it builds a mapper
    whose four segments show banks 4 to 7: a read of any address of the
    cartridge window outside the hotspots, passive or not, returns the byte
    of the image 4096 further on, and leaves the mapper as it is. *)
Theorem parkerbros_startup_image (data : list Z) :
  (len data <> 8192 -> newParkerBros data = inl CartridgeError) /\
  (len data = 8192 ->
   exists cart,
     newParkerBros data = inr cart /\
     segment cart = [4; 5; 6; 7] /\
     forall a p,
       0 <= a <= 0xfff -> is_hotspot a = false ->
       exists d,
         data !! Z.to_nat (4096 + a) = Some d /\
         Read cart a p = Some (d, cart)).
Proof.
  split.
  - intros H. unfold newParkerBros, NumBanks. cbv zeta.
    replace (len data =? 1024 * 8) with false by lia. reflexivity.
  - intros H. destruct (newParkerBros_image data H) as (cart & E & Hm & Hs & Hi).
    exists cart. split; [exact E|]. split; [exact Hs|].
    intros a p Ha Hh.
    pose proof (Z.mod_pos_bound a 1024 ltac:(lia)) as Hr.
    pose proof (Z.div_mod a 1024 ltac:(lia)) as Hdm.
    assert (Hq : 0 <= a / 1024 <= 3).
    { split; [apply Z.div_pos; lia|].
      apply Z.lt_succ_r. apply Z.div_lt_upper_bound; lia. }
    assert (Hseg : idx (segment cart) (a / 1024) = Some (4 + a / 1024)).
    { rewrite Hs.
      assert (Hc : a / 1024 = 0 \/ a / 1024 = 1 \/ a / 1024 = 2 \/ a / 1024 = 3)
        by lia.
      destruct Hc as [-> | [-> | [-> | ->]]]; reflexivity. }
    rewrite (Read_image cart a (4 + a / 1024) p Ha Hh Hseg).
    rewrite Hi by lia.
    replace (1024 * (4 + a / 1024) + a mod 1024) with (4096 + a) by lia.
    destruct (lookup_lt_is_Some_2 data (Z.to_nat (4096 + a))) as [d Hd].
    { unfold len in H. lia. }
    exists d. rewrite Hd. split; reflexivity.
Qed.

Lemma parkerbros_startup_image_witness :
  len (repeat 7 (Z.to_nat 8192)) = 8192 /\
  exists cart,
    newParkerBros (repeat 7 (Z.to_nat 8192)) = inr cart /\
    Read cart 0x0ffc false = Some (7, cart).
Proof.
  assert (L : len (repeat 7 (Z.to_nat 8192)) = 8192).
  { unfold len. rewrite repeat_length. reflexivity. }
  split; [exact L|].
  destruct (proj2 (parkerbros_startup_image (repeat 7 (Z.to_nat 8192))) L)
    as (cart & E & _ & HR).
  exists cart. split; [exact E|].
  destruct (HR 0x0ffc false ltac:(lia) eq_refl) as (d & Hd & ->).
  assert (E7 : repeat 7 (Z.to_nat 8192) !! Z.to_nat (4096 + 0xffc) = Some 7).
  { vm_compute. reflexivity. }
  rewrite E7 in Hd. injection Hd as <-. reflexivity.
Defined.

(** X2.  On a mapper built by [newParkerBros] no run of reads and writes,
    at any address, passive or not, poking or not, panics; and after any
    such run the last segment still points to the last bank, every segment
    points to one of the eight banks, and the banks are eight of 1024 bytes
    each. *)
Theorem parkerbros_never_panics
    (data : list Z) (cart : parkerBros) (accesses : list access) :
  newParkerBros data = inr cart ->
  exists cart',
    run cart accesses = Some cart' /\
    idx (segment cart') 3 = Some 7 /\
    Forall (fun b => 0 <= b <= 7) (segment cart') /\
    well_formed cart'.
Proof.
  intros E.
  assert (Hm : mapped cart).
  { destruct (Z.eq_dec (len data) 8192) as [Hl|Hl].
    - destruct (newParkerBros_image data Hl) as (c & Ec & Hc & _).
      rewrite Ec in E. injection E as <-. exact Hc.
    - unfold newParkerBros, NumBanks in E. cbv zeta in E.
      replace (len data =? 1024 * 8) with false in E by lia. discriminate. }
  destruct (run_mapped accesses cart Hm) as (cart' & Hr & (Hw & _ & Hs & H3)).
  exists cart'. auto.
Qed.

Lemma parkerbros_never_panics_witness :
  exists cart cart',
    newParkerBros (repeat 0 (Z.to_nat 8192)) = inr cart /\
    run cart [ARead 0x0ff7 false; AWrite 0x0bfe 9 false true; ARead 0xffff true]
    = Some cart' /\
    idx (segment cart') 3 = Some 7.
Proof.
  destruct (newParkerBros (repeat 0 (Z.to_nat 8192))) as [e|cart] eqn:E;
    [vm_compute in E; discriminate|].
  destruct (parkerbros_never_panics (repeat 0 (Z.to_nat 8192)) cart
              [ARead 0x0ff7 false; AWrite 0x0bfe 9 false true; ARead 0xffff true]
              E) as (cart' & Hr & H3 & _).
  exists cart, cart'. split; [reflexivity|]. split; [exact Hr|exact H3].
Defined.

(** X3.  An active read of or write to the hotspot address 0xFE0+8s+k, for
    a segment s in 0..2 and a bank k in 0..7, points segment s at bank k
    and leaves the other segments as they are.  From then on a read of an
    address in the 1K window of segment s returns the byte of bank k at the
    address's offset in the window, and [GetBank] reports bank k, segment s
    and no RAM for it. *)
Theorem parkerbros_switch_segment (cart : parkerBros) (s k : Z) :
  mapped cart -> 0 <= s <= 2 -> 0 <= k <= 7 ->
  let cart' := set_segment cart (Z.to_nat s) k in
  Read cart (0xfe0 + 8 * s + k) false = Some (0, cart') /\
  (forall data poke,
      Write cart (0xfe0 + 8 * s + k) data false poke = Some (None, cart')) /\
  idx (segment cart') s = Some k /\
  (forall s', 0 <= s' <= 3 -> s' <> s ->
      idx (segment cart') s' = idx (segment cart) s') /\
  (forall a p,
      1024 * s <= a <= 1024 * s + 1023 ->
      GetBank cart' a = Some (mkDetails k false s) /\
      exists d,
        image_byte cart (1024 * k + (a - 1024 * s)) = Some d /\
        Read cart' a p = Some (d, cart')).
Proof.
  intros Hm Hs Hk cart'.
  assert (Hm' : mapped cart') by (apply set_segment_mapped; [exact Hm|lia|lia]).
  pose proof Hm as ((_ & _ & Hl) & _).
  assert (Hseg : idx (segment cart') s = Some k).
  { unfold cart', set_segment. cbn [segment]. rewrite idx_nonneg by lia.
    apply list_lookup_insert_eq. lia. }
  split; [|split; [|split; [|split]]].
  - unfold Read. rewrite hotspot_active by lia. reflexivity.
  - intros data poke. unfold Write. rewrite hotspot_active by lia. reflexivity.
  - exact Hseg.
  - intros s' Hs' Hne. unfold cart', set_segment. cbn [segment].
    rewrite !idx_nonneg by lia. apply list_lookup_insert_ne. lia.
  - intros a p Ha.
    assert (Hq : a / 1024 = s).
    { symmetry. apply (Z.div_unique a 1024 s (a - 1024 * s)); lia. }
    assert (Hr : a mod 1024 = a - 1024 * s).
    { symmetry. apply (Z.mod_unique a 1024 s (a - 1024 * s)); lia. }
    split.
    + unfold GetBank.
      assert (Hc : s = 0 \/ s = 1 \/ s = 2) by lia.
      destruct Hc as [-> | [-> | ->]].
      * replace ((0 <=? a) && (a <=? 1023)) with true by lia.
        rewrite Hseg. reflexivity.
      * replace ((0 <=? a) && (a <=? 1023)) with false by lia.
        replace ((1024 <=? a) && (a <=? 2047)) with true by lia.
        rewrite Hseg. reflexivity.
      * replace ((0 <=? a) && (a <=? 1023)) with false by lia.
        replace ((1024 <=? a) && (a <=? 2047)) with false by lia.
        replace ((2048 <=? a) && (a <=? 3071)) with true by lia.
        rewrite Hseg. reflexivity.
    + assert (Hh : is_hotspot a = false) by (unfold is_hotspot; lia).
      rewrite <- Hq in Hseg.
      rewrite (Read_image cart' a k p ltac:(lia) Hh Hseg), Hr.
      destruct (mapped_bank cart k Hm Hk) as (bk & Hbk & Hlen).
      destruct (idx_in_range bk (a - 1024 * s)) as [d Hd]; [unfold len; lia|].
      assert (Ei : forall c, banks c = banks cart ->
                   image_byte c (1024 * k + (a - 1024 * s)) = Some d).
      { intros c Hc. rewrite image_byte_bank by lia. rewrite Hc, Hbk. exact Hd. }
      exists d. rewrite (Ei cart eq_refl), (Ei cart' eq_refl). auto.
Qed.

Lemma numbered_cart_mapped : mapped numbered_cart.
Proof.
  unfold mapped, well_formed.
  split; [|split; [reflexivity|split; [|reflexivity]]].
  - split; [reflexivity|]. split; [|reflexivity].
    repeat constructor; apply repeat_length.
  - change (segment numbered_cart) with [4; 5; 6; 7].
    repeat (apply Forall_cons_2; [lia|]). apply Forall_nil_2.
Qed.

Lemma parkerbros_switch_segment_witness :
  mapped numbered_cart /\
  Read numbered_cart 0x0fea false = Some (0, set_segment numbered_cart 1 2) /\
  Read (set_segment numbered_cart 1 2) 0x0400 false
  = Some (2, set_segment numbered_cart 1 2).
Proof.
  split; [exact numbered_cart_mapped|].
  destruct (parkerbros_switch_segment numbered_cart 1 2 numbered_cart_mapped
              ltac:(lia) ltac:(lia)) as (H1 & _ & _ & _ & H5).
  split; [exact H1|].
  destruct (H5 0x0400 false ltac:(lia)) as (_ & d & Hd & HR).
  vm_compute in Hd. injection Hd as <-. exact HR.
Defined.

(** A poke outside the hotspots, as the image shows it. *)
Lemma Write_poke_image (cart : parkerBros) (a d b : Z) (p : bool) :
  mapped cart -> 0 <= a <= 0xfff -> is_hotspot a = false ->
  idx (segment cart) (a / 1024) = Some b ->
  exists cart',
    Write cart a d p true = Some (Some MemoryBusError, cart') /\
    mapped cart' /\ segment cart' = segment cart /\
    forall o, 0 <= o < 8192 ->
      image_byte cart' o
      = if o =? 1024 * b + Z.land a 0x3dd then Some d else image_byte cart o.
Proof.
  intros Hm Ha Hh Hs.
  assert (Hq : 0 <= a / 1024 <= 3).
  { split; [apply Z.div_pos; lia|].
    apply Z.lt_succ_r. apply Z.div_lt_upper_bound; lia. }
  pose proof (Z.div_mod a 1024 ltac:(lia)) as Hdm.
  pose proof (Z.mod_pos_bound a 1024 ltac:(lia)) as Hr.
  destruct (mapped_segment cart (a / 1024) Hm Hq) as (b' & Hb' & Hbr).
  rewrite Hs in Hb'. injection Hb' as <-.
  destruct (mapped_bank cart b Hm Hbr) as (bk & Hbk & Hlen).
  pose proof (land_mask_range a 0x3dd ltac:(lia)) as Hoff.
  destruct (image_insert cart b (Z.land a 0x3dd) d bk Hm Hbr Hoff Hbk)
    as [Hm' Hi].
  eexists. split; [|split; [exact Hm'|split; [reflexivity|exact Hi]]].
  unfold Write. rewrite hotspot_spec, Hh. cbn [andb].
  assert (Hp : poke_byte cart (a / 1024) a d
               = Some (mkCart (bankSize cart)
                         (<[Z.to_nat b := <[Z.to_nat (Z.land a 0x3dd) := d]> bk]>
                            (banks cart))
                         (segment cart))).
  { unfold poke_byte, store. rewrite Hs, Hbk.
    replace ((0 <=? Z.land a 0x3dd) && (Z.land a 0x3dd <? Z.of_nat (length bk)))
      with true by lia.
    reflexivity. }
  assert (Hc : a / 1024 = 0 \/ a / 1024 = 1 \/ a / 1024 = 2 \/ a / 1024 = 3) by lia.
  destruct Hc as [Hc | [Hc | [Hc | Hc]]]; rewrite Hc in Hp, Hdm.
  - replace ((0 <=? a) && (a <=? 1023)) with true by lia.
    rewrite Hp. reflexivity.
  - replace ((0 <=? a) && (a <=? 1023)) with false by lia.
    replace ((1024 <=? a) && (a <=? 2047)) with true by lia.
    rewrite Hp. reflexivity.
  - replace ((0 <=? a) && (a <=? 1023)) with false by lia.
    replace ((1024 <=? a) && (a <=? 2047)) with false by lia.
    replace ((2048 <=? a) && (a <=? 3071)) with true by lia.
    rewrite Hp. reflexivity.
  - replace ((0 <=? a) && (a <=? 1023)) with false by lia.
    replace ((1024 <=? a) && (a <=? 2047)) with false by lia.
    replace ((2048 <=? a) && (a <=? 3071)) with false by lia.
    replace ((3072 <=? a) && (a <=? 4095)) with true by lia.
    rewrite Hp. reflexivity.
Qed.

(** X4.  A write to an address of the cartridge window outside the hotspots
    always returns a memory bus error.  Without [poke] it leaves the mapper
    as it is.  With [poke] it stores the byte in the bank that the
    address's segment points to, at offset [addr & 0x3dd]: a read of the
    same address returns the poked byte when bits 1 and 5 of the address
    are clear, and the byte it returned before the poke when one of them is
    set. *)
Theorem parkerbros_poke (cart : parkerBros) (a d : Z) (p : bool) :
  mapped cart -> 0 <= a <= 0xfff -> is_hotspot a = false ->
  Write cart a d p false = Some (Some MemoryBusError, cart) /\
  exists cart',
    Write cart a d p true = Some (Some MemoryBusError, cart') /\
    segment cart' = segment cart /\
    (Z.land a 0x22 = 0 -> forall q, Read cart' a q = Some (d, cart')) /\
    (Z.land a 0x22 <> 0 ->
     forall q, exists d0,
       Read cart a q = Some (d0, cart) /\ Read cart' a q = Some (d0, cart')).
Proof.
  intros Hm Ha Hh.
  assert (Hq : 0 <= a / 1024 <= 3).
  { split; [apply Z.div_pos; lia|].
    apply Z.lt_succ_r. apply Z.div_lt_upper_bound; lia. }
  pose proof (Z.mod_pos_bound a 1024 ltac:(lia)) as Hr.
  destruct (mapped_segment cart (a / 1024) Hm Hq) as (b & Hs & Hbr).
  split.
  { unfold Write. rewrite hotspot_spec, Hh. reflexivity. }
  destruct (Write_poke_image cart a d b p Hm Ha Hh Hs)
    as (cart' & HW & Hm' & Hseg & Hi).
  exists cart'. split; [exact HW|]. split; [exact Hseg|].
  assert (Hs' : idx (segment cart') (a / 1024) = Some b) by (rewrite Hseg; exact Hs).
  assert (El : Z.land a 0x3ff = a mod 1024).
  { change 0x3ff with (Z.ones 10). rewrite Z.land_ones by lia. reflexivity. }
  pose proof (land_mask_range a 0x3dd ltac:(lia)) as Hoff.
  split.
  - intros H22 q. apply poke_offset in H22. rewrite El in H22.
    rewrite (Read_image cart' a b q Ha Hh Hs'), Hi by lia.
    rewrite H22, Z.eqb_refl. reflexivity.
  - intros H22 q.
    assert (Hne : a mod 1024 <> Z.land a 0x3dd).
    { intros E. apply H22. apply poke_offset. rewrite El. exact E. }
    rewrite (Read_image cart' a b q Ha Hh Hs'), Hi by lia.
    rewrite (Read_image cart a b q Ha Hh Hs).
    replace (1024 * b + a mod 1024 =? 1024 * b + Z.land a 0x3dd) with false by lia.
    destruct (mapped_bank cart b Hm Hbr) as (bk & Hbk & Hlen).
    destruct (idx_in_range bk (a mod 1024)) as [d0 Hd0]; [unfold len; lia|].
    exists d0. rewrite image_byte_bank by lia. rewrite Hbk, Hd0. auto.
Qed.

Lemma parkerbros_poke_witness :
  mapped numbered_cart /\
  exists cart',
    Write numbered_cart 0x0002 9 false true = Some (Some MemoryBusError, cart') /\
    Read cart' 0x0002 false = Some (4, cart') /\
    Read cart' 0x0000 false = Some (9, cart').
Proof.
  split; [exact numbered_cart_mapped|].
  destruct (parkerbros_poke numbered_cart 0x0002 9 false numbered_cart_mapped
              ltac:(lia) eq_refl) as (_ & cart' & HW & _ & _ & H2).
  exists cart'. split; [exact HW|].
  destruct (H2 ltac:(discriminate) false) as (d0 & R0 & R1).
  vm_compute in R0. injection R0 as <-.
  split; [exact R1|].
  vm_compute in HW. injection HW as <-. vm_compute. reflexivity.
Defined.

(** X5.  [Patch] refuses an offset of 8192 or more with a patch error and
    leaves the mapper as it is; it panics on a negative offset; and for an
    offset within the image it replaces that byte of the image and no
    other, whatever the segments point to, and leaves the segments as they
    are. *)
Theorem parkerbros_patch (cart : parkerBros) (offset d : Z) :
  mapped cart ->
  (8192 <= offset -> Patch cart offset d = Some (Some CartridgePatchOOB, cart)) /\
  (offset < 0 -> Patch cart offset d = None) /\
  (0 <= offset < 8192 ->
   exists cart',
     Patch cart offset d = Some (None, cart') /\
     segment cart' = segment cart /\
     forall o, 0 <= o < 8192 ->
       image_byte cart' o = if o =? offset then Some d else image_byte cart o).
Proof.
  intros Hm. pose proof Hm as ((Hlen & _ & _) & Hbs & _).
  assert (Hsize : bankSize cart * len (banks cart) = 8192).
  { rewrite Hbs. unfold len. rewrite Hlen. reflexivity. }
  unfold Patch. rewrite Hsize, Hbs. change (1024 =? 0) with false. cbv iota zeta.
  split; [|split].
  - intros H. replace (offset >=? 8192) with true by lia. reflexivity.
  - intros H. replace (offset >=? 8192) with false by lia.
    assert (Hle : offset <= 0) by lia.
    pose proof (Z.rem_bound_pos_neg offset 1024 eq_refl Hle) as Hrb.
    pose proof (Z.quot_rem' offset 1024) as Hqr.
    set (q := Z.quot offset 1024) in *. set (r := Z.rem offset 1024) in *.
    destruct (Z.eq_dec q 0) as [E|E].
    + rewrite E.
      destruct (mapped_bank cart 0 Hm ltac:(lia)) as (bk & Hbk & _).
      rewrite Hbk. unfold store.
      replace (0 <=? r) with false by lia. reflexivity.
    + unfold idx. replace (q <? 0) with true by lia.
      reflexivity.
  - intros H. replace (offset >=? 8192) with false by lia.
    rewrite Z.quot_div_nonneg, Z.rem_mod_nonneg by lia.
    pose proof (Z.mod_pos_bound offset 1024 ltac:(lia)) as Hr.
    pose proof (Z.div_mod offset 1024 ltac:(lia)) as Hdm.
    assert (Hq : 0 <= offset / 1024 <= 7).
    { split; [apply Z.div_pos; lia|].
      apply Z.lt_succ_r. apply Z.div_lt_upper_bound; lia. }
    destruct (mapped_bank cart (offset / 1024) Hm Hq) as (bk & Hbk & Hl).
    rewrite Hbk. unfold store.
    replace ((0 <=? offset mod 1024) && (offset mod 1024 <? Z.of_nat (length bk)))
      with true by lia.
    eexists. split; [reflexivity|]. split; [reflexivity|].
    intros o Ho.
    destruct (image_insert cart (offset / 1024) (offset mod 1024) d bk
                Hm Hq Hr Hbk) as [_ Hi].
    rewrite Hbs in Hi. rewrite (Hi o Ho).
    replace (1024 * (offset / 1024) + offset mod 1024) with offset by lia.
    reflexivity.
Qed.

Lemma parkerbros_patch_witness :
  mapped numbered_cart /\
  exists cart',
    Patch numbered_cart 4097 9 = Some (None, cart') /\
    Read cart' 0x0001 false = Some (9, cart').
Proof.
  split; [exact numbered_cart_mapped|].
  destruct (parkerbros_patch numbered_cart 4097 9 numbered_cart_mapped)
    as (_ & _ & H3).
  destruct (H3 ltac:(lia)) as (cart' & HP & _ & _).
  exists cart'. split; [exact HP|].
  vm_compute in HP. injection HP as <-. vm_compute. reflexivity.
Defined.

End ParkerBrosImage.

(** ** Hand controllers *)

Section HandControllerFacts.
Import Input.

(** Except for a keypad rune that is refused, an event that [Handle]
    rejects leaves the controller as it was. *)
Lemma record_event_not_rejected (hc : HandController) event value :
  ~ rejects (fst (record_event hc event value)).
Proof.
  unfold record_event, rejects.
  destruct (recorder hc) as [rec|]; simpl; [destruct (rec event value)|];
    intros [H|H]; discriminate H.
Qed.

Lemma Handle_rejects_unchanged (hc : HandController) (event : Event)
      (value : EventValue) :
  rejects (fst (Handle hc event value)) ->
  (forall r, event = KeyboardDown -> value <> VRune r) ->
  snd (Handle hc event value) = hc.
Proof.
  intros Hrej Hkey.
  destruct event; destruct value; cbn [Handle] in *;
    try reflexivity;
    try (exfalso; eapply Hkey; reflexivity);
    try (exfalso; eapply record_event_not_rejected; exact Hrej).
  all: destruct Hrej as [Hrej|Hrej]; discriminate Hrej.
Qed.

(** A rune that passes the test is recorded as the active key; any other
    rune is refused with a bad-input-event error, the controller type
    having been switched to the keyboard already. *)
Lemma Handle_KeyboardDown (hc : HandController) (r : Z) :
  Handle hc KeyboardDown (VRune r) =
  if passes_keypad_test r then
    record_event
      (set_keyboard (set_which hc KeyboardType)
                    (set_key (hcKeyboard (set_which hc KeyboardType)) r))
      KeyboardDown (VRune r)
  else (Some BadInputEventType, set_which hc KeyboardType).
Proof.
  unfold Handle, passes_keypad_test, rune.
  change (Z.of_N (N_of_ascii "1")) with 49.
  change (Z.of_N (N_of_ascii "2")) with 50.
  change (Z.of_N (N_of_ascii "3")) with 51.
  change (Z.of_N (N_of_ascii "4")) with 52.
  change (Z.of_N (N_of_ascii "5")) with 53.
  change (Z.of_N (N_of_ascii "6")) with 54.
  change (Z.of_N (N_of_ascii "7")) with 55.
  change (Z.of_N (N_of_ascii "8")) with 56.
  change (Z.of_N (N_of_ascii "9")) with 57.
  change (Z.of_N (N_of_ascii "*")) with 42.
  change (Z.of_N (N_of_ascii "#")) with 35.
  destruct (Z.eqb_spec r 49); [subst; reflexivity|].
  destruct (Z.eqb_spec r 50); [subst; reflexivity|].
  destruct (Z.eqb_spec r 51); [subst; reflexivity|].
  destruct (Z.eqb_spec r 52); [subst; reflexivity|].
  destruct (Z.eqb_spec r 53); [subst; reflexivity|].
  destruct (Z.eqb_spec r 54); [subst; reflexivity|].
  destruct (Z.eqb_spec r 55); [subst; reflexivity|].
  destruct (Z.eqb_spec r 56); [subst; reflexivity|].
  destruct (Z.eqb_spec r 57); [subst; reflexivity|].
  destruct (Z.eqb_spec r 42); [subst; reflexivity|].
  destruct (Z.eqb_spec r 35); [subst; reflexivity|].
  cbn [negb andb orb].
  replace ((49 <=? r) && (r <=? 57)) with false by lia.
  reflexivity.
Qed.

(** C7.  The claim fails on the code: a keypad-down event whose rune is
    refused returns a bad-input-event error after the controller type has
    been switched to the keyboard.  On a fresh joystick controller the
    rune 'a' is rejected and leaves the controller in keyboard mode. *)
Theorem refused_rune_switches_controller_type
    (m : inputMemory) (c : ControlBits) :
  let hc := NewHandController0 m c in
  which hc = JoystickType /\
  fst (Handle hc KeyboardDown (VRune (rune "a"%char))) = Some BadInputEventType /\
  which (snd (Handle hc KeyboardDown (VRune (rune "a"%char)))) = KeyboardType.
Proof. repeat split. Qed.

(** C8.  The claim fails on the code: the rune '0' is not among the runes
    the keypad test lets through, so a keypad-down event for '0' returns a
    bad-input-event error and the active key is not recorded. *)
Theorem keypad_zero_refused (hc : HandController) :
  keypad_rune (rune "0"%char) = true /\
  Handle hc KeyboardDown (VRune (rune "0"%char))
  = (Some BadInputEventType, set_which hc KeyboardType) /\
  key (hcKeyboard (snd (Handle hc KeyboardDown (VRune (rune "0"%char)))))
  = key (hcKeyboard hc).
Proof. repeat split. Qed.

(** For every other rune the keypad test agrees with the keypad: the runes
    '1'-'9', '*' and '#' are recorded, everything that is not a keypad rune
    is refused. *)
Lemma keypad_test_misses_only_zero (r : Z) :
  passes_keypad_test r = keypad_rune r && negb (r =? rune "0"%char).
Proof.
  unfold passes_keypad_test, keypad_rune, rune.
  change (Z.of_N (N_of_ascii "0")) with 48.
  change (Z.of_N (N_of_ascii "1")) with 49.
  change (Z.of_N (N_of_ascii "9")) with 57.
  change (Z.of_N (N_of_ascii "*")) with 42.
  change (Z.of_N (N_of_ascii "#")) with 35.
  destruct (Z.eqb_spec r 48); [subst; reflexivity|].
  destruct (Z.eqb_spec r 42); [subst; reflexivity|].
  destruct (Z.eqb_spec r 35); [subst; reflexivity|].
  cbn [negb andb orb]. rewrite !orb_false_r, andb_true_r.
  destruct (Z.leb_spec 49 r), (Z.leb_spec 48 r), (Z.leb_spec r 57);
    try reflexivity; lia.
Qed.

End HandControllerFacts.

(** ** Paddle charge *)

Section PaddleFacts.
Import Input.

Lemma recharge_accumulates (hc : HandController) :
  which hc = PaddleType ->
  charge (hcPaddle hc) < 255 ->
  f32_ge (f32_add (ticks (hcPaddle hc)) paddleSensitivity)
         (resistance (hcPaddle hc)) = false ->
  step hc = with_ticks hc (f32_add (ticks (hcPaddle hc)) paddleSensitivity).
Proof.
  intros Hw Hc Hge. unfold step, recharge. rewrite Hw.
  replace (charge (hcPaddle hc) <? 255) with true by lia.
  cbn -[f32_add f32_ge]. rewrite Hge. reflexivity.
Qed.

Lemma recharge_increments (hc : HandController) :
  which hc = PaddleType ->
  0 <= charge (hcPaddle hc) < 255 ->
  f32_ge (f32_add (ticks (hcPaddle hc)) paddleSensitivity)
         (resistance (hcPaddle hc)) = true ->
  charge (hcPaddle (step hc)) = charge (hcPaddle hc) + 1 /\
  ticks (hcPaddle (step hc)) = f32_zero.
Proof.
  intros Hw Hc Hge. unfold step, recharge. rewrite Hw.
  replace (charge (hcPaddle hc) <? 255) with true by lia.
  cbn -[f32_add f32_ge]. rewrite Hge. cbn.
  split; [|reflexivity]. unfold u8. apply Z.mod_small. lia.
Qed.

Lemma steps_accumulate (k : nat) : forall hc : HandController,
  which hc = PaddleType ->
  charge (hcPaddle hc) < 255 ->
  (forall j, (1 <= j <= k)%nat ->
             f32_ge (accumulated j (ticks (hcPaddle hc)))
                    (resistance (hcPaddle hc)) = false) ->
  steps k hc = with_ticks hc (accumulated k (ticks (hcPaddle hc))).
Proof.
  induction k as [|k IH]; intros hc Hw Hc Hlow.
  - destruct hc as [? ? ? ? ? ? [] ? ?]. reflexivity.
  - cbn [steps]. rewrite recharge_accumulates; auto;
      [|apply (Hlow 1%nat); lia].
    rewrite IH; auto.
    + unfold accumulated. rewrite Nat.iter_succ_r. reflexivity.
    + intros j Hj. specialize (Hlow (S j) ltac:(lia)).
      unfold accumulated in *. rewrite Nat.iter_succ_r in Hlow. exact Hlow.
Qed.

(** Fifty additions of the sensitivity to zero stay below one half in
    single precision; the fifty-first reaches it. *)
Lemma fifty_below_half :
  forallb (fun j => negb (f32_ge (accumulated j f32_zero) f32_half)) (seq 1 50)
  = true.
Proof. vm_compute. reflexivity. Qed.

Lemma fifty_first_reaches_half :
  f32_ge (accumulated 51 f32_zero) f32_half = true.
Proof. vm_compute. reflexivity. Qed.

End PaddleFacts.

(** C9 (as amended).  With a hand controller in paddle mode, the ticks
    accumulator at 0, the paddle resistance at 0.5 and the charge below 255,
    the charge stays what it is for the first 50 recharge ticks and is one
    more after the 51st. *)
Theorem paddle_charge_51st_tick (hc : Input.HandController) :
  Input.which hc = Input.PaddleType ->
  Input.ticks (Input.hcPaddle hc) = Input.f32_zero ->
  Input.resistance (Input.hcPaddle hc) = Input.f32_half ->
  0 <= Input.charge (Input.hcPaddle hc) < 255 ->
  (forall n, (n <= 50)%nat ->
     Input.charge (Input.hcPaddle (Input.steps n hc))
     = Input.charge (Input.hcPaddle hc)) /\
  Input.charge (Input.hcPaddle (Input.steps 51 hc))
  = Input.charge (Input.hcPaddle hc) + 1.
Proof.
  intros Hw Ht Hr Hc.
  assert (Hlow : forall n, (n <= 50)%nat ->
            Input.steps n hc
            = with_ticks hc (accumulated n (Input.ticks (Input.hcPaddle hc)))).
  { intros n Hn. apply steps_accumulate; auto; [lia|].
    intros j Hj. rewrite Ht, Hr.
    pose proof fifty_below_half as H.
    rewrite forallb_forall in H. specialize (H j).
    apply negb_true_iff, H. apply in_seq. lia. }
  split.
  - intros n Hn. rewrite (Hlow n Hn). reflexivity.
  - change 51%nat with (50 + 1)%nat.
    assert (Hsplit : forall a b h,
               Input.steps (a + b) h = Input.steps b (Input.steps a h)).
    { induction a as [|a IHa]; intros b h; [reflexivity|]. simpl. apply IHa. }
    rewrite Hsplit, (Hlow 50%nat) by lia.
    cbn [Input.steps].
    set (hc50 := with_ticks hc (accumulated 50 (Input.ticks (Input.hcPaddle hc)))).
    destruct (recharge_increments hc50) as [Hinc _]; [exact Hw|exact Hc| |exact Hinc].
    subst hc50. cbn -[Input.f32_add Input.f32_ge accumulated].
    rewrite Ht, Hr. exact fifty_first_reaches_half.
Qed.

Lemma paddle_charge_51st_tick_witness :
  Input.which half_paddle = Input.PaddleType /\
  Input.ticks (Input.hcPaddle half_paddle) = Input.f32_zero /\
  Input.resistance (Input.hcPaddle half_paddle) = Input.f32_half /\
  0 <= Input.charge (Input.hcPaddle half_paddle) < 255 /\
  Input.charge (Input.hcPaddle (Input.steps 50 half_paddle)) = 0 /\
  Input.charge (Input.hcPaddle (Input.steps 51 half_paddle)) = 1.
Proof.
  assert (H1 : Input.which half_paddle = Input.PaddleType) by reflexivity.
  assert (H2 : Input.ticks (Input.hcPaddle half_paddle) = Input.f32_zero)
    by reflexivity.
  assert (H3 : Input.resistance (Input.hcPaddle half_paddle) = Input.f32_half)
    by (vm_compute; reflexivity).
  assert (H4 : 0 <= Input.charge (Input.hcPaddle half_paddle) < 255)
    by (change (0 <= 0 < 255); lia).
  split; [exact H1|]. split; [exact H2|]. split; [exact H3|]. split; [exact H4|].
  destruct (paddle_charge_51st_tick half_paddle H1 H2 H3 H4) as [Hlow H51].
  split; [exact (Hlow 50%nat (le_n 50))|exact H51].
Defined.

(** C9 as stated fails when the capacitor is full: at charge 255 the
    51st tick adds nothing. *)
Lemma full_capacitor_stays :
  let hc := Input.set_paddle half_paddle
              (Input.set_charge (Input.hcPaddle half_paddle) 255) in
  Input.which hc = Input.PaddleType /\
  Input.ticks (Input.hcPaddle hc) = Input.f32_zero /\
  Input.resistance (Input.hcPaddle hc) = Input.f32_half /\
  Input.charge (Input.hcPaddle (Input.steps 51 hc))
  <> Input.charge (Input.hcPaddle hc) + 1.
Proof.
  cbv zeta. split; [reflexivity|]. split; [reflexivity|].
  split; [vm_compute; reflexivity|]. vm_compute. discriminate.
Qed.

(** ** Sticks and paddles, event by event *)

Section StickFacts.
Import Input.

(** An event that [Handle] accepts is passed on to the recorder of the
    port, which no case of [Handle] replaces. *)
Lemma Handle_records (hc : HandController) (event : Event) (value : EventValue) :
  event <> NoEvent ->
  well_typed event value = true ->
  (forall r, value = VRune r -> passes_keypad_test r = true) ->
  exists h, Handle hc event value = record_event h event value /\
            recorder h = recorder hc.
Proof.
  intros Hn Hw Hr.
  destruct event; destruct value; try discriminate Hw; try contradiction;
    try (rewrite Handle_KeyboardDown, (Hr _ eq_refl));
    cbn [Handle]; try (eexists; split; [reflexivity|reflexivity]).
  (* Fire *)
  destruct b; [eexists; split; reflexivity|].
  cbn [button hcStick set_stick set_button set_which control].
  destruct (latchFireButton (control hc)); eexists; split; reflexivity.
Qed.

(** X9.  [Handle] accepts every event whose payload has the type the event
    asks for, the keypad runes that fail the keypad test apart: the only
    error such a call can return is the recorder's, and without a recorder
    it returns none.  An unplug event always returns the unplugged error,
    an event that [Handle] does not know the unknown-event error, and a
    payload of the wrong type the bad-input-event error; none of these
    three changes the controller. *)
Theorem handle_accepts_well_typed
    (hc : HandController) (event : Event) (value : EventValue) :
  (event = NoEvent -> Handle hc event value = (None, hc)) /\
  (event = Unplug -> Handle hc event value = (Some InputDeviceUnplugged, hc)) /\
  (forall n, event = OtherEvent n ->
             Handle hc event value = (Some UnknownInputEvent, hc)) /\
  (event <> NoEvent -> event <> Unplug -> (forall n, event <> OtherEvent n) ->
   well_typed event value = false ->
   Handle hc event value = (Some BadInputEventType, hc)) /\
  (event <> NoEvent ->
   well_typed event value = true ->
   (forall r, value = VRune r -> passes_keypad_test r = true) ->
   (fst (Handle hc event value) = None \/
    fst (Handle hc event value) = Some RecorderError) /\
   (recorder hc = None -> fst (Handle hc event value) = None)).
Proof.
  split; [intros ->; reflexivity|].
  split; [intros ->; reflexivity|].
  split; [intros n ->; reflexivity|].
  split.
  - intros H1 H2 H3 Hw.
    destruct event; try contradiction; try (exfalso; eapply H3; reflexivity);
      destruct value; try discriminate Hw; reflexivity.
  - intros Hn Hw Hr.
    destruct (Handle_records hc event value Hn Hw Hr) as (h & -> & Hrec).
    unfold record_event. rewrite Hrec.
    destruct (recorder hc) as [rec|]; [|auto].
    destruct (rec event value); cbn; split; auto; discriminate.
Qed.

Lemma handle_accepts_well_typed_witness :
  fst (Handle (NewHandController0 (mkMem (fun _ => 0) (fun _ => 0))
                                  (mkControl false false))
              Fire (VBool true)) = None.
Proof.
  apply (handle_accepts_well_typed
           (NewHandController0 (mkMem (fun _ => 0) (fun _ => 0))
                               (mkControl false false)) Fire (VBool true));
    [discriminate|reflexivity|discriminate|reflexivity].
Defined.

(** The controller after a direction event. *)
Lemma Handle_direction (hc : HandController) (event : Event) (bit : Z) (b : bool) :
  axis_bit event = Some bit ->
  snd (Handle hc event (VBool b)) = handle_axis hc b bit.
Proof.
  intros H. unfold record_event.
  destruct event; try discriminate H; injection H as <-; cbn [Handle];
    unfold record_event;
    match goal with
    | |- context [recorder ?h] => destruct (recorder h); reflexivity
    end.
Qed.

Lemma axis_byte_cases (a : Z) :
  axis_byte a ->
  a = 0x00 \/ a = 0x10 \/ a = 0x20 \/ a = 0x30 \/ a = 0x40 \/ a = 0x50 \/
  a = 0x60 \/ a = 0x70 \/ a = 0x80 \/ a = 0x90 \/ a = 0xa0 \/ a = 0xb0 \/
  a = 0xc0 \/ a = 0xd0 \/ a = 0xe0 \/ a = 0xf0.
Proof.
  intros [Hr Hl]. change 0x0f with (Z.ones 4) in Hl.
  rewrite Z.land_ones in Hl by lia. change (2 ^ 4) with 16 in Hl.
  pose proof (Z.div_mod a 16 ltac:(lia)) as Hdm.
  assert (0 <= a / 16 <= 15).
  { split; [apply Z.div_pos; lia|].
    apply Z.lt_succ_r. apply Z.div_lt_upper_bound; lia. }
  lia.
Qed.

Lemma axis_bit_cases (event : Event) (bit : Z) :
  axis_bit event = Some bit ->
  bit = 0x10 \/ bit = 0x20 \/ bit = 0x40 \/ bit = 0x80.
Proof. destruct event; intros H; try discriminate H; injection H as <-; auto. Qed.

(** X10.  A direction event drives one bit of the stick's axis byte and no
    other, and keeps it an axis byte: four direction bits in the high
    nibble, the low nibble clear.  A release sets the bit, whatever it
    was.  A press toggles it: it clears a bit that was set, and it sets a
    bit that was clear already, so that a second press without a release
    in between reads as a release.  Every direction event makes the
    controller a joystick. *)
Theorem stick_axis_bits
    (hc : HandController) (event : Event) (bit : Z) (b : bool) :
  axis_bit event = Some bit ->
  axis_byte (axis (hcStick hc)) ->
  let a := axis (hcStick hc) in
  let hc' := snd (Handle hc event (VBool b)) in
  let a' := axis (hcStick hc') in
  axis_byte a' /\
  which hc' = JoystickType /\
  Z.land a' (0xf0 - bit) = Z.land a (0xf0 - bit) /\
  (b = false -> Z.land a' bit = bit) /\
  (b = true -> Z.land a bit = bit -> Z.land a' bit = 0) /\
  (b = true -> Z.land a bit = 0 -> Z.land a' bit = bit).
Proof.
  intros Hb Ha a hc' a'.
  assert (Ea : a' = if b then Z.lxor a bit else Z.lor a bit).
  { unfold a', hc'. rewrite (Handle_direction hc event bit b Hb).
    unfold handle_axis. destruct b; reflexivity. }
  assert (Hw : which hc' = JoystickType).
  { unfold hc'. rewrite (Handle_direction hc event bit b Hb). reflexivity. }
  split; [|split; [exact Hw|]]; rewrite Ea; clear Ea Hw;
    apply axis_byte_cases in Ha; fold a in Ha;
    apply axis_bit_cases in Hb.
  - unfold axis_byte.
    destruct Hb as [-> | [-> | [-> | ->]]];
      repeat (destruct Ha as [Ha | Ha]); rewrite Ha;
      destruct b;
      (split; [split; vm_compute; intros H; discriminate H|reflexivity]).
  - destruct Hb as [-> | [-> | [-> | ->]]];
      repeat (destruct Ha as [Ha | Ha]); rewrite Ha;
      destruct b; (split; [reflexivity|]);
      (split; [intros; try discriminate; reflexivity|]);
      (split; intros H1 H2; try discriminate H1; try discriminate H2;
       reflexivity).
Qed.

Lemma stick_axis_bits_witness :
  axis_byte 0xf0 /\
  Z.land (axis (hcStick
            (snd (Handle (NewHandController0 (mkMem (fun _ => 0) (fun _ => 0))
                                             (mkControl false false))
                         Left (VBool true))))) 0x40 = 0.
Proof.
  assert (Ha : axis_byte 0xf0) by (split; [lia|reflexivity]).
  split; [exact Ha|].
  destruct (stick_axis_bits
              (NewHandController0 (mkMem (fun _ => 0) (fun _ => 0))
                                  (mkControl false false))
              Left 0x40 true eq_refl Ha) as (_ & _ & _ & _ & H5 & _).
  exact (H5 eq_refl eq_refl).
Defined.

Lemma reg_eqb_refl (r : ChipRegister) : reg_eqb r r = true.
Proof. destruct r; reflexivity. Qed.

Lemma reg_eqb_eq (r s : ChipRegister) : reg_eqb r s = true <-> r = s.
Proof. destruct r, s; split; intros H; try reflexivity; discriminate H. Qed.

(** X11.  The two hand controllers share the register of the stick
    directions without disturbing each other.  After a direction event on
    hand controller zero the high nibble of the register is the axis byte
    and the low nibble is what it was; after one on hand controller one the
    low nibble is the axis byte shifted down and the high nibble is what it
    was.  No other register of the RIOT area and none of the TIA area
    changes. *)
Theorem stick_nibbles
    (hc : HandController) (event : Event) (bit : Z) (b : bool) :
  axis_bit event = Some bit ->
  axis_byte (axis (hcStick hc)) ->
  let hc' := snd (Handle hc event (VBool b)) in
  let a' := axis (hcStick hc') in
  let old := riot (mem hc) SWCHA in
  let new := riot (mem hc') SWCHA in
  (port0_stick (hcStick hc) ->
   Z.land new 0xf0 = a' /\ Z.land new 0x0f = Z.land old 0x0f) /\
  (port1_stick (hcStick hc) ->
   Z.land new 0x0f = Z.shiftr a' 4 /\ Z.land new 0xf0 = Z.land old 0xf0) /\
  (axisReg (hcStick hc) = SWCHA ->
   (forall r, r <> SWCHA -> riot (mem hc') r = riot (mem hc) r) /\
   tia (mem hc') = tia (mem hc)).
Proof.
  intros Hb Ha hc' a' old new.
  pose proof (stick_axis_bits hc event bit b Hb Ha) as Hx. cbv zeta in Hx.
  destruct Hx as (Ha' & _). fold hc' in Ha'. fold a' in Ha'.
  assert (Hnew : new = Z.lor (transform (hcStick hc) a')
                             (Z.land (riot (mem hc) (axisReg (hcStick hc)))
                                     (addrMask (hcStick hc))) \/
                 axisReg (hcStick hc) <> SWCHA).
  { destruct (reg_eqb SWCHA (axisReg (hcStick hc))) eqn:E.
    - left. unfold new, a', hc'. rewrite (Handle_direction hc event bit b Hb).
      unfold handle_axis, riot_write, InputDeviceWrite.
      cbn [riot mem set_mem hcStick set_stick set_which axis set_axis axisReg
           transform addrMask]. rewrite E. reflexivity.
    - right. intros H. rewrite H in E. discriminate E. }
  apply axis_byte_cases in Ha'.
  split; [|split].
  - intros (Hreg & Hmask & Htr).
    destruct Hnew as [Hnew|Hne]; [|contradiction].
    rewrite Hreg, Hmask, Htr in Hnew. fold old in Hnew. rewrite Hnew.
    rewrite !Z.land_lor_distr_l, <- !Z.land_assoc.
    change (Z.land 0x0f 0xf0) with 0. change (Z.land 0x0f 0x0f) with 0x0f.
    rewrite Z.land_0_r, Z.lor_0_r.
    split.
    + repeat (destruct Ha' as [Ha' | Ha']); rewrite Ha'; reflexivity.
    + replace (Z.land a' 0x0f) with 0; [reflexivity|].
      repeat (destruct Ha' as [Ha' | Ha']); rewrite Ha'; reflexivity.
  - intros (Hreg & Hmask & Htr).
    destruct Hnew as [Hnew|Hne]; [|contradiction].
    rewrite Hreg, Hmask, Htr in Hnew. fold old in Hnew. rewrite Hnew.
    rewrite !Z.land_lor_distr_l, <- !Z.land_assoc.
    change (Z.land 0xf0 0x0f) with 0. change (Z.land 0xf0 0xf0) with 0xf0.
    rewrite Z.land_0_r, Z.lor_0_r.
    split.
    + repeat (destruct Ha' as [Ha' | Ha']); rewrite Ha'; reflexivity.
    + replace (Z.land (Z.shiftr a' 4) 0xf0) with 0; [reflexivity|].
      repeat (destruct Ha' as [Ha' | Ha']); rewrite Ha'; reflexivity.
  - intros Hreg. unfold hc'. rewrite (Handle_direction hc event bit b Hb).
    unfold handle_axis, riot_write, InputDeviceWrite.
    cbn [riot tia mem set_mem hcStick set_stick set_which axis set_axis axisReg
         transform addrMask]. rewrite Hreg.
    split; [|reflexivity].
    intros r Hr. destruct (reg_eqb r SWCHA) eqn:E; [|reflexivity].
    apply reg_eqb_eq in E. contradiction.
Qed.

Lemma stick_nibbles_witness :
  axis_byte 0xf0 /\
  riot (mem (snd (Handle (NewHandController1 (mkMem (fun _ => 0xff) (fun _ => 0))
                                             (mkControl false false))
                         Up (VBool true)))) SWCHA = 0xfe.
Proof.
  assert (Ha : axis_byte 0xf0) by (split; [lia|reflexivity]).
  split; [exact Ha|].
  destruct (stick_nibbles
              (NewHandController1 (mkMem (fun _ => 0xff) (fun _ => 0))
                                  (mkControl false false))
              Up 0x10 true eq_refl Ha) as (_ & H1 & _).
  destruct H1 as [Hlow Hhigh].
  { split; [reflexivity|]. split; reflexivity. }
  reflexivity.
Defined.

(** X12.  The fire button of the stick is active low in the TIA area: a
    press writes 0x00 to the button register.  A release writes 0x80 when
    the latch bit of VBLANK is clear; when it is set the release leaves the
    register at 0x00, pressed, until [unlatch] is called, which writes
    0x80 as long as the button is not held down.  The physical state of the
    button is recorded either way. *)
Theorem fire_button_latch (hc : HandController) :
  let reg := stickButtonReg (hcStick hc) in
  let pressed := snd (Handle hc Fire (VBool true)) in
  let released := snd (Handle pressed Fire (VBool false)) in
  tia (mem pressed) reg = 0x00 /\
  button (hcStick pressed) = true /\
  unlatch pressed = pressed /\
  button (hcStick released) = false /\
  (latchFireButton (control hc) = false -> tia (mem released) reg = 0x80) /\
  (latchFireButton (control hc) = true ->
   tia (mem released) reg = 0x00 /\
   tia (mem (unlatch released)) reg = 0x80).
Proof.
  intros reg pressed released.
  assert (Ep : pressed
               = tia_write (set_stick (set_which hc JoystickType)
                              (set_button (hcStick hc) true)) reg 0x00 0x00).
  { unfold pressed. cbn [Handle]. unfold record_event.
    match goal with
    | |- context [recorder ?h] => destruct (recorder h); reflexivity
    end. }
  assert (Hc : control pressed = control hc /\
               stickButtonReg (hcStick pressed) = reg)
    by (rewrite Ep; split; reflexivity).
  destruct Hc as [Hc Hreg].
  set (h := set_stick (set_which pressed JoystickType)
                      (set_button (hcStick pressed) false)).
  assert (Er : released
               = if negb (latchFireButton (control hc))
                 then tia_write h reg 0x80 0x00 else h).
  { unfold released. cbn [Handle]. unfold record_event.
    cbn [button hcStick set_stick set_button set_which control stickButtonReg].
    rewrite Hc, Hreg. fold h.
    match goal with
    | |- context [recorder ?x] => destruct (recorder x); reflexivity
    end. }
  assert (Hw : forall x d, tia (mem (tia_write x reg d 0x00)) reg = d).
  { intros x d. unfold tia_write, InputDeviceWrite. cbn [tia mem set_mem].
    rewrite reg_eqb_refl, Z.land_0_r, Z.lor_0_r. reflexivity. }
  assert (Hh : tia (mem h) reg = 0x00 /\ button (hcStick h) = false /\
               stickButtonReg (hcStick h) = reg).
  { unfold h. cbn [mem set_stick set_which hcStick button set_button
                   stickButtonReg].
    rewrite Hreg. split; [rewrite Ep; apply Hw|]. split; reflexivity. }
  destruct Hh as (Hh1 & Hh2 & Hh3).
  split; [rewrite Ep; apply Hw|].
  split; [rewrite Ep; reflexivity|].
  split; [unfold unlatch; rewrite Ep; reflexivity|].
  split; [rewrite Er; destruct (latchFireButton (control hc)); exact Hh2|].
  split.
  - intros Hl. rewrite Er, Hl. cbn [negb]. apply Hw.
  - intros Hl. rewrite Er, Hl. cbn [negb]. split; [exact Hh1|].
    unfold unlatch. rewrite Hh2, Hh3. cbn [negb]. apply Hw.
Qed.

End StickFacts.

Section PaddleRuns.
Import Input.

Lemma steps_add (a b : nat) (hc : HandController) :
  steps (a + b) hc = steps b (steps a hc).
Proof. revert hc. induction a as [|a IH]; intros hc; [reflexivity|]. apply IH. Qed.

(** What a video step leaves alone, and the bounds of the charge. *)
Lemma step_frame (hc : HandController) :
  which (step hc) = which hc /\
  resistance (hcPaddle (step hc)) = resistance (hcPaddle hc) /\
  puckReg (hcPaddle (step hc)) = puckReg (hcPaddle hc) /\
  hcStick (step hc) = hcStick hc /\
  hcKeyboard (step hc) = hcKeyboard hc /\
  riot (mem (step hc)) = riot (mem hc) /\
  (0 <= charge (hcPaddle hc) <= 255 ->
   charge (hcPaddle hc) <= charge (hcPaddle (step hc)) <= 255) /\
  (tia (mem hc) (puckReg (hcPaddle hc)) = charge (hcPaddle hc) ->
   tia (mem (step hc)) (puckReg (hcPaddle hc)) = charge (hcPaddle (step hc))) /\
  (which hc <> PaddleType \/ charge (hcPaddle hc) = 255 -> step hc = hc).
Proof.
  unfold step, recharge.
  destruct (which hc) eqn:Ew;
    try (repeat split; try reflexivity; try lia; intros; assumption).
  destruct (Z.ltb_spec (charge (hcPaddle hc)) 255) as [Hlt|Hge].
  - cbn -[f32_add f32_ge].
    destruct (f32_ge _ _); cbn -[f32_add f32_ge].
    + repeat split; try reflexivity; try exact Ew.
      * unfold u8. rewrite Z.mod_small by lia. lia.
      * unfold u8. rewrite Z.mod_small by lia. lia.
      * intros _. unfold InputDeviceWrite.
        rewrite reg_eqb_refl, Z.land_0_r, Z.lor_0_r. reflexivity.
      * intros [H|H]; [contradiction|lia].
    + repeat split; try reflexivity; try exact Ew; try lia;
        try (intros; assumption).
      intros [H|H]; [contradiction|lia].
  - repeat split; try reflexivity; try exact Ew; try lia; intros; assumption.
Qed.

Lemma steps_frame (n : nat) : forall hc : HandController,
  which (steps n hc) = which hc /\
  resistance (hcPaddle (steps n hc)) = resistance (hcPaddle hc) /\
  puckReg (hcPaddle (steps n hc)) = puckReg (hcPaddle hc) /\
  hcStick (steps n hc) = hcStick hc /\
  hcKeyboard (steps n hc) = hcKeyboard hc /\
  riot (mem (steps n hc)) = riot (mem hc) /\
  (0 <= charge (hcPaddle hc) <= 255 ->
   charge (hcPaddle hc) <= charge (hcPaddle (steps n hc)) <= 255) /\
  (tia (mem hc) (puckReg (hcPaddle hc)) = charge (hcPaddle hc) ->
   tia (mem (steps n hc)) (puckReg (hcPaddle hc))
   = charge (hcPaddle (steps n hc))) /\
  (which hc <> PaddleType \/ charge (hcPaddle hc) = 255 -> steps n hc = hc).
Proof.
  induction n as [|n IH]; intros hc.
  - cbn [steps]. repeat split; try reflexivity; try lia; intros; assumption.
  - cbn [steps].
    destruct (step_frame hc) as (S1 & S2 & S3 & S4 & S5 & S6 & S7 & S8 & S9).
    destruct (IH (step hc)) as (I1 & I2 & I3 & I4 & I5 & I6 & I7 & I8 & I9).
    rewrite I1, I2, I3, I4, I5, I6, S1, S2, S3, S4, S5, S6.
    repeat split; try reflexivity.
    + specialize (S7 H). specialize (I7 ltac:(lia)). lia.
    + specialize (S7 H). specialize (I7 ltac:(lia)). lia.
    + intros H. rewrite S3 in I8. apply I8, S8, H.
    + intros H. specialize (IH hc). rewrite (S9 H).
      apply IH. exact H.
Qed.

(** One period of the recharge: with the accumulator at zero and the
    resistance first met by the [P]-th addition, [P] steps add one to the
    charge and leave the accumulator at zero again. *)
Lemma steps_period (P : nat) (R : float32) (hc : HandController) :
  (1 <= P)%nat ->
  (forall j, (1 <= j < P)%nat -> f32_ge (accumulated j f32_zero) R = false) ->
  f32_ge (accumulated P f32_zero) R = true ->
  which hc = PaddleType ->
  ticks (hcPaddle hc) = f32_zero ->
  resistance (hcPaddle hc) = R ->
  0 <= charge (hcPaddle hc) < 255 ->
  charge (hcPaddle (steps P hc)) = charge (hcPaddle hc) + 1 /\
  ticks (hcPaddle (steps P hc)) = f32_zero.
Proof.
  intros HP Hlow Hhigh Hw Ht Hr Hc.
  assert (Hacc : steps (P - 1) hc
                 = with_ticks hc (accumulated (P - 1) (ticks (hcPaddle hc)))).
  { apply steps_accumulate; [exact Hw|lia|].
    intros j Hj. rewrite Ht, Hr. apply Hlow. lia. }
  replace (steps P hc) with (steps 1 (steps (P - 1) hc)).
  2:{ rewrite <- steps_add. f_equal. lia. }
  rewrite Hacc. cbn [steps].
  set (h := with_ticks hc (accumulated (P - 1) (ticks (hcPaddle hc)))).
  apply (recharge_increments h); [exact Hw|exact Hc|].
  unfold h. cbn -[f32_add f32_ge accumulated].
  rewrite Ht, Hr.
  replace (f32_add (accumulated (P - 1) f32_zero) paddleSensitivity)
    with (accumulated P f32_zero); [exact Hhigh|].
  replace P with (S (P - 1)) at 1 by lia. reflexivity.
Qed.

(** The charge of a paddle after [n] steps, [P] being the period of its
    resistance: one more for every full period, up to 255. *)
Lemma paddle_run (P : nat) (R : float32) :
  (1 <= P)%nat ->
  (forall j, (1 <= j < P)%nat -> f32_ge (accumulated j f32_zero) R = false) ->
  f32_ge (accumulated P f32_zero) R = true ->
  forall (n : nat) (hc : HandController),
    which hc = PaddleType ->
    ticks (hcPaddle hc) = f32_zero ->
    resistance (hcPaddle hc) = R ->
    0 <= charge (hcPaddle hc) <= 255 ->
    charge (hcPaddle (steps n hc))
    = Z.min 255 (charge (hcPaddle hc) + Z.of_nat (n / P)).
Proof.
  intros HP Hlow Hhigh n.
  induction n as [n IH] using lt_wf_ind. intros hc Hw Ht Hr Hc.
  destruct (Z.eq_dec (charge (hcPaddle hc)) 255) as [Hfull|Hnot].
  { destruct (steps_frame n hc) as (_ & _ & _ & _ & _ & _ & _ & _ & Hid).
    rewrite Hid by (right; exact Hfull). lia. }
  destruct (Nat.lt_ge_cases n P) as [Hn|Hn].
  - rewrite Nat.div_small by exact Hn.
    rewrite steps_accumulate; [cbn; lia|exact Hw|lia|].
    intros j Hj. rewrite Ht, Hr. apply Hlow. lia.
  - replace n with (P + (n - P))%nat at 1 by lia.
    rewrite steps_add.
    destruct (steps_period P R hc HP Hlow Hhigh Hw Ht Hr ltac:(lia)) as [Hc1 Ht1].
    destruct (steps_frame P hc) as (F1 & F2 & _).
    rewrite (IH (n - P)%nat ltac:(lia) (steps P hc));
      [|rewrite F1; exact Hw|exact Ht1|rewrite F2; exact Hr|lia].
    rewrite Hc1.
    assert (E : (n / P = S ((n - P) / P))%nat).
    { replace n with ((n - P) + 1 * P)%nat at 1 by lia.
      rewrite Nat.div_add by lia. lia. }
    rewrite E. lia.
Qed.

Lemma period_zero :
  f32_ge (accumulated 1 f32_zero) f32_zero = true.
Proof. vm_compute. reflexivity. Qed.

Lemma period_one :
  forallb (fun j => negb (f32_ge (accumulated j f32_zero) f32_one)) (seq 1 100)
  = true /\
  f32_ge (accumulated 101 f32_zero) f32_one = true.
Proof. split; vm_compute; reflexivity. Qed.

(** The paddle after [PaddleSet]. *)
Lemma Handle_PaddleSet (hc : HandController) (f : float32) :
  let hc' := snd (Handle hc PaddleSet (VFloat32 f)) in
  which hc' = PaddleType /\
  resistance (hcPaddle hc') = f32_sub f32_one f /\
  ticks (hcPaddle hc') = ticks (hcPaddle hc) /\
  charge (hcPaddle hc') = charge (hcPaddle hc).
Proof.
  cbn [Handle]. unfold record_event.
  match goal with
  | |- context [recorder ?h] => destruct (recorder h)
  end; repeat split.
Qed.

(** X13.  A paddle set to position [f] gets the resistance [1 - f] and is
    recharged at a fixed rate from then on: with the accumulator at zero,
    the charge after [n] video steps is the charge before plus one for
    every full period, up to 255 where it stays.  The period is 1 step at
    position 1.0, 51 steps at position 0.5 and 101 steps at position 0.0:
    in single precision a hundred additions of the sensitivity 0.01 stay
    below 1.0. *)
Theorem paddle_recharge_periods (hc : HandController) (n : nat) :
  ticks (hcPaddle hc) = f32_zero ->
  0 <= charge (hcPaddle hc) <= 255 ->
  let set f := snd (Handle hc PaddleSet (VFloat32 f)) in
  let after f := charge (hcPaddle (steps n (set f))) in
  after f32_one = Z.min 255 (charge (hcPaddle hc) + Z.of_nat n) /\
  after f32_half = Z.min 255 (charge (hcPaddle hc) + Z.of_nat (n / 51)) /\
  after f32_zero = Z.min 255 (charge (hcPaddle hc) + Z.of_nat (n / 101)).
Proof.
  intros Ht Hc set after. unfold after, set.
  assert (Hlow : forall k R,
             forallb (fun j => negb (f32_ge (accumulated j f32_zero) R)) (seq 1 k)
             = true ->
             forall j, (1 <= j < S k)%nat ->
                       f32_ge (accumulated j f32_zero) R = false).
  { intros k R H j Hj. rewrite forallb_forall in H.
    apply negb_true_iff, H, in_seq. lia. }
  split; [|split].
  - destruct (Handle_PaddleSet hc f32_one) as (H1 & H2 & H3 & H4).
    rewrite (paddle_run 1 f32_zero ltac:(lia) ltac:(intros; lia) period_zero n);
      [|exact H1|rewrite H3; exact Ht|rewrite H2; vm_compute; reflexivity
       |rewrite H4; exact Hc].
    rewrite H4, Nat.div_1_r. reflexivity.
  - destruct (Handle_PaddleSet hc f32_half) as (H1 & H2 & H3 & H4).
    rewrite (paddle_run 51 f32_half ltac:(lia)
               (Hlow 50%nat f32_half fifty_below_half)
               fifty_first_reaches_half n);
      [|exact H1|rewrite H3; exact Ht|rewrite H2; vm_compute; reflexivity
       |rewrite H4; exact Hc].
    rewrite H4. reflexivity.
  - destruct (Handle_PaddleSet hc f32_zero) as (H1 & H2 & H3 & H4).
    rewrite (paddle_run 101 f32_one ltac:(lia)
               (Hlow 100%nat f32_one (proj1 period_one))
               (proj2 period_one) n);
      [|exact H1|rewrite H3; exact Ht|rewrite H2; vm_compute; reflexivity
       |rewrite H4; exact Hc].
    rewrite H4. reflexivity.
Qed.

Lemma paddle_recharge_periods_witness :
  charge (hcPaddle (steps 100
    (snd (Handle (NewHandController0 (mkMem (fun _ => 0) (fun _ => 0))
                                     (mkControl false false))
                 PaddleSet (VFloat32 f32_zero))))) = 0 /\
  charge (hcPaddle (steps 101
    (snd (Handle (NewHandController0 (mkMem (fun _ => 0) (fun _ => 0))
                                     (mkControl false false))
                 PaddleSet (VFloat32 f32_zero))))) = 1.
Proof.
  split.
  - exact (proj2 (proj2 (paddle_recharge_periods
             (NewHandController0 (mkMem (fun _ => 0) (fun _ => 0))
                                 (mkControl false false)) 100
             eq_refl ltac:(cbn; lia)))).
  - exact (proj2 (proj2 (paddle_recharge_periods
             (NewHandController0 (mkMem (fun _ => 0) (fun _ => 0))
                                 (mkControl false false)) 101
             eq_refl ltac:(cbn; lia)))).
Defined.

(** X14.  Video steps never take the charge of a paddle out of its byte
    and never lower it; at 255 and on a controller that is not a paddle
    they change nothing at all.  They keep the puck register of the TIA
    area equal to the charge.  Grounding the capacitor of a paddle clears
    the charge and leaves the TIA area as it is, so that the puck register
    of the TIA area shows the charge from before until the next increment;
    on a controller that is not a paddle grounding changes nothing. *)
Theorem paddle_charge_bounded (hc : HandController) (n : nat) :
  0 <= charge (hcPaddle hc) <= 255 ->
  charge (hcPaddle hc) <= charge (hcPaddle (steps n hc)) <= 255 /\
  (which hc <> PaddleType \/ charge (hcPaddle hc) = 255 -> steps n hc = hc) /\
  (tia (mem hc) (puckReg (hcPaddle hc)) = charge (hcPaddle hc) ->
   tia (mem (steps n hc)) (puckReg (hcPaddle hc))
   = charge (hcPaddle (steps n hc))) /\
  (which hc = PaddleType ->
   charge (hcPaddle (ground hc)) = 0 /\
   tia (mem (ground hc)) = tia (mem hc) /\
   riot (mem (ground hc)) (puckReg (hcPaddle hc)) = 0) /\
  (which hc <> PaddleType -> ground hc = hc).
Proof.
  intros Hc.
  destruct (steps_frame n hc) as (_ & _ & _ & _ & _ & _ & F7 & F8 & F9).
  split; [exact (F7 Hc)|]. split; [exact F9|]. split; [exact F8|].
  unfold ground. split.
  - intros ->. cbn [charge hcPaddle set_paddle set_charge riot_write set_mem
                    mem tia riot puckReg].
    split; [reflexivity|]. split; [reflexivity|].
    unfold InputDeviceWrite. rewrite reg_eqb_refl, Z.land_0_r. reflexivity.
  - intros H. destruct (which hc); try reflexivity. contradiction.
Qed.

Lemma paddle_charge_bounded_witness :
  steps 1000 (NewHandController0 (mkMem (fun _ => 0) (fun _ => 0))
                                 (mkControl false false))
  = NewHandController0 (mkMem (fun _ => 0) (fun _ => 0)) (mkControl false false).
Proof.
  assert (Hc : 0 <= 0 <= 255) by lia.
  refine (proj1 (proj2 (paddle_charge_bounded
            (NewHandController0 (mkMem (fun _ => 0) (fun _ => 0))
                                (mkControl false false)) 1000 Hc)) _).
  left. discriminate.
Defined.

End PaddleRuns.

(** ** TIA timing *)

Section TIAFacts.
Import TIA.

Ltac frame_side :=
  intros; try reflexivity;
  match goal with
  | p : HsyncEvent |- _ => destruct p; reflexivity
  end.

(** Ticking a slot leaves alone every field that neither the slot's setter
    nor its closure writes. *)
Lemma tick_slot_frame {A B : Type} (f : TIA -> B)
      (get : TIA -> delay.Event A) set closure (t : TIA) :
  (forall t e, f (set t e) = f t) ->
  (forall p t, f (closure p t) = f t) ->
  f (tick_slot get set closure t) = f t.
Proof.
  intros Hs Hc. unfold tick_slot, delay.Tick.
  destruct (delay.remainingCycles (get t) =? 1).
  - cbn. destruct (delay.payload (get t)); rewrite ?Hc, Hs; reflexivity.
  - destruct (delay.remainingCycles (get t) >? 0); cbn; apply Hs.
Qed.

(** A quiet slot does not fire. *)
Lemma tick_slot_quiet {A B : Type} (f : TIA -> B)
      (get : TIA -> delay.Event A) set closure (t : TIA) :
  quiet (get t) ->
  (forall t e, f (set t e) = f t) ->
  f (tick_slot get set closure t) = f t.
Proof.
  intros [Hq _] Hs. unfold tick_slot, delay.Tick. rewrite Hq. cbn. apply Hs.
Qed.

(** The slot itself after its tick. *)
Lemma tick_slot_own {A : Type} (get : TIA -> delay.Event A) set closure (t : TIA) :
  (forall t e, get (set t e) = e) ->
  (forall p t, get (closure p t) = get t) ->
  get (tick_slot get set closure t) = snd (delay.Tick (get t)).
Proof.
  intros Hs Hc. unfold tick_slot, delay.Tick.
  destruct (delay.remainingCycles (get t) =? 1).
  - cbn. destruct (delay.payload (get t)); rewrite ?Hc, Hs; reflexivity.
  - destruct (delay.remainingCycles (get t) >? 0); cbn; apply Hs.
Qed.

(** A field that the closure writes, after the slot's tick. *)
Lemma tick_slot_fired {A B : Type} (f : TIA -> B)
      (get : TIA -> delay.Event A) set closure (t : TIA) :
  (forall t e, f (set t e) = f t) ->
  f (tick_slot get set closure t) =
  if delay.remainingCycles (get t) =? 1 then
    match delay.payload (get t) with
    | Some p => f (closure p (set t (snd (delay.Tick (get t)))))
    | None => f t
    end
  else f t.
Proof.
  intros Hs. unfold tick_slot, delay.Tick.
  destruct (delay.remainingCycles (get t) =? 1).
  - cbn. destruct (delay.payload (get t)); rewrite ?Hs; reflexivity.
  - destruct (delay.remainingCycles (get t) >? 0); cbn; apply Hs.
Qed.

Ltac frame_field f := rewrite (tick_slot_frame f) by frame_side.

Ltac frames :=
  repeat first
    [ frame_field Hblank | frame_field wsync | frame_field HmoveLatch
    | frame_field HmoveCt | frame_field hsync | frame_field pclk
    | frame_field futureVblank | frame_field futureRsyncAlign
    | frame_field futureRsyncReset | frame_field futureHmoveLatch
    | frame_field FutureHmove | frame_field futureHsync
    | frame_field videoCycles ].

Lemma tick_events_futureHsync (t : TIA) :
  futureHsync (tick_events t) = snd (delay.Tick (futureHsync t)).
Proof.
  unfold tick_events. rewrite tick_slot_own by frame_side. frames. reflexivity.
Qed.

Lemma tick_events_futureHmoveLatch (t : TIA) :
  futureHmoveLatch (tick_events t) = snd (delay.Tick (futureHmoveLatch t)).
Proof.
  unfold tick_events. frames.
  rewrite tick_slot_own by frame_side. frames. reflexivity.
Qed.

Lemma tick_events_FutureHmove (t : TIA) :
  FutureHmove (tick_events t) = snd (delay.Tick (FutureHmove t)).
Proof.
  unfold tick_events. frames.
  rewrite tick_slot_own by frame_side. frames. reflexivity.
Qed.

Lemma tick_events_futureRsyncAlign (t : TIA) :
  futureRsyncAlign (tick_events t) = snd (delay.Tick (futureRsyncAlign t)).
Proof.
  unfold tick_events. frames.
  rewrite tick_slot_own by frame_side. frames. reflexivity.
Qed.

Lemma tick_events_futureRsyncReset (t : TIA) :
  futureRsyncReset (tick_events t) = snd (delay.Tick (futureRsyncReset t)).
Proof.
  unfold tick_events. frames.
  rewrite tick_slot_own by frame_side. frames. reflexivity.
Qed.

Lemma tick_events_hsync (t : TIA) :
  quiet (futureRsyncReset t) -> hsync (tick_events t) = hsync t.
Proof.
  intros Hq. unfold tick_events. frames.
  rewrite tick_slot_quiet; [frames; reflexivity| |frame_side].
  frames. exact Hq.
Qed.

Lemma tick_events_pclk (t : TIA) :
  quiet (futureRsyncReset t) -> pclk (tick_events t) = pclk t.
Proof.
  intros Hq. unfold tick_events. frames.
  rewrite tick_slot_quiet; [frames; reflexivity| |frame_side].
  frames. exact Hq.
Qed.

Lemma tick_events_HmoveLatch (t : TIA) :
  HmoveLatch (tick_events t) =
  if delay.remainingCycles (futureHmoveLatch t) =? 1 then
    match delay.payload (futureHmoveLatch t) with
    | Some _ => true
    | None => HmoveLatch t
    end
  else HmoveLatch t.
Proof.
  unfold tick_events. frames.
  rewrite tick_slot_fired by frame_side. frames.
  destruct (_ =? 1); [|reflexivity].
  destruct (delay.payload _); reflexivity.
Qed.

Lemma tick_events_HmoveCt (t : TIA) :
  HmoveCt (tick_events t) =
  if delay.remainingCycles (FutureHmove t) =? 1 then
    match delay.payload (FutureHmove t) with
    | Some _ => 15
    | None => HmoveCt t
    end
  else HmoveCt t.
Proof.
  unfold tick_events. frames.
  rewrite tick_slot_fired by frame_side. frames.
  destruct (_ =? 1); [|reflexivity].
  destruct (delay.payload _); reflexivity.
Qed.

(** HBLANK after the tick of the events, when no RSYNC is under way. *)
Lemma tick_events_Hblank (t : TIA) :
  quiet (futureRsyncAlign t) ->
  Hblank (tick_events t) =
  if delay.remainingCycles (futureHsync t) =? 1 then
    match delay.payload (futureHsync t) with
    | Some NewScanline => true
    | Some HblankOff => false
    | _ => Hblank t
    end
  else Hblank t.
Proof.
  intros Hq. unfold tick_events.
  rewrite tick_slot_fired by frame_side. frames.
  assert (Hb : Hblank (tick_slot futureRsyncAlign set_futureRsyncAlign onRsyncAlign
                     (tick_slot futureVblank set_futureVblank onVblank t))
               = Hblank t).
  { rewrite tick_slot_quiet; [frames; reflexivity| |frame_side].
    frames. exact Hq. }
  destruct (_ =? 1); [|exact Hb].
  destruct (delay.payload _) as [[]|]; cbn -[tick_slot delay.Tick];
    frames; try reflexivity; exact Hb.
Qed.

(** The WSYNC flag after the tick of the events, when no RSYNC is under way. *)
Lemma tick_events_wsync (t : TIA) :
  quiet (futureRsyncAlign t) ->
  wsync (tick_events t) =
  if delay.remainingCycles (futureHsync t) =? 1 then
    match delay.payload (futureHsync t) with
    | Some NewScanline => false
    | _ => wsync t
    end
  else wsync t.
Proof.
  intros Hq. unfold tick_events.
  rewrite tick_slot_fired by frame_side. frames.
  assert (Hb : wsync (tick_slot futureRsyncAlign set_futureRsyncAlign onRsyncAlign
                     (tick_slot futureVblank set_futureVblank onVblank t))
               = wsync t).
  { rewrite tick_slot_quiet; [frames; reflexivity| |frame_side].
    frames. exact Hq. }
  destruct (_ =? 1); [|exact Hb].
  destruct (delay.payload _) as [[]|]; cbn -[tick_slot delay.Tick];
    frames; try reflexivity; exact Hb.
Qed.

(** *** One video cycle, phase by phase *)

Lemma Step_phases (t : TIA) rm pd :
  Step t rm pd =
  match service (set_videoCycles t (videoCycles t + 1)) rm pd with
  | None => None
  | Some (_, t1) =>
      match (if phaseclock.Phi2 (pclk (ticked t1))
             then hsync_decode (ticked t1) else Some (ticked t1)) with
      | None => None
      | Some t4 => Some (negb (wsync (update_HmoveCt t4)), update_HmoveCt t4)
      end
  end.
Proof. unfold Step, service, ticked. cbv zeta. reflexivity. Qed.

(** What the register write leaves alone, RSYNC apart, and what an HMOVE
    write books. *)
Lemma service_fields (t : TIA) rm pd b (t1 : TIA) :
  is_rsync (rm, pd) = false ->
  service t rm pd = Some (b, t1) ->
  hsync t1 = hsync t /\ pclk t1 = pclk t /\ Hblank t1 = Hblank t /\
  HmoveLatch t1 = HmoveLatch t /\ HmoveCt t1 = HmoveCt t /\
  futureHsync t1 = futureHsync t /\
  futureRsyncAlign t1 = futureRsyncAlign t /\
  futureRsyncReset t1 = futureRsyncReset t /\
  wsync t1 = (wsync t || is_wsync (rm, pd)) /\
  if is_hmove (rm, pd) then
    futureHmoveLatch t1
    = delay.mkEvent (hmove_delay (pclk t) + 1) (Some tt) true /\
    FutureHmove t1
    = delay.mkEvent (hmove_delay (pclk t) + 3 + 1) (Some tt) true
  else
    futureHmoveLatch t1 = futureHmoveLatch t /\ FutureHmove t1 = FutureHmove t.
Proof.
  unfold service, is_rsync, is_wsync, is_hmove.
  destruct rm; [destruct pd as [d|]|];
    try (intros _ H; injection H as <- <-; rewrite orb_false_r; repeat split).
  intros Hr. unfold UpdateTIA, schedule_slot, delay.Schedule.
  rewrite Hr.
  destruct (String.eqb (Name d) "VSYNC") eqn:E1.
  { apply String.eqb_eq in E1. rewrite E1. cbn.
    intros H; injection H as <- <-. rewrite orb_false_r. repeat split. }
  destruct (String.eqb (Name d) "VBLANK") eqn:E2.
  { apply String.eqb_eq in E2. rewrite E2. cbn.
    destruct (delay.unresolved (futureVblank t)); [discriminate|].
    intros H; injection H as <- <-. rewrite orb_false_r. repeat split. }
  destruct (String.eqb (Name d) "WSYNC") eqn:E3.
  { apply String.eqb_eq in E3. rewrite E3. cbn.
    intros H; injection H as <- <-. rewrite orb_true_r. repeat split. }
  destruct (String.eqb (Name d) "HMOVE") eqn:E4.
  { destruct (delay.unresolved (futureHmoveLatch t)); [discriminate|].
    cbn. destruct (delay.unresolved (FutureHmove t)); [discriminate|].
    intros H; injection H as <- <-. rewrite orb_false_r.
    repeat split. }
  intros H; injection H as <- <-. rewrite orb_false_r. repeat split.
Qed.

(** The hsync counter, within a scanline, counts on. *)
Lemma polycounter_Tick_line (h : Z) :
  0 <= h <= 56 -> polycounter.Tick h = h + 1.
Proof.
  intros H. unfold polycounter.Tick.
  destruct (h + 1 >=? 63) eqn:E; [lia|reflexivity].
Qed.

(** The hsync decodes, when no RSYNC is under way: the counter goes on or
    wraps at 57, clearing the HMOVE latch; a decode books its closure with
    a delay of [hsyncDelay] on a resolved slot and panics on an unresolved
    one. *)
Lemma hsync_decode_fields (t : TIA) :
  quiet (futureRsyncAlign t) ->
  0 <= hsync t <= 56 ->
  let c := hsync t + 1 in
  match decoded c (HmoveLatch t) with
  | Some p =>
      if delay.unresolved (futureHsync t) then hsync_decode t = None
      else exists t4,
          hsync_decode t = Some t4 /\
          futureHsync t4 = delay.mkEvent (hsyncDelay + 1) (Some p) true /\
          hsync t4 = c /\ HmoveLatch t4 = HmoveLatch t /\
          pclk t4 = pclk t /\ Hblank t4 = Hblank t /\ wsync t4 = wsync t /\
          HmoveCt t4 = HmoveCt t /\
          futureRsyncAlign t4 = futureRsyncAlign t /\
          futureRsyncReset t4 = futureRsyncReset t /\
          futureHmoveLatch t4 = futureHmoveLatch t /\
          FutureHmove t4 = FutureHmove t
  | None =>
      exists t4,
          hsync_decode t = Some t4 /\
          futureHsync t4 = futureHsync t /\
          hsync t4 = (if c =? 57 then 0 else c) /\
          HmoveLatch t4 = (if c =? 57 then false else HmoveLatch t) /\
          pclk t4 = pclk t /\ Hblank t4 = Hblank t /\ wsync t4 = wsync t /\
          HmoveCt t4 = HmoveCt t /\
          futureRsyncAlign t4 = futureRsyncAlign t /\
          futureRsyncReset t4 = futureRsyncReset t /\
          futureHmoveLatch t4 = futureHmoveLatch t /\
          FutureHmove t4 = FutureHmove t
  end.
Proof.
  intros [Hq _] Hh c. unfold hsync_decode, decoded, polycounter.Count.
  cbn [hsync set_hsync]. rewrite polycounter_Tick_line by exact Hh. fold c.
  unfold schedule_slot, delay.Schedule, delay.IsActive.
  cbn [futureRsyncAlign futureHsync HmoveLatch set_hsync set_HmoveLatch
       set_futureHsync set_sig].
  rewrite Hq. cbn [Z.gtb Z.compare negb].
  destruct (c =? 57) eqn:E57.
  { replace (c =? 56) with false by lia. replace (c =? 8) with false by lia.
    replace (c =? 12) with false by lia. replace (c =? 16) with false by lia.
    replace (c =? 18) with false by lia.
    eexists; split; [reflexivity|]. repeat split. }
  destruct (c =? 56) eqn:E56.
  { destruct (delay.unresolved (futureHsync t)); [reflexivity|].
    eexists; split; [reflexivity|]. repeat split; cbn; lia. }
  destruct (c =? 4) eqn:E4.
  { replace (c =? 8) with false by lia.
    replace (c =? 12) with false by lia. replace (c =? 16) with false by lia.
    replace (c =? 18) with false by lia.
    eexists; split; [reflexivity|]. repeat split. }
  destruct (c =? 8) eqn:E8.
  { destruct (delay.unresolved (futureHsync t)); [reflexivity|].
    eexists; split; [reflexivity|]. repeat split; cbn; lia. }
  destruct (c =? 12) eqn:E12.
  { destruct (delay.unresolved (futureHsync t)); [reflexivity|].
    eexists; split; [reflexivity|]. repeat split; cbn; lia. }
  destruct (c =? 16) eqn:E16.
  { destruct (HmoveLatch t) eqn:EL; cbn [negb].
    { eexists; split; [reflexivity|]. repeat split; exact EL. }
    destruct (delay.unresolved (futureHsync t)); [reflexivity|].
    eexists; split; [reflexivity|]. repeat split; cbn; first [lia|exact EL]. }
  destruct (c =? 18) eqn:E18.
  { destruct (HmoveLatch t) eqn:EL; cbn [negb].
    { destruct (delay.unresolved (futureHsync t)); [reflexivity|].
      eexists; split; [reflexivity|]. repeat split; cbn; first [lia|exact EL]. }
    eexists; split; [reflexivity|]. repeat split; exact EL. }
  eexists; split; [reflexivity|]. repeat split.
Qed.

Lemma update_HmoveCt_fields (t : TIA) :
  hsync (update_HmoveCt t) = hsync t /\ pclk (update_HmoveCt t) = pclk t /\
  Hblank (update_HmoveCt t) = Hblank t /\ wsync (update_HmoveCt t) = wsync t /\
  HmoveLatch (update_HmoveCt t) = HmoveLatch t /\
  futureHsync (update_HmoveCt t) = futureHsync t /\
  futureRsyncAlign (update_HmoveCt t) = futureRsyncAlign t /\
  futureRsyncReset (update_HmoveCt t) = futureRsyncReset t /\
  futureHmoveLatch (update_HmoveCt t) = futureHmoveLatch t /\
  FutureHmove (update_HmoveCt t) = FutureHmove t /\
  HmoveCt (update_HmoveCt t) =
  if phaseclock.Phi2 (pclk t) then
    if HmoveCt t =? 0xff then 0xff else u8 (HmoveCt t - 1)
  else HmoveCt t.
Proof.
  unfold update_HmoveCt. destruct (phaseclock.Phi2 (pclk t)).
  - destruct (Z.eqb_spec (HmoveCt t) 0xff) as [E|E]; cbn; repeat split; auto.
  - repeat split.
Qed.

Lemma quiet_Tick {A : Type} (e : delay.Event A) :
  quiet e -> snd (delay.Tick e) = e.
Proof. intros [H _]. unfold delay.Tick. rewrite H. reflexivity. Qed.

(** The state after the phase clock and the events have ticked. *)
Lemma ticked_fields (t1 : TIA) :
  quiet (futureRsyncAlign t1) -> quiet (futureRsyncReset t1) ->
  hsync (ticked t1) = hsync t1 /\
  pclk (ticked t1) = (pclk t1 + 1) mod 4 /\
  Hblank (ticked t1) = hblank_after (futureHsync t1) (Hblank t1) /\
  wsync (ticked t1) = wsync_after (futureHsync t1) (wsync t1) /\
  futureHsync (ticked t1) = snd (delay.Tick (futureHsync t1)) /\
  futureRsyncAlign (ticked t1) = futureRsyncAlign t1 /\
  futureRsyncReset (ticked t1) = futureRsyncReset t1 /\
  futureHmoveLatch (ticked t1) = snd (delay.Tick (futureHmoveLatch t1)) /\
  FutureHmove (ticked t1) = snd (delay.Tick (FutureHmove t1)) /\
  HmoveLatch (ticked t1) =
    (if delay.remainingCycles (futureHmoveLatch t1) =? 1 then
       match delay.payload (futureHmoveLatch t1) with
       | Some _ => true
       | None => HmoveLatch t1
       end
     else HmoveLatch t1) /\
  HmoveCt (ticked t1) =
    (if delay.remainingCycles (FutureHmove t1) =? 1 then
       match delay.payload (FutureHmove t1) with
       | Some _ => 15
       | None => HmoveCt t1
       end
     else HmoveCt t1).
Proof.
  intros Hq1 Hq2. unfold ticked.
  set (t2 := set_pclk t1 (phaseclock.Tick (pclk t1))).
  assert (Hq1' : quiet (futureRsyncAlign t2)) by exact Hq1.
  assert (Hq2' : quiet (futureRsyncReset t2)) by exact Hq2.
  rewrite tick_events_hsync, tick_events_pclk by exact Hq2'.
  rewrite tick_events_Hblank, tick_events_wsync by exact Hq1'.
  rewrite tick_events_futureHsync, tick_events_futureRsyncAlign,
          tick_events_futureRsyncReset, tick_events_futureHmoveLatch,
          tick_events_FutureHmove, tick_events_HmoveLatch, tick_events_HmoveCt.
  rewrite (quiet_Tick _ Hq1'), (quiet_Tick _ Hq2').
  repeat split.
Qed.

(** One video cycle without an RSYNC strobe and with none under way, as it
    shows in the fields the horizontal timing depends on. *)
Lemma Step_timing (t : TIA) rm pd rdy (t' : TIA) :
  quiet (futureRsyncAlign t) -> quiet (futureRsyncReset t) ->
  0 <= hsync t <= 56 -> 0 <= pclk t <= 3 ->
  is_rsync (rm, pd) = false ->
  Step t rm pd = Some (rdy, t') ->
  exists latch1 : bool,
    (HmoveLatch t = true -> latch1 = true) /\
    (latch1 = true -> HmoveLatch t = true \/
                      delay.remainingCycles (futureHmoveLatch t) = 1) /\
    quiet (futureRsyncAlign t') /\ quiet (futureRsyncReset t') /\
    pclk t' = (pclk t + 1) mod 4 /\
    Hblank t' = hblank_after (futureHsync t) (Hblank t) /\
    wsync t' = wsync_after (futureHsync t) (wsync t || is_wsync (rm, pd)) /\
    rdy = negb (wsync t') /\
    if (pclk t + 1) mod 4 =? 2 then
      hsync t' = (if hsync t + 1 =? 57 then 0 else hsync t + 1) /\
      HmoveLatch t' = (if hsync t + 1 =? 57 then false else latch1) /\
      match decoded (hsync t + 1) latch1 with
      | Some p =>
          delay.unresolved (snd (delay.Tick (futureHsync t))) = false /\
          futureHsync t' = delay.mkEvent (hsyncDelay + 1) (Some p) true
      | None => futureHsync t' = snd (delay.Tick (futureHsync t))
      end
    else
      hsync t' = hsync t /\ HmoveLatch t' = latch1 /\
      futureHsync t' = snd (delay.Tick (futureHsync t)).
Proof.
  intros Hq1 Hq2 Hh Hp Hr H. rewrite Step_phases in H.
  destruct (service _ rm pd) as [[b t1]|] eqn:Es; [|discriminate].
  destruct (service_fields _ _ _ _ _ Hr Es)
    as (S1 & S2 & S3 & S4 & S5 & S6 & S7 & S8 & S9 & S10).
  cbn [hsync pclk Hblank HmoveLatch HmoveCt futureHsync futureRsyncAlign
       futureRsyncReset futureHmoveLatch FutureHmove wsync set_videoCycles]
    in S1, S2, S3, S4, S5, S6, S7, S8, S9, S10.
  clear Es.
  assert (Hq1' : quiet (futureRsyncAlign t1)) by (rewrite S7; exact Hq1).
  assert (Hq2' : quiet (futureRsyncReset t1)) by (rewrite S8; exact Hq2).
  destruct (ticked_fields t1 Hq1' Hq2')
    as (T1 & T2 & T3 & T4 & T5 & T6 & T7 & _ & _ & T8 & _).
  revert H T1 T2 T3 T4 T5 T6 T7 T8. generalize (ticked t1). intros t2.
  rewrite S1, S2, S3, S4, S6, S7, S8, S9. intros H T1 T2 T3 T4 T5 T6 T7 T8.
  assert (T9 : (HmoveLatch t = true -> HmoveLatch t2 = true) /\
               (HmoveLatch t2 = true ->
                HmoveLatch t = true \/
                delay.remainingCycles (futureHmoveLatch t) = 1)).
  { rewrite T8. clear T8. destruct (is_hmove (rm, pd)) eqn:Eh.
    - (* a fresh booking does not fire in the cycle of the write *)
      destruct S10 as [-> _]. cbn.
      replace (hmove_delay (pclk t) + 1 =? 1) with false; [auto|].
      unfold hmove_delay.
      assert (pclk t = 0 \/ pclk t = 1 \/ pclk t = 2 \/ pclk t = 3) as Hc by lia.
      destruct Hc as [-> | [-> | [-> | ->]]]; reflexivity.
    - destruct S10 as [-> _].
      destruct (_ =? 1) eqn:E1; [destruct (delay.payload _)|]; split; auto;
        intros _; right; lia. }
  clear S10.
  exists (HmoveLatch t2). split; [apply T9|]. split; [apply T9|].
  destruct (phaseclock.Phi2 (pclk t2)) eqn:Ephi.
  - (* Phi2: the counter ticks and the decodes are evaluated *)
    unfold phaseclock.Phi2 in Ephi. rewrite T2 in Ephi. rewrite Ephi.
    assert (Hq1'' : quiet (futureRsyncAlign t2)) by (rewrite T6; exact Hq1).
    assert (Hh'' : 0 <= hsync t2 <= 56) by (rewrite T1; exact Hh).
    pose proof (hsync_decode_fields t2 Hq1'' Hh'') as D. cbv zeta in D.
    rewrite T1 in D.
    destruct (decoded (hsync t + 1) (HmoveLatch t2)) as [p|] eqn:Ed.
    + rewrite T5 in D.
      destruct (delay.unresolved (snd (delay.Tick (futureHsync t)))) eqn:Eu.
      { rewrite D in H. discriminate. }
      destruct D as (t4 & D0 & D1 & D2 & D3 & D4 & D5 & D6 & D7 & D8 & D9 & _).
      rewrite D0 in H. injection H as <- <-.
      destruct (update_HmoveCt_fields t4)
        as (U1 & U2 & U3 & U4 & U5 & U6 & U7 & U8 & _).
      rewrite U1, U2, U3, U4, U5, U6, U7, U8.
      rewrite D1, D2, D3, D4, D5, D6, D8, D9, T2, T3, T4, T6, T7.
      assert (E57 : (hsync t + 1 =? 57) = false).
      { unfold decoded in Ed.
        destruct (hsync t + 1 =? 57) eqn:E; [|reflexivity].
        replace (hsync t + 1 =? 56) with false in Ed by lia.
        replace (hsync t + 1 =? 8) with false in Ed by lia.
        replace (hsync t + 1 =? 12) with false in Ed by lia.
        replace (hsync t + 1 =? 16) with false in Ed by lia.
        replace (hsync t + 1 =? 18) with false in Ed by lia.
        discriminate. }
      rewrite E57. repeat split; auto; try apply Hq1; try apply Hq2.
    + destruct D as (t4 & D0 & D1 & D2 & D3 & D4 & D5 & D6 & D7 & D8 & D9 & _).
      rewrite D0 in H. injection H as <- <-.
      destruct (update_HmoveCt_fields t4)
        as (U1 & U2 & U3 & U4 & U5 & U6 & U7 & U8 & _).
      rewrite U1, U2, U3, U4, U5, U6, U7, U8.
      rewrite D1, D2, D3, D4, D5, D6, D8, D9, T2, T3, T4, T5, T6, T7.
      repeat split; auto; try apply Hq1; try apply Hq2.
  - unfold phaseclock.Phi2 in Ephi. rewrite T2 in Ephi. rewrite Ephi.
    injection H as <- <-.
    destruct (update_HmoveCt_fields t2)
      as (U1 & U2 & U3 & U4 & U5 & U6 & U7 & U8 & _).
    rewrite U1, U2, U3, U4, U5, U6, U7, U8, T1, T2, T3, T4, T5, T6, T7.
    repeat split; auto; try apply Hq1; try apply Hq2.
Qed.

(** *** The scanline invariant *)

Lemma timing_inv_NewTIA : timing_inv NewTIA.
Proof.
  unfold timing_inv, line_inv, quiet. cbn.
  unfold polycounter.New, phaseclock.Reset. repeat split; lia.
Qed.

(** Settle the integer tests that linear arithmetic decides. *)
Ltac decide_tests :=
  repeat match goal with
         | |- context [?a =? ?b] =>
             first [ replace (a =? b) with false by lia
                   | replace (a =? b) with true by lia ]
         | H : context [?a =? ?b] |- _ =>
             first [ replace (a =? b) with false in H by lia
                   | replace (a =? b) with true in H by lia ]
         | |- context [?a <? ?b] =>
             first [ replace (a <? b) with false by lia
                   | replace (a <? b) with true by lia ]
         | H : context [?a <? ?b] |- _ =>
             first [ replace (a <? b) with false in H by lia
                   | replace (a <? b) with true in H by lia ]
         | |- context [?a >? ?b] =>
             first [ replace (a >? b) with false by lia
                   | replace (a >? b) with true by lia ]
         | H : context [?a >? ?b] |- _ =>
             first [ replace (a >? b) with false in H by lia
                   | replace (a >? b) with true in H by lia ]
         end;
  cbv iota in *.

Ltac open_facts :=
  repeat match goal with
         | H : _ /\ _ |- _ => destruct H
         | H : _ \/ _ |- _ => destruct H
         | H : delay.mkEvent _ _ _ = delay.mkEvent _ _ _ |- _ =>
             injection H as ? ? ?
         end;
  subst.

Ltac settle :=
  intuition (try first [ reflexivity | lia | assumption | congruence
                       | (f_equal; lia) ]).

Lemma timing_inv_Step (t : TIA) rm pd rdy (t' : TIA) :
  timing_inv t ->
  is_rsync (rm, pd) = false ->
  Step t rm pd = Some (rdy, t') ->
  timing_inv t'.
Proof.
  intros (Hh & Hp & Hq1 & Hq2 & Hl) Hr H.
  destruct (Step_timing t rm pd rdy t' Hq1 Hq2 Hh Hp Hr H)
    as (latch1 & L1 & _ & Q1 & Q2 & P & HB & _ & _ & D).
  clear H Hr.
  unfold timing_inv. split; [|split; [|split; [exact Q1|split; [exact Q2|]]]].
  - destruct ((pclk t + 1) mod 4 =? 2); destruct D as (D1 & _); rewrite D1;
      [destruct (hsync t + 1 =? 57) eqn:E|]; lia.
  - rewrite P. pose proof (Z.mod_pos_bound (pclk t + 1) 4). lia.
  - unfold line_inv in *. rewrite P. cbv zeta in *.
    unfold hblank_after, decoded, booked, quiet, delay.Tick, hsyncDelay in *.
    destruct (futureHsync t) as [rem pl un].
    cbn [delay.remainingCycles delay.payload delay.unresolved] in *.
    assert (Hc : pclk t = 0 \/ pclk t = 1 \/ pclk t = 2 \/ pclk t = 3) by lia.
    destruct Hc as [Hc | [Hc | [Hc | Hc]]]; rewrite Hc in *.
    + (* phase 0 to 1 *)
      change ((0 + 1) mod 4) with 1 in *. change ((0 + 2) mod 4) with 2 in *.
      change ((1 + 2) mod 4) with 3 in *. change (1 =? 2) with false in *.
      cbv iota in D. destruct D as (D1 & D2 & D3). rewrite D1, D2, D3, HB.
      clear D1 D2 D3 HB P Q1 Q2 Hq1 Hq2 Hc Hp.
      assert (Hs : hsync t = 8 \/ hsync t = 12 \/ hsync t = 16 \/ hsync t = 17 \/
                   hsync t = 18 \/ hsync t = 56 \/
                   (hsync t <> 8 /\ hsync t <> 12 /\ hsync t <> 16 /\
                    hsync t <> 17 /\ hsync t <> 18 /\ hsync t <> 56)) by lia.
      destruct Hs as [Hs|[Hs|[Hs|[Hs|[Hs|[Hs|Hs]]]]]];
        decide_tests; open_facts; decide_tests; cbn [snd];
        settle.
    + (* phase 1 to 2: Phi2, the counter ticks *)
      change ((1 + 1) mod 4) with 2 in *. change ((1 + 2) mod 4) with 3 in *.
      change ((2 + 2) mod 4) with 0 in *. change (2 =? 2) with true in *.
      cbv iota in D. destruct D as (D1 & D2 & D3). rewrite D1, D2, HB.
      clear D1 D2 HB P Q1 Q2 Hq1 Hq2 Hc Hp.
      assert (Hs : hsync t = 7 \/ hsync t = 8 \/ hsync t = 11 \/ hsync t = 12 \/
                   hsync t = 15 \/ hsync t = 16 \/ hsync t = 17 \/
                   hsync t = 18 \/ hsync t = 55 \/ hsync t = 56 \/
                   (hsync t <> 7 /\ hsync t <> 8 /\ hsync t <> 11 /\
                    hsync t <> 12 /\ hsync t <> 15 /\ hsync t <> 16 /\
                    hsync t <> 17 /\ hsync t <> 18 /\ hsync t <> 55 /\
                    hsync t <> 56)) by lia.
      destruct Hs as [Hs|[Hs|[Hs|[Hs|[Hs|[Hs|[Hs|[Hs|[Hs|[Hs|Hs]]]]]]]]]];
        decide_tests; open_facts; decide_tests; cbn [snd] in *;
        try (destruct latch1; cbv iota in * );
        open_facts; try rewrite D3; cbn [snd] in *;
        destruct (Hblank t) eqn:EHb; destruct (HmoveLatch t) eqn:EHl;
        repeat match goal with
               | |- context [?a <? ?b] => destruct (Z.ltb_spec a b)
               | H : context [?a <? ?b] |- _ => destruct (Z.ltb_spec a b)
               end;
        settle.
    + (* phase 2 to 3 *)
      change ((2 + 1) mod 4) with 3 in *. change ((2 + 2) mod 4) with 0 in *.
      change ((3 + 2) mod 4) with 1 in *. change (3 =? 2) with false in *.
      cbv iota in D. destruct D as (D1 & D2 & D3). rewrite D1, D2, D3, HB.
      clear D1 D2 D3 HB P Q1 Q2 Hq1 Hq2 Hc Hp.
      assert (Hs : hsync t = 8 \/ hsync t = 12 \/ hsync t = 16 \/ hsync t = 17 \/
                   hsync t = 18 \/ hsync t = 56 \/
                   (hsync t <> 8 /\ hsync t <> 12 /\ hsync t <> 16 /\
                    hsync t <> 17 /\ hsync t <> 18 /\ hsync t <> 56)) by lia.
      destruct Hs as [Hs|[Hs|[Hs|[Hs|[Hs|[Hs|Hs]]]]]];
        decide_tests; open_facts; decide_tests; cbn [snd];
        settle.
    + (* phase 3 to 0 *)
      change ((3 + 1) mod 4) with 0 in *. change ((3 + 2) mod 4) with 1 in *.
      change ((0 + 2) mod 4) with 2 in *. change (0 =? 2) with false in *.
      cbv iota in D. destruct D as (D1 & D2 & D3). rewrite D1, D2, D3, HB.
      clear D1 D2 D3 HB P Q1 Q2 Hq1 Hq2 Hc Hp.
      assert (Hs : hsync t = 8 \/ hsync t = 12 \/ hsync t = 16 \/ hsync t = 17 \/
                   hsync t = 18 \/ hsync t = 56 \/
                   (hsync t <> 8 /\ hsync t <> 12 /\ hsync t <> 16 /\
                    hsync t <> 17 /\ hsync t <> 18 /\ hsync t <> 56)) by lia.
      destruct Hs as [Hs|[Hs|[Hs|[Hs|[Hs|[Hs|Hs]]]]]];
        decide_tests; open_facts; decide_tests; cbn [snd];
        settle.
Qed.

(** *** States reached without an RSYNC strobe *)

Lemma reachable_timing_inv (t : TIA) : reachable t -> timing_inv t.
Proof.
  induction 1 as [|t rm pd rdy t' _ IH Hr H].
  - exact timing_inv_NewTIA.
  - exact (timing_inv_Step t rm pd rdy t' IH Hr H).
Qed.

Lemma hpos_range (t : TIA) : timing_inv t -> 0 <= hpos t <= 227.
Proof.
  intros (Hh & Hp & _). unfold hpos, polycounter.Count, phaseclock.Count.
  pose proof (Z.mod_pos_bound (pclk t + 2) 4). lia.
Qed.

(** Each video cycle moves one colour clock on, wrapping after 228. *)
Lemma hpos_Step (t : TIA) rm pd rdy (t' : TIA) :
  timing_inv t ->
  is_rsync (rm, pd) = false ->
  Step t rm pd = Some (rdy, t') ->
  hpos t' = (hpos t + 1) mod 228.
Proof.
  intros (Hh & Hp & Hq1 & Hq2 & _) Hr H.
  destruct (Step_timing t rm pd rdy t' Hq1 Hq2 Hh Hp Hr H)
    as (latch1 & _ & _ & _ & _ & P & _ & _ & _ & D).
  unfold hpos, polycounter.Count, phaseclock.Count. rewrite P.
  assert (Hc : pclk t = 0 \/ pclk t = 1 \/ pclk t = 2 \/ pclk t = 3) by lia.
  destruct Hc as [Hc | [Hc | [Hc | Hc]]]; rewrite Hc in *.
  - change ((0 + 1) mod 4) with 1 in *. change ((0 + 2) mod 4) with 2.
    change ((1 + 2) mod 4) with 3. change (1 =? 2) with false in D.
    destruct D as (-> & _). rewrite Z.mod_small; lia.
  - change ((1 + 1) mod 4) with 2 in *. change ((1 + 2) mod 4) with 3.
    change ((2 + 2) mod 4) with 0. change (2 =? 2) with true in D.
    destruct D as (-> & _).
    destruct (Z.eqb_spec (hsync t + 1) 57) as [E|E].
    + replace (4 * hsync t + 3 + 1) with 228 by lia. reflexivity.
    + rewrite Z.mod_small; lia.
  - change ((2 + 1) mod 4) with 3 in *. change ((2 + 2) mod 4) with 0.
    change ((3 + 2) mod 4) with 1. change (3 =? 2) with false in D.
    destruct D as (-> & _). rewrite Z.mod_small; lia.
  - change ((3 + 1) mod 4) with 0 in *. change ((3 + 2) mod 4) with 1.
    change ((0 + 2) mod 4) with 2. change (0 =? 2) with false in D.
    destruct D as (-> & _). rewrite Z.mod_small; lia.
Qed.

(** The hsync count and the phase of a colour clock. *)
Lemma hpos_inv (t : TIA) :
  timing_inv t ->
  hsync t = hpos t / 4 /\ (pclk t + 2) mod 4 = hpos t mod 4.
Proof.
  intros (Hh & Hp & _). unfold hpos, polycounter.Count, phaseclock.Count.
  pose proof (Z.mod_pos_bound (pclk t + 2) 4 ltac:(lia)) as Hm.
  split.
  - apply (Z.div_unique _ 4 _ ((pclk t + 2) mod 4)); [left; lia|reflexivity].
  - apply (Z.mod_unique _ 4 (hsync t)); [left; lia|reflexivity].
Qed.

(** HBLANK is on up to colour clock 67 and off from colour clock 76. *)
Lemma Hblank_outside_window (t : TIA) :
  timing_inv t ->
  (hpos t <= 67 -> Hblank t = true) /\ (76 <= hpos t -> Hblank t = false).
Proof.
  intros Hi. destruct (hpos_inv t Hi) as [Hh Hm].
  pose proof (hpos_range t Hi) as Hr.
  destruct Hi as (Hh' & Hp & _ & _ & Hl).
  pose proof (Z.mod_pos_bound (hpos t) 4 ltac:(lia)) as Hb.
  pose proof (Z.div_mod (hpos t) 4 ltac:(lia)) as Hd.
  unfold line_inv, booked, quiet in Hl. cbv zeta in Hl.
  assert (Hs : hsync t = 8 \/ hsync t = 12 \/ hsync t = 16 \/ hsync t = 17 \/
               hsync t = 18 \/ hsync t = 56 \/
               (hsync t <> 8 /\ hsync t <> 12 /\ hsync t <> 16 /\
                hsync t <> 17 /\ hsync t <> 18 /\ hsync t <> 56)) by lia.
  destruct Hs as [Hs|[Hs|[Hs|[Hs|[Hs|[Hs|Hs]]]]]];
    decide_tests; open_facts;
    repeat match goal with
           | H : context [?a <? ?b] |- _ => destruct (Z.ltb_spec a b)
           end;
    split; intros; first [assumption | lia | congruence].
Qed.

(** *** The end of HBLANK *)

Lemma window_start (t : TIA) :
  timing_inv t -> hsync t = 16 -> pclk t = 2 -> window (HmoveLatch t) t.
Proof.
  intros (_ & _ & _ & _ & Hl) Hh Hp. unfold window, line_inv in *.
  cbv zeta in *. unfold booked, quiet in *. rewrite Hh, Hp in *.
  cbn [Z.eqb Pos.eqb] in *. cbv iota in *.
  destruct Hl as [_ [[Hb Hf] | [Hq Ht]]].
  - rewrite (Hf eq_refl). exact Hb.
  - rewrite Ht. split; [exact Hq|reflexivity].
Qed.

Lemma window_Step (ext : bool) (t : TIA) rm pd rdy (t' : TIA) :
  timing_inv t -> window ext t -> 16 <= hsync t ->
  is_rsync (rm, pd) = false ->
  Step t rm pd = Some (rdy, t') ->
  window ext t'.
Proof.
  intros (Hh & Hp & Hq1 & Hq2 & Hl) Hw H16 Hr H.
  destruct (Step_timing t rm pd rdy t' Hq1 Hq2 Hh Hp Hr H)
    as (latch1 & L1 & _ & Q1 & Q2 & P & HB & _ & _ & D).
  clear H Hr.
  unfold window, line_inv in *. rewrite P. cbv zeta in *.
  unfold hblank_after, decoded, booked, quiet, delay.Tick, hsyncDelay in *.
  destruct (futureHsync t) as [rem pl un].
  cbn [delay.remainingCycles delay.payload delay.unresolved] in *.
  assert (Hs : hsync t = 16 \/ hsync t = 17 \/ hsync t = 18 \/
               hsync t = 56 \/ (19 <= hsync t <= 55)) by lia.
  assert (Hc : pclk t = 0 \/ pclk t = 1 \/ pclk t = 2 \/ pclk t = 3) by lia.
  destruct Hc as [Hc | [Hc | [Hc | Hc]]]; rewrite Hc in *.
  - change ((0 + 1) mod 4) with 1 in *. change ((0 + 2) mod 4) with 2 in *.
    change ((1 + 2) mod 4) with 3 in *. change (1 =? 2) with false in *.
    cbv iota in D. destruct D as (D1 & D2 & D3). rewrite D1, D2, D3, HB.
    clear D1 D2 D3 HB P Q1 Q2 Hq1 Hq2 Hc Hp.
    destruct Hs as [Hs|[Hs|[Hs|[Hs|Hs]]]];
      decide_tests; destruct ext; open_facts; decide_tests; cbn [snd];
      settle.
  - change ((1 + 1) mod 4) with 2 in *. change ((1 + 2) mod 4) with 3 in *.
    change ((2 + 2) mod 4) with 0 in *. change (2 =? 2) with true in *.
    cbv iota in D. destruct D as (D1 & D2 & D3). rewrite D1, D2, HB.
    clear D1 D2 HB P Q1 Q2 Hq1 Hq2 Hc Hp.
    destruct Hs as [Hs|[Hs|[Hs|[Hs|Hs]]]];
      decide_tests; destruct ext; open_facts; decide_tests; cbn [snd] in *;
      try (destruct latch1; cbv iota in * );
      open_facts; try rewrite D3; cbn [snd] in *;
      destruct (Hblank t) eqn:EHb; destruct (HmoveLatch t) eqn:EHl;
      settle.
  - change ((2 + 1) mod 4) with 3 in *. change ((2 + 2) mod 4) with 0 in *.
    change ((3 + 2) mod 4) with 1 in *. change (3 =? 2) with false in *.
    cbv iota in D. destruct D as (D1 & D2 & D3). rewrite D1, D2, D3, HB.
    clear D1 D2 D3 HB P Q1 Q2 Hq1 Hq2 Hc Hp.
    destruct Hs as [Hs|[Hs|[Hs|[Hs|Hs]]]];
      decide_tests; destruct ext; open_facts; decide_tests; cbn [snd];
      settle.
  - change ((3 + 1) mod 4) with 0 in *. change ((3 + 2) mod 4) with 1 in *.
    change ((0 + 2) mod 4) with 2 in *. change (0 =? 2) with false in *.
    cbv iota in D. destruct D as (D1 & D2 & D3). rewrite D1, D2, D3, HB.
    clear D1 D2 D3 HB P Q1 Q2 Hq1 Hq2 Hc Hp.
    destruct Hs as [Hs|[Hs|[Hs|[Hs|Hs]]]];
      decide_tests; destruct ext; open_facts; decide_tests; cbn [snd];
      settle.
Qed.

(** *** Runs *)

Lemma steps_cons (t : TIA) (i : input) (ins : list input) rdys (t' : TIA) :
  steps t (i :: ins) = Some (rdys, t') ->
  exists rdy t1 rest,
    Step t (fst i) (snd i) = Some (rdy, t1) /\
    steps t1 ins = Some (rest, t') /\ rdys = rdy :: rest.
Proof.
  destruct i as [rm pd]. cbn [steps fst snd].
  destruct (Step t rm pd) as [[rdy t1]|]; [|discriminate].
  destruct (steps t1 ins) as [[rest t2]|] eqn:E; [|discriminate].
  intros H. injection H as <- <-. exists rdy, t1, rest.
  split; [reflexivity|]. split; [exact E|reflexivity].
Qed.

Lemma steps_app (ins1 : list input) : forall (t : TIA) (ins2 : list input),
  steps t (ins1 ++ ins2) =
  match steps t ins1 with
  | None => None
  | Some (rdys1, t1) =>
      match steps t1 ins2 with
      | None => None
      | Some (rdys2, t2) => Some (rdys1 ++ rdys2, t2)
      end
  end.
Proof.
  induction ins1 as [|[rm pd] ins1 IH]; intros t ins2.
  - cbn [steps app]. destruct (steps t ins2) as [[r t2]|]; reflexivity.
  - cbn [steps app]. destruct (Step t rm pd) as [[rdy t1]|]; [|reflexivity].
    rewrite IH. destruct (steps t1 ins1) as [[r1 t2]|]; [|reflexivity].
    destruct (steps t2 ins2) as [[r2 t3]|]; reflexivity.
Qed.

Lemma steps_reachable (ins : list input) : forall (t : TIA) rdys (t' : TIA),
  reachable t -> rsync_free ins ->
  steps t ins = Some (rdys, t') -> reachable t'.
Proof.
  induction ins as [|[rm pd] ins IH]; intros t rdys t' Hre Hf H.
  - injection H as _ <-. exact Hre.
  - apply steps_cons in H. destruct H as (rdy & t1 & rest & H1 & H2 & _).
    inversion Hf; subst.
    apply (IH t1 rest t'); auto.
    exact (reachable_step t rm pd rdy t1 Hre ltac:(assumption) H1).
Qed.

(** Through the end of HBLANK, clock by clock. *)
Lemma window_steps (ext : bool) (ins : list input) :
  forall (t : TIA) rdys (t' : TIA),
    timing_inv t -> window ext t -> 64 <= hpos t ->
    rsync_free ins ->
    hpos t + len ins <= 227 ->
    steps t ins = Some (rdys, t') ->
    timing_inv t' /\ window ext t' /\ hpos t' = hpos t + len ins.
Proof.
  unfold len.
  induction ins as [|[rm pd] ins IH]; intros t rdys t' Hi Hw H64 Hf Hlen H.
  - injection H as _ <-. cbn [length]. split; [exact Hi|]. split; [exact Hw|lia].
  - apply steps_cons in H. destruct H as (rdy & t1 & rest & H1 & H2 & _).
    cbn [fst snd] in H1. inversion Hf as [|? ? Hr Hf']; subst.
    cbn [length] in Hlen.
    pose proof (hpos_Step t rm pd rdy t1 Hi Hr H1) as Hpos.
    rewrite Z.mod_small in Hpos by lia.
    assert (H16 : 16 <= hsync t).
    { destruct (hpos_inv t Hi) as [-> _].
      apply Z.div_le_lower_bound; lia. }
    destruct (IH t1 rest t') as (I1 & I2 & I3); auto.
    + exact (timing_inv_Step t rm pd rdy t1 Hi Hr H1).
    + exact (window_Step ext t rm pd rdy t1 Hi Hw H16 Hr H1).
    + lia.
    + lia.
    + split; [exact I1|]. split; [exact I2|]. cbn [length]. lia.
Qed.

(** HBLANK in colour clocks 64 to 75. *)
Lemma window_Hblank (ext : bool) (t : TIA) :
  timing_inv t -> window ext t -> 64 <= hpos t <= 75 ->
  Hblank t = (hpos t <? 68) || ext.
Proof.
  intros Hi Hw Hr. destruct (hpos_inv t Hi) as [Hh Hm].
  destruct Hi as (_ & _ & _ & _ & Hl).
  pose proof (Z.mod_pos_bound (hpos t) 4 ltac:(lia)) as Hb.
  pose proof (Z.div_mod (hpos t) 4 ltac:(lia)) as Hd.
  unfold window, line_inv in *. cbv zeta in *.
  assert (Hs : hsync t = 16 \/ hsync t = 17 \/ hsync t = 18) by lia.
  destruct Hs as [Hs|[Hs|Hs]]; rewrite Hs in *;
    cbn [Z.eqb Pos.eqb] in *; cbv iota in *.
  - replace (hpos t <? 68) with true by lia. apply Hl.
  - replace (hpos t <? 68) with false by lia. apply Hw.
  - replace (hpos t <? 68) with false by lia. apply Hw.
Qed.


(** *** WSYNC *)

(** In a state of the invariant the new-scanline event fires in the cycle
    that leaves colour clock 227, and in no other; that cycle clears the
    WSYNC flag, a WSYNC write sets it, and RDY is its negation. *)
Lemma wsync_Step (t : TIA) rm pd rdy (t' : TIA) :
  timing_inv t ->
  is_rsync (rm, pd) = false ->
  Step t rm pd = Some (rdy, t') ->
  wsync t' = (if hpos t =? 227 then false else wsync t || is_wsync (rm, pd)) /\
  rdy = negb (wsync t').
Proof.
  intros (Hh & Hp & Hq1 & Hq2 & Hl) Hr H.
  destruct (Step_timing t rm pd rdy t' Hq1 Hq2 Hh Hp Hr H)
    as (latch1 & _ & _ & _ & _ & _ & _ & W & R & _).
  split; [|exact R]. rewrite W. clear W R H Hr.
  unfold line_inv, wsync_after, booked, quiet, hpos, polycounter.Count,
    phaseclock.Count in *. cbv zeta in Hl.
  destruct (futureHsync t) as [rem pl un].
  cbn [delay.remainingCycles delay.payload delay.unresolved] in *.
  generalize (wsync t || is_wsync (rm, pd)). intros ws.
  assert (Hs : hsync t = 8 \/ hsync t = 12 \/ hsync t = 16 \/ hsync t = 17 \/
               hsync t = 18 \/ hsync t = 56 \/
               (hsync t <> 8 /\ hsync t <> 12 /\ hsync t <> 16 /\
                hsync t <> 17 /\ hsync t <> 18 /\ hsync t <> 56)) by lia.
  assert (Hc : pclk t = 0 \/ pclk t = 1 \/ pclk t = 2 \/ pclk t = 3) by lia.
  destruct Hc as [Hc | [Hc | [Hc | Hc]]]; rewrite Hc in *;
    [ change ((0 + 2) mod 4) with 2 in *
    | change ((1 + 2) mod 4) with 3 in *
    | change ((2 + 2) mod 4) with 0 in *
    | change ((3 + 2) mod 4) with 1 in * ];
    (destruct Hs as [Hs|[Hs|[Hs|[Hs|[Hs|[Hs|Hs]]]]]];
     decide_tests; open_facts; decide_tests; reflexivity).
Qed.

(** With nothing double-booked by the register write, a video cycle in a
    state of the invariant does not panic. *)
Lemma Step_returns (t : TIA) rm pd :
  timing_inv t ->
  is_rsync (rm, pd) = false ->
  service (set_videoCycles t (videoCycles t + 1)) rm pd <> None ->
  exists rdy t', Step t rm pd = Some (rdy, t').
Proof.
  intros (Hh & Hp & Hq1 & Hq2 & Hl) Hr Hs. rewrite Step_phases.
  destruct (service _ rm pd) as [[b t1]|] eqn:Es; [|contradiction]. clear Hs.
  destruct (service_fields _ _ _ _ _ Hr Es)
    as (S1 & S2 & _ & _ & _ & S6 & S7 & S8 & _).
  cbn [hsync pclk futureHsync futureRsyncAlign futureRsyncReset
       set_videoCycles] in S1, S2, S6, S7, S8.
  assert (Hq1' : quiet (futureRsyncAlign t1)) by (rewrite S7; exact Hq1).
  assert (Hq2' : quiet (futureRsyncReset t1)) by (rewrite S8; exact Hq2).
  destruct (ticked_fields t1 Hq1' Hq2')
    as (T1 & T2 & _ & _ & T5 & T6 & _).
  destruct (phaseclock.Phi2 (pclk (ticked t1))) eqn:Ephi; [|eauto].
  unfold phaseclock.Phi2 in Ephi. rewrite T2, S2 in Ephi.
  assert (Hq : quiet (futureRsyncAlign (ticked t1)))
    by (rewrite T6; exact Hq1').
  assert (Hh' : 0 <= hsync (ticked t1) <= 56) by (rewrite T1, S1; exact Hh).
  pose proof (hsync_decode_fields (ticked t1) Hq Hh') as D. cbv zeta in D.
  destruct (decoded _ _) as [p|].
  - assert (Hu : delay.unresolved (futureHsync (ticked t1)) = false).
    { rewrite T5, S6. clear D.
      assert (Hc : pclk t = 1).
      { assert (Hc : pclk t = 0 \/ pclk t = 1 \/ pclk t = 2 \/ pclk t = 3) by lia.
        destruct Hc as [Hc | [Hc | [Hc | Hc]]]; rewrite Hc in Ephi;
          first [exact Hc | discriminate Ephi]. }
      unfold line_inv, booked, quiet, delay.Tick in *. cbv zeta in Hl.
      rewrite Hc in Hl. change ((1 + 2) mod 4) with 3 in Hl.
      destruct (futureHsync t) as [rem pl un].
      cbn [delay.remainingCycles delay.payload delay.unresolved] in *.
      destruct (Z.eqb_spec rem 1); [reflexivity|].
      repeat match type of Hl with
             | if ?c then _ else _ => destruct c
             end; open_facts; try lia; reflexivity. }
    rewrite Hu in D. destruct D as (t4 & -> & _). eauto.
  - destruct D as (t4 & -> & _). eauto.
Qed.

Lemma idle_service (t : TIA) rm :
  service t rm None <> None.
Proof. unfold service. destruct rm; discriminate. Qed.

Lemma wsync_service (t : TIA) v :
  service t true (Some (mkChipData "WSYNC" v)) <> None.
Proof. discriminate. Qed.

(** The RDY flags of a run without WSYNC or RSYNC strobes: low while the
    WSYNC flag that the run started with is still set, high from the cycle
    that leaves colour clock 227. *)
Lemma rdys_until_new_scanline (ins : list input) :
  forall (t : TIA) rdys (t' : TIA),
    timing_inv t ->
    Forall (fun i => is_rsync i = false /\ is_wsync i = false) ins ->
    steps t ins = Some (rdys, t') ->
    rdys = map (fun k => negb (wsync t) || (227 - hpos t <=? Z.of_nat k))
               (seq 0 (length ins)).
Proof.
  induction ins as [|[rm pd] ins IH]; intros t rdys t' Hi Hf H.
  - injection H as <- _. reflexivity.
  - apply steps_cons in H. destruct H as (rdy & t1 & rest & H1 & H2 & ->).
    cbn [fst snd] in H1. inversion Hf as [|? ? [Hr Hw] Hf']; subst.
    destruct (wsync_Step t rm pd rdy t1 Hi Hr H1) as [W R].
    pose proof (hpos_Step t rm pd rdy t1 Hi Hr H1) as Hpos.
    pose proof (hpos_range t Hi) as Hrange.
    rewrite Hw, orb_false_r in W.
    rewrite (IH t1 rest t' (timing_inv_Step t rm pd rdy t1 Hi Hr H1) Hf' H2).
    cbn [length seq map]. rewrite <- seq_shift, map_map. f_equal.
    + rewrite R, W. destruct (Z.eqb_spec (hpos t) 227) as [E|E];
        destruct (Z.leb_spec (227 - hpos t) (Z.of_nat 0)); try lia;
        try (destruct (wsync t); reflexivity).
    + apply map_ext. intros k. rewrite W, Hpos.
      destruct (Z.eqb_spec (hpos t) 227) as [E|E].
      * destruct (Z.leb_spec (227 - hpos t) (Z.of_nat (S k))); try lia;
          destruct (wsync t); reflexivity.
      * rewrite Z.mod_small by lia.
        destruct (Z.leb_spec (227 - (hpos t + 1)) (Z.of_nat k));
          destruct (Z.leb_spec (227 - hpos t) (Z.of_nat (S k)));
          try lia; reflexivity.
Qed.

Lemma is_idle_service (t : TIA) (i : input) :
  is_idle i = true -> service t (fst i) (snd i) <> None.
Proof.
  destruct i as [[|] [d|]]; cbn; intros H; try discriminate H; discriminate.
Qed.

Lemma is_idle_plain (i : input) :
  is_idle i = true ->
  is_rsync i = false /\ is_wsync i = false /\ is_hmove i = false.
Proof. destruct i as [[|] [d|]]; cbn; intros H; try discriminate H; auto. Qed.

(** A run of cycles without register writes does not panic. *)
Lemma idle_steps_return (ins : list input) : forall t : TIA,
  timing_inv t ->
  Forall (fun i => is_idle i = true) ins ->
  exists rdys t', steps t ins = Some (rdys, t').
Proof.
  induction ins as [|[rm pd] ins IH]; intros t Hi Hf; [cbn; eauto|].
  inversion Hf as [|? ? Hid Hf']; subst.
  destruct (is_idle_plain _ Hid) as (Hr & _ & _).
  destruct (Step_returns t rm pd Hi Hr (is_idle_service _ (rm, pd) Hid))
    as (rdy & t1 & H1).
  cbn [steps]. rewrite H1.
  destruct (IH t1 (timing_inv_Step t rm pd rdy t1 Hi Hr H1) Hf')
    as (rdys & t' & ->). eauto.
Qed.

Lemma hpos_steps (ins : list input) : forall (t : TIA) rdys (t' : TIA),
  timing_inv t -> rsync_free ins ->
  steps t ins = Some (rdys, t') ->
  timing_inv t' /\ hpos t' = (hpos t + len ins) mod 228.
Proof.
  unfold len.
  induction ins as [|[rm pd] ins IH]; intros t rdys t' Hi Hf H.
  - injection H as _ <-. split; [exact Hi|]. cbn [length].
    pose proof (hpos_range t Hi). rewrite Z.mod_small; lia.
  - apply steps_cons in H. destruct H as (rdy & t1 & rest & H1 & H2 & _).
    cbn [fst snd] in H1. inversion Hf as [|? ? Hr Hf']; subst.
    destruct (IH t1 rest t' (timing_inv_Step t rm pd rdy t1 Hi Hr H1) Hf' H2)
      as [I1 I2].
    split; [exact I1|]. rewrite I2, (hpos_Step t rm pd rdy t1 Hi Hr H1).
    rewrite Zplus_mod_idemp_l. f_equal. cbn [length]. lia.
Qed.

(** *** HMOVE *)

(** One video cycle, as it shows in the HMOVE slots, latch and counter. *)
Lemma Step_hmove (t : TIA) rm pd rdy (t' : TIA) :
  timing_inv t ->
  is_rsync (rm, pd) = false ->
  Step t rm pd = Some (rdy, t') ->
  let L := if is_hmove (rm, pd)
           then delay.mkEvent (hmove_delay (pclk t) + 1) (Some tt) true
           else futureHmoveLatch t in
  let M := if is_hmove (rm, pd)
           then delay.mkEvent (hmove_delay (pclk t) + 3 + 1) (Some tt) true
           else FutureHmove t in
  futureHmoveLatch t' = snd (delay.Tick L) /\
  FutureHmove t' = snd (delay.Tick M) /\
  HmoveCt t' =
    (let c := if delay.remainingCycles M =? 1 then
                match delay.payload M with
                | Some _ => 15
                | None => HmoveCt t
                end
              else HmoveCt t in
     if (pclk t + 1) mod 4 =? 2 then dec c else c) /\
  HmoveLatch t' =
    (let l := if delay.remainingCycles L =? 1 then
                match delay.payload L with
                | Some _ => true
                | None => HmoveLatch t
                end
              else HmoveLatch t in
     if ((pclk t + 1) mod 4 =? 2) && (hsync t + 1 =? 57) then false else l).
Proof.
  intros (Hh & Hp & Hq1 & Hq2 & _) Hr H. rewrite Step_phases in H.
  destruct (service _ rm pd) as [[b t1]|] eqn:Es; [|discriminate].
  destruct (service_fields _ _ _ _ _ Hr Es)
    as (S1 & S2 & S3 & S4 & S5 & S6 & S7 & S8 & S9 & S10).
  cbn [hsync pclk Hblank HmoveLatch HmoveCt futureHsync futureRsyncAlign
       futureRsyncReset futureHmoveLatch FutureHmove wsync set_videoCycles]
    in S1, S2, S3, S4, S5, S6, S7, S8, S9, S10.
  clear Es.
  assert (Hq1' : quiet (futureRsyncAlign t1)) by (rewrite S7; exact Hq1).
  assert (Hq2' : quiet (futureRsyncReset t1)) by (rewrite S8; exact Hq2).
  destruct (ticked_fields t1 Hq1' Hq2')
    as (T1 & T2 & _ & _ & _ & T6 & _ & T8 & T9 & T10 & T11).
  revert H T1 T2 T6 T8 T9 T10 T11. generalize (ticked t1). intros t2.
  rewrite S1, S2, S4, S5, S7. intros H T1 T2 T6 T8 T9 T10 T11.
  assert (SL : futureHmoveLatch t1 =
               (if is_hmove (rm, pd)
                then delay.mkEvent (hmove_delay (pclk t) + 1) (Some tt) true
                else futureHmoveLatch t))
    by (destruct (is_hmove (rm, pd)); apply S10).
  assert (SM : FutureHmove t1 =
               (if is_hmove (rm, pd)
                then delay.mkEvent (hmove_delay (pclk t) + 3 + 1) (Some tt) true
                else FutureHmove t))
    by (destruct (is_hmove (rm, pd)); apply S10).
  clear S10. rewrite SL in T8, T10. rewrite SM in T9, T11. cbv zeta.
  destruct (phaseclock.Phi2 (pclk t2)) eqn:Ephi.
  - assert (Hq1'' : quiet (futureRsyncAlign t2)) by (rewrite T6; exact Hq1).
    assert (Hh'' : 0 <= hsync t2 <= 56) by (rewrite T1; exact Hh).
    pose proof (hsync_decode_fields t2 Hq1'' Hh'') as D. cbv zeta in D.
    rewrite T1 in D.
    pose proof Ephi as Ephi'. unfold phaseclock.Phi2 in Ephi'.
    rewrite T2 in Ephi'. rewrite Ephi'. cbn [andb].
    destruct (decoded (hsync t + 1) (HmoveLatch t2)) as [p|] eqn:Ed.
    + destruct (delay.unresolved (futureHsync t2)).
      { rewrite D in H. discriminate. }
      destruct D as (t4 & D0 & _ & _ & D3 & D4 & _ & _ & D7 & _ & _ & D10 & D11).
      rewrite D0 in H. injection H as <- <-.
      destruct (update_HmoveCt_fields t4)
        as (_ & _ & _ & _ & U5 & _ & _ & _ & U9 & U10 & U11).
      rewrite U5, U9, U10, U11, D3, D4, D7, D10, D11, Ephi, T8, T9, T10, T11.
      assert (E57 : (hsync t + 1 =? 57) = false).
      { unfold decoded in Ed.
        destruct (hsync t + 1 =? 57) eqn:E; [|reflexivity].
        replace (hsync t + 1 =? 56) with false in Ed by lia.
        replace (hsync t + 1 =? 8) with false in Ed by lia.
        replace (hsync t + 1 =? 12) with false in Ed by lia.
        replace (hsync t + 1 =? 16) with false in Ed by lia.
        replace (hsync t + 1 =? 18) with false in Ed by lia.
        discriminate. }
      rewrite E57. repeat split.
    + destruct D as (t4 & D0 & _ & _ & D3 & D4 & _ & _ & D7 & _ & _ & D10 & D11).
      rewrite D0 in H. injection H as <- <-.
      destruct (update_HmoveCt_fields t4)
        as (_ & _ & _ & _ & U5 & _ & _ & _ & U9 & U10 & U11).
      rewrite U5, U9, U10, U11, D3, D4, D7, D10, D11, Ephi, T8, T9, T10, T11.
      repeat split.
  - pose proof Ephi as Ephi'. unfold phaseclock.Phi2 in Ephi'.
    rewrite T2 in Ephi'. rewrite Ephi'. cbn [andb].
    injection H as <- <-.
    destruct (update_HmoveCt_fields t2)
      as (_ & _ & _ & _ & U5 & _ & _ & _ & U9 & U10 & U11).
    rewrite U5, U9, U10, U11, Ephi, T8, T9, T10, T11.
    repeat split.
Qed.

Lemma countdown_S (k : nat) (x : Z) :
  countdown (S k) x = dec (countdown k x).
Proof. reflexivity. Qed.

Lemma countdown_add (a b : nat) (x : Z) :
  countdown (a + b) x = countdown a (countdown b x).
Proof. apply Nat.iter_add. Qed.

(** The counter runs from 15 down to 0, then to 0xFF, and stays there. *)
Lemma countdown_15 (k : nat) :
  countdown k 15 = if (k <=? 15)%nat then 15 - Z.of_nat k else 0xff.
Proof.
  assert (H : forall j, (j <= 15)%nat -> countdown j 15 = 15 - Z.of_nat j).
  { induction j as [|j IH]; intros Hj; [reflexivity|].
    rewrite countdown_S, IH by lia.
    unfold dec, u8. destruct (Z.eqb_spec (15 - Z.of_nat j) 255); [lia|].
    rewrite Z.mod_small; lia. }
  assert (H' : forall j, countdown (16 + j) 15 = 0xff).
  { induction j as [|j IH].
    - reflexivity.
    - replace (16 + S j)%nat with (S (16 + j)) by lia.
      rewrite countdown_S, IH. reflexivity. }
  destruct (Nat.leb_spec k 15) as [Hk|Hk]; [apply H; exact Hk|].
  replace k with (16 + (k - 16))%nat by lia. apply H'.
Qed.

Lemma hmove_delay_values (p : Z) :
  0 <= p <= 3 ->
  hmove_delay p = nth (Z.to_nat p) [5; 4; 4; 2] 0 /\ 2 <= hmove_delay p <= 5.
Proof.
  intros H. assert (Hc : p = 0 \/ p = 1 \/ p = 2 \/ p = 3) by lia.
  destruct Hc as [-> | [-> | [-> | ->]]];
    (split; [reflexivity|unfold hmove_delay; lia]).
Qed.

Lemma hmove_service (t : TIA) (v : Z) :
  delay.unresolved (futureHmoveLatch t) = false ->
  delay.unresolved (FutureHmove t) = false ->
  service t true (Some (mkChipData "HMOVE" v)) <> None.
Proof.
  intros H1 H2. unfold service, UpdateTIA, schedule_slot, delay.Schedule.
  cbn. rewrite H1. cbn. rewrite H2. discriminate.
Qed.

Lemma pclk_Step (t : TIA) rm pd rdy (t' : TIA) :
  timing_inv t ->
  is_rsync (rm, pd) = false ->
  Step t rm pd = Some (rdy, t') ->
  pclk t' = (pclk t + 1) mod 4.
Proof.
  intros (Hh & Hp & Hq1 & Hq2 & _) Hr H.
  destruct (Step_timing t rm pd rdy t' Hq1 Hq2 Hh Hp Hr H)
    as (latch1 & _ & _ & _ & _ & P & _). exact P.
Qed.

(** The cycle that wraps the hsync counter is the one that lands on colour
    clock 0. *)
Lemma wrap_test (t : TIA) :
  timing_inv t ->
  ((pclk t + 1) mod 4 =? 2) && (hsync t + 1 =? 57)
  = ((hpos t + 1) mod 228 =? 0).
Proof.
  intros (Hh & Hp & _). unfold hpos, polycounter.Count, phaseclock.Count.
  assert (Hc : pclk t = 0 \/ pclk t = 1 \/ pclk t = 2 \/ pclk t = 3) by lia.
  destruct Hc as [Hc | [Hc | [Hc | Hc]]]; rewrite Hc.
  - change ((0 + 1) mod 4 =? 2) with false. change ((0 + 2) mod 4) with 2.
    rewrite Z.mod_small by lia. cbn [andb]. lia.
  - change ((1 + 1) mod 4 =? 2) with true. change ((1 + 2) mod 4) with 3.
    cbn [andb]. destruct (Z.eqb_spec (hsync t + 1) 57) as [E|E].
    + replace (4 * hsync t + 3 + 1) with 228 by lia. reflexivity.
    + rewrite Z.mod_small by lia. lia.
  - change ((2 + 1) mod 4 =? 2) with false. change ((2 + 2) mod 4) with 0.
    rewrite Z.mod_small by lia. cbn [andb]. lia.
  - change ((3 + 1) mod 4 =? 2) with false. change ((3 + 2) mod 4) with 1.
    rewrite Z.mod_small by lia. cbn [andb]. lia.
Qed.

Lemma Forall_repeat {A : Type} (P : A -> Prop) (x : A) (n : nat) :
  P x -> Forall P (repeat x n).
Proof. intros H. induction n; constructor; assumption. Qed.

Lemma repeat_snoc {A : Type} (x : A) (n : nat) :
  repeat x (S n) = repeat x n ++ [x].
Proof. induction n as [|n IH]; [reflexivity|]. cbn. f_equal. exact IH. Qed.

(** The run that follows a write to HMOVE. *)
Lemma hmove_run (t : TIA) (v : Z) :
  timing_inv t ->
  delay.unresolved (futureHmoveLatch t) = false ->
  delay.unresolved (FutureHmove t) = false ->
  forall n : nat,
  exists rdys t',
    steps t (write "HMOVE" v :: repeat idle_input n) = Some (rdys, t') /\
    timing_inv t' /\
    after_hmove (pclk t) (hmove_delay (pclk t)) n t'.
Proof.
  intros Hi HL HM.
  pose proof Hi as (_ & Hp & _).
  destruct (hmove_delay_values (pclk t) Hp) as [_ Hd].
  set (d := hmove_delay (pclk t)) in *. set (p := pclk t) in *.
  induction n as [|n IH].
  - (* the cycle of the write *)
    destruct (Step_returns t true (Some (mkChipData "HMOVE" v)) Hi eq_refl
                (hmove_service (set_videoCycles t (videoCycles t + 1)) v HL HM)) as (rdy & t1 & H1).
    exists [rdy], t1. cbn [steps repeat write]. rewrite H1.
    split; [reflexivity|].
    pose proof (timing_inv_Step t true (Some (mkChipData "HMOVE" v)) rdy t1
                  Hi eq_refl H1) as Hi1.
    split; [exact Hi1|].
    pose proof (pclk_Step t true (Some (mkChipData "HMOVE" v)) rdy t1
                  Hi eq_refl H1) as P.
    destruct (Step_hmove t true (Some (mkChipData "HMOVE" v)) rdy t1
                Hi eq_refl H1) as (A1 & A2 & _ & _).
    change (is_hmove (true, Some (mkChipData "HMOVE" v))) with true in A1, A2.
    cbv iota in A1, A2. fold p in A1, A2, P. fold d in A1, A2.
    unfold delay.Tick in A1, A2.
    cbn [delay.remainingCycles delay.payload delay.unresolved] in A1, A2.
    unfold after_hmove. change (Z.of_nat 0) with 0.
    replace (d + 1 =? 1) with false in A1 by lia.
    replace (d + 1 >? 0) with true in A1 by lia.
    replace (d + 3 + 1 =? 1) with false in A2 by lia.
    replace (d + 3 + 1 >? 0) with true in A2 by lia.
    cbn [snd] in A1, A2.
    replace (0 <? d) with true by lia. replace (0 <? d + 3) with true by lia.
    split; [rewrite P; f_equal; lia|].
    split; [rewrite A1; f_equal; lia|].
    split; [rewrite A2; f_equal; lia|].
    split; intros; lia.
  - (* one more idle cycle *)
    destruct IH as (rdys & tn & Hrun & Hin & Hpc & HLn & HMn & HCn & _).
    destruct (Step_returns tn true None Hin eq_refl (idle_service _ _))
      as (rdy & t1 & H1).
    exists (rdys ++ [rdy]), t1.
    rewrite repeat_snoc, app_comm_cons, steps_app, Hrun.
    cbn [steps idle_input]. rewrite H1.
    split; [reflexivity|].
    pose proof (timing_inv_Step tn true None rdy t1 Hin eq_refl H1) as Hi1.
    split; [exact Hi1|].
    pose proof (pclk_Step tn true None rdy t1 Hin eq_refl H1) as P.
    pose proof (hpos_Step tn true None rdy t1 Hin eq_refl H1) as Hpos.
    destruct (Step_hmove tn true None rdy t1 Hin eq_refl H1)
      as (A1 & A2 & A3 & A4).
    change (is_hmove (true, None)) with false in A1, A2, A3, A4.
    cbv iota zeta in A1, A2, A3, A4.
    rewrite HLn in A1, A4. rewrite HMn in A2, A3.
    rewrite (wrap_test tn Hin), <- Hpos in A4.
    assert (Pn : (pclk tn + 1) mod 4 = (p + 1 + Z.of_nat (S n)) mod 4).
    { rewrite Hpc, Zplus_mod_idemp_l. f_equal. lia. }
    rewrite Pn in A3.
    unfold after_hmove. rewrite P, Pn.
    split; [reflexivity|].
    unfold delay.Tick in A1, A2.
    split; [|split; [|split]].
    + rewrite A1. clear A2 A3 A4.
      destruct (Z.ltb_spec (Z.of_nat n) d) as [E|E];
        destruct (Z.ltb_spec (Z.of_nat (S n)) d) as [E'|E']; try lia;
        cbn [delay.remainingCycles delay.payload delay.unresolved].
      * replace (d - Z.of_nat n =? 1) with false by lia.
        replace (d - Z.of_nat n >? 0) with true by lia.
        cbn [snd]. f_equal. lia.
      * replace (d - Z.of_nat n =? 1) with true by lia.
        cbn [snd]. f_equal. lia.
      * reflexivity.
    + rewrite A2. clear A1 A3 A4.
      destruct (Z.ltb_spec (Z.of_nat n) (d + 3)) as [E|E];
        destruct (Z.ltb_spec (Z.of_nat (S n)) (d + 3)) as [E'|E']; try lia;
        cbn [delay.remainingCycles delay.payload delay.unresolved].
      * replace (d + 3 - Z.of_nat n =? 1) with false by lia.
        replace (d + 3 - Z.of_nat n >? 0) with true by lia.
        cbn [snd]. f_equal. lia.
      * replace (d + 3 - Z.of_nat n =? 1) with true by lia.
        cbn [snd]. f_equal. lia.
      * reflexivity.
    + intros Hge. rewrite A3. clear A1 A2 A4.
      destruct (Z.ltb_spec (Z.of_nat n) (d + 3)) as [E|E];
        cbn [delay.remainingCycles delay.payload].
      * (* the counter's event fires in this cycle *)
        replace (d + 3 - Z.of_nat n =? 1) with true by lia.
        replace (Z.to_nat (Z.of_nat (S n) - (d + 3) + 1)) with 1%nat by lia.
        cbn [phi2_count]. rewrite Nat.add_0_r.
        replace (p + d + 3 + Z.of_nat 1) with (p + 1 + Z.of_nat (S n)) by lia.
        destruct (_ =? 2); reflexivity.
      * (* it has fired before *)
        change (0 =? 1) with false. cbv iota.
        rewrite (HCn E).
        replace (Z.to_nat (Z.of_nat (S n) - (d + 3) + 1))
          with (S (Z.to_nat (Z.of_nat n - (d + 3) + 1))) by lia.
        cbn [phi2_count].
        replace (p + d + 3 + Z.of_nat (S (Z.to_nat (Z.of_nat n - (d + 3) + 1))))
          with (p + 1 + Z.of_nat (S n)) by lia.
        rewrite countdown_add.
        destruct (_ =? 2); reflexivity.
    + intros Hn. rewrite A4. clear A1 A2 A3.
      replace (Z.of_nat n <? d) with true by lia.
      cbn [delay.remainingCycles delay.payload].
      replace (d - Z.of_nat n =? 1) with true by lia.
      destruct (hpos t1 =? 0); reflexivity.
Qed.



(** *** Any state, and the states after an RSYNC strobe *)

(** What a register write does to the WSYNC flag and to the slots of the
    new-scanline events, in any state. *)
Lemma service_wsync (t : TIA) rm pd b (t1 : TIA) :
  service t rm pd = Some (b, t1) ->
  wsync t1 = (wsync t || is_wsync (rm, pd)) /\
  futureHsync t1 = futureHsync t /\
  fires (futureRsyncAlign t1)
  = if is_rsync (rm, pd) then None else fires (futureRsyncAlign t).
Proof.
  intros Es. destruct (is_rsync (rm, pd)) eqn:Er.
  - unfold service, is_rsync, is_wsync in *.
    destruct rm; [|discriminate]. destruct pd as [d|]; [|discriminate].
    apply String.eqb_eq in Er. unfold UpdateTIA, schedule_slot, delay.Schedule in Es.
    rewrite Er in *. cbn in Es.
    destruct (delay.unresolved (futureRsyncAlign t)); [discriminate|].
    cbn in Es.
    destruct (delay.unresolved (futureRsyncReset t)); [discriminate|].
    injection Es as <- <-. cbn. rewrite orb_false_r. repeat split.
  - destruct (service_fields t rm pd b t1 Er Es)
      as (_ & _ & _ & _ & _ & S6 & S7 & _ & S9 & _).
    rewrite S7. repeat split; assumption.
Qed.

(** The WSYNC flag after the tick of the events, in any state. *)
Lemma tick_events_wsync_anywhere (t : TIA) :
  wsync (tick_events t) =
  match fires (futureHsync t) with
  | Some NewScanline => false
  | _ =>
      match fires (futureRsyncAlign t) with
      | Some _ => false
      | None => wsync t
      end
  end.
Proof.
  unfold tick_events, fires.
  rewrite tick_slot_fired by frame_side. frames.
  assert (Hb : wsync (tick_slot futureRsyncAlign set_futureRsyncAlign onRsyncAlign
                     (tick_slot futureVblank set_futureVblank onVblank t))
               = match (if delay.remainingCycles (futureRsyncAlign t) =? 1
                        then delay.payload (futureRsyncAlign t) else None) with
                 | Some _ => false
                 | None => wsync t
                 end).
  { rewrite tick_slot_fired by frame_side. frames.
    destruct (_ =? 1); [|reflexivity].
    destruct (delay.payload _); reflexivity. }
  destruct (delay.remainingCycles (futureHsync t) =? 1); [|exact Hb].
  destruct (delay.payload (futureHsync t)) as [[]|]; cbn -[tick_slot delay.Tick];
    frames; try reflexivity; exact Hb.
Qed.

(** What the hsync decodes leave alone, in any state. *)
Lemma hsync_decode_frame (t t4 : TIA) :
  hsync_decode t = Some t4 ->
  wsync t4 = wsync t /\ pclk t4 = pclk t /\ HmoveCt t4 = HmoveCt t /\
  futureHmoveLatch t4 = futureHmoveLatch t /\
  FutureHmove t4 = FutureHmove t /\
  (if polycounter.Tick (hsync t) =? 57
   then hsync t4 = 0 /\ HmoveLatch t4 = false
   else HmoveLatch t4 = HmoveLatch t).
Proof.
  unfold hsync_decode, schedule_slot, delay.Schedule, polycounter.Count,
    polycounter.Reset.
  cbn [hsync set_hsync futureHsync futureRsyncAlign HmoveLatch].
  generalize (polycounter.Tick (hsync t)). intros c.
  destruct (HmoveLatch t) eqn:EL;
    repeat match goal with
           | |- context [if ?b then _ else _] => destruct b
           end;
    intros H; try discriminate; injection H as <-; repeat split; exact EL.
Qed.

(** What a register write does to the HMOVE counter, latch and slots, in
    any state. *)
Lemma service_hmove (t : TIA) rm pd b (t1 : TIA) :
  service t rm pd = Some (b, t1) ->
  HmoveCt t1 = HmoveCt t /\ HmoveLatch t1 = HmoveLatch t /\
  futureHmoveLatch t1 =
    (if is_hmove (rm, pd)
     then delay.mkEvent (hmove_delay (pclk t) + 1) (Some tt) true
     else futureHmoveLatch t) /\
  FutureHmove t1 =
    (if is_hmove (rm, pd)
     then delay.mkEvent (hmove_delay (pclk t) + 3 + 1) (Some tt) true
     else FutureHmove t).
Proof.
  intros Es. destruct (is_rsync (rm, pd)) eqn:Er.
  - unfold service, is_rsync, is_hmove in *.
    destruct rm; [|discriminate]. destruct pd as [d|]; [|discriminate].
    apply String.eqb_eq in Er. unfold UpdateTIA, schedule_slot, delay.Schedule in Es.
    rewrite Er in *. cbn in Es.
    destruct (delay.unresolved (futureRsyncAlign t)); [discriminate|].
    cbn in Es.
    destruct (delay.unresolved (futureRsyncReset t)); [discriminate|].
    injection Es as <- <-. cbn. repeat split.
  - destruct (service_fields t rm pd b t1 Er Es)
      as (_ & _ & _ & S4 & S5 & _ & _ & _ & _ & S10).
    split; [exact S5|]. split; [exact S4|].
    destruct (is_hmove (rm, pd)); exact S10.
Qed.

(** One video cycle in any state: RDY is low exactly while the WSYNC flag
    is set; a WSYNC write sets the flag and it stays set until a cycle in
    which [newScanline] runs. *)
Lemma Step_wsync_anywhere (t : TIA) rm pd rdy (t' : TIA) :
  Step t rm pd = Some (rdy, t') ->
  rdy = negb (wsync t') /\
  wsync t' = if new_scanline_due t (rm, pd) then false
             else wsync t || is_wsync (rm, pd).
Proof.
  intros H. rewrite Step_phases in H.
  destruct (service _ rm pd) as [[b t1]|] eqn:Es; [|discriminate].
  destruct (service_wsync _ _ _ _ _ Es) as (S1 & S2 & S3).
  cbn [wsync futureHsync futureRsyncAlign set_videoCycles] in S1, S2, S3.
  assert (W : wsync (ticked t1)
              = if new_scanline_due t (rm, pd) then false
                else wsync t || is_wsync (rm, pd)).
  { unfold ticked. rewrite tick_events_wsync_anywhere.
    cbn [futureHsync futureRsyncAlign wsync set_pclk].
    rewrite S1, S2, S3. unfold new_scanline_due.
    destruct (fires (futureHsync t)) as [[]|]; cbn [orb]; try reflexivity;
      destruct (is_rsync (rm, pd)); cbn [negb andb]; try reflexivity;
      destruct (fires (futureRsyncAlign t)); reflexivity. }
  clear Es S1 S2 S3. revert H W. generalize (ticked t1). intros t2 H W.
  destruct (phaseclock.Phi2 (pclk t2)).
  - destruct (hsync_decode t2) as [t4|] eqn:Ed; [|discriminate].
    destruct (hsync_decode_frame t2 t4 Ed) as (D1 & _).
    injection H as <- <-.
    destruct (update_HmoveCt_fields t4) as (_ & _ & _ & U4 & _).
    rewrite U4, D1. split; [reflexivity|exact W].
  - injection H as <- <-.
    destruct (update_HmoveCt_fields t2) as (_ & _ & _ & U4 & _).
    rewrite U4. split; [reflexivity|exact W].
Qed.

(** One video cycle in any state: an HMOVE write books the two slots, the
    slots tick, the counter is set to 15 when its event fires and loses one
    on Phi2, and the latch is set when its event fires unless the cycle
    wraps the hsync counter. *)
Lemma Step_hmove_anywhere (t : TIA) rm pd rdy (t' : TIA) :
  Step t rm pd = Some (rdy, t') ->
  let L := if is_hmove (rm, pd)
           then delay.mkEvent (hmove_delay (pclk t) + 1) (Some tt) true
           else futureHmoveLatch t in
  let M := if is_hmove (rm, pd)
           then delay.mkEvent (hmove_delay (pclk t) + 3 + 1) (Some tt) true
           else FutureHmove t in
  futureHmoveLatch t' = snd (delay.Tick L) /\
  FutureHmove t' = snd (delay.Tick M) /\
  HmoveCt t' =
    (let c := match fires M with Some _ => 15 | None => HmoveCt t end in
     if phaseclock.Phi2 (pclk t') then dec c else c) /\
  (fires L <> None ->
   phaseclock.Phi2 (pclk t') && (hsync t' =? 0) = false ->
   HmoveLatch t' = true).
Proof.
  intros H L M. rewrite Step_phases in H.
  destruct (service _ rm pd) as [[b t1]|] eqn:Es; [|discriminate].
  destruct (service_hmove _ _ _ _ _ Es) as (S1 & S2 & S3 & S4).
  cbn [HmoveCt HmoveLatch futureHmoveLatch FutureHmove pclk set_videoCycles]
    in S1, S2, S3, S4.
  fold L in S3. fold M in S4. clear Es.
  assert (T : futureHmoveLatch (ticked t1) = snd (delay.Tick L) /\
              FutureHmove (ticked t1) = snd (delay.Tick M) /\
              HmoveCt (ticked t1)
              = match fires M with Some _ => 15 | None => HmoveCt t end /\
              (fires L <> None -> HmoveLatch (ticked t1) = true)).
  { unfold ticked.
    rewrite tick_events_futureHmoveLatch, tick_events_FutureHmove,
      tick_events_HmoveCt, tick_events_HmoveLatch.
    cbn [futureHmoveLatch FutureHmove HmoveCt HmoveLatch set_pclk].
    rewrite S1, S3, S4. unfold fires.
    split; [reflexivity|]. split; [reflexivity|].
    split.
    - destruct (delay.remainingCycles M =? 1); [|reflexivity].
      destruct (delay.payload M); reflexivity.
    - destruct (delay.remainingCycles L =? 1); [|congruence].
      destruct (delay.payload L); congruence. }
  clearbody L M. clear S1 S2 S3 S4.
  revert H T. generalize (ticked t1). intros t2 H (T1 & T2 & T3 & T4).
  destruct (phaseclock.Phi2 (pclk t2)) eqn:Ephi.
  - destruct (hsync_decode t2) as [t4|] eqn:Ed; [|discriminate].
    destruct (hsync_decode_frame t2 t4 Ed) as (_ & D2 & D3 & D4 & D5 & D6).
    injection H as <- <-.
    destruct (update_HmoveCt_fields t4)
      as (U1 & U2 & _ & _ & U5 & _ & _ & _ & U9 & U10 & U11).
    rewrite U1, U2, U5, U9, U10, U11, D2, D3, D4, D5, Ephi, T3.
    split; [exact T1|]. split; [exact T2|]. split; [reflexivity|].
    intros HL Hw. cbn [andb] in Hw.
    destruct (polycounter.Tick (hsync t2) =? 57).
    + destruct D6 as [D6 _]. rewrite D6 in Hw. discriminate.
    + rewrite D6. exact (T4 HL).
  - injection H as <- <-.
    destruct (update_HmoveCt_fields t2)
      as (U1 & U2 & _ & _ & U5 & _ & _ & _ & U9 & U10 & U11).
    rewrite U2, U5, U9, U10, U11, Ephi, T3.
    split; [exact T1|]. split; [exact T2|]. split; [reflexivity|].
    intros HL _. exact (T4 HL).
Qed.

Ltac signal_frames :=
  repeat first
    [ frame_field sig | frame_field vblankBits | frame_field futureVblank
    | frame_field futureHsync | frame_field videoCycles ].

(** What a register write does to the signal, in any state. *)
Lemma service_signal (t : TIA) rm pd b (t1 : TIA) :
  service t rm pd = Some (b, t1) ->
  vblankBits t1 = vblankBits t /\ videoCycles t1 = videoCycles t /\
  sig t1 = match written "VSYNC" (rm, pd) with
           | Some v => mkSig (Z.land v 0x02 =? 0x02) (VBlank (sig t))
                             (HSync (sig t)) (CBurst (sig t))
           | None => sig t
           end /\
  futureVblank t1 = match written "VBLANK" (rm, pd) with
                    | Some v => delay.mkEvent 2 (Some v) true
                    | None => futureVblank t
                    end.
Proof.
  unfold service, written.
  destruct rm; [destruct pd as [d|]|];
    try (intros H; injection H as <- <-; repeat split).
  unfold UpdateTIA, schedule_slot, delay.Schedule.
  destruct (String.eqb (Name d) "VSYNC") eqn:E1.
  { apply String.eqb_eq in E1. rewrite E1. cbn.
    intros H; injection H as <- <-. repeat split. }
  destruct (String.eqb (Name d) "VBLANK") eqn:E2.
  { cbn. destruct (delay.unresolved (futureVblank t)); [discriminate|].
    intros H; injection H as <- <-. repeat split. }
  destruct (String.eqb (Name d) "WSYNC") eqn:E3.
  { intros H; injection H as <- <-. repeat split. }
  destruct (String.eqb (Name d) "RSYNC") eqn:E4.
  { cbn. destruct (delay.unresolved (futureRsyncAlign t)); [discriminate|].
    cbn. destruct (delay.unresolved (futureRsyncReset t)); [discriminate|].
    intros H; injection H as <- <-. repeat split. }
  destruct (String.eqb (Name d) "HMOVE") eqn:E5.
  { destruct (delay.unresolved (futureHmoveLatch t)); [discriminate|].
    cbn. destruct (delay.unresolved (FutureHmove t)); [discriminate|].
    intros H; injection H as <- <-. repeat split. }
  intros H; injection H as <- <-. repeat split.
Qed.

(** The signal once the events of a cycle have ticked, in any state. *)
Lemma tick_events_signal (t : TIA) :
  futureVblank (tick_events t) = snd (delay.Tick (futureVblank t)) /\
  vblankBits (tick_events t)
  = match fires (futureVblank t) with
    | Some v => vblank_bits v
    | None => vblankBits t
    end /\
  sig (tick_events t)
  = (let s := match fires (futureVblank t) with
              | Some v => vblank_signal v (sig t)
              | None => sig t
              end in
     match fires (futureHsync t) with
     | Some ResetHSync => mkSig (VSync s) (VBlank s) false true
     | Some ResetCBurst => mkSig (VSync s) (VBlank s) (HSync s) false
     | _ => s
     end).
Proof.
  unfold tick_events, fires. split; [|split].
  - signal_frames. rewrite tick_slot_own by frame_side. reflexivity.
  - signal_frames. rewrite tick_slot_fired by frame_side.
    destruct (_ =? 1); [|reflexivity].
    destruct (delay.payload _); reflexivity.
  - rewrite tick_slot_fired by frame_side. signal_frames.
    assert (Hs : sig (tick_slot futureVblank set_futureVblank onVblank t)
                 = match (if delay.remainingCycles (futureVblank t) =? 1
                          then delay.payload (futureVblank t) else None) with
                   | Some v => vblank_signal v (sig t)
                   | None => sig t
                   end).
    { rewrite tick_slot_fired by frame_side.
      destruct (_ =? 1); [|reflexivity].
      destruct (delay.payload _); reflexivity. }
    cbv zeta.
    destruct (delay.remainingCycles (futureHsync t) =? 1); [|exact Hs].
    destruct (delay.payload (futureHsync t)) as [[]|];
      cbn -[tick_slot delay.Tick]; signal_frames; rewrite ?Hs; reflexivity.
Qed.

(** The cycle count once the events of a cycle have ticked, in any state. *)
Lemma tick_events_videoCycles (t : TIA) :
  videoCycles (tick_events t) =
  match fires (futureHsync t) with
  | Some NewScanline => 0
  | _ =>
      match fires (futureRsyncAlign t) with
      | Some _ => 0
      | None => videoCycles t
      end
  end.
Proof.
  unfold tick_events, fires.
  rewrite tick_slot_fired by frame_side. frames.
  assert (Hb : videoCycles
                 (tick_slot futureRsyncAlign set_futureRsyncAlign onRsyncAlign
                    (tick_slot futureVblank set_futureVblank onVblank t))
               = match (if delay.remainingCycles (futureRsyncAlign t) =? 1
                        then delay.payload (futureRsyncAlign t) else None) with
                 | Some _ => 0
                 | None => videoCycles t
                 end).
  { rewrite tick_slot_fired by frame_side. frames.
    destruct (_ =? 1); [|reflexivity].
    destruct (delay.payload _); reflexivity. }
  destruct (delay.remainingCycles (futureHsync t) =? 1); [|exact Hb].
  destruct (delay.payload (futureHsync t)) as [[]|]; cbn -[tick_slot delay.Tick];
    frames; try reflexivity; exact Hb.
Qed.

(** What the hsync decodes do to the signal, in any state. *)
Lemma hsync_decode_signal (t t4 : TIA) :
  hsync_decode t = Some t4 ->
  vblankBits t4 = vblankBits t /\ videoCycles t4 = videoCycles t /\
  futureVblank t4 = futureVblank t /\
  futureRsyncAlign t4 = futureRsyncAlign t /\
  hsync t4 = (if polycounter.Tick (hsync t) =? 57 then 0
              else polycounter.Tick (hsync t)) /\
  sig t4 = (if polycounter.Tick (hsync t) =? 4
            then mkSig (VSync (sig t)) (VBlank (sig t)) true (CBurst (sig t))
            else sig t).
Proof.
  unfold hsync_decode, schedule_slot, delay.Schedule, polycounter.Count,
    polycounter.Reset.
  cbn [hsync set_hsync futureHsync futureRsyncAlign HmoveLatch].
  generalize (polycounter.Tick (hsync t)). intros c.
  destruct (Z.eqb_spec c 57) as [->|H57].
  { intros H; injection H as <-. repeat split. }
  destruct (Z.eqb_spec c 56) as [->|H56].
  { change (56 =? 4) with false. cbv iota.
    repeat match goal with
           | |- context [if ?b then _ else _] => destruct b
           end;
      intros H; try discriminate; injection H as <-; repeat split. }
  destruct (Z.eqb_spec c 4) as [->|H4].
  { intros H; injection H as <-. repeat split. }
  repeat match goal with
         | |- context [if ?b then _ else _] => destruct b
         end;
    intros H; try discriminate; injection H as <-; repeat split.
Qed.

Lemma update_HmoveCt_signal (t : TIA) :
  vblankBits (update_HmoveCt t) = vblankBits t /\
  videoCycles (update_HmoveCt t) = videoCycles t /\
  futureVblank (update_HmoveCt t) = futureVblank t /\
  sig (update_HmoveCt t) = sig t.
Proof.
  unfold update_HmoveCt. destruct (phaseclock.Phi2 (pclk t)); [|repeat split].
  destruct (negb (HmoveCt t =? 0xff)); repeat split.
Qed.

(** The signal once the phase clock and the events have ticked. *)
Lemma ticked_signal (t1 : TIA) :
  futureVblank (ticked t1) = snd (delay.Tick (futureVblank t1)) /\
  vblankBits (ticked t1)
  = match fires (futureVblank t1) with
    | Some v => vblank_bits v
    | None => vblankBits t1
    end /\
  sig (ticked t1)
  = (let s := match fires (futureVblank t1) with
              | Some v => vblank_signal v (sig t1)
              | None => sig t1
              end in
     match fires (futureHsync t1) with
     | Some ResetHSync => mkSig (VSync s) (VBlank s) false true
     | Some ResetCBurst => mkSig (VSync s) (VBlank s) (HSync s) false
     | _ => s
     end) /\
  videoCycles (ticked t1) =
  match fires (futureHsync t1) with
  | Some NewScanline => 0
  | _ =>
      match fires (futureRsyncAlign t1) with
      | Some _ => 0
      | None => videoCycles t1
      end
  end.
Proof.
  unfold ticked.
  destruct (tick_events_signal (set_pclk t1 (phaseclock.Tick (pclk t1))))
    as (T1 & T2 & T3).
  pose proof (tick_events_videoCycles
                (set_pclk t1 (phaseclock.Tick (pclk t1)))) as T4.
  repeat split; assumption.
Qed.

(** One video cycle in any state, as the television sees it: a VSYNC write
    shows at once, the value of a VBLANK write when its slot fires, HSYNC
    rises at the decode of count 4, and the two closures of [futureHsync]
    end HSYNC and the colour burst. *)
Lemma Step_signal (t : TIA) rm pd rdy (t' : TIA) :
  Step t rm pd = Some (rdy, t') ->
  let V := match written "VBLANK" (rm, pd) with
           | Some v => delay.mkEvent 2 (Some v) true
           | None => futureVblank t
           end in
  futureVblank t' = snd (delay.Tick V) /\
  vblankBits t' = match fires V with
                  | Some v => vblank_bits v
                  | None => vblankBits t
                  end /\
  VSync (sig t') = match written "VSYNC" (rm, pd) with
                   | Some v => Z.land v 0x02 =? 0x02
                   | None => VSync (sig t)
                   end /\
  VBlank (sig t') = match fires V with
                    | Some v => Z.land v 0x02 =? 0x02
                    | None => VBlank (sig t)
                    end /\
  HSync (sig t') =
    (if phaseclock.Phi2 (pclk t') && (hsync t' =? 4) then true
     else match fires (futureHsync t) with
          | Some ResetHSync => false
          | _ => HSync (sig t)
          end) /\
  CBurst (sig t') = match fires (futureHsync t) with
                    | Some ResetHSync => true
                    | Some ResetCBurst => false
                    | _ => CBurst (sig t)
                    end /\
  videoCycles t' = if new_scanline_due t (rm, pd) then 0
                   else videoCycles t + 1.
Proof.
  intros H V. rewrite Step_phases in H.
  destruct (service _ rm pd) as [[b t1]|] eqn:Es; [|discriminate].
  destruct (service_signal _ _ _ _ _ Es) as (S1 & S2 & S3 & S4).
  destruct (service_wsync _ _ _ _ _ Es) as (_ & S5 & S6).
  cbn [vblankBits videoCycles sig futureVblank futureHsync futureRsyncAlign
       set_videoCycles] in S1, S2, S3, S4, S5, S6.
  fold V in S4. clear Es.
  destruct (ticked_signal t1) as (T1 & T2 & T3 & T4).
  rewrite S1, S4 in T2. rewrite S4 in T1. rewrite S3, S4, S5 in T3.
  rewrite S2, S5, S6 in T4. cbv zeta in T3.
  assert (T5 : videoCycles (ticked t1)
               = if new_scanline_due t (rm, pd) then 0 else videoCycles t + 1).
  { rewrite T4. unfold new_scanline_due.
    destruct (fires (futureHsync t)) as [[]|]; cbn [orb]; try reflexivity;
      destruct (is_rsync (rm, pd)); cbn [negb andb]; try reflexivity;
      destruct (fires (futureRsyncAlign t)); reflexivity. }
  clear T4 S1 S2 S3 S4 S5 S6. clearbody V.
  revert H T1 T2 T3 T5. generalize (ticked t1). intros t2 H T1 T2 T3 T5.
  assert (Hsig : forall t4 : TIA,
             vblankBits t4 = vblankBits t2 -> videoCycles t4 = videoCycles t2 ->
             futureVblank t4 = futureVblank t2 ->
             pclk t4 = pclk t2 ->
             sig t4 = (if phaseclock.Phi2 (pclk t4) && (hsync t4 =? 4)
                       then mkSig (VSync (sig t2)) (VBlank (sig t2)) true
                                  (CBurst (sig t2))
                       else sig t2) ->
             rdy = negb (wsync (update_HmoveCt t4)) ->
             t' = update_HmoveCt t4 ->
             futureVblank t' = snd (delay.Tick V) /\
             vblankBits t' = match fires V with
                             | Some v => vblank_bits v
                             | None => vblankBits t
                             end /\
             VSync (sig t') = match written "VSYNC" (rm, pd) with
                              | Some v => Z.land v 0x02 =? 0x02
                              | None => VSync (sig t)
                              end /\
             VBlank (sig t') = match fires V with
                               | Some v => Z.land v 0x02 =? 0x02
                               | None => VBlank (sig t)
                               end /\
             HSync (sig t') =
               (if phaseclock.Phi2 (pclk t') && (hsync t' =? 4) then true
                else match fires (futureHsync t) with
                     | Some ResetHSync => false
                     | _ => HSync (sig t)
                     end) /\
             CBurst (sig t') = match fires (futureHsync t) with
                               | Some ResetHSync => true
                               | Some ResetCBurst => false
                               | _ => CBurst (sig t)
                               end /\
             videoCycles t' = if new_scanline_due t (rm, pd) then 0
                              else videoCycles t + 1).
  { intros t4 D1 D2 D3 D4 D5 _ ->.
    destruct (update_HmoveCt_signal t4) as (U1 & U2 & U3 & U4).
    destruct (update_HmoveCt_fields t4) as (U5 & U6 & _).
    rewrite U1, U2, U3, U4, U5, U6, D1, D2, D3, D5, T1, T2, T3, T5.
    split; [reflexivity|]. split; [reflexivity|].
    destruct (phaseclock.Phi2 (pclk t4) && (hsync t4 =? 4));
      destruct (fires V); destruct (written "VSYNC" (rm, pd));
      destruct (fires (futureHsync t)) as [[]|]; repeat split. }
  destruct (phaseclock.Phi2 (pclk t2)) eqn:Ephi.
  - destruct (hsync_decode t2) as [t4|] eqn:Ed; [|discriminate].
    destruct (hsync_decode_signal t2 t4 Ed) as (D1 & D2 & D3 & _ & D5 & D6).
    destruct (hsync_decode_frame t2 t4 Ed) as (_ & D7 & _).
    injection H as H1 H2.
    apply (Hsig t4); auto.
    rewrite D7, Ephi, D5, D6. cbn [andb].
    destruct (Z.eqb_spec (polycounter.Tick (hsync t2)) 57) as [E|E].
    + rewrite E. reflexivity.
    + reflexivity.
  - injection H as H1 H2.
    apply (Hsig t2); auto.
    rewrite Ephi. reflexivity.
Qed.

Lemma due_at_first (t : TIA) (i : input) (ins : list input) :
  due_at t (i :: ins) 0 = new_scanline_due t i.
Proof. reflexivity. Qed.

Lemma due_at_next (t : TIA) (i : input) (ins : list input) rdy (t1 : TIA) (j : nat) :
  Step t (fst i) (snd i) = Some (rdy, t1) ->
  due_at t (i :: ins) (S j) = due_at t1 ins j.
Proof.
  intros H. unfold due_at. destruct i as [rm pd]. cbn [fst snd] in H.
  cbn [take steps]. rewrite H.
  change (((rm, pd) :: ins) !! S j) with (ins !! j).
  destruct (steps t1 (take j ins)) as [[r tj]|]; reflexivity.
Qed.

Lemma existsb_seq_next (f : nat -> bool) (n : nat) :
  existsb f (seq 0 (S n)) = f 0%nat || existsb (fun j => f (S j)) (seq 0 n).
Proof.
  cbn [seq existsb]. f_equal. rewrite <- seq_shift.
  induction (seq 0 n) as [|a l IH]; [reflexivity|].
  cbn [map existsb]. rewrite IH. reflexivity.
Qed.

Lemma existsb_same (f g : nat -> bool) (l : list nat) :
  (forall j, f j = g j) -> existsb f l = existsb g l.
Proof.
  intros H. induction l as [|a l IH]; [reflexivity|].
  cbn [existsb]. rewrite H, IH. reflexivity.
Qed.

(** In any state, a run without WSYNC writes returns RDY true in a cycle
    exactly when the WSYNC flag was clear at its start or [newScanline] has
    run by then. *)
Lemma rdys_released (ins : list input) : forall (t : TIA) rdys (t' : TIA),
  Forall (fun i => is_wsync i = false) ins ->
  steps t ins = Some (rdys, t') ->
  rdys = map (fun k => negb (wsync t) || existsb (due_at t ins) (seq 0 (S k)))
             (seq 0 (length ins)).
Proof.
  induction ins as [|i ins IH]; intros t rdys t' Hf H.
  - injection H as <- _. reflexivity.
  - inversion Hf as [|? ? Hw Hf']; subst.
    apply steps_cons in H. destruct H as (rdy & t1 & rest & H1 & H2 & ->).
    destruct i as [rm pd]. cbn [fst snd] in H1.
    destruct (Step_wsync_anywhere t rm pd rdy t1 H1) as [R W].
    rewrite Hw, orb_false_r in W.
    rewrite (IH t1 rest t' Hf' H2).
    cbn [length].
    change (seq 0 (S (length ins))) with (0%nat :: seq 1 (length ins)).
    cbn [map]. rewrite <- seq_shift, map_map. f_equal.
    + cbn [seq existsb]. rewrite due_at_first, R, W, orb_false_r.
      destruct (new_scanline_due t (rm, pd)); [rewrite orb_true_r|rewrite orb_false_r];
        reflexivity.
    + apply map_ext. intros k.
      rewrite (existsb_seq_next (due_at t ((rm, pd) :: ins))), due_at_first.
      rewrite (existsb_same (fun j => due_at t ((rm, pd) :: ins) (S j))
                 (due_at t1 ins))
        by (intros j; apply (due_at_next t (rm, pd) ins rdy t1 j H1)).
      rewrite W.
      destruct (new_scanline_due t (rm, pd)); cbn [negb orb];
        [rewrite orb_true_r|]; reflexivity.
Qed.

(** In any state, the cycles that follow a write to WSYNC return RDY true
    exactly from the first cycle in which [newScanline] runs. *)
Lemma rdys_after_wsync (t : TIA) (v : Z) (ins : list input) rdys (t' : TIA) :
  Forall (fun i => is_wsync i = false) ins ->
  steps t (write "WSYNC" v :: ins) = Some (rdys, t') ->
  rdys = map (fun k => existsb (due_at t (write "WSYNC" v :: ins)) (seq 0 (S k)))
             (seq 0 (S (length ins))).
Proof.
  intros Hf H.
  apply steps_cons in H. destruct H as (rdy & t1 & rest & H1 & H2 & ->).
  cbn [write fst snd] in H1.
  destruct (Step_wsync_anywhere t _ _ rdy t1 H1) as [R W].
  change (is_wsync (true, Some (mkChipData "WSYNC" v))) with true in W.
  rewrite orb_true_r in W.
  rewrite (rdys_released ins t1 rest t' Hf H2).
  change (seq 0 (S (length ins))) with (0%nat :: seq 1 (length ins)).
  cbn [map]. rewrite <- seq_shift, map_map. f_equal.
  - cbn [seq existsb]. rewrite due_at_first, R, W, orb_false_r. unfold write.
    destruct (new_scanline_due t _); reflexivity.
  - apply map_ext. intros k.
    rewrite (existsb_seq_next (due_at t (write "WSYNC" v :: ins))), due_at_first.
    rewrite (existsb_same (fun j => due_at t (write "WSYNC" v :: ins) (S j))
               (due_at t1 ins))
      by (intros j; apply (due_at_next t (write "WSYNC" v) ins rdy t1 j H1)).
    rewrite W. unfold write.
    destruct (new_scanline_due t _); reflexivity.
Qed.

(** What the hsync decodes do to [futureHsync], in any state: the decode
    of count 56 books the new scanline unless an RSYNC alignment is under
    way, and whatever is booked is booked [hsyncDelay] ahead. *)
Lemma hsync_decode_booking (t t4 : TIA) :
  hsync_decode t = Some t4 ->
  (hsync t4 = 56 -> delay.IsActive (futureRsyncAlign t4) = false ->
   futureHsync t4 = delay.mkEvent (hsyncDelay + 1) (Some NewScanline) true) /\
  (futureHsync t4 = futureHsync t \/
   exists p, futureHsync t4 = delay.mkEvent (hsyncDelay + 1) (Some p) true).
Proof.
  unfold hsync_decode, schedule_slot, delay.Schedule, polycounter.Count,
    polycounter.Reset.
  cbn [hsync set_hsync futureHsync futureRsyncAlign HmoveLatch].
  generalize (polycounter.Tick (hsync t)). intros c.
  destruct (Z.eqb_spec c 57) as [->|H57].
  { intros H; injection H as <-. cbn.
    split; [discriminate|]. left; reflexivity. }
  destruct (Z.eqb_spec c 56) as [->|H56].
  { destruct (delay.IsActive (futureRsyncAlign t)) eqn:EA; cbn [negb].
    - intros H; injection H as <-. cbn. rewrite EA.
      split; [discriminate|]. left; reflexivity.
    - destruct (delay.unresolved (futureHsync t)); [discriminate|].
      intros H; injection H as <-. cbn.
      split; [reflexivity|]. right; eexists; reflexivity. }
  destruct (Z.eqb_spec c 4) as [->|H4].
  { intros H; injection H as <-. cbn.
    split; [discriminate|]. left; reflexivity. }
  repeat match goal with
         | |- context [if ?b then _ else _] => destruct b
         end;
    intros H; try discriminate; injection H as <-; cbn;
    (split; [intros E; congruence|]);
    first [left; reflexivity | right; eexists; reflexivity].
Qed.

(** One video cycle in any state: the booking of the new scanline at the
    decode of count 56, 3 clocks ahead. *)
Lemma Step_new_scanline_booking (t : TIA) rm pd rdy (t' : TIA) :
  Step t rm pd = Some (rdy, t') ->
  phaseclock.Phi2 (pclk t') = true -> hsync t' = 56 ->
  delay.IsActive (futureRsyncAlign t') = false ->
  futureHsync t' = delay.mkEvent (hsyncDelay + 1) (Some NewScanline) true.
Proof.
  intros H. rewrite Step_phases in H.
  destruct (service _ rm pd) as [[b t1]|]; [|discriminate].
  revert H. generalize (ticked t1). intros t2 H.
  destruct (phaseclock.Phi2 (pclk t2)) eqn:Ephi.
  - destruct (hsync_decode t2) as [t4|] eqn:Ed; [|discriminate].
    destruct (hsync_decode_booking t2 t4 Ed) as (D1 & _).
    injection H as <- <-.
    destruct (update_HmoveCt_fields t4)
      as (U1 & _ & _ & _ & _ & U6 & U7 & _).
    rewrite U1, U6, U7. intros _. exact D1.
  - injection H as <- <-.
    destruct (update_HmoveCt_fields t2) as (_ & U2 & _).
    rewrite U2, Ephi. discriminate.
Qed.

Lemma hmove_delay_nonneg (p : Z) : 0 <= hmove_delay p.
Proof.
  unfold hmove_delay.
  repeat match goal with
         | |- context [match ?x with _ => _ end] => destruct x
         end; lia.
Qed.

(** A write to HMOVE while one of its two events is pending books a slot
    that is not resolved. *)
Lemma hmove_pending_panics (t : TIA) (v : Z) :
  delay.unresolved (futureHmoveLatch t) || delay.unresolved (FutureHmove t) = true ->
  Step t true (Some (mkChipData "HMOVE" v)) = None.
Proof.
  intros H. unfold Step, UpdateTIA, schedule_slot, delay.Schedule.
  cbn. destruct (delay.unresolved (futureHmoveLatch t)); [reflexivity|].
  cbn [orb] in H. cbn. rewrite H. reflexivity.
Qed.

Lemma countdown_seen (b : bool) (n : nat) (x : Z) :
  countdown ((if b then 1 else 0) + n) x
  = countdown n (if b then dec x else x).
Proof.
  rewrite Nat.add_comm, countdown_add. destruct b; reflexivity.
Qed.

(** In any state, what cycles without HMOVE writes do to the two HMOVE
    events: they count down and fire once, the latch event setting the
    latch, the counter event setting the counter to 15, which then loses
    one on every Phi2. *)
Lemma hmove_events_run (ins : list input) :
  forall (s : TIA) rdys (s' : TIA) (a b : Z),
    Forall (fun i => is_hmove i = false) ins ->
    steps s ins = Some (rdys, s') ->
    0 <= a -> 0 <= b ->
    futureHmoveLatch s = delay.mkEvent a (Some tt) (0 <? a) ->
    FutureHmove s = delay.mkEvent b (Some tt) (0 <? b) ->
    let n := Z.of_nat (length ins) in
    futureHmoveLatch s' = delay.mkEvent (Z.max 0 (a - n)) (Some tt) (n <? a) /\
    FutureHmove s' = delay.mkEvent (Z.max 0 (b - n)) (Some tt) (n <? b) /\
    (1 <= a -> n = a ->
     phaseclock.Phi2 (pclk s') && (hsync s' =? 0) = false ->
     HmoveLatch s' = true) /\
    (1 <= b <= n ->
     HmoveCt s'
     = countdown (phi2_seen (drop (Z.to_nat (b - 1)) (run_states s ins))) 15) /\
    (b = 0 -> HmoveCt s' = countdown (phi2_seen (run_states s ins)) (HmoveCt s)).
Proof.
  induction ins as [|[rm pd] ins IH]; intros s rdys s' a b Hf H Ha Hb HL HM n.
  - injection H as _ <-. subst n. cbn [length Z.of_nat].
    rewrite !Z.sub_0_r, !Z.max_r by lia.
    split; [exact HL|]. split; [exact HM|].
    split; [lia|]. split; [lia|]. intros _. reflexivity.
  - inversion Hf as [|? ? Hh Hf']; subst.
    apply steps_cons in H. destruct H as (rdy & s1 & rest & H1 & H2 & ->).
    cbn [fst snd] in H1.
    destruct (Step_hmove_anywhere s rm pd rdy s1 H1) as (A1 & A2 & A3 & A4).
    rewrite Hh in A1, A2, A3, A4. cbv zeta in A3. rewrite HL in A1, A4.
    rewrite HM in A2, A3.
    assert (HL1 : futureHmoveLatch s1
                  = delay.mkEvent (Z.max 0 (a - 1)) (Some tt) (0 <? Z.max 0 (a - 1))).
    { rewrite A1. unfold delay.Tick.
      cbn [delay.remainingCycles delay.payload delay.unresolved].
      destruct (Z.eqb_spec a 1) as [->|E1]; [reflexivity|].
      destruct (Z.gtb_spec a 0) as [E0|E0]; cbn [snd].
      - rewrite Z.max_r by lia. f_equal.
        destruct (Z.ltb_spec 0 a), (Z.ltb_spec 0 (a - 1)); try lia; reflexivity.
      - replace a with 0 by lia. reflexivity. }
    assert (HM1 : FutureHmove s1
                  = delay.mkEvent (Z.max 0 (b - 1)) (Some tt) (0 <? Z.max 0 (b - 1))).
    { rewrite A2. unfold delay.Tick.
      cbn [delay.remainingCycles delay.payload delay.unresolved].
      destruct (Z.eqb_spec b 1) as [->|E1]; [reflexivity|].
      destruct (Z.gtb_spec b 0) as [E0|E0]; cbn [snd].
      - rewrite Z.max_r by lia. f_equal.
        destruct (Z.ltb_spec 0 b), (Z.ltb_spec 0 (b - 1)); try lia; reflexivity.
      - replace b with 0 by lia. reflexivity. }
    destruct (IH s1 rest s' _ _ Hf' H2 (Z.le_max_l 0 (a - 1))
                (Z.le_max_l 0 (b - 1)) HL1 HM1)
      as (I1 & I2 & I3 & I4 & I5).
    assert (Hn : n = Z.of_nat (length ins) + 1) by (subst n; cbn [length]; lia).
    clearbody n. subst n.
    cbn [run_states]. rewrite H1.
    split; [|split; [|split; [|split]]].
    + rewrite I1. f_equal; [lia|].
      destruct (Z.ltb_spec (Z.of_nat (length ins)) (Z.max 0 (a - 1)));
        destruct (Z.ltb_spec (Z.of_nat (length ins) + 1) a); try lia; reflexivity.
    + rewrite I2. f_equal; [lia|].
      destruct (Z.ltb_spec (Z.of_nat (length ins)) (Z.max 0 (b - 1)));
        destruct (Z.ltb_spec (Z.of_nat (length ins) + 1) b); try lia; reflexivity.
    + intros Ha1 Hna Hw.
      destruct (Z.eqb_spec a 1) as [->|E1].
      * assert (ins = []) by (destruct ins; [reflexivity|cbn [length] in Hna; lia]).
        subst ins. injection H2 as _ <-.
        apply A4; [|exact Hw]. unfold fires.
        cbn [delay.remainingCycles delay.payload]. discriminate.
      * apply I3; [lia|lia|exact Hw].
    + intros Hbn.
      destruct (Z.eqb_spec b 1) as [->|E1].
      * change (Z.to_nat (1 - 1)) with 0%nat. cbn [drop phi2_seen].
        rewrite countdown_seen, (I5 eq_refl), A3. unfold fires.
        cbn [delay.remainingCycles delay.payload]. reflexivity.
      * replace (Z.to_nat (b - 1)) with (S (Z.to_nat (Z.max 0 (b - 1) - 1))) by lia.
        cbn [drop]. apply I4. lia.
    + intros ->. cbn [phi2_seen].
      rewrite countdown_seen, (I5 eq_refl), A3. unfold fires.
      cbn [delay.remainingCycles delay.payload]. reflexivity.
Qed.

(** In any state, the run that follows a write to HMOVE, whatever else is
    written but HMOVE. *)
Lemma hmove_write_run (t : TIA) (v : Z) (ins : list input) rdys (t' : TIA) :
  Forall (fun i => is_hmove i = false) ins ->
  steps t (write "HMOVE" v :: ins) = Some (rdys, t') ->
  let d := hmove_delay (pclk t) in
  let k := Z.of_nat (length ins) in
  futureHmoveLatch t' =
    (if k <? d then delay.mkEvent (d - k) (Some tt) true
     else delay.mkEvent 0 (Some tt) false) /\
  FutureHmove t' =
    (if k <? d + 3 then delay.mkEvent (d + 3 - k) (Some tt) true
     else delay.mkEvent 0 (Some tt) false) /\
  (k = d ->
   phaseclock.Phi2 (pclk t') && (hsync t' =? 0) = false ->
   HmoveLatch t' = true) /\
  (d + 3 <= k ->
   let seen := phi2_seen (drop (Z.to_nat (d + 3))
                               (run_states t (write "HMOVE" v :: ins))) in
   HmoveCt t' = if (seen <=? 15)%nat then 15 - Z.of_nat seen else 0xff).
Proof.
  intros Hf H d k. pose proof (hmove_delay_nonneg (pclk t)) as Hd. fold d in Hd.
  apply steps_cons in H. destruct H as (rdy & t1 & rest & H1 & H2 & ->).
  cbn [write fst snd] in H1.
  destruct (Step_hmove_anywhere t _ _ rdy t1 H1) as (A1 & A2 & _ & A4).
  change (is_hmove (true, Some (mkChipData "HMOVE" v))) with true in A1, A2, A4.
  cbv iota in A1, A2, A4. fold d in A1, A2, A4.
  assert (HL1 : futureHmoveLatch t1 = delay.mkEvent d (Some tt) (0 <? d)).
  { rewrite A1. unfold delay.Tick.
    cbn [delay.remainingCycles delay.payload delay.unresolved].
    destruct (Z.eqb_spec (d + 1) 1) as [E|E].
    - replace d with 0 by lia. reflexivity.
    - replace (d + 1 >? 0) with true by lia. cbn [snd].
      replace (0 <? d) with true by lia. f_equal. lia. }
  assert (HM1 : FutureHmove t1 = delay.mkEvent (d + 3) (Some tt) (0 <? d + 3)).
  { rewrite A2. unfold delay.Tick.
    cbn [delay.remainingCycles delay.payload delay.unresolved].
    replace (d + 3 + 1 =? 1) with false by lia.
    replace (d + 3 + 1 >? 0) with true by lia. cbn [snd].
    replace (0 <? d + 3) with true by lia. f_equal. lia. }
  destruct (hmove_events_run ins t1 rest t' d (d + 3) Hf H2 Hd ltac:(lia) HL1 HM1)
    as (I1 & I2 & I3 & I4 & _).
  fold k in I1, I2, I3, I4.
  split; [|split; [|split]].
  - rewrite I1. destruct (Z.ltb_spec k d); f_equal; lia.
  - rewrite I2. destruct (Z.ltb_spec k (d + 3)); f_equal; lia.
  - intros Hk Hw. destruct (Z.eqb_spec d 0) as [E0|E0].
    + assert (ins = []) by (destruct ins; [reflexivity|subst k; cbn [length] in Hk; lia]).
      subst ins. injection H2 as _ <-.
      apply A4; [|exact Hw]. unfold fires.
      cbn [delay.remainingCycles delay.payload]. rewrite E0. discriminate.
    + apply I3; [lia|exact Hk|exact Hw].
  - intros Hk. cbv zeta. rewrite <- countdown_15.
    cbn [run_states write]. rewrite H1.
    replace (Z.to_nat (d + 3)) with (S (Z.to_nat (d + 3 - 1))) by lia.
    cbn [drop]. apply I4. lia.
Qed.

(** What a register write does to the horizontal counters and to the RSYNC
    slots, in any state. *)
Lemma service_rsync (t : TIA) rm pd b (t1 : TIA) :
  service t rm pd = Some (b, t1) ->
  hsync t1 = hsync t /\ futureHsync t1 = futureHsync t /\
  pclk t1 = (if is_rsync (rm, pd) then 1 else pclk t) /\
  futureRsyncAlign t1 =
    (if is_rsync (rm, pd) then delay.mkEvent 4 (Some tt) true
     else futureRsyncAlign t) /\
  futureRsyncReset t1 =
    (if is_rsync (rm, pd) then delay.mkEvent 8 (Some tt) true
     else futureRsyncReset t).
Proof.
  intros Es. destruct (is_rsync (rm, pd)) eqn:Er.
  - unfold service, is_rsync in *.
    destruct rm; [|discriminate]. destruct pd as [d|]; [|discriminate].
    apply String.eqb_eq in Er. unfold UpdateTIA, schedule_slot, delay.Schedule in Es.
    rewrite Er in *. cbn in Es.
    destruct (delay.unresolved (futureRsyncAlign t)); [discriminate|].
    cbn in Es.
    destruct (delay.unresolved (futureRsyncReset t)); [discriminate|].
    injection Es as <- <-. cbn. repeat split.
  - destruct (service_fields t rm pd b t1 Er Es)
      as (S1 & S2 & _ & _ & _ & S6 & S7 & S8 & _).
    repeat split; assumption.
Qed.

(** An RSYNC strobe while one of its two events is pending books a slot
    that is not resolved. *)
Lemma rsync_pending_panics (t : TIA) rm pd :
  is_rsync (rm, pd) = true ->
  delay.unresolved (futureRsyncAlign t) || delay.unresolved (futureRsyncReset t)
  = true ->
  Step t rm pd = None.
Proof.
  intros Er H. unfold is_rsync in Er.
  destruct rm; [|discriminate]. destruct pd as [d|]; [|discriminate].
  apply String.eqb_eq in Er.
  unfold Step, UpdateTIA, schedule_slot, delay.Schedule. rewrite Er. cbn.
  destruct (delay.unresolved (futureRsyncAlign t)); [reflexivity|].
  cbn [orb] in H. cbn. rewrite H. reflexivity.
Qed.

(** The horizontal counters once the events of a cycle have ticked, in any
    state: the reset event of an RSYNC strobe zeroes both. *)
Lemma tick_events_counters (t : TIA) :
  hsync (tick_events t)
  = match fires (futureRsyncReset t) with Some _ => 0 | None => hsync t end /\
  pclk (tick_events t)
  = match fires (futureRsyncReset t) with Some _ => 0 | None => pclk t end.
Proof.
  unfold tick_events, fires. split.
  - frames. rewrite tick_slot_fired by frame_side. frames.
    destruct (_ =? 1); [|reflexivity].
    destruct (delay.payload _); reflexivity.
  - frames. rewrite tick_slot_fired by frame_side. frames.
    destruct (_ =? 1); [|reflexivity].
    destruct (delay.payload _); reflexivity.
Qed.

Lemma hsync_decode_reset_slot (t t4 : TIA) :
  hsync_decode t = Some t4 -> futureRsyncReset t4 = futureRsyncReset t.
Proof.
  unfold hsync_decode, schedule_slot, delay.Schedule, polycounter.Count,
    polycounter.Reset.
  cbn [hsync set_hsync futureHsync futureRsyncAlign HmoveLatch].
  generalize (polycounter.Tick (hsync t)). intros c.
  repeat match goal with
         | |- context [if ?b then _ else _] => destruct b
         end;
    intros H; try discriminate; injection H as <-; reflexivity.
Qed.

(** One video cycle in any state, as it shows in the horizontal counters,
    the RSYNC slots and the booking of [futureHsync]. *)
Lemma Step_counters (t : TIA) rm pd rdy (t' : TIA) :
  Step t rm pd = Some (rdy, t') ->
  let A := if is_rsync (rm, pd) then delay.mkEvent 4 (Some tt) true
           else futureRsyncAlign t in
  let R := if is_rsync (rm, pd) then delay.mkEvent 8 (Some tt) true
           else futureRsyncReset t in
  let p1 := if is_rsync (rm, pd) then 1 else pclk t in
  let h1 := match fires R with Some _ => 0 | None => hsync t end in
  futureRsyncAlign t' = snd (delay.Tick A) /\
  futureRsyncReset t' = snd (delay.Tick R) /\
  pclk t' = match fires R with Some _ => 0 | None => (p1 + 1) mod 4 end /\
  hsync t' = (if phaseclock.Phi2 (pclk t')
              then if polycounter.Tick h1 =? 57 then 0 else polycounter.Tick h1
              else h1) /\
  (futureHsync t' = snd (delay.Tick (futureHsync t)) \/
   phaseclock.Phi2 (pclk t') = true /\
   exists p, futureHsync t' = delay.mkEvent (hsyncDelay + 1) (Some p) true).
Proof.
  intros H A R p1 h1. rewrite Step_phases in H.
  destruct (service _ rm pd) as [[b t1]|] eqn:Es; [|discriminate].
  destruct (service_rsync _ _ _ _ _ Es) as (S1 & S2 & S3 & S4 & S5).
  cbn [hsync futureHsync pclk futureRsyncAlign futureRsyncReset set_videoCycles]
    in S1, S2, S3, S4, S5.
  fold A in S4. fold R in S5. fold p1 in S3. clear Es.
  assert (T : futureRsyncAlign (ticked t1) = snd (delay.Tick A) /\
              futureRsyncReset (ticked t1) = snd (delay.Tick R) /\
              pclk (ticked t1)
              = match fires R with Some _ => 0 | None => (p1 + 1) mod 4 end /\
              hsync (ticked t1) = h1 /\
              futureHsync (ticked t1) = snd (delay.Tick (futureHsync t))).
  { unfold ticked.
    destruct (tick_events_counters (set_pclk t1 (phaseclock.Tick (pclk t1))))
      as (K1 & K2).
    rewrite tick_events_futureRsyncAlign, tick_events_futureRsyncReset,
      tick_events_futureHsync, K1, K2.
    cbn [futureRsyncAlign futureRsyncReset futureHsync hsync pclk set_pclk].
    rewrite S1, S2, S3, S4, S5. unfold phaseclock.Tick. repeat split. }
  clearbody A R p1 h1. clear S1 S2 S3 S4 S5.
  revert H T. generalize (ticked t1). intros t2 H (T1 & T2 & T3 & T4 & T5).
  destruct (phaseclock.Phi2 (pclk t2)) eqn:Ephi.
  - destruct (hsync_decode t2) as [t4|] eqn:Ed; [|discriminate].
    destruct (hsync_decode_signal t2 t4 Ed) as (_ & _ & _ & D4 & D5 & _).
    destruct (hsync_decode_frame t2 t4 Ed) as (_ & D7 & _).
    destruct (hsync_decode_booking t2 t4 Ed) as (_ & D8).
    pose proof (hsync_decode_reset_slot t2 t4 Ed) as D9.
    injection H as <- <-.
    destruct (update_HmoveCt_fields t4)
      as (U1 & U2 & _ & _ & _ & U6 & U7 & U8 & _).
    rewrite U1, U2, U6, U7, U8, D4, D5, D7, D9, Ephi, T1, T2, T3, T4.
    repeat split; try reflexivity.
    destruct D8 as [D8|D8]; [left; rewrite D8; exact T5|right].
    split; [reflexivity|exact D8].
  - injection H as <- <-.
    destruct (update_HmoveCt_fields t2)
      as (U1 & U2 & _ & _ & _ & U6 & U7 & U8 & _).
    rewrite U1, U2, U6, U7, U8, Ephi, T1, T2, T3, T4.
    repeat split; try reflexivity. left. exact T5.
Qed.

Lemma timing_weak (t : TIA) : timing_inv t -> weak_inv t.
Proof.
  intros (Hh & Hp & Hq1 & Hq2 & Hl).
  split; [exact Hh|]. split; [exact Hp|]. split; [exact Hq1|].
  split; [exact Hq2|].
  unfold line_inv, line_inv_weak in *. cbv zeta in *.
  repeat match goal with
         | |- context [if ?b then _ else _] => destruct b eqn:?
         end; intuition.
Qed.

Lemma weak_timing (t : TIA) : weak_inv t -> 17 <= hsync t -> timing_inv t.
Proof.
  intros (Hh & Hp & Hq1 & Hq2 & Hl) H17.
  split; [exact Hh|]. split; [exact Hp|]. split; [exact Hq1|].
  split; [exact Hq2|].
  unfold line_inv, line_inv_weak in *. cbv zeta in *.
  replace (hsync t =? 8) with false in * by lia.
  replace (hsync t =? 12) with false in * by lia.
  replace (hsync t =? 16) with false in * by lia.
  replace (hsync t <? 16) with false in * by lia.
  exact Hl.
Qed.

Ltac split_ltb :=
  repeat match goal with
         | |- context [?a <? ?b] => destruct (Z.ltb_spec a b)
         | H : context [?a <? ?b] |- _ => destruct (Z.ltb_spec a b)
         end.

Lemma weak_inv_Step (t : TIA) rm pd rdy (t' : TIA) :
  weak_inv t ->
  is_rsync (rm, pd) = false ->
  Step t rm pd = Some (rdy, t') ->
  weak_inv t'.
Proof.
  intros (Hh & Hp & Hq1 & Hq2 & Hl) Hr H.
  destruct (Step_timing t rm pd rdy t' Hq1 Hq2 Hh Hp Hr H)
    as (latch1 & L1 & _ & Q1 & Q2 & P & HB & _ & _ & D).
  clear H Hr.
  unfold weak_inv. split; [|split; [|split; [exact Q1|split; [exact Q2|]]]].
  - destruct ((pclk t + 1) mod 4 =? 2); destruct D as (D1 & _); rewrite D1;
      [destruct (hsync t + 1 =? 57) eqn:E|]; lia.
  - rewrite P. pose proof (Z.mod_pos_bound (pclk t + 1) 4). lia.
  - unfold line_inv_weak, stale in *. rewrite P. cbv zeta in *.
    unfold hblank_after, decoded, booked, quiet, delay.Tick, hsyncDelay in *.
    destruct (futureHsync t) as [rem pl un].
    cbn [delay.remainingCycles delay.payload delay.unresolved] in *.
    assert (Hc : pclk t = 0 \/ pclk t = 1 \/ pclk t = 2 \/ pclk t = 3) by lia.
    destruct Hc as [Hc | [Hc | [Hc | Hc]]]; rewrite Hc in *.
    + (* phase 0 to 1 *)
      change ((0 + 1) mod 4) with 1 in *. change ((0 + 2) mod 4) with 2 in *.
      change ((1 + 2) mod 4) with 3 in *. change (1 =? 2) with false in *.
      cbv iota in D. destruct D as (D1 & D2 & D3). rewrite D1, D2, D3, HB.
      clear D1 D2 D3 HB P Q1 Q2 Hq1 Hq2 Hc Hp.
      assert (Hs : hsync t = 8 \/ hsync t = 12 \/ hsync t = 16 \/ hsync t = 17 \/
                   hsync t = 18 \/ hsync t = 56 \/
                   (hsync t <> 8 /\ hsync t <> 12 /\ hsync t <> 16 /\
                    hsync t <> 17 /\ hsync t <> 18 /\ hsync t <> 56)) by lia.
      destruct Hs as [Hs|[Hs|[Hs|[Hs|[Hs|[Hs|Hs]]]]]];
        decide_tests; split_ltb; open_facts; decide_tests; cbn [snd];
        settle.
    + (* phase 1 to 2: Phi2, the counter ticks *)
      change ((1 + 1) mod 4) with 2 in *. change ((1 + 2) mod 4) with 3 in *.
      change ((2 + 2) mod 4) with 0 in *. change (2 =? 2) with true in *.
      cbv iota in D. destruct D as (D1 & D2 & D3). rewrite D1, D2, HB.
      clear D1 D2 HB P Q1 Q2 Hq1 Hq2 Hc Hp.
      assert (Hs : hsync t = 7 \/ hsync t = 8 \/ hsync t = 11 \/ hsync t = 12 \/
                   hsync t = 15 \/ hsync t = 16 \/ hsync t = 17 \/
                   hsync t = 18 \/ hsync t = 55 \/ hsync t = 56 \/
                   (hsync t <> 7 /\ hsync t <> 8 /\ hsync t <> 11 /\
                    hsync t <> 12 /\ hsync t <> 15 /\ hsync t <> 16 /\
                    hsync t <> 17 /\ hsync t <> 18 /\ hsync t <> 55 /\
                    hsync t <> 56)) by lia.
      destruct Hs as [Hs|[Hs|[Hs|[Hs|[Hs|[Hs|[Hs|[Hs|[Hs|[Hs|Hs]]]]]]]]]];
        decide_tests; open_facts; decide_tests; cbn [snd] in *;
        try (destruct latch1; cbv iota in * );
        open_facts; try rewrite D3; cbn [snd] in *;
        destruct (Hblank t) eqn:EHb; destruct (HmoveLatch t) eqn:EHl;
        split_ltb; open_facts; decide_tests; cbn [snd] in *;
        settle.
    + (* phase 2 to 3 *)
      change ((2 + 1) mod 4) with 3 in *. change ((2 + 2) mod 4) with 0 in *.
      change ((3 + 2) mod 4) with 1 in *. change (3 =? 2) with false in *.
      cbv iota in D. destruct D as (D1 & D2 & D3). rewrite D1, D2, D3, HB.
      clear D1 D2 D3 HB P Q1 Q2 Hq1 Hq2 Hc Hp.
      assert (Hs : hsync t = 8 \/ hsync t = 12 \/ hsync t = 16 \/ hsync t = 17 \/
                   hsync t = 18 \/ hsync t = 56 \/
                   (hsync t <> 8 /\ hsync t <> 12 /\ hsync t <> 16 /\
                    hsync t <> 17 /\ hsync t <> 18 /\ hsync t <> 56)) by lia.
      destruct Hs as [Hs|[Hs|[Hs|[Hs|[Hs|[Hs|Hs]]]]]];
        decide_tests; split_ltb; open_facts; decide_tests; cbn [snd];
        settle.
    + (* phase 3 to 0 *)
      change ((3 + 1) mod 4) with 0 in *. change ((3 + 2) mod 4) with 1 in *.
      change ((0 + 2) mod 4) with 2 in *. change (0 =? 2) with false in *.
      cbv iota in D. destruct D as (D1 & D2 & D3). rewrite D1, D2, D3, HB.
      clear D1 D2 D3 HB P Q1 Q2 Hq1 Hq2 Hc Hp.
      assert (Hs : hsync t = 8 \/ hsync t = 12 \/ hsync t = 16 \/ hsync t = 17 \/
                   hsync t = 18 \/ hsync t = 56 \/
                   (hsync t <> 8 /\ hsync t <> 12 /\ hsync t <> 16 /\
                    hsync t <> 17 /\ hsync t <> 18 /\ hsync t <> 56)) by lia.
      destruct Hs as [Hs|[Hs|[Hs|[Hs|[Hs|[Hs|Hs]]]]]];
        decide_tests; split_ltb; open_facts; decide_tests; cbn [snd];
        settle.
Qed.

Lemma hpos_range_weak (t : TIA) : weak_inv t -> 0 <= hpos t <= 227.
Proof.
  intros (Hh & Hp & _). unfold hpos, polycounter.Count, phaseclock.Count.
  pose proof (Z.mod_pos_bound (pclk t + 2) 4). lia.
Qed.

Lemma hpos_Step_weak (t : TIA) rm pd rdy (t' : TIA) :
  weak_inv t ->
  is_rsync (rm, pd) = false ->
  Step t rm pd = Some (rdy, t') ->
  hpos t' = (hpos t + 1) mod 228.
Proof.
  intros (Hh & Hp & Hq1 & Hq2 & _) Hr H.
  destruct (Step_timing t rm pd rdy t' Hq1 Hq2 Hh Hp Hr H)
    as (latch1 & _ & _ & _ & _ & P & _ & _ & _ & D).
  unfold hpos, polycounter.Count, phaseclock.Count. rewrite P.
  assert (Hc : pclk t = 0 \/ pclk t = 1 \/ pclk t = 2 \/ pclk t = 3) by lia.
  destruct Hc as [Hc | [Hc | [Hc | Hc]]]; rewrite Hc in *.
  - change ((0 + 1) mod 4) with 1 in *. change ((0 + 2) mod 4) with 2.
    change ((1 + 2) mod 4) with 3. change (1 =? 2) with false in D.
    destruct D as (-> & _). rewrite Z.mod_small; lia.
  - change ((1 + 1) mod 4) with 2 in *. change ((1 + 2) mod 4) with 3.
    change ((2 + 2) mod 4) with 0. change (2 =? 2) with true in D.
    destruct D as (-> & _).
    destruct (Z.eqb_spec (hsync t + 1) 57) as [E|E].
    + replace (4 * hsync t + 3 + 1) with 228 by lia. reflexivity.
    + rewrite Z.mod_small; lia.
  - change ((2 + 1) mod 4) with 3 in *. change ((2 + 2) mod 4) with 0.
    change ((3 + 2) mod 4) with 1. change (3 =? 2) with false in D.
    destruct D as (-> & _). rewrite Z.mod_small; lia.
  - change ((3 + 1) mod 4) with 0 in *. change ((3 + 2) mod 4) with 1.
    change ((0 + 2) mod 4) with 2. change (0 =? 2) with false in D.
    destruct D as (-> & _). rewrite Z.mod_small; lia.
Qed.

Lemma weak_steps (ins : list input) : forall (t : TIA) rdys (t' : TIA),
  weak_inv t -> rsync_free ins ->
  steps t ins = Some (rdys, t') ->
  weak_inv t' /\ hpos t' = (hpos t + len ins) mod 228.
Proof.
  unfold len.
  induction ins as [|[rm pd] ins IH]; intros t rdys t' Hi Hf H.
  - injection H as _ <-. split; [exact Hi|]. cbn [length].
    pose proof (hpos_range_weak t Hi). rewrite Z.mod_small; lia.
  - apply steps_cons in H. destruct H as (rdy & t1 & rest & H1 & H2 & _).
    cbn [fst snd] in H1. inversion Hf as [|? ? Hr Hf']; subst.
    destruct (IH t1 rest t' (weak_inv_Step t rm pd rdy t1 Hi Hr H1) Hf' H2)
      as [I1 I2].
    split; [exact I1|]. rewrite I2, (hpos_Step_weak t rm pd rdy t1 Hi Hr H1).
    rewrite Zplus_mod_idemp_l. f_equal. cbn [length]. lia.
Qed.

(** After 68 cycles without an RSYNC strobe the scanline invariant holds in
    full. *)
Lemma weak_heals (ins : list input) (t : TIA) rdys (t' : TIA) :
  weak_inv t -> rsync_free ins -> 68 <= len ins ->
  steps t ins = Some (rdys, t') ->
  timing_inv t'.
Proof.
  intros Hw Hf Hlen H.
  destruct (Z_le_gt_dec 17 (hsync t)) as [E|E].
  - exact (proj1 (hpos_steps ins t rdys t' (weak_timing t Hw E) Hf H)).
  - pose proof (hpos_range_weak t Hw) as Hr.
    assert (Hx : hpos t <= 67).
    { unfold hpos, polycounter.Count, phaseclock.Count.
      pose proof (Z.mod_pos_bound (pclk t + 2) 4). lia. }
    set (m := Z.to_nat (68 - hpos t)).
    unfold len in Hlen.
    rewrite <- (take_drop m ins) in H, Hf.
    apply Forall_app in Hf. destruct Hf as [Hf1 Hf2].
    rewrite steps_app in H.
    destruct (steps t (take m ins)) as [[r1 t1]|] eqn:E1; [|discriminate].
    destruct (steps t1 (drop m ins)) as [[r2 t2]|] eqn:E2; [|discriminate].
    injection H as _ <-.
    destruct (weak_steps _ t r1 t1 Hw Hf1 E1) as [W1 P1].
    unfold len in P1. rewrite length_take in P1.
    replace (Z.of_nat (m `min` length ins)) with (68 - hpos t) in P1 by lia.
    replace (hpos t + (68 - hpos t)) with 68 in P1 by lia.
    change (68 mod 228) with 68 in P1.
    assert (E17 : 17 <= hsync t1).
    { unfold hpos, polycounter.Count, phaseclock.Count in P1.
      pose proof (Z.mod_pos_bound (pclk t1 + 2) 4). lia. }
    exact (proj1 (hpos_steps _ t1 r2 t2 (weak_timing t1 W1 E17) Hf2 E2)).
Qed.

(** What [futureHsync] holds while the weak invariant holds. *)
Lemma weak_slot (t : TIA) :
  weak_inv t ->
  0 <= delay.remainingCycles (futureHsync t) <= 4 /\
  delay.unresolved (futureHsync t)
  = (0 <? delay.remainingCycles (futureHsync t)).
Proof.
  intros (Hh & Hp & _ & _ & Hl).
  unfold line_inv_weak, booked, quiet, stale in Hl. cbv zeta in Hl.
  pose proof (Z.mod_pos_bound (pclk t + 2) 4) as Hm.
  destruct (futureHsync t) as [rem pl un].
  cbn [delay.remainingCycles delay.payload delay.unresolved] in *.
  repeat match type of Hl with
         | context [if ?b then _ else _] => destruct b
         end;
    open_facts; split; try lia;
    match goal with
    | |- _ = (0 <? ?x) => destruct (Z.ltb_spec 0 x); try lia; reflexivity
    end.
Qed.

(** A tick of a slot brings its count one nearer to 0. *)
Lemma tick_bound {A : Type} (e : delay.Event A) (b : Z) :
  0 <= delay.remainingCycles e <= b ->
  delay.unresolved e = (0 <? delay.remainingCycles e) ->
  0 <= delay.remainingCycles (snd (delay.Tick e)) <= Z.max 0 (b - 1) /\
  delay.unresolved (snd (delay.Tick e))
  = (0 <? delay.remainingCycles (snd (delay.Tick e))).
Proof.
  destruct e as [rem pl un]. unfold delay.Tick.
  cbn [delay.remainingCycles delay.payload delay.unresolved].
  intros Hr ->.
  destruct (Z.eqb_spec rem 1) as [->|E1]; cbn [snd delay.remainingCycles delay.unresolved].
  - split; [lia|reflexivity].
  - destruct (Z.gtb_spec rem 0) as [E0|E0];
      cbn [snd delay.remainingCycles delay.unresolved].
    + split; [lia|].
      destruct (Z.ltb_spec 0 rem), (Z.ltb_spec 0 (rem - 1)); try lia; reflexivity.
    + split; [lia|reflexivity].
Qed.

(** Evaluate the closed arithmetic of a hypothesis. *)
Ltac is_const v :=
  match v with
  | Z0 => idtac
  | Zpos _ => idtac
  | Zneg _ => idtac
  | true => idtac
  | false => idtac
  end.

Ltac eval_in H :=
  repeat
    (progress
       (repeat match type of H with
               | context [?a mod ?b] =>
                   let v := eval vm_compute in (a mod b) in
                   is_const v; progress change (a mod b) with v in H
               | context [?a - ?b] =>
                   let v := eval vm_compute in (a - b) in
                   is_const v; progress change (a - b) with v in H
               | context [?a + ?b] =>
                   let v := eval vm_compute in (a + b) in
                   is_const v; progress change (a + b) with v in H
               | context [?a =? ?b] =>
                   let v := eval vm_compute in (a =? b) in
                   is_const v; progress change (a =? b) with v in H
               | context [?a <? ?b] =>
                   let v := eval vm_compute in (a <? b) in
                   is_const v; progress change (a <? b) with v in H
               | context [?a >? ?b] =>
                   let v := eval vm_compute in (a >? b) in
                   is_const v; progress change (a >? b) with v in H
               | context [phaseclock.Phi2 ?a] =>
                   let v := eval vm_compute in (phaseclock.Phi2 a) in
                   is_const v; progress change (phaseclock.Phi2 a) with v in H
               end;
        cbv iota in H;
        cbn [delay.remainingCycles delay.payload delay.unresolved snd fst] in H)).

Ltac eval_goal :=
  repeat
    (progress
       (repeat match goal with
               | |- context [?a mod ?b] =>
                   let v := eval vm_compute in (a mod b) in
                   is_const v; progress change (a mod b) with v
               | |- context [?a - ?b] =>
                   let v := eval vm_compute in (a - b) in
                   is_const v; progress change (a - b) with v
               | |- context [?a + ?b] =>
                   let v := eval vm_compute in (a + b) in
                   is_const v; progress change (a + b) with v
               | |- context [?a =? ?b] =>
                   let v := eval vm_compute in (a =? b) in
                   is_const v; progress change (a =? b) with v
               | |- context [?a <? ?b] =>
                   let v := eval vm_compute in (a <? b) in
                   is_const v; progress change (a <? b) with v
               end;
        cbv iota;
        cbn [delay.remainingCycles delay.payload delay.unresolved snd fst])).

(** The cycle of an RSYNC strobe. *)
Lemma weak_rsync (t : TIA) rm pd rdy (t' : TIA) :
  weak_inv t -> is_rsync (rm, pd) = true ->
  Step t rm pd = Some (rdy, t') ->
  transit 0 t'.
Proof.
  intros Hw Hr H. destruct (weak_slot t Hw) as [Hb Hu].
  destruct Hw as (Hh & _).
  destruct (Step_counters t rm pd rdy t' H) as (K1 & K2 & K3 & K4 & K5).
  rewrite Hr in K1, K2, K3, K4. cbv zeta in K4.
  unfold fires, delay.Tick in K1, K2, K3, K4.
  cbn [delay.remainingCycles delay.payload delay.unresolved snd] in K1, K2, K3, K4.
  eval_in K1. eval_in K2. eval_in K3. eval_in K4. cbn [snd] in K1, K2.
  rewrite K3 in K4. eval_in K4.
  rewrite (polycounter_Tick_line _ Hh) in K4.
  destruct (tick_bound (futureHsync t) 4 Hb Hu) as [Tb Tu]. eval_in Tb.
  unfold transit. change (0 <? 3) with true. cbv iota.
  split; [exact K1|]. split; [exact K2|]. split; [exact K3|].
  split; [rewrite K4; destruct (hsync t + 1 =? 57) eqn:E; lia|].
  change (4 - 0 mod 4) with 4.
  destruct K5 as [K5|(_ & p & K5)]; rewrite K5.
  - split; [lia|exact Tu].
  - cbn [delay.remainingCycles delay.unresolved]. unfold hsyncDelay.
    split; [lia|reflexivity].
Qed.

Lemma transit_no_rsync (k : Z) (t : TIA) rm pd rdy (t' : TIA) :
  transit k t -> Step t rm pd = Some (rdy, t') -> is_rsync (rm, pd) = false.
Proof.
  intros (_ & T2 & _) H. destruct (is_rsync (rm, pd)) eqn:Er; [|reflexivity].
  rewrite (rsync_pending_panics t rm pd Er) in H; [discriminate|].
  rewrite T2. cbn. apply orb_true_r.
Qed.

(** The cycles between the strobe and the reset of the counters. *)
Lemma transit_Step (k : Z) (t : TIA) rm pd rdy (t' : TIA) :
  transit k t -> 0 <= k <= 5 ->
  Step t rm pd = Some (rdy, t') ->
  transit (k + 1) t'.
Proof.
  intros Ht Hk H. pose proof (transit_no_rsync k t rm pd rdy t' Ht H) as Hr.
  destruct Ht as (T1 & T2 & T3 & T4 & T5 & T6).
  destruct (Step_counters t rm pd rdy t' H) as (K1 & K2 & K3 & K4 & K5).
  rewrite Hr in K1, K2, K3, K4. cbv zeta in K4.
  rewrite T1 in K1. rewrite T2 in K2, K3, K4. rewrite T3 in K3.
  unfold fires, delay.Tick in K1, K2, K3, K4.
  pose proof (polycounter_Tick_line _ T4) as Hpt.
  assert (Hh' : 0 <= (if hsync t + 1 =? 57 then 0 else hsync t + 1) <= 56)
    by (destruct (hsync t + 1 =? 57) eqn:E; lia).
  assert (Hc : k = 0 \/ k = 1 \/ k = 2 \/ k = 3 \/ k = 4 \/ k = 5) by lia.
  unfold transit.
  destruct Hc as [-> | [-> | [-> | [-> | [-> | ->]]]]];
    eval_in K1; eval_in K2; eval_in K3; eval_in K4; eval_in T5;
    rewrite K3 in K4, K5; eval_in K4; eval_in K5; eval_goal;
    try rewrite Hpt in K4;
    destruct (tick_bound (futureHsync t) _ T5 T6) as [Tb Tu]; eval_in Tb;
    (split; [exact K1|]); (split; [exact K2|]); (split; [exact K3|]);
    (split; [rewrite K4; first [exact T4|exact Hh']|]);
    (destruct K5 as [K5|(K5 & p & K6)];
     [rewrite K5; split; [lia|exact Tu]
     |first [discriminate K5
            |rewrite K6; unfold hsyncDelay;
             cbn [delay.remainingCycles delay.unresolved];
             split; [lia|reflexivity]]]).
Qed.

(** The cycle in which the reset event fires. *)
Lemma transit_end (t : TIA) rm pd rdy (t' : TIA) :
  transit 6 t ->
  Step t rm pd = Some (rdy, t') ->
  weak_inv t' /\ hsync t' = 0 /\ pclk t' = 0.
Proof.
  intros Ht H. pose proof (transit_no_rsync 6 t rm pd rdy t' Ht H) as Hr.
  destruct Ht as (T1 & T2 & T3 & T4 & T5 & T6).
  destruct (Step_counters t rm pd rdy t' H) as (K1 & K2 & K3 & K4 & K5).
  rewrite Hr in K1, K2, K3, K4. cbv zeta in K4.
  rewrite T1 in K1. rewrite T2 in K2, K3, K4.
  unfold fires, delay.Tick in K1, K2, K3, K4.
  eval_in K1. eval_in K2. eval_in K3. eval_in K4. eval_in T5.
  rewrite K3 in K4, K5. eval_in K4. eval_in K5.
  destruct (tick_bound (futureHsync t) _ T5 T6) as [Tb Tu]. eval_in Tb.
  destruct K5 as [K5|(K5 & _)]; [|discriminate K5].
  split; [|split; [exact K4|exact K3]].
  unfold weak_inv. rewrite K1, K2, K3, K4.
  split; [lia|]. split; [lia|].
  split; [split; reflexivity|]. split; [split; reflexivity|].
  unfold line_inv_weak. cbv zeta. rewrite K3, K4, K5. eval_goal.
  unfold quiet, stale.
  assert (Hc : delay.remainingCycles (snd (delay.Tick (futureHsync t))) = 0 \/
               delay.remainingCycles (snd (delay.Tick (futureHsync t))) = 1) by lia.
  destruct Hc as [Hc|Hc]; rewrite Hc in Tu.
  - left. split; [exact Hc|exact Tu].
  - right. split; [reflexivity|]. split; [reflexivity|]. split; [exact Hc|exact Tu].
Qed.

(** From the cycle after an RSYNC strobe, 75 cycles without another bring
    the scanline invariant back. *)
Lemma transit_heals (ins : list input) :
  forall (k : Z) (t : TIA) rdys (t' : TIA),
    transit k t -> 0 <= k <= 6 -> rsync_free ins -> 75 - k <= len ins ->
    steps t ins = Some (rdys, t') ->
    timing_inv t'.
Proof.
  unfold len.
  induction ins as [|[rm pd] ins IH]; intros k t rdys t' Ht Hk Hf Hlen H.
  - cbn [length] in Hlen. lia.
  - apply steps_cons in H. destruct H as (rdy & t1 & rest & H1 & H2 & _).
    cbn [fst snd] in H1. inversion Hf as [|? ? Hr Hf']; subst.
    cbn [length] in Hlen.
    destruct (Z.eq_dec k 6) as [->|E6].
    + apply (weak_heals ins t1 rest t'); auto.
      * exact (proj1 (transit_end t rm pd rdy t1 Ht H1)).
      * unfold len. lia.
    + apply (IH (k + 1) t1 rest t'); auto; try lia.
      apply (transit_Step k t rm pd rdy t1); auto. lia.
Qed.

(** Every state is in step with the scanline or within seven cycles of an
    RSYNC strobe. *)
Lemma running_inv (t : TIA) :
  running t -> weak_inv t \/ exists k, 0 <= k <= 6 /\ transit k t.
Proof.
  induction 1 as [|t rm pd rdy t' _ IH H].
  - left. exact (timing_weak _ timing_inv_NewTIA).
  - destruct IH as [Hw|(k & Hk & Ht)].
    + destruct (is_rsync (rm, pd)) eqn:Er.
      * right. exists 0. split; [lia|].
        exact (weak_rsync t rm pd rdy t' Hw Er H).
      * left. exact (weak_inv_Step t rm pd rdy t' Hw Er H).
    + destruct (Z.eq_dec k 6) as [->|E6].
      * left. exact (proj1 (transit_end t rm pd rdy t' Ht H)).
      * right. exists (k + 1). split; [lia|].
        apply (transit_Step k t rm pd rdy t'); auto. lia.
Qed.

Lemma settled_timing_inv (t : TIA) : settled t -> timing_inv t.
Proof.
  intros [t' Hre|t0 ins rdys t' Hrun Hf Hlen H].
  - exact (reachable_timing_inv t' Hre).
  - destruct (running_inv t0 Hrun) as [Hw|(k & Hk & Ht)].
    + apply (weak_heals ins t0 rdys t'); auto. lia.
    + apply (transit_heals ins k t0 rdys t'); auto. lia.
Qed.

(** The run that follows a write to HMOVE in a settled scanline, whatever
    else is written but HMOVE and RSYNC. *)
Lemma hmove_run_any (t : TIA) (v : Z) :
  timing_inv t ->
  forall (ins : list input) rdys (t' : TIA),
    Forall (fun i => is_rsync i = false /\ is_hmove i = false) ins ->
    steps t (write "HMOVE" v :: ins) = Some (rdys, t') ->
    timing_inv t' /\
    after_hmove (pclk t) (hmove_delay (pclk t)) (length ins) t'.
Proof.
  intros Hi.
  pose proof Hi as (_ & Hp & _).
  destruct (hmove_delay_values (pclk t) Hp) as [_ Hd].
  set (d := hmove_delay (pclk t)) in *. set (p := pclk t) in *.
  induction ins as [|[rm pd] ins IH] using rev_ind; intros rdys t' Hf H.
  - (* the cycle of the write *)
    apply steps_cons in H. destruct H as (rdy & t1 & rest & H1 & H2 & _).
    injection H2 as _ <-. cbn [write fst snd] in H1.
    pose proof (timing_inv_Step t true (Some (mkChipData "HMOVE" v)) rdy t1
                  Hi eq_refl H1) as Hi1.
    split; [exact Hi1|].
    pose proof (pclk_Step t true (Some (mkChipData "HMOVE" v)) rdy t1
                  Hi eq_refl H1) as P.
    destruct (Step_hmove t true (Some (mkChipData "HMOVE" v)) rdy t1
                Hi eq_refl H1) as (A1 & A2 & _ & _).
    change (is_hmove (true, Some (mkChipData "HMOVE" v))) with true in A1, A2.
    cbv iota in A1, A2. fold p in A1, A2, P. fold d in A1, A2.
    unfold delay.Tick in A1, A2.
    cbn [delay.remainingCycles delay.payload delay.unresolved] in A1, A2.
    unfold after_hmove. cbn [length]. change (Z.of_nat 0) with 0.
    replace (d + 1 =? 1) with false in A1 by lia.
    replace (d + 1 >? 0) with true in A1 by lia.
    replace (d + 3 + 1 =? 1) with false in A2 by lia.
    replace (d + 3 + 1 >? 0) with true in A2 by lia.
    cbn [snd] in A1, A2.
    replace (0 <? d) with true by lia. replace (0 <? d + 3) with true by lia.
    split; [rewrite P; f_equal; lia|].
    split; [rewrite A1; f_equal; lia|].
    split; [rewrite A2; f_equal; lia|].
    split; intros; lia.
  - (* one more cycle *)
    apply Forall_app in Hf. destruct Hf as [Hf Hlast].
    inversion Hlast as [|? ? [Hr Hnh] _]; subst.
    rewrite app_comm_cons, steps_app in H.
    destruct (steps t (write "HMOVE" v :: ins)) as [[rdys0 tn]|] eqn:Hrun;
      [|discriminate].
    destruct (IH rdys0 tn Hf eq_refl) as (Hin & Hpc & HLn & HMn & HCn & _).
    cbn [steps] in H.
    destruct (Step tn rm pd) as [[rdy t1]|] eqn:H1; [|discriminate].
    injection H as _ <-.
    pose proof (timing_inv_Step tn rm pd rdy t1 Hin Hr H1) as Hi1.
    split; [exact Hi1|].
    pose proof (pclk_Step tn rm pd rdy t1 Hin Hr H1) as P.
    pose proof (hpos_Step tn rm pd rdy t1 Hin Hr H1) as Hpos.
    destruct (Step_hmove tn rm pd rdy t1 Hin Hr H1)
      as (A1 & A2 & A3 & A4).
    rewrite Hnh in A1, A2, A3, A4.
    cbv iota zeta in A1, A2, A3, A4.
    rewrite HLn in A1, A4. rewrite HMn in A2, A3.
    rewrite (wrap_test tn Hin), <- Hpos in A4.
    rewrite length_app. cbn [length]. rewrite Nat.add_1_r.
    set (n := length ins) in *.
    assert (Pn : (pclk tn + 1) mod 4 = (p + 1 + Z.of_nat (S n)) mod 4).
    { rewrite Hpc, Zplus_mod_idemp_l. f_equal. lia. }
    rewrite Pn in A3.
    unfold after_hmove. rewrite P, Pn.
    split; [reflexivity|].
    unfold delay.Tick in A1, A2.
    split; [|split; [|split]].
    + rewrite A1. clear A2 A3 A4.
      destruct (Z.ltb_spec (Z.of_nat n) d) as [E|E];
        destruct (Z.ltb_spec (Z.of_nat (S n)) d) as [E'|E']; try lia;
        cbn [delay.remainingCycles delay.payload delay.unresolved].
      * replace (d - Z.of_nat n =? 1) with false by lia.
        replace (d - Z.of_nat n >? 0) with true by lia.
        cbn [snd]. f_equal. lia.
      * replace (d - Z.of_nat n =? 1) with true by lia.
        cbn [snd]. f_equal. lia.
      * reflexivity.
    + rewrite A2. clear A1 A3 A4.
      destruct (Z.ltb_spec (Z.of_nat n) (d + 3)) as [E|E];
        destruct (Z.ltb_spec (Z.of_nat (S n)) (d + 3)) as [E'|E']; try lia;
        cbn [delay.remainingCycles delay.payload delay.unresolved].
      * replace (d + 3 - Z.of_nat n =? 1) with false by lia.
        replace (d + 3 - Z.of_nat n >? 0) with true by lia.
        cbn [snd]. f_equal. lia.
      * replace (d + 3 - Z.of_nat n =? 1) with true by lia.
        cbn [snd]. f_equal. lia.
      * reflexivity.
    + intros Hge. rewrite A3. clear A1 A2 A4.
      destruct (Z.ltb_spec (Z.of_nat n) (d + 3)) as [E|E];
        cbn [delay.remainingCycles delay.payload].
      * (* the counter's event fires in this cycle *)
        replace (d + 3 - Z.of_nat n =? 1) with true by lia.
        replace (Z.to_nat (Z.of_nat (S n) - (d + 3) + 1)) with 1%nat by lia.
        cbn [phi2_count]. rewrite Nat.add_0_r.
        replace (p + d + 3 + Z.of_nat 1) with (p + 1 + Z.of_nat (S n)) by lia.
        destruct (_ =? 2); reflexivity.
      * (* it has fired before *)
        change (0 =? 1) with false. cbv iota.
        rewrite (HCn E).
        replace (Z.to_nat (Z.of_nat (S n) - (d + 3) + 1))
          with (S (Z.to_nat (Z.of_nat n - (d + 3) + 1))) by lia.
        cbn [phi2_count].
        replace (p + d + 3 + Z.of_nat (S (Z.to_nat (Z.of_nat n - (d + 3) + 1))))
          with (p + 1 + Z.of_nat (S n)) by lia.
        rewrite countdown_add.
        destruct (_ =? 2); reflexivity.
    + intros Hn. rewrite A4. clear A1 A2 A3.
      replace (Z.of_nat n <? d) with true by lia.
      cbn [delay.remainingCycles delay.payload].
      replace (d - Z.of_nat n =? 1) with true by lia.
      destruct (hpos t1 =? 0); reflexivity.
Qed.

Lemma calm_service (t : TIA) (i : input) :
  calm i = true -> service t (fst i) (snd i) <> None.
Proof.
  destruct i as [[|] [d|]]; cbn [calm fst snd service]; try discriminate.
  unfold UpdateTIA.
  destruct (String.eqb (Name d) "VSYNC"); [discriminate|].
  destruct (String.eqb (Name d) "VBLANK"); [discriminate|].
  destruct (String.eqb (Name d) "WSYNC"); [discriminate|].
  destruct (String.eqb (Name d) "RSYNC"); [discriminate|].
  destruct (String.eqb (Name d) "HMOVE"); discriminate.
Qed.

Lemma calm_plain (i : input) :
  calm i = true -> is_rsync i = false /\ is_hmove i = false.
Proof.
  destruct i as [[|] [d|]]; cbn [calm is_rsync is_hmove]; auto.
  destruct (String.eqb (Name d) "VBLANK"); [discriminate|].
  destruct (String.eqb (Name d) "RSYNC"); [discriminate|].
  destruct (String.eqb (Name d) "HMOVE"); [discriminate|]. auto.
Qed.

(** In a settled scanline, cycles that book no event do not panic. *)
Lemma calm_steps_return (ins : list input) : forall t : TIA,
  timing_inv t ->
  Forall (fun i => calm i = true) ins ->
  exists rdys t', steps t ins = Some (rdys, t').
Proof.
  induction ins as [|[rm pd] ins IH]; intros t Hi Hf; [cbn; eauto|].
  inversion Hf as [|? ? Hc Hf']; subst.
  destruct (calm_plain _ Hc) as (Hr & _).
  destruct (Step_returns t rm pd Hi Hr (calm_service _ (rm, pd) Hc))
    as (rdy & t1 & H1).
  destruct (IH t1 (timing_inv_Step t rm pd rdy t1 Hi Hr H1) Hf')
    as (rdys & t' & H2).
  exists (rdy :: rdys), t'. cbn [steps]. rewrite H1, H2. reflexivity.
Qed.

Lemma calm_rsync_free (ins : list input) :
  Forall (fun i => calm i = true) ins -> rsync_free ins.
Proof.
  intros H. eapply Forall_impl; [exact H|].
  intros i Hc. exact (proj1 (calm_plain i Hc)).
Qed.

(** The decodes panic only on a booking, and a booking only on a pending
    slot. *)
Lemma hsync_decode_returns (t : TIA) :
  delay.unresolved (futureHsync t) = false -> hsync_decode t <> None.
Proof.
  intros H.
  unfold hsync_decode, schedule_slot, delay.Schedule, polycounter.Count,
    polycounter.Reset.
  cbn [hsync set_hsync futureHsync futureRsyncAlign HmoveLatch].
  rewrite H.
  repeat match goal with
         | |- context [if ?b then _ else _] => destruct b
         end; discriminate.
Qed.

(** The phase clock and [futureHsync] once the events have ticked, in any
    state. *)
Lemma ticked_counters (t1 : TIA) :
  pclk (ticked t1)
  = match fires (futureRsyncReset t1) with
    | Some _ => 0
    | None => (pclk t1 + 1) mod 4
    end /\
  futureHsync (ticked t1) = snd (delay.Tick (futureHsync t1)).
Proof.
  unfold ticked.
  destruct (tick_events_counters (set_pclk t1 (phaseclock.Tick (pclk t1))))
    as (_ & K2).
  rewrite tick_events_futureHsync, K2. split; reflexivity.
Qed.

(** A video cycle returns when its register write does and the decodes, if
    they run, find [futureHsync] resolved. *)
Lemma Step_returns_resolved (t : TIA) rm pd b (t1 : TIA) :
  service (set_videoCycles t (videoCycles t + 1)) rm pd = Some (b, t1) ->
  (phaseclock.Phi2 (pclk (ticked t1)) = true ->
   delay.unresolved (futureHsync (ticked t1)) = false) ->
  exists rdy t', Step t rm pd = Some (rdy, t').
Proof.
  intros Es Hu. rewrite Step_phases, Es.
  destruct (phaseclock.Phi2 (pclk (ticked t1))); [|eauto].
  destruct (hsync_decode (ticked t1)) as [t4|] eqn:Ed; [eauto|].
  exfalso. exact (hsync_decode_returns _ (Hu eq_refl) Ed).
Qed.

(** In step with the scanline, a cycle that is no RSYNC strobe returns when
    its register write does. *)
Lemma Step_returns_weak (t : TIA) rm pd :
  weak_inv t ->
  is_rsync (rm, pd) = false ->
  service (set_videoCycles t (videoCycles t + 1)) rm pd <> None ->
  exists rdy t', Step t rm pd = Some (rdy, t').
Proof.
  intros (Hh & Hp & Hq1 & Hq2 & Hl) Hr Hs.
  destruct (service _ rm pd) as [[b t1]|] eqn:Es; [|contradiction]. clear Hs.
  apply (Step_returns_resolved t rm pd b t1 Es).
  destruct (service_rsync _ _ _ _ _ Es) as (_ & S2 & S3 & _ & S5).
  rewrite Hr in S3, S5.
  cbn [futureHsync pclk futureRsyncReset set_videoCycles] in S2, S3, S5.
  destruct (ticked_counters t1) as (K1 & K2).
  rewrite K1, K2, S2, S3, S5. unfold fires.
  destruct Hq2 as [Hq2 _]. rewrite Hq2. change (0 =? 1) with false. cbv iota.
  intros Ephi. unfold phaseclock.Phi2 in Ephi.
  assert (Hc : pclk t = 1).
  { assert (Hc : pclk t = 0 \/ pclk t = 1 \/ pclk t = 2 \/ pclk t = 3) by lia.
    destruct Hc as [Hc | [Hc | [Hc | Hc]]]; rewrite Hc in Ephi;
      first [exact Hc | discriminate Ephi]. }
  unfold line_inv_weak, booked, quiet, stale, delay.Tick in *. cbv zeta in Hl.
  rewrite Hc in Hl. change ((1 + 2) mod 4) with 3 in Hl.
  destruct (futureHsync t) as [rem pl un].
  cbn [delay.remainingCycles delay.payload delay.unresolved] in *.
  destruct (Z.eqb_spec rem 1); [reflexivity|].
  repeat match type of Hl with
         | if ?c then _ else _ => destruct c
         end; open_facts; try lia; reflexivity.
Qed.

(** Between an RSYNC strobe and the reset of the counters, a cycle returns
    when its register write does. *)
Lemma Step_returns_transit (k : Z) (t : TIA) rm pd :
  transit k t -> 0 <= k <= 6 ->
  is_rsync (rm, pd) = false ->
  service (set_videoCycles t (videoCycles t + 1)) rm pd <> None ->
  exists rdy t', Step t rm pd = Some (rdy, t').
Proof.
  intros (T1 & T2 & T3 & T4 & T5 & T6) Hk Hr Hs.
  destruct (service _ rm pd) as [[b t1]|] eqn:Es; [|contradiction]. clear Hs.
  apply (Step_returns_resolved t rm pd b t1 Es).
  destruct (service_rsync _ _ _ _ _ Es) as (_ & S2 & S3 & _ & S5).
  rewrite Hr in S3, S5.
  cbn [futureHsync pclk futureRsyncReset set_videoCycles] in S2, S3, S5.
  destruct (ticked_counters t1) as (K1 & K2).
  rewrite K1, K2, S2, S3, S5, T2, T3. unfold fires.
  cbn [delay.remainingCycles delay.payload].
  assert (Hc : k = 0 \/ k = 1 \/ k = 2 \/ k = 3 \/ k = 4 \/ k = 5 \/ k = 6)
    by lia.
  destruct Hc as [-> | [-> | [-> | [-> | [-> | [-> | ->]]]]]];
    eval_goal; try discriminate.
  intros _. eval_in T5.
  destruct (tick_bound (futureHsync t) _ T5 T6) as [Tb Tu]. eval_in Tb.
  rewrite Tu.
  replace (delay.remainingCycles (snd (delay.Tick (futureHsync t)))) with 0
    by lia.
  reflexivity.
Qed.

(** In every state reached from [NewTIA], cycles that book no event all
    return. *)
Lemma calm_steps_return_running (ins : list input) : forall t : TIA,
  weak_inv t \/ (exists k, 0 <= k <= 6 /\ transit k t) ->
  Forall (fun i => calm i = true) ins ->
  exists rdys t', steps t ins = Some (rdys, t').
Proof.
  induction ins as [|[rm pd] ins IH]; intros t HJ Hf; [cbn; eauto|].
  inversion Hf as [|? ? Hc Hf']; subst.
  destruct (calm_plain _ Hc) as (Hr & _).
  pose proof (calm_service (set_videoCycles t (videoCycles t + 1)) (rm, pd) Hc)
    as Hs.
  cbn [fst snd] in Hs.
  assert (H1 : exists rdy t1, Step t rm pd = Some (rdy, t1)).
  { destruct HJ as [Hw|(k & Hk & Ht)].
    - exact (Step_returns_weak t rm pd Hw Hr Hs).
    - exact (Step_returns_transit k t rm pd Ht Hk Hr Hs). }
  destruct H1 as (rdy & t1 & H1).
  assert (HJ1 : weak_inv t1 \/ (exists k, 0 <= k <= 6 /\ transit k t1)).
  { destruct HJ as [Hw|(k & Hk & Ht)].
    - left. exact (weak_inv_Step t rm pd rdy t1 Hw Hr H1).
    - destruct (Z.eq_dec k 6) as [->|E6].
      + left. exact (proj1 (transit_end t rm pd rdy t1 Ht H1)).
      + right. exists (k + 1). split; [lia|].
        apply (transit_Step k t rm pd rdy t1); auto. lia. }
  destruct (IH t1 HJ1 Hf') as (rdys & t' & H2).
  exists (rdy :: rdys), t'. cbn [steps]. rewrite H1, H2. reflexivity.
Qed.

(** The state after a cycle that is no RSYNC strobe, from any state reached
    from [NewTIA]. *)
Lemma running_step_inv (t : TIA) rm pd rdy (t1 : TIA) :
  weak_inv t \/ (exists k, 0 <= k <= 6 /\ transit k t) ->
  Step t rm pd = Some (rdy, t1) ->
  weak_inv t1 \/ (exists k, 0 <= k <= 6 /\ transit k t1).
Proof.
  intros HJ H. destruct HJ as [Hw|(k & Hk & Ht)].
  - destruct (is_rsync (rm, pd)) eqn:Er.
    + right. exists 0. split; [lia|].
      exact (weak_rsync t rm pd rdy t1 Hw Er H).
    + left. exact (weak_inv_Step t rm pd rdy t1 Hw Er H).
  - destruct (Z.eq_dec k 6) as [->|E6].
    + left. exact (proj1 (transit_end t rm pd rdy t1 Ht H)).
    + right. exists (k + 1). split; [lia|].
      apply (transit_Step k t rm pd rdy t1); auto. lia.
Qed.

(** From any state reached from [NewTIA], a register write that books no
    slot that is pending, followed by cycles that book no event, returns. *)
Lemma write_steps_return_running (t : TIA) (i : input) (ins : list input) :
  running t ->
  is_rsync i = false ->
  service (set_videoCycles t (videoCycles t + 1)) (fst i) (snd i) <> None ->
  Forall (fun i => calm i = true) ins ->
  exists rdys t', steps t (i :: ins) = Some (rdys, t').
Proof.
  intros Hrun Hr Hs Hc. destruct i as [rm pd]. cbn [fst snd] in Hs.
  pose proof (running_inv t Hrun) as HJ.
  assert (H1 : exists rdy t1, Step t rm pd = Some (rdy, t1)).
  { destruct HJ as [Hw|(k & Hk & Ht)].
    - exact (Step_returns_weak t rm pd Hw Hr Hs).
    - exact (Step_returns_transit k t rm pd Ht Hk Hr Hs). }
  destruct H1 as (rdy & t1 & H1).
  destruct (calm_steps_return_running ins t1
              (running_step_inv t rm pd rdy t1 HJ H1) Hc) as (rdys & t' & H2).
  exists (rdy :: rdys), t'. cbn [steps]. rewrite H1, H2. reflexivity.
Qed.

Lemma running_steps (ins : list input) : forall (t0 : TIA) rdys (t : TIA),
  running t0 -> steps t0 ins = Some (rdys, t) -> running t.
Proof.
  induction ins as [|[rm pd] ins IH]; intros t0 r t R0 H.
  - injection H as _ <-. exact R0.
  - apply steps_cons in H. destruct H as (rdy & t1 & rest & H1 & H2 & _).
    exact (IH t1 rest t (running_step t0 rm pd rdy t1 R0 H1) H2).
Qed.

(** The release of WSYNC in a settled scanline. *)
Lemma wsync_release_settled (t : TIA) (v : Z) (ins : list input) :
  timing_inv t ->
  Forall (fun i => is_wsync i = false) ins -> rsync_free ins ->
  (hsync t = 56 ->
   futureHsync t
   = delay.mkEvent (hsyncDelay + 1 - (pclk t + 2) mod 4) (Some NewScanline) true) /\
  (forall rdys t',
      steps t (write "WSYNC" v :: ins) = Some (rdys, t') ->
      rdys = map (fun k => 227 - hpos t <=? Z.of_nat k) (seq 0 (S (length ins))) /\
      hpos t' = (hpos t + 1 + len ins) mod 228).
Proof.
  intros Hi Hw Hfr.
  assert (Hf : Forall (fun i => is_rsync i = false /\ is_wsync i = false) ins).
  { apply Forall_forall. intros i Hin. split.
    - exact (proj1 (Forall_forall _ _) Hfr i Hin).
    - exact (proj1 (Forall_forall _ _) Hw i Hin). }
  split.
  - intros Hh. destruct Hi as (_ & _ & _ & _ & Hl).
    unfold line_inv, booked in Hl. cbv zeta in Hl. rewrite Hh in Hl.
    cbn [Z.eqb Pos.eqb] in Hl. cbv iota in Hl. apply Hl.
  - intros rdys t' H.
    assert (Hfr' : rsync_free (write "WSYNC" v :: ins))
      by (constructor; [reflexivity|exact Hfr]).
    destruct (hpos_steps _ t rdys t' Hi Hfr' H) as [_ Hpos].
    split.
    + apply steps_cons in H. destruct H as (rdy & t1 & rest & H1 & H2 & ->).
      cbn [write fst snd] in H1.
      destruct (wsync_Step t true (Some (mkChipData "WSYNC" v)) rdy t1 Hi eq_refl H1) as [W R].
      pose proof (hpos_Step t true (Some (mkChipData "WSYNC" v)) rdy t1 Hi eq_refl H1) as Hp1.
      pose proof (hpos_range t Hi) as Hrange.
      change (is_wsync (true, Some (mkChipData "WSYNC" v))) with true in W.
      rewrite orb_true_r in W.
      rewrite (rdys_until_new_scanline ins t1 rest t'
                 (timing_inv_Step t true (Some (mkChipData "WSYNC" v)) rdy t1 Hi eq_refl H1) Hf H2).
      cbn [seq map]. rewrite <- seq_shift, map_map. f_equal.
      * rewrite R, W. destruct (Z.eqb_spec (hpos t) 227) as [E|E];
          destruct (Z.leb_spec (227 - hpos t) (Z.of_nat 0)); try lia;
          reflexivity.
      * apply map_ext. intros k. rewrite W, Hp1.
        destruct (Z.eqb_spec (hpos t) 227) as [E|E].
        -- destruct (Z.leb_spec (227 - hpos t) (Z.of_nat (S k))); try lia;
             reflexivity.
        -- rewrite Z.mod_small by lia. cbn [negb orb].
           destruct (Z.leb_spec (227 - (hpos t + 1)) (Z.of_nat k));
             destruct (Z.leb_spec (227 - hpos t) (Z.of_nat (S k)));
             try lia; reflexivity.
    + rewrite Hpos. f_equal. unfold len. cbn [length]. lia.
Qed.

(** C2 (as amended).  In any state, the video cycles from a write to WSYNC
    on return RDY false until the first cycle in which [newScanline] runs,
    and RDY true from that cycle on, as long as WSYNC is not written again:
    RDY is the negation of the WSYNC flag, which only [newScanline] clears,
    and which starts the scanline count anew.  [newScanline] runs when
    [futureHsync] fires the event that the hsync decode of count 56 ([SHB])
    books 3 clocks ahead, and also when the alignment event of an RSYNC
    strobe fires.  In a settled scanline the release falls on the cycle that
    leaves colour clock 227, which is colour clock 0 of the next scanline.
    In every state reached from [NewTIA] the write and cycles that book no
    event, as while the CPU is held, all return. *)
Theorem wsync_holds_until_new_scanline (t : TIA) (v : Z) (ins : list input) :
  Forall (fun i => is_wsync i = false) ins ->
  (forall rdys t',
      steps t (write "WSYNC" v :: ins) = Some (rdys, t') ->
      rdys = map (fun k => existsb (due_at t (write "WSYNC" v :: ins))
                                   (seq 0 (S k)))
                 (seq 0 (S (length ins)))) /\
  (forall rm pd rdy t',
      Step t rm pd = Some (rdy, t') ->
      rdy = negb (wsync t') /\
      wsync t' = (if new_scanline_due t (rm, pd) then false
                  else wsync t || is_wsync (rm, pd)) /\
      (new_scanline_due t (rm, pd) = true -> videoCycles t' = 0) /\
      (phaseclock.Phi2 (pclk t') = true -> hsync t' = 56 ->
       delay.IsActive (futureRsyncAlign t') = false ->
       futureHsync t'
       = delay.mkEvent (hsyncDelay + 1) (Some NewScanline) true)) /\
  (settled t -> rsync_free ins ->
   (hsync t = 56 ->
    futureHsync t
    = delay.mkEvent (hsyncDelay + 1 - (pclk t + 2) mod 4)
                    (Some NewScanline) true) /\
   (forall rdys t',
       steps t (write "WSYNC" v :: ins) = Some (rdys, t') ->
       rdys = map (fun k => 227 - hpos t <=? Z.of_nat k)
                  (seq 0 (S (length ins))) /\
       hpos t' = (hpos t + 1 + len ins) mod 228)) /\
  (running t -> Forall (fun i => calm i = true) ins ->
   exists rdys t', steps t (write "WSYNC" v :: ins) = Some (rdys, t')).
Proof.
  intros Hw. split; [|split; [|split]].
  - intros rdys t' H. exact (rdys_after_wsync t v ins rdys t' Hw H).
  - intros rm pd rdy t' H.
    destruct (Step_wsync_anywhere t rm pd rdy t' H) as [R W].
    split; [exact R|]. split; [exact W|]. split.
    + intros Hd.
      destruct (Step_signal t rm pd rdy t' H) as (_ & _ & _ & _ & _ & _ & V).
      rewrite Hd in V. exact V.
    + exact (Step_new_scanline_booking t rm pd rdy t' H).
  - intros Hs Hfr.
    exact (wsync_release_settled t v ins (settled_timing_inv t Hs) Hw Hfr).
  - intros Hrun Hc.
    apply (write_steps_return_running t (write "WSYNC" v) ins Hrun eq_refl);
      [|exact Hc].
    apply (calm_service _ (write "WSYNC" v)). reflexivity.
Qed.

(** The release of WSYNC in a scanline that an RSYNC strobe restarted 81
    cycles earlier. *)
Lemma wsync_holds_until_new_scanline_witness :
  exists rdy0 t0 rdys0 t,
    Step NewTIA true (Some (mkChipData "RSYNC" 0)) = Some (rdy0, t0) /\
    steps t0 (repeat idle_input 80) = Some (rdys0, t) /\
    settled t /\ hpos t = 75 /\
    exists rdys t',
      steps t (write "WSYNC" 0 :: repeat idle_input 160) = Some (rdys, t') /\
      rdys = repeat false 152 ++ repeat true 9 /\
      hpos t' = 8.
Proof.
  destruct (Step NewTIA true (Some (mkChipData "RSYNC" 0)))
    as [[rdy0 t0]|] eqn:E0; [|vm_compute in E0; discriminate].
  assert (Hr0 : running t0)
    by exact (running_step NewTIA _ _ rdy0 t0 running_new E0).
  destruct (steps t0 (repeat idle_input 80))
    as [[rdys0 t]|] eqn:E;
    [|vm_compute in E0; injection E0 as _ <-; vm_compute in E; discriminate].
  exists rdy0, t0, rdys0, t. split; [reflexivity|]. split; [exact E|].
  assert (Hs : settled t).
  { apply (settled_run t0 (repeat idle_input 80) rdys0 t Hr0).
    - apply Forall_repeat. reflexivity.
    - vm_compute. discriminate.
    - exact E. }
  split; [exact Hs|].
  assert (Hp : hpos t = 75).
  { vm_compute in E0. injection E0 as _ <-.
    vm_compute in E. injection E as _ <-. reflexivity. }
  split; [exact Hp|].
  assert (Hins : Forall (fun i => is_wsync i = false) (repeat idle_input 160))
    by (apply Forall_repeat; reflexivity).
  destruct (wsync_holds_until_new_scanline t 0 (repeat idle_input 160) Hins)
    as (_ & _ & G & G3).
  destruct (G Hs) as (_ & G2);
    [apply Forall_repeat; reflexivity|].
  destruct G3 as (rdys & t' & Hrun);
    [exact (running_steps _ _ _ _ Hr0 E)|apply Forall_repeat; reflexivity|].
  exists rdys, t'. split; [exact Hrun|].
  destruct (G2 rdys t' Hrun) as [R P]. rewrite R, P, Hp.
  split; vm_compute; reflexivity.
Defined.

(** C2 as stated fails: WSYNC written one cycle after an RSYNC strobe holds
    RDY low for two cycles only, and WSYNC written three cycles after the
    strobe does not hold it at all; the alignment event of the strobe
    clears the flag, the hsync counter stands at 2, and no new-scanline
    event was ever booked on [futureHsync]. *)
Lemma rsync_releases_wsync :
  (exists t',
      steps NewTIA [write "RSYNC" 0; write "WSYNC" 0;
                    idle_input; idle_input; idle_input]
      = Some ([true; false; false; true; true], t') /\
      hsync t' = 2 /\ futureHsync t' = delay.idle) /\
  (exists t',
      steps NewTIA [write "RSYNC" 0; idle_input; idle_input;
                    write "WSYNC" 0; idle_input; idle_input]
      = Some ([true; true; true; true; true; true], t') /\
      hsync t' = 2 /\ futureHsync t' = delay.idle).
Proof. split; eexists; vm_compute; repeat split; reflexivity. Qed.

(** The run that follows a write to HMOVE in a settled scanline. *)
Lemma hmove_run_settled (t : TIA) (v : Z) (ins : list input) :
  timing_inv t ->
  Forall (fun i => is_hmove i = false) ins -> rsync_free ins ->
  let p := phaseclock.Count (pclk t) in
  let d := hmove_delay p in
  let k := Z.of_nat (length ins) in
  0 <= p <= 3 /\
  (forall rdys t',
      steps t (write "HMOVE" v :: ins) = Some (rdys, t') ->
      phaseclock.Count (pclk t') = (p + 1 + k) mod 4 /\
      (k = d -> HmoveLatch t' = negb (hpos t' =? 0)) /\
      (d + 3 <= k ->
       let seen := phi2_count (p + d + 3) (Z.to_nat (k - (d + 3) + 1)) in
       HmoveCt t' = if (seen <=? 15)%nat then 15 - Z.of_nat seen else 0xff)).
Proof.
  intros Hi Hh Hfr p d k. pose proof Hi as (_ & Hp & _).
  split; [exact Hp|].
  - intros rdys t' H.
    assert (Hf : Forall (fun i => is_rsync i = false /\ is_hmove i = false) ins).
    { apply Forall_forall. intros i Hin. split.
      - exact (proj1 (Forall_forall _ _) Hfr i Hin).
      - exact (proj1 (Forall_forall _ _) Hh i Hin). }
    destruct (hmove_run_any t v Hi ins rdys t' Hf H) as (_ & A).
    unfold after_hmove in A. destruct A as (A1 & _ & _ & A4 & A5).
    split; [exact A1|]. split; [exact A5|].
    intros Hk. cbv zeta. rewrite <- countdown_15. exact (A4 Hk).
Qed.




(** X15.  A write to VBLANK shows one video cycle late: the cycle of the
    write leaves the VBLANK signal and the two VBLANK bits as they were,
    and the next cycle, whatever it hands to the TIA, sets the signal to
    bit 1 of the value written, the paddle-ground bit to bit 7 and the
    fire-button latch bit to bit 6.  A write to VSYNC shows in the cycle of
    the write. *)
Theorem vblank_write_delayed (t : TIA) (v : Z) rdy1 (t1 : TIA) :
  Step t true (Some (mkChipData "VBLANK" v)) = Some (rdy1, t1) ->
  VBlank (sig t1) = VBlank (sig t) /\ vblankBits t1 = vblankBits t /\
  futureVblank t1 = delay.mkEvent 1 (Some v) true /\
  (forall rm pd rdy2 t2,
      Step t1 rm pd = Some (rdy2, t2) ->
      VBlank (sig t2) = (Z.land v 0x02 =? 0x02) /\
      groundPaddles (vblankBits t2) = (Z.land v 0x80 =? 0x80) /\
      latchFireButton (vblankBits t2) = (Z.land v 0x40 =? 0x40) /\
      futureVblank t2 = delay.mkEvent 0 (Some v) false) /\
  (forall w rdy t',
      Step t true (Some (mkChipData "VSYNC" w)) = Some (rdy, t') ->
      VSync (sig t') = (Z.land w 0x02 =? 0x02) /\
      VBlank (sig t') = match fires (futureVblank t) with
                        | Some u => Z.land u 0x02 =? 0x02
                        | None => VBlank (sig t)
                        end).
Proof.
  intros H1.
  destruct (Step_signal t _ _ rdy1 t1 H1) as (A1 & A2 & _ & A4 & _).
  cbn in A1, A2, A4.
  split; [exact A4|]. split; [exact A2|]. split; [exact A1|]. split.
  - intros rm pd rdy2 t2 H2.
    destruct (Step_signal t1 rm pd rdy2 t2 H2) as (B1 & B2 & _ & B4 & _).
    cbv zeta in B1, B2, B4.
    destruct (written "VBLANK" (rm, pd)) as [u|] eqn:Ew.
    + (* a second write finds the slot pending *)
      exfalso. unfold written in Ew.
      destruct rm; [|discriminate]. destruct pd as [d|]; [|discriminate].
      destruct (String.eqb (Name d) "VBLANK") eqn:En; [|discriminate].
      apply String.eqb_eq in En.
      unfold Step, UpdateTIA, schedule_slot, delay.Schedule in H2.
      rewrite En in H2. cbn in H2. rewrite A1 in H2. discriminate H2.
    + rewrite A1 in B1, B2, B4. cbn in B1, B2, B4.
      rewrite B2. repeat split; assumption.
  - intros w rdy t' H.
    destruct (Step_signal t _ _ rdy t' H) as (_ & _ & K3 & K4 & _).
    cbn in K3, K4. split; assumption.
Qed.

Lemma vblank_write_delayed_witness :
  exists rdy1 t1 rdy2 t2,
    Step NewTIA true (Some (mkChipData "VBLANK" 0xc2)) = Some (rdy1, t1) /\
    Step t1 true None = Some (rdy2, t2) /\
    VBlank (sig t1) = false /\ VBlank (sig t2) = true /\
    vblankBits t2 = mkVBlankBits true true.
Proof.
  destruct (Step NewTIA true (Some (mkChipData "VBLANK" 0xc2)))
    as [[rdy1 t1]|] eqn:E1; [|vm_compute in E1; discriminate].
  destruct (Step t1 true None) as [[rdy2 t2]|] eqn:E2;
    [|vm_compute in E1; injection E1 as _ <-; vm_compute in E2; discriminate].
  exists rdy1, t1, rdy2, t2. split; [reflexivity|]. split; [exact E2|].
  destruct (vblank_write_delayed NewTIA 0xc2 rdy1 t1 E1) as (A1 & _ & _ & A4 & _).
  destruct (A4 true None rdy2 t2 E2) as (B1 & B2 & B3 & _).
  split; [rewrite A1; reflexivity|]. split; [rewrite B1; reflexivity|].
  destruct (vblankBits t2) as [g l]. cbn in B2, B3. rewrite B2, B3. reflexivity.
Defined.

(** X16.  An RSYNC strobe settles: from whatever state the TIA has reached,
    75 video cycles without an RSYNC strobe bring the scanline back in
    step, with HBLANK on up to colour clock 67 and off from colour clock
    76, and from there every cycle without a strobe moves one colour clock
    on, modulo 228, and cycles that book no event all return. *)
Theorem rsync_settles (t0 : TIA) (ins : list input) rdys (t : TIA) :
  running t0 -> rsync_free ins -> 75 <= len ins ->
  steps t0 ins = Some (rdys, t) ->
  0 <= hpos t <= 227 /\
  (hpos t <= 67 -> Hblank t = true) /\ (76 <= hpos t -> Hblank t = false) /\
  (forall more rdys' t',
      rsync_free more -> steps t more = Some (rdys', t') ->
      hpos t' = (hpos t + len more) mod 228) /\
  (forall more, Forall (fun i => calm i = true) more ->
                exists rdys' t', steps t more = Some (rdys', t')).
Proof.
  intros Hrun Hf Hlen H.
  pose proof (settled_timing_inv t (settled_run t0 ins rdys t Hrun Hf Hlen H))
    as Hi.
  split; [exact (hpos_range t Hi)|].
  destruct (Hblank_outside_window t Hi) as [B1 B2].
  split; [exact B1|]. split; [exact B2|]. split.
  - intros more rdys' t' Hm Hs. exact (proj2 (hpos_steps more t rdys' t' Hi Hm Hs)).
  - intros more Hc. exact (calm_steps_return more t Hi Hc).
Qed.

Lemma rsync_settles_witness :
  exists rdys t,
    steps NewTIA (repeat idle_input 62 ++ write "RSYNC" 0 :: repeat idle_input 8)
    = Some (rdys, t) /\
    hpos t = 3 /\ Hblank t = false /\
    exists rdys' t',
      steps t (repeat idle_input 228) = Some (rdys', t') /\
      hpos t' = 3 /\ Hblank t' = true.
Proof.
  destruct (steps NewTIA (repeat idle_input 62 ++ write "RSYNC" 0 :: repeat idle_input 8))
    as [[rdys t]|] eqn:E; [|vm_compute in E; discriminate].
  exists rdys, t. split; [reflexivity|].
  pose proof (running_steps _ _ _ _ running_new E) as R.
  assert (Ht : hpos t = 3 /\ Hblank t = false)
    by (vm_compute in E; injection E as _ <-; split; reflexivity).
  destruct Ht as [Hp Hb]. split; [exact Hp|]. split; [exact Hb|].
  destruct (steps t (repeat idle_input 228)) as [[rdys' t']|] eqn:E';
    [|vm_compute in E; injection E as _ <-; vm_compute in E'; discriminate].
  exists rdys', t'. split; [reflexivity|].
  destruct (rsync_settles t (repeat idle_input 228) rdys' t' R)
    as (_ & G2 & _);
    [apply Forall_repeat; reflexivity|vm_compute; discriminate|exact E'|].
  assert (Hp' : hpos t' = 3)
    by (vm_compute in E; injection E as _ <-;
        vm_compute in E'; injection E' as _ <-; reflexivity).
  split; [exact Hp'|]. apply G2. lia.
Defined.

(** The cycles after an RSYNC strobe, up to the reset of the counters. *)
Lemma transit_run (ins : list input) : forall (k : Z) (t : TIA) rdys (t' : TIA),
  transit k t -> 0 <= k -> k + len ins <= 6 ->
  steps t ins = Some (rdys, t') ->
  transit (k + len ins) t'.
Proof.
  unfold len.
  induction ins as [|[rm pd] ins IH]; intros k t rdys t' Ht Hk Hlen H.
  - injection H as _ <-. cbn [length]. rewrite Z.add_0_r. exact Ht.
  - apply steps_cons in H. destruct H as (rdy & t1 & rest & H1 & H2 & _).
    cbn [fst snd] in H1. cbn [length] in Hlen |- *.
    replace (k + Z.of_nat (S (length ins))) with (k + 1 + Z.of_nat (length ins))
      by lia.
    apply (IH (k + 1) t1 rest t'); try lia; [|exact H2].
    apply (transit_Step k t rm pd rdy t1); auto. lia.
Qed.

(** X17.  An RSYNC strobe in a settled scanline, cycle by cycle: the cycle
    of the strobe puts the phase clock on Phi2 and so ticks the hsync
    counter at once; the third cycle after it runs [newScanline], which
    clears the WSYNC flag and restarts the cycle count of the scanline; the
    seventh resets the hsync counter and the phase clock, which leaves the
    TIA at colour clock 2 with both RSYNC events fired; and a second strobe
    in any of these seven cycles panics. *)
Theorem rsync_strobe_timeline (t : TIA) (v : Z) rdy0 (t0 : TIA) :
  settled t ->
  Step t true (Some (mkChipData "RSYNC" v)) = Some (rdy0, t0) ->
  pclk t0 = 2 /\
  hsync t0 = (if hsync t + 1 =? 57 then 0 else hsync t + 1) /\
  (forall ins rdys t',
      steps t0 ins = Some (rdys, t') ->
      (len ins <= 6 ->
       forall w, Step t' true (Some (mkChipData "RSYNC" w)) = None) /\
      (len ins = 3 -> wsync t' = false /\ videoCycles t' = 0) /\
      (len ins = 7 ->
       hsync t' = 0 /\ pclk t' = 0 /\ hpos t' = 2 /\
       quiet (futureRsyncAlign t') /\ quiet (futureRsyncReset t'))).
Proof.
  intros Hs H.
  pose proof (timing_weak t (settled_timing_inv t Hs)) as Hw.
  pose proof (weak_rsync t true (Some (mkChipData "RSYNC" v)) rdy0 t0 Hw
                eq_refl H) as T0.
  destruct Hw as (Hh & _).
  destruct (Step_counters t _ _ rdy0 t0 H) as (_ & _ & K3 & K4 & _).
  change (is_rsync (true, Some (mkChipData "RSYNC" v))) with true in K3, K4.
  cbv zeta in K4. unfold fires in K3, K4.
  cbn [delay.remainingCycles] in K3, K4.
  change (8 =? 1) with false in K3, K4. cbv iota in K3, K4.
  change ((1 + 1) mod 4) with 2 in K3. rewrite K3 in K4.
  change (phaseclock.Phi2 2) with true in K4. cbv iota in K4.
  rewrite (polycounter_Tick_line _ Hh) in K4.
  split; [exact K3|]. split; [exact K4|].
  intros ins rdys t' Hrun. split; [|split].
  - intros Hlen w.
    pose proof (transit_run ins 0 t0 rdys t' T0 ltac:(lia) ltac:(lia) Hrun)
      as (_ & T2 & _).
    apply rsync_pending_panics; [reflexivity|].
    rewrite T2. cbn. apply orb_true_r.
  - intros Hlen.
    assert (Hn : length ins = 3%nat) by (unfold len in Hlen; lia).
    destruct ins as [|i1 [|i2 [|[rm pd] [|]]]]; try discriminate Hn.
    change [i1; i2; (rm, pd)] with ([i1; i2] ++ [(rm, pd)]) in Hrun.
    rewrite steps_app in Hrun.
    destruct (steps t0 [i1; i2]) as [[r2 t2]|] eqn:E2; [|discriminate].
    cbn [steps] in Hrun.
    destruct (Step t2 rm pd) as [[rdy t3]|] eqn:E3; [|discriminate].
    injection Hrun as _ <-.
    pose proof (transit_run [i1; i2] 0 t0 r2 t2 T0 ltac:(lia)
                  ltac:(unfold len; cbn; lia) E2) as T.
    pose proof (transit_no_rsync _ t2 rm pd rdy t3 T E3) as Hr.
    destruct T as (T1 & _).
    assert (Hd : new_scanline_due t2 (rm, pd) = true).
    { unfold new_scanline_due. rewrite Hr, T1. cbn.
      apply orb_true_r. }
    destruct (Step_wsync_anywhere t2 rm pd rdy t3 E3) as [_ W].
    destruct (Step_signal t2 rm pd rdy t3 E3) as (_ & _ & _ & _ & _ & _ & V).
    rewrite Hd in W, V. split; assumption.
  - intros Hlen.
    assert (Hn : length ins = 7%nat) by (unfold len in Hlen; lia).
    assert (Hsplit : ins = take 6 ins ++ drop 6 ins)
      by (symmetry; apply take_drop).
    destruct (drop 6 ins) as [|[rm pd] [|]] eqn:Ed;
      try (apply (f_equal length) in Ed; rewrite length_drop, Hn in Ed;
           discriminate Ed).
    rewrite Hsplit, steps_app in Hrun.
    destruct (steps t0 (take 6 ins)) as [[r6 t6]|] eqn:E6; [|discriminate].
    cbn [steps] in Hrun.
    destruct (Step t6 rm pd) as [[rdy t7]|] eqn:E7; [|discriminate].
    injection Hrun as _ <-.
    pose proof (transit_run (take 6 ins) 0 t0 r6 t6 T0 ltac:(lia)
                  ltac:(unfold len; rewrite length_take, Hn; cbn; lia) E6) as T.
    replace (0 + len (take 6 ins)) with 6 in T
      by (unfold len; rewrite length_take, Hn; reflexivity).
    destruct (transit_end t6 rm pd rdy t7 T E7) as ((_ & _ & Q1 & Q2 & _) & Z1 & Z2).
    split; [exact Z1|]. split; [exact Z2|].
    split; [unfold hpos, polycounter.Count, phaseclock.Count;
            rewrite Z1, Z2; reflexivity|].
    split; assumption.
Qed.

Lemma rsync_strobe_timeline_witness :
  exists rdy0 t0 rdys t',
    Step NewTIA true (Some (mkChipData "RSYNC" 0)) = Some (rdy0, t0) /\
    steps t0 (repeat idle_input 7) = Some (rdys, t') /\
    pclk t0 = 2 /\ hsync t0 = 1 /\ hpos t' = 2.
Proof.
  destruct (Step NewTIA true (Some (mkChipData "RSYNC" 0)))
    as [[rdy0 t0]|] eqn:E0; [|vm_compute in E0; discriminate].
  destruct (steps t0 (repeat idle_input 7)) as [[rdys t']|] eqn:E;
    [|vm_compute in E0; injection E0 as _ <-; vm_compute in E; discriminate].
  exists rdy0, t0, rdys, t'. split; [reflexivity|]. split; [exact E|].
  destruct (rsync_strobe_timeline NewTIA 0 rdy0 t0
              (settled_reachable _ reachable_new) E0) as (A1 & A2 & A3).
  split; [exact A1|]. split; [exact A2|].
  destruct (A3 _ rdys t' E) as (_ & _ & A4).
  exact (proj1 (proj2 (proj2 (A4 eq_refl)))).
Defined.

End TIAFacts.

(** ** Delayed actions of the video package *)

Section FutureFacts.
Import Video.
Context {A : Type}.

Lemma ticks_pending (n : nat) : forall (r : Z) (lbl : string) (p : option A),
  Z.of_nat n < r ->
  ticks n (mkFuture lbl r p true)
  = (repeat false n, mkFuture lbl (r - Z.of_nat n) p true).
Proof.
  induction n as [|n IH]; intros r lbl p Hr.
  - cbn [ticks repeat Z.of_nat]. rewrite Z.sub_0_r. reflexivity.
  - cbn [ticks]. unfold tick at 1.
    cbn [remainingCycles label payload unresolved].
    replace (r =? 1) with false by lia. replace (r >? 0) with true by lia.
    rewrite IH by lia. cbn [repeat]. do 2 f_equal. lia.
Qed.

Lemma ticks_resolved (n : nat) (fut : future A) :
  remainingCycles fut <= 0 ->
  ticks n fut = (repeat false n, fut).
Proof.
  intros Hr. induction n as [|n IH]; [reflexivity|].
  cbn [ticks]. unfold tick at 1.
  replace (remainingCycles fut =? 1) with false by lia.
  replace (remainingCycles fut >? 0) with false by lia.
  rewrite IH. reflexivity.
Qed.

Lemma ticks_add (n m : nat) (fut : future A) :
  ticks (n + m) fut
  = (fst (ticks n fut) ++ fst (ticks m (snd (ticks n fut))),
     snd (ticks m (snd (ticks n fut)))).
Proof.
  revert fut. induction n as [|n IH]; intros fut.
  - cbn [Nat.add ticks fst snd app]. destruct (ticks m fut); reflexivity.
  - cbn [Nat.add ticks]. destruct (tick fut) as [b fut'].
    rewrite IH. destruct (ticks n fut') as [bs fut''].
    cbn [fst snd]. destruct (ticks m fut''). reflexivity.
Qed.


(** X19.  An action scheduled a negative number of cycles ahead never
    happens and blocks the counter: no tick ever returns true, the counter
    stays unresolved although it is not scheduled, and every further
    schedule panics. *)
Theorem future_negative_wedges (fut fut1 : future A) (cycles : Z) (p : A)
        (lbl : string) (n : nat) :
  cycles < 0 ->
  schedule fut cycles p lbl = Some fut1 ->
  ticks n fut1 = (repeat false n, fut1) /\
  isScheduled fut1 = false /\ unresolved fut1 = true /\
  forall c q l, schedule (snd (ticks n fut1)) c q l = None.
Proof.
  intros Hc Hs. unfold schedule in Hs.
  destruct (unresolved fut); [discriminate|]. injection Hs as <-.
  rewrite ticks_resolved by (cbn [remainingCycles]; lia).
  split; [reflexivity|]. split; [unfold isScheduled; cbn; lia|].
  split; reflexivity.
Qed.

End FutureFacts.


Lemma future_negative_wedges_witness :
  Video.ticks 3 (Video.mkFuture "late" 0 (Some 7) true)
  = ([false; false; false], Video.mkFuture "late" 0 (Some 7) true) /\
  Video.schedule (Video.mkFuture "late" 0 (Some 7) true) 2 8 "next" = None.
Proof.
  destruct (future_negative_wedges (A := Z) Video.zero _ (-1) 7 "late" 3 ltac:(lia) eq_refl)
    as (H1 & _ & _ & H4).
  split; [exact H1|]. rewrite H1 in H4. exact (H4 2 8 "next"%string).
Defined.

(** ** The orchestrator *)

Section OrchestratorFacts.
Import VCS.

Variable Machine : Type.
Variables riotRead riotStep tiaRead : Machine -> Machine.
Variable tiaStep : Machine -> bool * Machine.
Variable videoCycleCallback : Machine -> Machine.
Variable cpuCycle : bool -> Machine -> errno + (Machine * bool).

Local Abbreviation cycleVCS :=
  (cycleVCS Machine riotRead riotStep tiaRead tiaStep videoCycleCallback).
Local Abbreviation cycles :=
  (cycles Machine riotRead riotStep tiaRead tiaStep videoCycleCallback).
Local Abbreviation untilReady :=
  (untilReady Machine riotRead riotStep tiaRead tiaStep videoCycleCallback).
Local Abbreviation ExecuteInstruction := (ExecuteInstruction Machine cpuCycle).
Local Abbreviation Step :=
  (Step Machine riotRead riotStep tiaRead tiaStep videoCycleCallback cpuCycle).
Local Abbreviation VCS := (VCS Machine).

Lemma on_machine_trace (f : Machine -> Machine) (o : op) (v : VCS) :
  trace _ (on_machine _ f o v) = trace _ v ++ [o].
Proof. reflexivity. Qed.

Lemma on_machine_cpuCycles (f : Machine -> Machine) (o : op) (v : VCS) :
  cpuCycles _ (on_machine _ f o v) = cpuCycles _ v.
Proof. reflexivity. Qed.

Lemma stepVideoCycle_trace (v : VCS) :
  trace _ (stepVideoCycle _ tiaStep v) = trace _ v ++ [StepVideoCycle].
Proof. unfold stepVideoCycle. destruct (tiaStep _). reflexivity. Qed.

Lemma stepVideoCycle_cpuCycles (v : VCS) :
  cpuCycles _ (stepVideoCycle _ tiaStep v) = cpuCycles _ v.
Proof. unfold stepVideoCycle. destruct (tiaStep _). reflexivity. Qed.

(** One CPU cycle: the RIOT once, then the TIA three times, in this order. *)
Lemma cycleVCS_trace (v : VCS) :
  trace _ (cycleVCS v) = trace _ v ++ cycle_ops /\
  cpuCycles _ (cycleVCS v) = cpuCycles _ v + 1.
Proof.
  unfold VCS.cycleVCS. cbv zeta. split.
  - repeat (rewrite on_machine_trace || rewrite stepVideoCycle_trace).
    cbn [trace]. rewrite <- !app_assoc. reflexivity.
  - repeat (rewrite on_machine_cpuCycles || rewrite stepVideoCycle_cpuCycles).
    reflexivity.
Qed.

Lemma cycles_trace (n : nat) : forall v : VCS,
  trace _ (cycles n v) = trace _ v ++ concat (repeat cycle_ops n) /\
  cpuCycles _ (cycles n v) = cpuCycles _ v + Z.of_nat n.
Proof.
  induction n as [|n IH]; intros v.
  - cbn [VCS.cycles repeat concat]. rewrite app_nil_r. split; [reflexivity|lia].
  - cbn [VCS.cycles repeat concat].
    destruct (IH (cycleVCS v)) as [Ht Hc].
    destruct (cycleVCS_trace v) as [Ht1 Hc1].
    rewrite Ht, Hc, Ht1, Hc1, <- app_assoc. split; [reflexivity|lia].
Qed.

Lemma cycles_add (a b : nat) (v : VCS) :
  cycles (a + b) v = cycles b (cycles a v).
Proof. revert v. induction a as [|a IH]; intros v; [reflexivity|]. apply IH. Qed.

(** The CPU's instruction adds whole cycles to the trace, one per bus
    cycle. *)
Lemma ExecuteInstruction_trace (fuel : nat) : forall (v v' : VCS) e,
  ExecuteInstruction fuel cycleVCS v = Some (e, v') ->
  exists n : nat,
    trace _ v' = trace _ v ++ concat (repeat cycle_ops n) /\
    cpuCycles _ v' = cpuCycles _ v + Z.of_nat n.
Proof.
  induction fuel as [|fuel IH]; intros v v' e H; [discriminate|].
  cbn [VCS.ExecuteInstruction] in H.
  destruct (cpuCycle (RdyFlg _ v) (machine _ v)) as [err|[m final]].
  - injection H as <- <-. exists 0%nat. cbn [repeat concat].
    rewrite app_nil_r. split; [reflexivity|lia].
  - destruct (cycleVCS_trace
                (mkVCS _ m (RdyFlg _ v) (trace _ v) (cpuCycles _ v)))
      as [Ht1 Hc1].
    revert H Ht1 Hc1. generalize (cycleVCS
                (mkVCS _ m (RdyFlg _ v) (trace _ v) (cpuCycles _ v))).
    intros v1 H Ht1 Hc1. cbn [trace cpuCycles] in Ht1, Hc1.
    destruct final.
    + injection H as <- <-. exists 1%nat. cbn [repeat concat].
      rewrite app_nil_r. split; [exact Ht1|lia].
    + destruct (IH _ _ _ H) as (n & Ht & Hc). exists (S n).
      rewrite Ht, Hc, Ht1, Hc1, <- app_assoc. cbn [repeat concat].
      split; [reflexivity|lia].
Qed.

(** The loop after the instruction runs whole cycles, and stops at the
    first one that leaves RDY true. *)
Lemma untilReady_spec (fuel : nat) : forall v v' : VCS,
  untilReady fuel v = Some v' ->
  exists k : nat,
    (k <= fuel)%nat /\ v' = cycles k v /\ RdyFlg _ v' = true /\
    forall j, (j < k)%nat -> RdyFlg _ (cycles j v) = false.
Proof.
  induction fuel as [|fuel IH]; intros v v' H; cbn [VCS.untilReady] in H.
  - destruct (RdyFlg _ v) eqn:R; [|destruct (RdyFlg _ v); discriminate].
    injection H as <-. exists 0%nat. repeat split; auto. intros j Hj. lia.
  - destruct (RdyFlg _ v) eqn:R.
    + injection H as <-. exists 0%nat. repeat split; auto; [lia|].
      intros j Hj. lia.
    + destruct (IH _ _ H) as (k & Hk & Hv & Hr & Hlow).
      exists (S k). repeat split; auto; [lia|].
      intros [|j] Hj; [exact R|]. apply Hlow. lia.
Qed.

Lemma untilReady_returns (k : nat) : forall (fuel : nat) (v : VCS),
  RdyFlg _ (cycles k v) = true -> (k <= fuel)%nat ->
  exists v', untilReady fuel v = Some v'.
Proof.
  induction k as [|k IH]; intros fuel v Hr Hk.
  - cbn in Hr. destruct fuel; cbn; rewrite Hr; eauto.
  - destruct fuel as [|fuel]; [lia|]. cbn [VCS.untilReady].
    destruct (RdyFlg _ v); [eauto|]. apply IH; [exact Hr|lia].
Qed.


End OrchestratorFacts.

